(** * parser-pdf: the line parsers and category resolvers of the balancete
      extractor, embedded in Rocq.

    Python strings are lists of Unicode code points.  The character tables
    of the interpreter ([\d], [\w], [\s], [str.isalpha], [str.upper], ...)
    are an interface, [Unicode], whose laws fix the tables on Latin-1;
    [latin1] is the instance used to run the parsers on concrete lines.
    Regular expressions are terms of [Re.re], run by a backtracking matcher
    with the semantics of Python's [re] module.  Operations that can raise
    in Python (indexing, a method call on [None], a division) live in the
    error monad [py]. *)

From Stdlib Require Import String Ascii DecimalString NArith ZArith QArith Qabs Bool Arith Lia List.
Import ListNotations.

Set Implicit Arguments.
Local Open Scope nat_scope.

(* ===================================================================== *)
(** * Characters and string literals                                       *)
(* ===================================================================== *)

Definition char : Set := N.
Bind Scope N_scope with char.
Definition str : Set := list char.

Definition char_eqb (a b : char) : bool := N.eqb a b.

Fixpoint str_eqb (a b : str) : bool :=
  match a, b with
  | [], [] => true
  | x :: a', y :: b' => char_eqb x y && str_eqb a' b'
  | _, _ => false
  end.

(** Source literals are written as UTF-8 text and decoded to code points. *)
Fixpoint utf8_decode (bs : list N) : str :=
  match bs with
  | [] => []
  | b :: r =>
    if (b <? 128)%N then b :: utf8_decode r
    else match r with
         | [] => []
         | b2 :: r2 =>
           if (b <? 224)%N then ((b - 192) * 64 + (b2 - 128))%N :: utf8_decode r2
           else match r2 with
                | [] => []
                | b3 :: r3 =>
                  if (b <? 240)%N
                  then ((b - 224) * 4096 + (b2 - 128) * 64 + (b3 - 128))%N :: utf8_decode r3
                  else match r3 with
                       | [] => []
                       | b4 :: r4 =>
                         ((b - 240) * 262144 + (b2 - 128) * 4096
                          + (b3 - 128) * 64 + (b4 - 128))%N :: utf8_decode r4
                       end
                end
         end
  end.

Definition u (s : string) : str :=
  utf8_decode (map N_of_ascii (list_ascii_of_string s)).

Definition ch (s : string) : char :=
  match u s with c :: _ => c | [] => 0%N end.

Definition in_range (lo hi c : char) : bool := ((lo <=? c) && (c <=? hi))%N.

(* ===================================================================== *)
(** * The interpreter's character tables                                   *)
(* ===================================================================== *)

Definition latin1_decimal (c : char) : bool := in_range 48 57 c.
Definition latin1_space (c : char) : bool :=
  in_range 9 13 c || in_range 28 32 c || (c =? 133)%N || (c =? 160)%N.
Definition latin1_alpha (c : char) : bool :=
  in_range 65 90 c || in_range 97 122 c || (c =? 170)%N || (c =? 181)%N
  || (c =? 186)%N || in_range 192 214 c || in_range 216 246 c || in_range 248 255 c.
Definition latin1_digit (c : char) : bool :=
  in_range 48 57 c || in_range 178 179 c || (c =? 185)%N.
Definition latin1_word (c : char) : bool :=
  latin1_alpha c || latin1_digit c || in_range 188 190 c || (c =? 95)%N.
Definition latin1_upper (c : char) : bool :=
  in_range 65 90 c || in_range 192 214 c || in_range 216 222 c.
Definition latin1_lower (c : char) : bool :=
  in_range 97 122 c || (c =? 170)%N || (c =? 181)%N || (c =? 186)%N
  || in_range 223 246 c || in_range 248 255 c.
Definition latin1_to_upper (c : char) : list char :=
  if in_range 97 122 c || in_range 224 246 c || in_range 248 254 c then [(c - 32)%N]
  else if (c =? 181)%N then [924%N]
  else if (c =? 223)%N then [83%N; 83%N]
  else if (c =? 255)%N then [376%N]
  else [c].

(** What the parsers use of Unicode.  The laws state the tables on the
    code points below 256 and two facts that hold on all of Unicode. *)
Class Unicode : Type := {
  is_decimal : char -> bool;          (* re: \d *)
  is_space : char -> bool;            (* re: \s; str.split, str.strip *)
  is_word : char -> bool;             (* re: \w, \b *)
  is_alpha : char -> bool;            (* str.isalpha *)
  is_digit : char -> bool;            (* str.isdigit *)
  is_upper_char : char -> bool;       (* cased, upper case *)
  is_lower_char : char -> bool;       (* cased, lower case *)
  is_title_char : char -> bool;       (* cased, title case *)
  to_upper : char -> list char;       (* str.upper, one character *)
  decimal_latin1 : forall c, (c < 256)%N -> is_decimal c = latin1_decimal c;
  space_latin1 : forall c, (c < 256)%N -> is_space c = latin1_space c;
  word_latin1 : forall c, (c < 256)%N -> is_word c = latin1_word c;
  alpha_latin1 : forall c, (c < 256)%N -> is_alpha c = latin1_alpha c;
  digit_latin1 : forall c, (c < 256)%N -> is_digit c = latin1_digit c;
  upper_latin1 : forall c, (c < 256)%N -> is_upper_char c = latin1_upper c;
  lower_latin1 : forall c, (c < 256)%N -> is_lower_char c = latin1_lower c;
  title_latin1 : forall c, (c < 256)%N -> is_title_char c = false;
  to_upper_latin1 : forall c, (c < 256)%N -> to_upper c = latin1_to_upper c;
  space_not_decimal : forall c, is_space c = true -> is_decimal c = false;
  space_not_word : forall c, is_space c = true -> is_word c = false;
  decimal_is_word : forall c, is_decimal c = true -> is_word c = true
}.

Definition below256 (f : char -> bool) (c : char) : bool := (c <? 256)%N && f c.

(* ===================================================================== *)
(** * Exceptions                                                           *)
(* ===================================================================== *)

(** [OutOfFuel] is no Python exception: it marks a [while] loop of the model
    that did not end within its bound. *)
Inductive exn : Type := IndexError | AttributeError | ZeroDivisionError | OutOfFuel.

Inductive py (A : Type) : Type :=
| Ok (a : A)
| Raise (e : exn).
Arguments Ok {A} a.
Arguments Raise {A} e.

Definition bind {A B} (m : py A) (f : A -> py B) : py B :=
  match m with
  | Ok a => f a
  | Raise e => Raise e
  end.

Declare Scope py_scope.
Delimit Scope py_scope with py.
Notation "x <- m ;; k" := (bind m (fun x => k))
  (at level 61, m at next level, right associativity) : py_scope.
Local Open Scope py_scope.

(** [l[i]], negative indices counted from the end. *)
Definition getitem {A} (l : list A) (i : Z) : py A :=
  let n := Z.of_nat (length l) in
  let j := if (i <? 0)%Z then (i + n)%Z else i in
  if (j <? 0)%Z then Raise IndexError
  else match nth_error l (Z.to_nat j) with
       | Some a => Ok a
       | None => Raise IndexError
       end.

(** A method call on an [Optional] value: [None] has no attributes. *)
Definition attr {A B} (o : option A) (f : A -> B) : py B :=
  match o with
  | Some a => Ok (f a)
  | None => Raise AttributeError
  end.

(** [for x in l: acc = body x acc], where the body may raise. *)
Fixpoint for_each {A S} (l : list A) (body : A -> S -> py S) (acc : S) : py S :=
  match l with
  | [] => Ok acc
  | x :: l' => acc' <- body x acc ;; for_each l' body acc'
  end.

(* ===================================================================== *)
(** * Python's [str] methods                                               *)
(* ===================================================================== *)

(** Truthiness of a [str]: [""] is false. *)
Definition nonempty (t : str) : bool :=
  match t with
  | [] => false
  | _ => true
  end.

(** Truthiness of [Optional[str]]: [None] and [""] are false. *)
Definition truthy (o : option str) : bool :=
  match o with
  | Some (_ :: _) => true
  | _ => false
  end.

(** [x if x else None] *)
Definition or_none (o : option str) : option str :=
  if truthy o then o else None.

Fixpoint startswith (s p : str) : bool :=
  match p, s with
  | [], _ => true
  | y :: p', x :: s' => char_eqb x y && startswith s' p'
  | _ :: _, [] => false
  end.

(** [needle in hay] *)
Fixpoint contains (hay needle : str) : bool :=
  startswith hay needle ||
  match hay with
  | [] => false
  | _ :: hay' => contains hay' needle
  end.

Fixpoint count_char (c : char) (s : str) : nat :=
  match s with
  | [] => 0
  | x :: s' => (if char_eqb x c then 1 else 0) + count_char c s'
  end.

(** [s[a:b]] *)
Definition slice {A} (s : list A) (a b : nat) : list A := firstn (b - a) (skipn a s).

(** [s.replace(old, new)] and [s.replace(old, new, count)].  With an empty
    [old], Python inserts [new] before every character and at the end. *)
Fixpoint replace_go (fuel : nat) (old new : str) (count : option nat) (s : str) : str :=
  match fuel with
  | 0 => s
  | S fuel' =>
    match count with
    | Some 0 => s
    | _ =>
      let count' := option_map pred count in
      match old with
      | [] =>
        match s with
        | [] => new
        | x :: s' => new ++ x :: replace_go fuel' old new count' s'
        end
      | _ :: _ =>
        if startswith s old
        then new ++ replace_go fuel' old new count' (skipn (length old) s)
        else match s with
             | [] => []
             | x :: s' => x :: replace_go fuel' old new count s'
             end
      end
    end
  end.

Definition replace (s old new : str) : str :=
  replace_go (S (length s)) old new None s.

Definition replace_n (s old new : str) (count : nat) : str :=
  replace_go (S (length s)) old new (Some count) s.

Definition join (sep : str) (ws : list str) : str :=
  match ws with
  | [] => []
  | w :: ws' => w ++ flat_map (fun x => sep ++ x) ws'
  end.

(** [s.split(c)] for a one-character separator. *)
Fixpoint split_on (c : char) (s : str) : list str :=
  match s with
  | [] => [[]]
  | x :: s' =>
    if char_eqb x c then [] :: split_on c s'
    else match split_on c s' with
         | w :: ws => (x :: w) :: ws
         | [] => [[x]]
         end
  end.

Section Strings.
Context {U : Unicode}.

Definition upper (s : str) : str := flat_map to_upper s.

(** [s.isupper()]: no lower or title case character and at least one
    upper case character. *)
Definition isupper (s : str) : bool :=
  negb (existsb (fun c => is_lower_char c || is_title_char c) s)
  && existsb is_upper_char s.

Fixpoint lstrip (s : str) : str :=
  match s with
  | [] => []
  | x :: s' => if is_space x then lstrip s' else s
  end.

Definition rstrip (s : str) : str := rev (lstrip (rev s)).

Definition strip (s : str) : str := rstrip (lstrip s).

(** [s.split()]: the maximal runs of non-space characters. *)
Fixpoint split_ws_go (cur : str) (s : str) : list str :=
  match s with
  | [] => match cur with [] => [] | _ => [rev cur] end
  | x :: s' =>
    if is_space x
    then match cur with
         | [] => split_ws_go [] s'
         | _ => rev cur :: split_ws_go [] s'
         end
    else split_ws_go (x :: cur) s'
  end.

Definition split_ws (s : str) : list str := split_ws_go [] s.

End Strings.

(* ===================================================================== *)
(** * Regular expressions: Python's [re] on [str]                          *)
(* ===================================================================== *)

Module Re.

Inductive cls : Set := Digit | Word | Space.          (* \d  \w  \s *)

Inductive item : Set :=
| One (c : char)
| Range (lo hi : char)
| Cls (k : cls).

Inductive re : Set :=
| Empty
| Lit (c : char)
| Dot                                    (* any character but newline *)
| OneOf (items : list item)                 (* [...] *)
| NoneOf (items : list item)              (* [^...] *)
| Seq (a b : re)
| Alt (a b : re)
| Repeat (lo : nat) (hi : option nat) (greedy : bool) (r : re)
| Group (i : nat) (r : re)               (* the i-th capturing group *)
| Bol                                    (* ^ *)
| Eol                                    (* $ *)
| WordB                                  (* \b *)
| NotAhead (r : re).                     (* (?!r) *)

Definition cat (rs : list re) : re := fold_right Seq Empty rs.
Definition lits (s : string) : re := cat (map Lit (u s)).
Definition alts (r : re) (rs : list re) : re := fold_left Alt rs r.
Definition plus (r : re) : re := Repeat 1 None true r.
Definition star (r : re) : re := Repeat 0 None true r.
Definition opt (r : re) : re := Repeat 0 (Some 1) true r.
Definition times (n : nat) (r : re) : re := Repeat n (Some n) true r.
Definition between (lo hi : nat) (r : re) : re := Repeat lo (Some hi) true r.
Definition at_least (lo : nat) (r : re) : re := Repeat lo None true r.
Definition dig : re := OneOf [Cls Digit].
Definition spc : re := OneOf [Cls Space].

Fixpoint ngroups (r : re) : nat :=
  match r with
  | Seq a b | Alt a b => ngroups a + ngroups b
  | Repeat _ _ _ r' | NotAhead r' => ngroups r'
  | Group _ r' => S (ngroups r')
  | _ => 0
  end.

(** A position in the subject: its index, the character before it and the
    characters from it on. *)
Record cursor : Set := Cursor { pos : nat; prev : option char; rest : str }.

Definition groups : Set := list (nat * (nat * nat)).

Fixpoint span_of (i : nat) (g : groups) : option (nat * nat) :=
  match g with
  | [] => None
  | (j, sp) :: g' => if i =? j then Some sp else span_of i g'
  end.

Definition below (n : nat) (hi : option nat) : bool :=
  match hi with
  | Some h => n <? h
  | None => true
  end.

Definition or_else {R} (a : option R) (b : unit -> option R) : option R :=
  match a with
  | Some x => Some x
  | None => b tt
  end.

Section Matcher.
Context {U : Unicode}.

Definition in_cls (k : cls) (x : char) : bool :=
  match k with
  | Digit => is_decimal x
  | Word => is_word x
  | Space => is_space x
  end.

Definition item_has (x : char) (it : item) : bool :=
  match it with
  | One c => char_eqb x c
  | Range lo hi => in_range lo hi x
  | Cls k => in_cls k x
  end.

Definition set_has (items : list item) (x : char) : bool := existsb (item_has x) items.

Definition word_at (o : option char) : bool :=
  match o with
  | Some x => is_word x
  | None => false
  end.

Definition step {R} (ok : char -> bool) (k : cursor -> groups -> option R)
    (c : cursor) (g : groups) : option R :=
  match rest c with
  | x :: r => if ok x then k (Cursor (S (pos c)) (Some x) r) g else None
  | [] => None
  end.

(** The loop of a repetition.  [n] iterations are done; an iteration that
    consumes nothing ends the loop (every repeated body in the program
    consumes a character).  Each iteration moves the cursor, so the
    characters left bound the number of iterations. *)
Fixpoint rep_loop {R}
    (body : (cursor -> groups -> option R) -> cursor -> groups -> option R)
    (lo : nat) (hi : option nat) (greedy : bool)
    (k : cursor -> groups -> option R)
    (fuel n : nat) (c : cursor) (g : groups) : option R :=
  let stop := fun _ : unit => if lo <=? n then k c g else None in
  match fuel with
  | 0 => stop tt
  | S fuel' =>
    let again := fun _ : unit =>
      if below n hi
      then body (fun c' g' =>
                   if pos c' =? pos c then None
                   else rep_loop body lo hi greedy k fuel' (S n) c' g') c g
      else None in
    if greedy then or_else (again tt) stop else or_else (stop tt) again
  end.

(** [run r k c g]: match [r] at [c], then continue with [k]; the first
    success in Python's order of alternatives is returned. *)
Fixpoint run {R} (r : re) (k : cursor -> groups -> option R)
    (c : cursor) (g : groups) : option R :=
  match r with
  | Empty => k c g
  | Lit x => step (fun y => char_eqb y x) k c g
  | Dot => step (fun y => negb (char_eqb y 10)) k c g
  | OneOf items => step (set_has items) k c g
  | NoneOf items => step (fun y => negb (set_has items y)) k c g
  | Seq a b => run a (run b k) c g
  | Alt a b => or_else (run a k c g) (fun _ => run b k c g)
  | Repeat lo hi greedy r' =>
    rep_loop (run r') lo hi greedy k (length (rest c)) 0 c g
  | Group i r' => run r' (fun c' g' => k c' ((i, (pos c, pos c')) :: g')) c g
  | Bol => if pos c =? 0 then k c g else None
  | Eol => match rest c with
           | [] => k c g
           | [x] => if char_eqb x 10 then k c g else None
           | _ => None
           end
  | WordB => if xorb (word_at (prev c)) (word_at (hd_error (rest c))) then k c g else None
  | NotAhead r' =>
    match run r' (fun _ _ => Some tt) c g with
    | Some _ => None
    | None => k c g
    end
  end.

(** Match objects. *)
Record rmatch : Set := Match {
  subject : str;
  m_start : nat;
  m_end : nat;
  m_groups : groups
}.

Definition group0 (m : rmatch) : str := slice (subject m) (m_start m) (m_end m).

Definition group (m : rmatch) (i : nat) : option str :=
  match span_of i (m_groups m) with
  | Some (a, b) => Some (slice (subject m) a b)
  | None => None
  end.

(** [\i] in a replacement template: a group that took no part is empty. *)
Definition group_text (m : rmatch) (i : nat) : str :=
  match group m i with
  | Some t => t
  | None => []
  end.

Definition match_at (r : re) (subj : str) (c : cursor) : option rmatch :=
  run r (fun c' g' => Some (Match subj (pos c) (pos c') g')) c [].

(** The leftmost match starting at [c] or later. *)
Fixpoint search_from (r : re) (subj : str) (i : nat) (p : option char) (t : str)
    : option rmatch :=
  match match_at r subj (Cursor i p t) with
  | Some m => Some m
  | None =>
    match t with
    | [] => None
    | x :: t' => search_from r subj (S i) (Some x) t'
    end
  end.

Definition re_match (r : re) (subj : str) : option rmatch :=
  match_at r subj (Cursor 0 None subj).

Definition re_search (r : re) (subj : str) : option rmatch :=
  search_from r subj 0 None subj.

(** The successive non-overlapping matches.  After an empty match the scan
    moves one character on (no pattern of the program matches the empty
    string). *)
Fixpoint finditer_from (fuel : nat) (r : re) (subj : str)
    (i : nat) (p : option char) (t : str) : list rmatch :=
  match fuel with
  | 0 => []
  | S fuel' =>
    match search_from r subj i p t with
    | None => []
    | Some m =>
      let t' := skipn (m_end m) subj in
      let p' := match m_end m with
                | 0 => None
                | S j => nth_error subj j
                end in
      m :: (if m_end m =? m_start m
            then match t' with
                 | [] => []
                 | x :: t'' => finditer_from fuel' r subj (S (m_end m)) (Some x) t''
                 end
            else finditer_from fuel' r subj (m_end m) p' t')
    end
  end.

Definition re_finditer (r : re) (subj : str) : list rmatch :=
  finditer_from (S (length subj)) r subj 0 None subj.

(** [re.findall]: the whole matches, or the group when the pattern has one. *)
Definition re_findall (r : re) (subj : str) : list str :=
  map (fun m => match ngroups r with
                | 0 => group0 m
                | _ => group_text m 1
                end) (re_finditer r subj).

Fixpoint sub_build (subj : str) (from : nat) (repl : rmatch -> str)
    (ms : list rmatch) : str :=
  match ms with
  | [] => skipn from subj
  | m :: ms' =>
    slice subj from (m_start m) ++ repl m ++ sub_build subj (m_end m) repl ms'
  end.

(** [re.sub(r, repl, subj)] *)
Definition re_sub (r : re) (repl : rmatch -> str) (subj : str) : str :=
  sub_build subj 0 repl (re_finditer r subj).

(** [re.sub(r, repl, subj, count=n)] for [n > 0] *)
Definition re_sub_n (r : re) (repl : rmatch -> str) (subj : str) (n : nat) : str :=
  sub_build subj 0 repl (firstn n (re_finditer r subj)).

(** [re.split(r, subj)] for a pattern without groups. *)
Fixpoint split_build (subj : str) (from : nat) (ms : list rmatch) : list str :=
  match ms with
  | [] => [skipn from subj]
  | m :: ms' => slice subj from (m_start m) :: split_build subj (m_end m) ms'
  end.

Definition re_split (r : re) (subj : str) : list str :=
  split_build subj 0 (re_finditer r subj).

End Matcher.
End Re.


(* ===================================================================== *)
(** * The record every parser emits                                        *)
(* ===================================================================== *)

Record entry : Set := Entry {
  code : option str;
  classification : option str;
  account : str;
  previous_balance : option str;
  current_balance : option str;
  debit : option str;
  credit : option str;
  parent_category : option str
}.

Definition set_parent_category (e : entry) (p : option str) : entry :=
  Entry (code e) (classification e) (account e) (previous_balance e)
        (current_balance e) (debit e) (credit e) p.

(** [str(n)] for a natural number. *)
Definition str_of_nat (n : nat) : str :=
  u (DecimalString.NilEmpty.string_of_uint (Nat.to_uint n)).

(** [enumerate(l)] *)
Definition enumerate {A} (l : list A) : list (nat * A) := combine (seq 0 (length l)) l.


(* ===================================================================== *)
(** * Text that extract_pdf.py, extract_pdf_final.py and
      extract_pdf_v3.py hold in identical copies                           *)
(* ===================================================================== *)

Module Shared.
Import Re.
Section WithUnicode.
Context {U : Unicode}.

(** [[^\d.,]] *)
Definition not_amount_char_re : re := NoneOf [Cls Digit; One (ch "."); One (ch ",")].
(** [^[\d\.]+,\d{2}$] *)
Definition amount_re : re :=
  cat [Bol; plus (OneOf [Cls Digit; One (ch ".")]); Lit (ch ","); times 2 dig; Eol].

Definition parse_monetary_value (value : str) : option str :=
  match value with
  | [] => None
  | _ =>
    let cleaned := re_sub not_amount_char_re (fun _ => []) value in
    match re_match amount_re cleaned with
    | Some _ => Some cleaned
    | None => None
    end
  end.

(** [any(keyword in line.upper() for keyword in skip_keywords)] *)
Definition has_skip_keyword (keywords : list str) (line : str) : bool :=
  existsb (fun keyword => contains (upper line) keyword) keywords.

(** [[\d\.]+,\d{2}] *)
Definition monetary_pattern : re :=
  cat [plus (OneOf [Cls Digit; One (ch ".")]); Lit (ch ","); times 2 dig].
(** [\d+\.\d+\.\d+\.\d+\.\d+] *)
Definition five_groups_re : re :=
  cat [plus dig; Lit (ch "."); plus dig; Lit (ch "."); plus dig; Lit (ch ".");
       plus dig; Lit (ch "."); plus dig].
(** [\b(\d{4,6})\b] *)
Definition code_re : re := cat [WordB; Group 1 (between 4 6 dig); WordB].

(** The block of [parse_data_line] from [code = None] to the last
    [code = code_match.group(1)]: the code, the classification and
    [account_start_idx].  The three files differ in the pattern of the
    classification only. *)
Definition find_code_and_classification (classification_re : re)
    (parts_before_values : str) : py (option str * option str * nat) :=
  let classification_match := re_search classification_re parts_before_values in
  let '(classification, account_start_idx) :=
    match classification_match with
    | Some m => (group m 1, m_end m)
    | None => (None, 0)
    end in
  let '(code, account_start_idx) :=
    if negb (truthy classification) then
      match re_search code_re parts_before_values with
      | Some code_match => (group code_match 1, m_end code_match)
      | None => (None, account_start_idx)
      end
    else (None, account_start_idx) in
  code <- (if truthy classification then
             start <- attr classification_match m_start ;;
             let code_before := strip (firstn start parts_before_values) in
             match re_search code_re code_before with
             | Some code_match => Ok (group code_match 1)
             | None => Ok code
             end
           else Ok code) ;;
  Ok (code, classification, account_start_idx).

(** The block of [parse_data_line] from [previous_balance = None] to the
    last [elif]: previous balance, debit, credit and current balance. *)
Definition monetary_slots (monetary_values : list str)
    : py (option str * option str * option str * option str) :=
  let n := length monetary_values in
  if 4 <=? n then
    v0 <- getitem monetary_values 0 ;;
    v1 <- getitem monetary_values 1 ;;
    v2 <- getitem monetary_values 2 ;;
    v3 <- getitem monetary_values 3 ;;
    Ok (parse_monetary_value v0, parse_monetary_value v1,
        parse_monetary_value v2, parse_monetary_value v3)
  else if n =? 3 then
    v0 <- getitem monetary_values 0 ;;
    v1 <- getitem monetary_values 1 ;;
    v2 <- getitem monetary_values 2 ;;
    Ok (parse_monetary_value v0, parse_monetary_value v1,
        parse_monetary_value v2, None)
  else if n =? 2 then
    v0 <- getitem monetary_values 0 ;;
    v1 <- getitem monetary_values 1 ;;
    Ok (parse_monetary_value v0, None, None, parse_monetary_value v1)
  else if n =? 1 then
    v0 <- getitem monetary_values 0 ;;
    Ok (None, None, None, parse_monetary_value v0)
  else Ok (None, None, None, None).

(** The [return] of [parse_data_line] for a line with amounts. *)
Definition make_entry (code classification : option str) (account : str)
    (slots : option str * option str * option str * option str) : entry :=
  let '(previous_balance, debit, credit, current_balance) := slots in
  Entry (or_none code) (or_none classification) account
        (or_none previous_balance) (or_none current_balance)
        (or_none debit) (or_none credit) None.

(** [[c for c in parent_categories if not
    cleaned.upper().startswith(c.upper())]] followed by
    [parent_categories.append(cleaned)] *)
Definition push_category (parent_categories : list str) (cleaned : str) : list str :=
  filter (fun c => negb (startswith (upper cleaned) (upper c))) parent_categories
  ++ [cleaned].

(** [entry['parent_category'] = parent_categories[-1]] under
    [if parent_categories:] *)
Definition attach_parent (parent_categories : list str) (e : entry) : py entry :=
  match parent_categories with
  | [] => Ok e
  | _ =>
    top <- getitem parent_categories (-1) ;;
    Ok (set_parent_category e (Some top))
  end.

End WithUnicode.
End Shared.
(* ===================================================================== *)
(** * extract_pdf.py                                                       *)
(* ===================================================================== *)

Module ExtractPdf.
Import Re Shared.
Section WithUnicode.
Context {U : Unicode}.

(** [sum(c1 == c2 for c1, c2 in zip(word, next_word))] *)
Definition same_places (a b : str) : nat :=
  length (filter (fun p => char_eqb (fst p) (snd p)) (combine a b)).

(** [sum(...) / max(len(word), len(next_word)) > 0.8].  The quotient of
    two lengths is correctly rounded and [0.8] is the double nearest to
    4/5, so the comparison of doubles decides [5 * sum > 4 * max]. *)
Definition similar (word next_word : str) : py bool :=
  let m := Nat.max (length word) (length next_word) in
  if m =? 0 then Raise ZeroDivisionError
  else Ok (4 * m <? 5 * same_places word next_word).

(** The [while i < len(words)] loop of [remove_duplicate_text]. *)
Fixpoint remove_duplicate_loop (fuel : nat) (words : list str) (i : nat)
    (result : list str) : py (list str) :=
  if i <? length words then
    match fuel with
    | 0 => Raise OutOfFuel
    | S fuel' =>
      word <- getitem words (Z.of_nat i) ;;
      let result := result ++ [word] in
      if i + 1 <? length words then
        next_word <- getitem words (Z.of_nat (i + 1)) ;;
        if (3 <? length word) && (3 <? length next_word) then
          sim <- similar word next_word ;;
          if sim then remove_duplicate_loop fuel' words (i + 2) result
          else remove_duplicate_loop fuel' words (i + 1) result
        else remove_duplicate_loop fuel' words (i + 1) result
      else remove_duplicate_loop fuel' words (i + 1) result
    end
  else Ok result.

Definition remove_duplicate_text (text : str) : py str :=
  match text with
  | [] => Ok []
  | _ =>
    let words := split_ws text in
    if length words <? 2 then Ok text
    else
      result <- remove_duplicate_loop (length words) words 0 [] ;;
      Ok (join (u " ") result)
  end.

Definition dot : re := Lit (ch ".").
Definition letters : list item :=
  [Range (ch "A") (ch "Z"); Range (ch "a") (ch "z"); Range (ch "À") (ch "ÿ")].

(** [^\d{4,6}\s+] *)
Definition leading_code_re : re := cat [Bol; between 4 6 dig; plus spc].
(** [\b\d+\.\d+\.\d+\.\d+\.\d+\b] *)
Definition protected_re : re := cat [WordB; five_groups_re; WordB].
(** [([A-Za-zÀ-ÿ]+)(\d+)(\s|$|[A-Z])] *)
Definition trailing_digits_re : re :=
  cat [Group 1 (plus (OneOf letters)); Group 2 (plus dig);
       Group 3 (alts spc [Eol; OneOf [Range (ch "A") (ch "Z")]])].
(** [\.(?!\d)] *)
Definition lone_dot_re : re := cat [dot; NotAhead dig].
(** [\s+] *)
Definition spaces_re : re := plus spc.

(** [f"__PROTECTED_{i}__"] *)
Definition placeholder (i : nat) : str :=
  u "__PROTECTED_" ++ str_of_nat i ++ u "__".

(** One iteration of the [while i < len(name)] loop of
    [clean_account_name_final]; every path adds one to [i], so the loop
    is a [for] over the indices of [name]. *)
Definition strip_digit_step (name : str) (i : nat) (cleaned : str) : py str :=
  c <- getitem name (Z.of_nat i) ;;
  if is_digit c then
    prev_is_alpha <- (if 0 <? i
                      then x <- getitem name (Z.of_nat i - 1) ;; Ok (is_alpha x)
                      else Ok false) ;;
    next_is_alpha <- (if (Z.of_nat i <? Z.of_nat (length name) - 1)%Z
                      then x <- getitem name (Z.of_nat i + 1) ;; Ok (is_alpha x)
                      else Ok false) ;;
    if prev_is_alpha && next_is_alpha then Ok cleaned
    else
      prev_is_digit <- (if 0 <? i
                        then x <- getitem name (Z.of_nat i - 1) ;; Ok (is_digit x)
                        else Ok false) ;;
      if prev_is_digit then Ok (cleaned ++ [c])
      else
        next_is_digit <- (if (Z.of_nat i <? Z.of_nat (length name) - 1)%Z
                          then x <- getitem name (Z.of_nat i + 1) ;; Ok (is_digit x)
                          else Ok false) ;;
        if next_is_digit then Ok (cleaned ++ [c])
        else if prev_is_alpha || next_is_alpha then Ok cleaned
        else Ok (cleaned ++ [c])
  else Ok (cleaned ++ [c]).

Definition clean_account_name_final (name : str) : py str :=
  match name with
  | [] => Ok []
  | _ =>
    let name := re_sub leading_code_re (fun _ => []) name in
    (* the iterator scans the string [name] was bound to when the loop began *)
    let matches := re_finditer protected_re name in
    let '(protected_parts, name) :=
      fold_left (fun (acc : list str * str) m =>
                   let '(parts, nm) := acc in
                   let parts := parts ++ [group0 m] in
                   (parts, replace_n nm (group0 m) (placeholder (length parts - 1)) 1))
                matches ([], name) in
    cleaned <- for_each (seq 0 (length name)) (strip_digit_step name) [] ;;
    let name := cleaned in
    let name := fold_left (fun nm (ic : nat * str) =>
                             replace nm (placeholder (fst ic)) (snd ic))
                          (enumerate protected_parts) name in
    let name := re_sub trailing_digits_re
                  (fun m => group_text m 1 ++ group_text m 3) name in
    let name := re_sub lone_dot_re (fun _ => u " ") name in
    let name := re_sub spaces_re (fun _ => u " ") name in
    name <- remove_duplicate_text name ;;
    Ok (strip name)
  end.

Definition skip_keywords : list str :=
  map u ["EMPRESA:"; "C.N.P.J.:"; "PERÍODO:"; "EMISSÃO:"; "HORA:";
         "BALANCETE"; "CÓDIGO"; "CLASSIFICAÇÃO"; "DESCRIÇÃO";
         "SALDO ANTERIOR"; "DÉBITO"; "CRÉDITO"; "SALDO ATUAL";
         "CONSOLIDADO"; "CPF:"; "_______________________________________";
         "GILMIER"; "CRISTIANI"; "MIRI"; "ZUCOLOTO"; "NÚMERO LIVRO"; "FOLHA:"]%string.

(** [\b(\d+\.\d+\.\d+\.\d+\.\d+)\b] *)
Definition classification_re : re := cat [WordB; Group 1 five_groups_re; WordB].

Definition parse_data_line (line : str) : py (option entry) :=
  if match line with [] => true | _ => false end || (length (strip line) <? 3)
  then Ok None
  else
  let line := strip line in
  if has_skip_keyword skip_keywords line then Ok None
  else
  let monetary_matches := re_finditer monetary_pattern line in
  match monetary_matches with
  | [] =>
    if 10 <? length line then
      cleaned_account <- clean_account_name_final line ;;
      if match cleaned_account with [] => false | _ => true end
         && (3 <? length cleaned_account)
      then Ok (Some (Entry None None cleaned_account None None None None None))
      else Ok None
    else Ok None
  | _ =>
    let monetary_values := map group0 monetary_matches in
    let value_positions := map (fun m => (m_start m, m_end m, group0 m)) monetary_matches in
    first_value <- getitem value_positions 0 ;;
    let parts_before_values := strip (firstn (fst (fst first_value)) line) in
    found <- find_code_and_classification classification_re parts_before_values ;;
    let '(code, classification, account_start_idx) := found in
    let account_text := strip (skipn account_start_idx parts_before_values) in
    account <- clean_account_name_final account_text ;;
    if match account with [] => true | _ => false end || (length account <? 3)
    then Ok None
    else
      slots <- monetary_slots monetary_values ;;
      Ok (Some (make_entry code classification account slots))
  end.

(** A character of [page.chars]; the coordinates are rationals. *)
Record pchar : Set := PChar {
  c_text : str;
  c_top : Q;
  c_fontname : str;
  c_bold : bool
}.

(** [int(y)]: truncation towards zero. *)
Definition py_int (y : Q) : Z := Z.quot (Qnum y) (Z.pos (Qden y)).

(** [int(current_y) if current_y else 0] *)
Definition y_key_of (current_y : option Q) : Z :=
  match current_y with
  | Some y => py_int y
  | None => 0%Z
  end.

Definition Qltb (a b : Q) : bool := negb (Qle_bool b a).

(** [defaultdict(str)] keyed by [int], in insertion order. *)
Definition dict : Set := list (Z * str).

Fixpoint dict_get (dd : dict) (key : Z) : option str :=
  match dd with
  | [] => None
  | (k, v) :: dd' => if (k =? key)%Z then Some v else dict_get dd' key
  end.

Fixpoint dict_set (dd : dict) (key : Z) (v : str) : dict :=
  match dd with
  | [] => [(key, v)]
  | (k, w) :: dd' => if (k =? key)%Z then (k, v) :: dd' else (k, w) :: dict_set dd' key v
  end.

(** [existing = bold_by_line[y_key]]: reading a missing key inserts [""]. *)
Definition defaultdict_get (dd : dict) (key : Z) : str * dict :=
  match dict_get dd key with
  | Some v => (v, dd)
  | None => ([], dict_set dd key [])
  end.

(** [existing = bold_by_line[y_key]; if len(current_bold.strip()) >
    len(existing): bold_by_line[y_key] = current_bold.strip()] *)
Definition keep_longest (bold_by_line : dict) (current_bold : str)
    (current_y : option Q) : dict :=
  let y_key := y_key_of current_y in
  let '(existing, bold_by_line) := defaultdict_get bold_by_line y_key in
  if length existing <? length (strip current_bold)
  then dict_set bold_by_line y_key (strip current_bold)
  else bold_by_line.

Definition is_bold_char (c : pchar) : bool :=
  contains (upper (c_fontname c)) (u "BOLD") || c_bold c.

Definition bold_step (acc : dict * str * option Q) (c : pchar) : dict * str * option Q :=
  let '(bold_by_line, current_bold, current_y) := acc in
  let char_y := c_top c in
  let char_text := c_text c in
  if is_bold_char c && nonempty char_text then
    if match current_y with
       | None => true
       | Some y => Qltb (Qabs (char_y - y)) 3
       end
    then (bold_by_line, current_bold ++ char_text, Some char_y)
    else
      let bold_by_line :=
        if nonempty (strip current_bold) && (5 <? length (strip current_bold))
        then keep_longest bold_by_line current_bold current_y
        else bold_by_line in
      (bold_by_line, char_text, Some char_y)
  else
    if nonempty (strip current_bold)
    then (keep_longest bold_by_line current_bold current_y, [], None)
    else acc.

Definition extract_bold_categories (chars : list pchar) : dict :=
  let '(bold_by_line, current_bold, current_y) := fold_left bold_step chars ([], [], None) in
  if nonempty (strip current_bold)
  then keep_longest bold_by_line current_bold current_y
  else bold_by_line.

(** The state of the loop of [extract_data_from_pdf]. *)
Record state : Set := State {
  parent_categories : list str;
  all_data : list entry
}.

(** [for char in chars: if char.get('text', '') and line and
    char.get('text', '')[0] == line[0]: line_y = char.get('top', 0); break] *)
Fixpoint find_line_y (chars : list pchar) (line : str) : py (option Q) :=
  match chars with
  | [] => Ok None
  | c :: chars' =>
    if nonempty (c_text c) && nonempty line then
      a <- getitem (c_text c) 0 ;;
      b <- getitem line 0 ;;
      if char_eqb a b then Ok (Some (c_top c)) else find_line_y chars' line
    else find_line_y chars' line
  end.

(** The [for bold_y, bold_text in bold_categories.items()] loop: the
    cleaned bold text of the first entry that makes the line a category,
    where the loop breaks. *)
Fixpoint find_category (items : dict) (y_normalized : Z) (line : str) : py (option str) :=
  match items with
  | [] => Ok None
  | (bold_y, bold_text) :: items' =>
    if (Z.abs (y_normalized - bold_y) <? 5)%Z then
      cleaned_bold <- clean_account_name_final bold_text ;;
      if nonempty cleaned_bold && (5 <? length cleaned_bold)
         && (contains (upper line) (upper cleaned_bold)
             || ((10 <? length cleaned_bold)
                 && contains (upper line) (upper (firstn 15 cleaned_bold))))
         && match re_search protected_re line with
            | Some _ => false
            | None => true
            end
      then Ok (Some cleaned_bold)
      else find_category items' y_normalized line
    else find_category items' y_normalized line
  end.

(** Which bold text, if any, makes [line] a category line. *)
Definition category_of (chars : list pchar) (bold_categories : dict) (line : str)
    : py (option str) :=
  line_y <- find_line_y chars line ;;
  match line_y with
  | Some y => find_category bold_categories (py_int y) line
  | None => Ok None
  end.

(** The body of [for line_idx, line in enumerate(lines)]. *)
Definition process_line (chars : list pchar) (bold_categories : dict)
    (line : str) (st : state) : py state :=
  let line := strip line in
  if negb (nonempty line) || (length line <? 3) then Ok st
  else if has_skip_keyword skip_keywords line then Ok st
  else
    cat <- category_of chars bold_categories line ;;
    match cat with
    | Some cleaned_bold =>
      let parents := push_category (parent_categories st) cleaned_bold in
      e <- parse_data_line line ;;
      match e with
      | Some entry =>
        Ok (State parents (all_data st ++ [set_parent_category entry None]))
      | None => Ok (State parents (all_data st))
      end
    | None =>
      e <- parse_data_line line ;;
      match e with
      | Some entry =>
        entry <- attach_parent (parent_categories st) entry ;;
        Ok (State (parent_categories st) (all_data st ++ [entry]))
      | None => Ok st
      end
    end.

Record page : Set := Page {
  extract_text : option str;
  chars : list pchar
}.

(** The body of [for page_num, page in enumerate(pdf.pages, 1)]; the
    header of the first page is not part of the data. *)
Definition process_page (pg : page) (st : state) : py state :=
  match extract_text pg with
  | None | Some [] => Ok st
  | Some text =>
    let bold_categories := extract_bold_categories (chars pg) in
    for_each (split_on 10 text) (process_line (chars pg) bold_categories) st
  end.

Definition run_pages (pages : list page) : py state :=
  for_each pages process_page (State [] []).

Definition extract_data_from_pdf (pages : list page) : py (list entry) :=
  st <- run_pages pages ;; Ok (all_data st).

End WithUnicode.
End ExtractPdf.

(* ===================================================================== *)
(** * extract_pdf_v3.py                                                    *)
(* ===================================================================== *)

Module ExtractPdfV3.
Import Re Shared.
Section WithUnicode.
Context {U : Unicode}.

Definition dot : re := Lit (ch ".").
Definition ascii_letters : list item :=
  [Range (ch "A") (ch "Z"); Range (ch "a") (ch "z")].
Definition letters : list item :=
  [Range (ch "A") (ch "Z"); Range (ch "a") (ch "z"); Range (ch "À") (ch "ÿ")].

(** [^\d{4,6}\s+] *)
Definition leading_code_re : re := cat [Bol; between 4 6 dig; plus spc].
(** [([A-Za-z])(\d+)(\s|$)] *)
Definition trailing_digits_re : re :=
  cat [Group 1 (OneOf ascii_letters); Group 2 (plus dig); Group 3 (Alt spc Eol)].
(** [([A-Za-zÀ-ÿ])(\d)([A-Za-zÀ-ÿ])] *)
Definition inner_digit_re : re :=
  cat [Group 1 (OneOf letters); Group 2 dig; Group 3 (OneOf letters)].
(** [\s+] *)
Definition spaces_re : re := plus spc.

Definition clean_account_name (name : str) : str :=
  match name with
  | [] => []
  | _ =>
    let name := re_sub leading_code_re (fun _ => []) name in
    let name := re_sub trailing_digits_re
                  (fun m => group_text m 1 ++ group_text m 3) name in
    let protected := map (fun m => (m_start m, m_end m, group0 m))
                         (re_finditer five_groups_re name) in
    let '(result, last_end) :=
      fold_left (fun (acc : list str * nat) (p : nat * nat * str) =>
                   let '(result, last_end) := acc in
                   let '(start, end_, code) := p in
                   (result ++ [slice name last_end start; code], end_))
                protected ([], 0) in
    let result := result ++ [skipn last_end name] in
    let name := concat result in
    let name := re_sub inner_digit_re
                  (fun m => group_text m 1 ++ group_text m 3) name in
    let name := re_sub spaces_re (fun _ => u " ") name in
    strip name
  end.

Definition skip_keywords : list str :=
  map u ["EMPRESA:"; "C.N.P.J.:"; "PERÍODO:"; "EMISSÃO:"; "HORA:";
         "BALANCETE"; "CÓDIGO"; "CLASSIFICAÇÃO"; "DESCRIÇÃO";
         "SALDO ANTERIOR"; "DÉBITO"; "CRÉDITO"; "SALDO ATUAL";
         "CONSOLIDADO"; "CPF:"; "_______________________________________";
         "GILMIER"; "CRISTIANI"; "MIRI"; "ZUCOLOTO"; "NÚMERO LIVRO"]%string.

(** The list of the loop of [extract_data_from_pdf] has ['FOLHA:'] too. *)
Definition loop_skip_keywords : list str := skip_keywords ++ [u "FOLHA:"].

(** [(\d+\.\d+\.\d+\.\d+\.\d+)] *)
Definition classification_re : re := Group 1 five_groups_re.

Definition parse_data_line (line : str) (is_bold : bool) : py (option entry) :=
  if match line with [] => true | _ => false end || (length (strip line) <? 3)
  then Ok None
  else
  let line := strip line in
  if has_skip_keyword skip_keywords line then Ok None
  else
  let monetary_matches := re_finditer monetary_pattern line in
  match monetary_matches with
  | [] =>
    if 10 <? length line then
      let cleaned_account := clean_account_name line in
      match cleaned_account with
      | [] => Ok None
      | _ => Ok (Some (Entry None None cleaned_account None None None None None))
      end
    else Ok None
  | _ =>
    let monetary_values := map group0 monetary_matches in
    let value_positions := map (fun m => (m_start m, m_end m, group0 m)) monetary_matches in
    first_value <- getitem value_positions 0 ;;
    let parts_before_values := strip (firstn (fst (fst first_value)) line) in
    found <- find_code_and_classification classification_re parts_before_values ;;
    let '(code, classification, account_start_idx) := found in
    let account_text := strip (skipn account_start_idx parts_before_values) in
    let account := clean_account_name account_text in
    match account with
    | [] => Ok None
    | _ =>
      slots <- monetary_slots monetary_values ;;
      Ok (Some (make_entry code classification account slots))
    end
  end.

Record state : Set := State {
  parent_categories : list str;
  all_data : list entry
}.

(** The test that sends a line of [reconstructed_lines] down the category
    branch: bold, no five-group code in the line, and a cleaned text of
    more than five characters. *)
Definition category_of (line_text : str) (is_bold : bool) : option str :=
  if is_bold then
    match re_search five_groups_re line_text with
    | Some _ => None
    | None =>
      let cleaned_category := clean_account_name line_text in
      if nonempty cleaned_category && (5 <? length cleaned_category)
      then Some cleaned_category else None
    end
  else None.

(** The body of [for line_text, y_pos, is_bold in reconstructed_lines];
    [y_pos] is not read. *)
Definition process_line (l : str * bool) (st : state) : py state :=
  let '(line_text, is_bold) := l in
  if match line_text with [] => true | _ => false end
     || (length (strip line_text) <? 3) then Ok st
  else if has_skip_keyword loop_skip_keywords line_text then Ok st
  else
    match category_of line_text is_bold with
    | Some cleaned_category =>
      let parents := push_category (parent_categories st) cleaned_category in
      e <- parse_data_line line_text true ;;
      match e with
      | Some entry =>
        Ok (State parents (all_data st ++ [set_parent_category entry None]))
      | None => Ok (State parents (all_data st))
      end
    | None =>
      e <- parse_data_line line_text false ;;
      match e with
      | Some entry =>
        entry <- attach_parent (parent_categories st) entry ;;
        Ok (State (parent_categories st) (all_data st ++ [entry]))
      | None => Ok st
      end
    end.

(** A page: its text and the lines [reconstruct_text_from_chars] yields
    for it, each with its bold flag. *)
Record page : Set := Page {
  extract_text : option str;
  reconstructed_lines : list (str * bool)
}.

Definition process_page (pg : page) (st : state) : py state :=
  match extract_text pg with
  | None | Some [] => Ok st
  | Some _ => for_each (reconstructed_lines pg) process_line st
  end.

Definition run_pages (pages : list page) : py state :=
  for_each pages process_page (State [] []).

Definition extract_data_from_pdf (pages : list page) : py (list entry) :=
  st <- run_pages pages ;; Ok (all_data st).

End WithUnicode.
End ExtractPdfV3.

(* ===================================================================== *)
(** * extract_pdf_final.py                                                 *)
(* ===================================================================== *)

Module ExtractPdfFinal.
Import Re Shared.
Section WithUnicode.
Context {U : Unicode}.

Definition dot : re := Lit (ch ".").
Definition ascii_letters : list item :=
  [Range (ch "A") (ch "Z"); Range (ch "a") (ch "z")].

(** [[\x00-\x1f\x7f-\x9f]] *)
Definition control_re : re := OneOf [Range 0 31; Range 127 159].
(** [\s+] *)
Definition spaces_re : re := plus spc.

Definition clean_text (text : str) : str :=
  match text with
  | [] => []
  | _ =>
    let text := re_sub control_re (fun _ => []) text in
    let text := re_sub spaces_re (fun _ => u " ") text in
    strip text
  end.

(** [^\d+\s+] *)
Definition leading_code_re : re := cat [Bol; plus dig; plus spc].
(** [([A-Za-z])(\d+)([A-Za-z])] *)
Definition inner_digits_re : re :=
  cat [Group 1 (OneOf ascii_letters); Group 2 (plus dig); Group 3 (OneOf ascii_letters)].
(** [([A-Za-z])(\d)([A-Za-z])] *)
Definition inner_digit_re : re :=
  cat [Group 1 (OneOf ascii_letters); Group 2 dig; Group 3 (OneOf ascii_letters)].

Definition clean_account_name (name : str) : str :=
  match name with
  | [] => []
  | _ =>
    let name := re_sub leading_code_re (fun _ => []) name in
    let name := re_sub inner_digits_re
                  (fun m => group_text m 1 ++ group_text m 3) name in
    let name := re_sub inner_digit_re
                  (fun m => group_text m 1 ++ group_text m 3) name in
    let name := re_sub spaces_re (fun _ => u " ") name in
    strip name
  end.

Definition skip_keywords : list str :=
  map u ["EMPRESA:"; "C.N.P.J.:"; "PERÍODO:"; "EMISSÃO:"; "HORA:";
         "BALANCETE"; "CÓDIGO"; "CLASSIFICAÇÃO"; "DESCRIÇÃO";
         "SALDO ANTERIOR"; "DÉBITO"; "CRÉDITO"; "SALDO ATUAL";
         "CONSOLIDADO"; "CPF:"; "_______________________________________";
         "GILMIER"; "CRISTIANI"; "MIRI"; "ZUCOLOTO"]%string.

(** [(\d+\.\d+\.\d+\.\d+\.\d+)] *)
Definition classification_re : re := Group 1 five_groups_re.

Definition parse_data_line (line : str) : py (option entry) :=
  if match line with [] => true | _ => false end || (length (strip line) <? 5)
  then Ok None
  else
  let line := clean_text line in
  if has_skip_keyword skip_keywords line then Ok None
  else
  let monetary_matches := re_finditer monetary_pattern line in
  match monetary_matches with
  | [] =>
    if 15 <? length line
    then Ok (Some (Entry None None (clean_account_name line) None None None None None))
    else Ok None
  | _ =>
    let monetary_values := map group0 monetary_matches in
    let value_positions := map (fun m => (m_start m, m_end m, group0 m)) monetary_matches in
    first_value <- getitem value_positions 0 ;;
    let parts_before_values := strip (firstn (fst (fst first_value)) line) in
    parts_after_values <-
      match value_positions with
      | [] => Ok []
      | _ => last_value <- getitem value_positions (-1) ;;
             Ok (strip (skipn (snd (fst last_value)) line))
      end ;;
    found <- find_code_and_classification classification_re parts_before_values ;;
    let '(code, classification, account_start_idx) := found in
    let account_text := strip (skipn account_start_idx parts_before_values) in
    let account_text :=
      if negb (nonempty account_text) && nonempty parts_after_values
      then parts_after_values else account_text in
    let account := clean_account_name account_text in
    match account with
    | [] => Ok None
    | _ =>
      slots <- monetary_slots monetary_values ;;
      Ok (Some (make_entry code classification account slots))
    end
  end.

End WithUnicode.
End ExtractPdfFinal.

(* ===================================================================== *)
(** * extract_pdf_v2.py                                                    *)
(* ===================================================================== *)

Module ExtractPdfV2.
Import Re.
Section WithUnicode.
Context {U : Unicode}.

Definition dot : re := Lit (ch ".").

(** [[\d\.]+,\d{2}|[\d]+,\d{2}] *)
Definition monetary_pattern : re :=
  Alt (cat [plus (OneOf [Cls Digit; One (ch ".")]); Lit (ch ","); times 2 dig])
      (cat [plus (OneOf [Cls Digit]); Lit (ch ","); times 2 dig]).
(** [\d{4,}] *)
Definition long_number_re : re := at_least 4 dig.
(** [\s{2,}] *)
Definition wide_gap_re : re := at_least 2 spc.
(** [^\d+\.\d+\.\d+\.\d+\.\d+$] *)
Definition classification_re : re :=
  cat [Bol; plus dig; dot; plus dig; dot; plus dig; dot; plus dig; dot; plus dig; Eol].
(** [^\d{4,6}$] *)
Definition code_re : re := cat [Bol; between 4 6 dig; Eol].
(** [^\d+\.\d+] *)
Definition dotted_re : re := cat [Bol; plus dig; dot; plus dig].

Definition matches (r : re) (t : str) : bool :=
  match re_match r t with
  | Some _ => true
  | None => false
  end.

(** The first [(i, part)] of [enumerate(parts)] that passes [test]. *)
Definition first_index (test : str -> bool) (parts : list str) : option (nat * str) :=
  find (fun ip => test (snd ip)) (enumerate parts).

(** The block of [parse_line] under [# Procurar código simples]. *)
Definition find_code (parts : list str) (classification_idx : Z) : py (option str) :=
  if (classification_idx =? -1)%Z then
    match first_index (fun part => matches code_re part
                                   && negb (matches dotted_re part)) parts with
    | Some (_, part) => Ok (Some part)
    | None => Ok None
    end
  else if (0 <? classification_idx)%Z then
    potential_code <- getitem parts (classification_idx - 1) ;;
    if matches code_re potential_code then Ok (Some potential_code) else Ok None
  else Ok None.

(** [parts[monetary_indices[k]]] *)
Definition part_at (parts : list str) (monetary_indices : list nat) (k : Z)
    : py (option str) :=
  i <- getitem monetary_indices k ;;
  p <- getitem parts (Z.of_nat i) ;;
  Ok (Some p).

(** The block of [parse_line] under [# Determinar qual valor é qual]:
    previous balance, debit, credit and current balance. *)
Definition assign_parts (parts : list str) (monetary_indices : list nat)
    : py (option str * option str * option str * option str) :=
  let n := length monetary_indices in
  if 4 <=? n then
    v0 <- part_at parts monetary_indices 0 ;;
    v1 <- part_at parts monetary_indices 1 ;;
    v2 <- part_at parts monetary_indices 2 ;;
    v3 <- part_at parts monetary_indices 3 ;;
    Ok (v0, v1, v2, v3)
  else if n =? 3 then
    v0 <- part_at parts monetary_indices 0 ;;
    v1 <- part_at parts monetary_indices 1 ;;
    v2 <- part_at parts monetary_indices 2 ;;
    Ok (v0, v1, v2, None)
  else if n =? 2 then
    v0 <- part_at parts monetary_indices 0 ;;
    v1 <- part_at parts monetary_indices 1 ;;
    Ok (v0, None, None, v1)
  else Ok (None, None, None, None).

(** [for i, part in enumerate(parts): if part == key: start_idx = i + 1;
    break] *)
Definition index_after (key : option str) (parts : list str) : nat :=
  match first_index (fun part => str_eqb part (match key with
                                               | Some c => c
                                               | None => []
                                               end)) parts with
  | Some (i, _) => i + 1
  | None => 0
  end.

(** The list [parts] of [parse_line]: the line split at gaps of two or
    more spaces or, when that gives fewer than three parts, at every space
    around the amounts. *)
Definition split_parts (line : str) : list str :=
  let parts := re_split wide_gap_re line in
  let parts :=
    if length parts <? 3 then
      (* the iterator scans [line]; the slices are taken from [remaining] *)
      let '(parts, remaining) :=
        fold_left (fun (acc : list str * str) m =>
                     let '(parts, remaining) := acc in
                     let before := strip (firstn (m_start m) remaining) in
                     let parts := if nonempty before then parts ++ split_ws before
                                  else parts in
                     (parts ++ [group0 m], skipn (m_end m) remaining))
                  (re_finditer monetary_pattern line) ([], line) in
      if nonempty (strip remaining) then parts ++ split_ws (strip remaining)
      else parts
    else parts in
  map strip (filter (fun p => nonempty (strip p)) parts).

Definition parse_line (line : str) : py (option entry) :=
  if match line with [] => true | _ => false end || (length (strip line) <? 5)
  then Ok None
  else
  let line := strip line in
  let monetary_values := re_findall monetary_pattern line in
  match monetary_values with
  | [] =>
    if (20 <? length line)
       && match re_search long_number_re line with Some _ => false | None => true end
    then Ok (Some (Entry None None (strip line) None None None None None))
    else Ok None
  | _ =>
    let parts := split_parts line in
    if length parts <? 3 then Ok None
    else
      let '(classification, classification_idx) :=
        match first_index (matches classification_re) parts with
        | Some (i, part) => (Some part, Z.of_nat i)
        | None => (None, (-1)%Z)
        end in
      code <- find_code parts classification_idx ;;
      let monetary_indices :=
        map fst (filter (fun ip => matches monetary_pattern (snd ip)) (enumerate parts)) in
      slots <- assign_parts parts monetary_indices ;;
      let '(previous_balance, debit, credit, current_balance) := slots in
      let start_idx :=
        if truthy code then index_after code parts
        else if truthy classification then index_after classification parts
        else 0 in
      end_idx <- match monetary_indices with
                 | [] => Ok (length parts)
                 | _ => getitem monetary_indices 0
                 end ;;
      let account_parts := slice parts start_idx end_idx in
      let account := strip (join (u " ") account_parts) in
      match account with
      | [] => Ok None
      | _ =>
        Ok (Some (Entry (or_none code) (or_none classification) account
                        (or_none previous_balance) (or_none current_balance)
                        (or_none debit) (or_none credit) None))
      end
  end.

End WithUnicode.
End ExtractPdfV2.

(* ===================================================================== *)
(** * final_balancete_parser.py                                            *)
(* ===================================================================== *)

Module FinalBalancete.
Import Re.
Section WithUnicode.
Context {U : Unicode}.

Definition dot : re := Lit (ch ".").

(** The [skip_patterns], as [re.search] reads them: a dot is any
    character. *)
Definition skip_patterns : list re :=
  [lits "Empresa:";
   cat [lits "C"; Dot; lits "N"; Dot; lits "P"; Dot; lits "J"; Dot];
   lits "Período:"; lits "Emissão:"; lits "Hora:"; lits "Folha:";
   lits "CONSOLIDADO"; lits "livro:"; lits "Código Classificação";
   lits "RESUMO DO BALANCETE"; lits "CONTAS DEVEDORAS"; lits "CONTAS CREDORAS";
   lits "RESULTADO DO MES"; lits "RESULTADO DO EXERCÍCIO";
   cat [lits "ATIVO"; star Dot; lits "PASSIVO"; star Dot; lits "RECEITAS"];
   cat [lits "Reg"; Dot; lits " no CRC"];
   lits "CPF:";
   cat [Bol; lits "BALANCETE"; Eol];
   cat [Bol; at_least 4 (Lit (ch "_"))]].

Definition skip_line (line : str) : bool :=
  if negb (nonempty (strip line)) || (length (strip line) <? 8) then true
  else existsb (fun pattern => match re_search pattern line with
                               | Some _ => true
                               | None => false
                               end) skip_patterns.

(** [-?\d{1,3}(?:\.\d{3})*,\d{2}] *)
Definition value_pattern : re :=
  cat [opt (Lit (ch "-")); between 1 3 dig; star (cat [dot; times 3 dig]);
       Lit (ch ","); times 2 dig].
(** [^(\d{1,6})(?:\s|[A-ZÀ-Ú])] *)
Definition code_re : re :=
  cat [Bol; Group 1 (between 1 6 dig);
       Alt spc (OneOf [Range (ch "A") (ch "Z"); Range (ch "À") (ch "Ú")])].
(** [\b(\d{1,2}\.\d{1,2}(?:\.\d{1,3}){1,})\b] *)
Definition class_pattern : re :=
  cat [WordB;
       Group 1 (cat [between 1 2 dig; dot; between 1 2 dig;
                     at_least 1 (cat [dot; between 1 3 dig])]);
       WordB].
(** [^\d{1,6}\s*] *)
Definition leading_code_re : re := cat [Bol; between 1 6 dig; star spc].
(** [\b\d+\.\d+\b] *)
Definition loose_decimal_re : re := cat [WordB; plus dig; dot; plus dig; WordB].
(** [\b\d{1,3}\b(?!\d)] *)
Definition loose_number_re : re := cat [WordB; between 1 3 dig; WordB; NotAhead dig].
(** [[^\wÀ-ú\s\-,/().]] *)
Definition special_re : re :=
  NoneOf [Cls Word; Range (ch "À") (ch "ú"); Cls Space; One (ch "-"); One (ch ",");
         One (ch "/"); One (ch "("); One (ch ")"); One (ch ".")].
(** [\s+] *)
Definition spaces_re : re := plus spc.

Definition extract_account_description (line : str) (code classification : option str)
    (values : list str) : str :=
  let account := line in
  let account := if truthy code
                 then re_sub_n leading_code_re (fun _ => []) account 1
                 else account in
  let account := match classification with
                 | Some c => if nonempty c then replace account c (u " ") else account
                 | None => account
                 end in
  let account := fold_left (fun acc value => replace_n acc value (u " ") 1)
                           values account in
  let account := re_sub loose_decimal_re (fun _ => u " ") account in
  let account := re_sub loose_number_re (fun _ => u " ") account in
  account.

Definition clean_description (text : str) : py str :=
  let text := re_sub special_re (fun _ => u " ") text in
  let text := strip (re_sub spaces_re (fun _ => u " ") text) in
  let words := split_ws text in
  text <-
    (if 2 <=? length words then
       first <- getitem words 0 ;;
       last_ <- getitem words (-1) ;;
       let text := if str_eqb (upper first) (upper last_) then last_ else text in
       let clean_words :=
         map snd (filter (fun iw : nat * str =>
                            (2 <? length (snd iw)) || (fst iw =? 0)
                            || (fst iw =? length words - 1))
                         (enumerate words)) in
       match clean_words with
       | [] => Ok text
       | _ => Ok (join (u " ") clean_words)
       end
     else Ok text) ;;
  Ok (strip text).

(** [max(l, key=f)]: the first element with the largest key. *)
Definition max_by {A} (f : A -> nat) (x : A) (l : list A) : A :=
  fold_left (fun best y => if f best <? f y then y else best) l x.

(** The block of [parse_entry_line] under [# Atribuir valores]: previous
    balance, debit, credit and current balance. *)
Definition assign_values (values : list str)
    : py (option str * option str * option str * option str) :=
  let n := length values in
  if 4 <=? n then
    v0 <- getitem values (-4) ;;
    v1 <- getitem values (-3) ;;
    v2 <- getitem values (-2) ;;
    v3 <- getitem values (-1) ;;
    Ok (Some v0, Some v1, Some v2, Some v3)
  else if n =? 3 then
    v0 <- getitem values 0 ;;
    v1 <- getitem values 1 ;;
    v2 <- getitem values 2 ;;
    Ok (Some v0, Some v1, None, Some v2)
  else if n =? 2 then
    v0 <- getitem values 0 ;;
    v1 <- getitem values 1 ;;
    Ok (None, Some v0, None, Some v1)
  else if n =? 1 then
    v0 <- getitem values 0 ;;
    Ok (None, None, None, Some v0)
  else Ok (None, None, None, None).

Definition parse_entry_line (line : str) : py (option entry) :=
  let line := strip line in
  let values := re_findall value_pattern line in
  match values with
  | [] => Ok None
  | _ =>
    let code := match re_match code_re line with
                | Some code_match => group code_match 1
                | None => None
                end in
    let class_matches := re_findall class_pattern line in
    let classification :=
      match class_matches with
      | [] => None
      | _ =>
        let valid_classifications :=
          filter (fun c => (length c <=? 20) && (2 <=? count_char (ch ".") c))
                 class_matches in
        match valid_classifications with
        | [] => None
        | c :: cs => Some (max_by (count_char (ch ".")) c cs)
        end
      end in
    let account := extract_account_description line code classification values in
    if negb (nonempty account) || (length account <? 2) then Ok None
    else
      account <- clean_description account ;;
      slots <- assign_values values ;;
      let '(previous_balance, debit, credit, current_balance) := slots in
      Ok (Some (Entry code classification account
                      previous_balance current_balance debit credit None))
  end.

Definition is_category (e : entry) : bool :=
  if negb (nonempty (account e)) then false
  else
    let is_upper := isupper (account e) in
    let is_short := length (split_ws (account e)) <=? 6 in
    let simple_class :=
      match classification e with
      | Some c => negb (nonempty c) || (count_char (ch ".") c <=? 2)
      | None => true
      end in
    is_upper && is_short && simple_class.

(** The state of the loop of [extract_data]. *)
Record state : Set := State {
  entries : list entry;
  current_parent : option str
}.

Definition process_line (line : str) (st : state) : py state :=
  if skip_line line then Ok st
  else
    e <- parse_entry_line line ;;
    match e with
    | Some entry =>
      if is_category entry
      then Ok (State (entries st ++ [entry]) (Some (account entry)))
      else Ok (State (entries st ++ [set_parent_category entry (current_parent st)])
                     (current_parent st))
    | None => Ok st
    end.

Definition run_lines (lines : list str) (st : state) : py state :=
  for_each lines process_line st.

Definition extract_data (text : str) : py (list entry) :=
  st <- run_lines (split_on 10 text) (State [] None) ;;
  Ok (entries st).

End WithUnicode.
End FinalBalancete.

(* ===================================================================== *)
(** * The Latin-1 tables as an instance                                    *)
(* ===================================================================== *)

Definition latin1 : Unicode.
Proof.
  assert (below256_all : forall P : N -> bool,
    forallb P (map N.of_nat (List.seq 0 256)) = true ->
    forall c, (c < 256)%N -> P c = true).
  { intros P H c Hc. rewrite forallb_forall in H. apply H.
    rewrite <- (N2Nat.id c). apply in_map. apply in_seq. lia. }
  refine {|
    is_decimal := below256 latin1_decimal;
    is_space := below256 latin1_space;
    is_word := below256 latin1_word;
    is_alpha := below256 latin1_alpha;
    is_digit := below256 latin1_digit;
    is_upper_char := below256 latin1_upper;
    is_lower_char := below256 latin1_lower;
    is_title_char := fun _ => false;
    to_upper := fun c => if (c <? 256)%N then latin1_to_upper c else [c]
  |}.
  all: try (intros c Hc; unfold below256;
            apply N.ltb_lt in Hc; rewrite Hc; reflexivity).
  all: try (intros; reflexivity).
  - intros c H. unfold below256 in *.
    destruct (c <? 256)%N eqn:E; [| reflexivity]. apply N.ltb_lt in E.
    simpl in *.
    pose proof (below256_all (fun c => implb (latin1_space c) (negb (latin1_decimal c))) eq_refl c E) as K.
    cbv beta in K. destruct (latin1_space c), (latin1_decimal c); simpl in *; congruence.
  - intros c H. unfold below256 in *.
    destruct (c <? 256)%N eqn:E; [| reflexivity]. apply N.ltb_lt in E.
    simpl in *.
    pose proof (below256_all (fun c => implb (latin1_space c) (negb (latin1_word c))) eq_refl c E) as K.
    cbv beta in K. destruct (latin1_space c), (latin1_word c); simpl in *; congruence.
  - intros c H. unfold below256 in *.
    destruct (c <? 256)%N eqn:E; [| discriminate]. apply N.ltb_lt in E.
    simpl in *.
    pose proof (below256_all (fun c => implb (latin1_decimal c) (latin1_word c)) eq_refl c E) as K.
    cbv beta in K. destruct (latin1_decimal c), (latin1_word c); simpl in *; congruence.
Defined.

(* ===================================================================== *)
(** * The claims as the specification words them                           *)
(* ===================================================================== *)

(** The four monetary slots of a record, in column order. *)
Definition slots (e : entry) : option str * option str * option str * option str :=
  (previous_balance e, debit e, credit e, current_balance e).

(** The slot table of the specification: one amount is the current
    balance; two are previous and current balance; three are previous
    balance, debit and credit; four or more give the last four. *)
Definition spec_slot_table (V : list str)
    : option str * option str * option str * option str :=
  match rev V with
  | [] => (None, None, None, None)
  | [v0] => (None, None, None, Some v0)
  | [v1; v0] => (Some v0, None, None, Some v1)
  | [v2; v1; v0] => (Some v0, Some v1, Some v2, None)
  | v3 :: v2 :: v1 :: v0 :: _ => (Some v0, Some v1, Some v2, Some v3)
  end.

(* ===================================================================== *)
(** * Predicates used in the statements                                    *)
(* ===================================================================== *)

Section Predicates.
Context {U : Unicode}.

(** A non-empty run of decimal digits. *)
Definition digits (t : str) : bool := nonempty t && forallb is_decimal t.

(** Exactly five dot-separated groups of digits. *)
Definition five_groups (t : str) : bool :=
  match split_on (ch ".") t with
  | [a; b; c; d; e] => digits a && digits b && digits c && digits d && digits e
  | _ => false
  end.

(** At least three dot-separated groups of digits: the strings that match
    the pattern [\d+(\.\d+){2,}] of the specification. *)
Definition dotted_code (t : str) : bool :=
  (3 <=? length (split_on (ch ".") t)) && forallb digits (split_on (ch ".") t).

(** Between cursors [c] and [c'] the matcher has read [text]. *)
Definition consumes (c : Re.cursor) (text : str) (c' : Re.cursor) : Prop :=
  Re.rest c = text ++ Re.rest c' /\ Re.pos c' = Re.pos c + length text.

(** The record of a line without amounts: the account and nothing else. *)
Definition bare (acc : str) : entry := Entry None None acc None None None None None.

(** The characters of [[\d\.]]. *)
Definition amount_char (y : char) : bool :=
  Re.set_has [Re.Cls Re.Digit; Re.One (ch ".")] y.

(** Amounts that [parse_monetary_value] and the [x if x else None] of the
    record leave as they are. *)
Definition checked (V : list str) : Prop :=
  forall v, In v V -> or_none (Shared.parse_monetary_value v) = Some v.

(** [a] is a case-insensitive prefix of [b]. *)
Definition ci_prefix (a b : str) : bool := startswith (upper b) (upper a).

(** The character after the code of [parse_entry_line]: white space or a
    capital letter of [[A-ZÀ-Ú]]. *)
Definition code_end (x : char) : bool :=
  Re.set_has [Re.Cls Re.Space] x
  || Re.set_has [Re.Range (ch "A") (ch "Z"); Re.Range (ch "À") (ch "Ú")] x.

(** A word of [str.split()]: not empty and without white space. *)
Definition word (w : str) : bool :=
  nonempty w && forallb (fun x => negb (is_space x)) w.

(** The characters that [clean_description] does not replace: those of
    [[\wÀ-ú\s\-,/().]]. *)
Definition kept (x : char) : bool :=
  Re.set_has [Re.Cls Re.Word; Re.Range (ch "À") (ch "ú"); Re.Cls Re.Space;
              Re.One (ch "-"); Re.One (ch ","); Re.One (ch "/"); Re.One (ch "(");
              Re.One (ch ")"); Re.One (ch ".")] x.

End Predicates.

(** The slot table of [parse_data_line] in extract_pdf.py: as the
    specification's, but four or more amounts give the first four. *)
Definition first_four_table (V : list str)
    : option str * option str * option str * option str :=
  match V with
  | [] => (None, None, None, None)
  | [v0] => (None, None, None, Some v0)
  | [v0; v1] => (Some v0, None, None, Some v1)
  | [v0; v1; v2] => (Some v0, Some v1, Some v2, None)
  | v0 :: v1 :: v2 :: v3 :: _ => (Some v0, Some v1, Some v2, Some v3)
  end.

(** The slot table of [parse_entry_line] in final_balancete_parser.py:
    two amounts are debit and current balance; three are previous balance,
    debit and current balance; four or more give the last four. *)
Definition balancete_table (V : list str)
    : option str * option str * option str * option str :=
  match rev V with
  | [] => (None, None, None, None)
  | [v0] => (None, None, None, Some v0)
  | [v1; v0] => (None, Some v0, None, Some v1)
  | [v2; v1; v0] => (Some v0, Some v1, None, Some v2)
  | v3 :: v2 :: v1 :: v0 :: _ => (Some v0, Some v1, Some v2, Some v3)
  end.

Section StackPredicates.
Context {U : Unicode}.

(** No entry of the stack is a case-insensitive prefix of an entry that
    was pushed after it. *)
Definition ordered_prefix_free (stack : list str) : Prop :=
  ForallOrdPairs (fun a b => ci_prefix a b = false) stack.

(** The invariant as the specification words it: no two entries where one
    is a case-insensitive prefix of the other. *)
Definition no_entry_prefixes_another (stack : list str) : Prop :=
  forall i j a b,
    i <> j -> nth_error stack i = Some a -> nth_error stack j = Some b ->
    ci_prefix a b = false.

(** The top of the category stack, [None] when it is empty. *)
Definition top (stack : list str) : option str :=
  nth_error stack (length stack - 1).

(** The account of the last category record of a list of records of
    final_balancete_parser, [None] when there is none. *)
Definition last_category (es : list entry) : option str :=
  fold_left (fun acc e => if FinalBalancete.is_category e then Some (account e) else acc)
            es None.

(** What holds of the state of [extract_data] after every line. *)
Definition run_invariant (st : FinalBalancete.state) : Prop :=
  FinalBalancete.current_parent st = last_category (FinalBalancete.entries st)
  /\ forall pre e post,
       FinalBalancete.entries st = pre ++ e :: post ->
       FinalBalancete.is_category e = false ->
       parent_category e = last_category pre.

End StackPredicates.

(* ===================================================================== *)
(** * Further predicates on text                                           *)
(* ===================================================================== *)

Section TextPredicates.
Context {U : Unicode}.

(** Every run of white space replaced by one space; [in_run] says that
    the character before was white space. *)
Fixpoint squeeze (in_run : bool) (t : str) : str :=
  match t with
  | [] => []
  | x :: t' =>
    if is_space x
    then if in_run then squeeze true t' else ch " " :: squeeze true t'
    else x :: squeeze false t'
  end.

(** A space when [t] ends in white space. *)
Fixpoint trailing (t : str) : str :=
  match t with
  | [] => []
  | [x] => if is_space x then [ch " "] else []
  | _ :: t' => trailing t'
  end.

(** A text that [" ".join(t.split())] leaves as it is: words separated by
    single spaces. *)
Definition spaced (t : str) : Prop := join (u " ") (split_ws t) = t.

End TextPredicates.

(** [a] is [l] with some elements left out. *)
Inductive subseq {A : Type} : list A -> list A -> Prop :=
| subseq_nil : forall l, subseq [] l
| subseq_skip : forall x a l, subseq a l -> subseq a (x :: l)
| subseq_take : forall x a l, subseq a l -> subseq (x :: a) (x :: l).

(** The characters of [[\x00-\x1f\x7f-\x9f]]. *)
Definition control (x : char) : bool := in_range 0 31 x || in_range 127 159 x.

(** The slot table of [parse_line] in extract_pdf_v2.py, on the parts of
    the line that start with an amount: four or more give the first four;
    three are previous balance, debit and credit; two are previous and
    current balance; one fills no slot. *)
Definition v2_table (M : list str) : option str * option str * option str * option str :=
  match M with
  | v0 :: v1 :: v2 :: v3 :: _ => (Some v0, Some v1, Some v2, Some v3)
  | [v0; v1; v2] => (Some v0, Some v1, Some v2, None)
  | [v0; v1] => (Some v0, None, None, Some v1)
  | _ => (None, None, None, None)
  end.

(* ===================================================================== *)
(** * extract_pdf_final.py: the bold texts and the pass over the pages      *)
(* ===================================================================== *)

Module ExtractPdfFinalPass.
Import Re Shared.
Section WithUnicode.
Context {U : Unicode}.

(** [existing = bold_by_line[y_key]; if len(current_bold.strip()) >
    len(existing): bold_by_line[y_key] = clean_text(current_bold)] *)
Definition keep_longest (bold_by_line : ExtractPdf.dict) (current_bold : str)
    (current_y : option Q) : ExtractPdf.dict :=
  let y_key := ExtractPdf.y_key_of current_y in
  let '(existing, bold_by_line) := ExtractPdf.defaultdict_get bold_by_line y_key in
  if length existing <? length (strip current_bold)
  then ExtractPdf.dict_set bold_by_line y_key (ExtractPdfFinal.clean_text current_bold)
  else bold_by_line.

Definition bold_step (acc : ExtractPdf.dict * str * option Q) (c : ExtractPdf.pchar)
    : ExtractPdf.dict * str * option Q :=
  let '(bold_by_line, current_bold, current_y) := acc in
  let char_y := ExtractPdf.c_top c in
  let char_text := ExtractPdf.c_text c in
  if ExtractPdf.is_bold_char c && nonempty char_text then
    if match current_y with
       | None => true
       | Some y => ExtractPdf.Qltb (Qabs (char_y - y)) 3
       end
    then (bold_by_line, current_bold ++ char_text, Some char_y)
    else
      let bold_by_line :=
        if nonempty (strip current_bold) && (5 <? length (strip current_bold))
        then keep_longest bold_by_line current_bold current_y
        else bold_by_line in
      (bold_by_line, char_text, Some char_y)
  else
    if nonempty (strip current_bold)
    then (keep_longest bold_by_line current_bold current_y, [], None)
    else acc.

Definition extract_bold_categories (chars : list ExtractPdf.pchar) : ExtractPdf.dict :=
  let '(bold_by_line, current_bold, current_y) := fold_left bold_step chars ([], [], None) in
  if nonempty (strip current_bold)
  then keep_longest bold_by_line current_bold current_y
  else bold_by_line.

(** The list of the loop of [extract_data_from_pdf]. *)
Definition loop_skip_keywords : list str :=
  map u ["EMPRESA:"; "C.N.P.J.:"; "PERÍODO:"; "EMISSÃO:"; "HORA:"; "BALANCETE"; "CÓDIGO"; "CLASSIFICAÇÃO"; "DESCRIÇÃO"; "SALDO ANTERIOR"; "DÉBITO"; "CRÉDITO"; "SALDO ATUAL"; "CONSOLIDADO"; "CPF:"; "_______________________________________"]%string.

Record state : Set := State {
  parent_categories : list str;
  all_data : list entry
}.

(** The [for bold_y, bold_text in bold_categories.items()] loop: the
    cleaned bold text of the first entry that makes the line a category,
    where the loop breaks. *)
Fixpoint find_category (items : ExtractPdf.dict) (y_normalized : Z) (line : str)
    : option str :=
  match items with
  | [] => None
  | (bold_y, bold_text) :: items' =>
    if (Z.abs (y_normalized - bold_y) <? 5)%Z then
      if contains (upper line) (upper bold_text)
         || ((10 <? length bold_text)
             && contains (upper line) (upper (firstn 15 bold_text)))
      then
        let cleaned_bold := ExtractPdfFinal.clean_account_name bold_text in
        if nonempty cleaned_bold && (5 <? length cleaned_bold)
        then Some cleaned_bold
        else find_category items' y_normalized line
      else find_category items' y_normalized line
    else find_category items' y_normalized line
  end.

(** Which bold text, if any, makes [line] a category line. *)
Definition category_of (chars : list ExtractPdf.pchar) (bold_categories : ExtractPdf.dict)
    (line : str) : py (option str) :=
  line_y <- ExtractPdf.find_line_y chars line ;;
  match line_y with
  | Some y => Ok (find_category bold_categories (ExtractPdf.py_int y) line)
  | None => Ok None
  end.

(** The body of [for line_idx, line in enumerate(lines)]. *)
Definition process_line (chars : list ExtractPdf.pchar) (bold_categories : ExtractPdf.dict)
    (line : str) (st : state) : py state :=
  let line := strip line in
  if negb (nonempty line) || (length line <? 5) then Ok st
  else if has_skip_keyword loop_skip_keywords line then Ok st
  else
    cat <- category_of chars bold_categories line ;;
    match cat with
    | Some cleaned_bold =>
      let parents := push_category (parent_categories st) cleaned_bold in
      e <- ExtractPdfFinal.parse_data_line line ;;
      match e with
      | Some entry =>
        Ok (State parents (all_data st ++ [set_parent_category entry None]))
      | None => Ok (State parents (all_data st))
      end
    | None =>
      e <- ExtractPdfFinal.parse_data_line line ;;
      match e with
      | Some entry =>
        entry <- attach_parent (parent_categories st) entry ;;
        Ok (State (parent_categories st) (all_data st ++ [entry]))
      | None => Ok st
      end
    end.

(** The body of [for page_num, page in enumerate(pdf.pages, 1)]; the
    header of the first page is not part of the data. *)
Definition process_page (pg : ExtractPdf.page) (st : state) : py state :=
  match ExtractPdf.extract_text pg with
  | None | Some [] => Ok st
  | Some text =>
    let bold_categories := extract_bold_categories (ExtractPdf.chars pg) in
    for_each (split_on 10 text) (process_line (ExtractPdf.chars pg) bold_categories) st
  end.

Definition run_pages (pages : list ExtractPdf.page) : py state :=
  for_each pages process_page (State [] []).

Definition extract_data_from_pdf (pages : list ExtractPdf.page) : py (list entry) :=
  st <- run_pages pages ;; Ok (all_data st).

End WithUnicode.
End ExtractPdfFinalPass.

(* ===================================================================== *)
(** * extract_pdf_v2.py: the bold texts and the pass over the pages         *)
(* ===================================================================== *)

Module ExtractPdfV2Pass.
Import Re.
Section WithUnicode.
Context {U : Unicode}.

(** [if y_key not in bold_texts or len(current_bold.strip()) >
    len(bold_texts[y_key]): bold_texts[y_key] = current_bold.strip()] *)
Definition keep_longest (bold_texts : ExtractPdf.dict) (current_bold : str)
    (current_y : option Q) : ExtractPdf.dict :=
  let y_key := ExtractPdf.y_key_of current_y in
  match ExtractPdf.dict_get bold_texts y_key with
  | None => ExtractPdf.dict_set bold_texts y_key (strip current_bold)
  | Some existing =>
    if length existing <? length (strip current_bold)
    then ExtractPdf.dict_set bold_texts y_key (strip current_bold)
    else bold_texts
  end.

Definition bold_step (acc : ExtractPdf.dict * str * option Q) (c : ExtractPdf.pchar)
    : ExtractPdf.dict * str * option Q :=
  let '(bold_texts, current_bold, current_y) := acc in
  let char_y := ExtractPdf.c_top c in
  if ExtractPdf.is_bold_char c then
    if match current_y with
       | None => true
       | Some y => ExtractPdf.Qltb (Qabs (char_y - y)) 2
       end
    then (bold_texts, current_bold ++ ExtractPdf.c_text c, Some char_y)
    else
      let bold_texts :=
        if nonempty (strip current_bold) && (3 <? length (strip current_bold))
        then keep_longest bold_texts current_bold current_y
        else bold_texts in
      (bold_texts, ExtractPdf.c_text c, Some char_y)
  else
    if nonempty (strip current_bold)
    then (keep_longest bold_texts current_bold current_y, [], None)
    else acc.

Definition extract_bold_text_by_position (chars : list ExtractPdf.pchar)
    : ExtractPdf.dict :=
  let '(bold_texts, current_bold, current_y) := fold_left bold_step chars ([], [], None) in
  if nonempty (strip current_bold)
  then keep_longest bold_texts current_bold current_y
  else bold_texts.

(** [(y // 10) * 10] *)
Definition normalize_y (y : Z) : Z := (y / 10 * 10)%Z.

(** The loop that fills [y_to_bold]. *)
Definition y_to_bold_of (bold_texts_by_y : ExtractPdf.dict) : ExtractPdf.dict :=
  fold_left (fun (y_to_bold : ExtractPdf.dict) (item : Z * str) =>
               let '(y, bold_text) := item in
               let y_normalized := normalize_y y in
               match ExtractPdf.dict_get y_to_bold y_normalized with
               | None => ExtractPdf.dict_set y_to_bold y_normalized bold_text
               | Some existing =>
                 if length existing <? length bold_text
                 then ExtractPdf.dict_set y_to_bold y_normalized bold_text
                 else y_to_bold
               end)
            bold_texts_by_y [].

Definition skip_keywords : list str :=
  map u ["EMPRESA:"; "C.N.P.J.:"; "PERÍODO:"; "EMISSÃO:"; "HORA:"; "BALANCETE"; "CÓDIGO"; "CLASSIFICAÇÃO"; "DESCRIÇÃO"; "SALDO ANTERIOR"; "DÉBITO"; "CRÉDITO"; "SALDO ATUAL"]%string.

Record state : Set := State {
  current_parent_category : option str;
  all_data : list entry
}.

(** The bold text that makes [line] a category line, if there is one.
    The scan for [line_y] is the one of extract_pdf: [line] is not empty
    here. *)
Definition category_of (chars : list ExtractPdf.pchar) (y_to_bold : ExtractPdf.dict)
    (line : str) : py (option str) :=
  line_y <- ExtractPdf.find_line_y chars line ;;
  match line_y with
  | Some y =>
    let y_normalized := normalize_y (ExtractPdf.py_int y) in
    match ExtractPdf.dict_get y_to_bold y_normalized with
    | Some bold_text =>
      if contains (upper line) (upper bold_text)
         || startswith (upper line) (firstn 20 (upper bold_text))
      then Ok (Some bold_text)
      else Ok None
    | None => Ok None
    end
  | None => Ok None
  end.

(** The body of [for line in lines]. *)
Definition process_line (chars : list ExtractPdf.pchar) (y_to_bold : ExtractPdf.dict)
    (line : str) (st : state) : py state :=
  let line := strip line in
  if negb (nonempty line) || (length line <? 5) then Ok st
  else if Shared.has_skip_keyword skip_keywords line then Ok st
  else
    cat <- category_of chars y_to_bold line ;;
    match cat with
    | Some bold_text =>
      let current := Some (strip bold_text) in
      e <- ExtractPdfV2.parse_line line ;;
      match e with
      | Some entry => Ok (State current (all_data st ++ [set_parent_category entry None]))
      | None => Ok (State current (all_data st))
      end
    | None =>
      e <- ExtractPdfV2.parse_line line ;;
      match e with
      | Some entry =>
        let entry := if truthy (current_parent_category st)
                     then set_parent_category entry (current_parent_category st)
                     else entry in
        Ok (State (current_parent_category st) (all_data st ++ [entry]))
      | None => Ok st
      end
    end.

(** The body of [for page_num, page in enumerate(pdf.pages, 1)]; the
    header of the first page is not part of the data. *)
Definition process_page (pg : ExtractPdf.page) (st : state) : py state :=
  match ExtractPdf.extract_text pg with
  | None | Some [] => Ok st
  | Some text =>
    let bold_texts_by_y := extract_bold_text_by_position (ExtractPdf.chars pg) in
    let y_to_bold := y_to_bold_of bold_texts_by_y in
    for_each (split_on 10 text) (process_line (ExtractPdf.chars pg) y_to_bold) st
  end.

Definition run_pages (pages : list ExtractPdf.page) : py state :=
  for_each pages process_page (State None []).

Definition extract_data_from_pdf (pages : list ExtractPdf.page) : py (list entry) :=
  st <- run_pages pages ;; Ok (all_data st).

End WithUnicode.
End ExtractPdfV2Pass.

(* ===================================================================== *)
(** * extract_pdf_v3.py: the lines rebuilt from the characters              *)
(* ===================================================================== *)

Module ExtractPdfV3Lines.
Section WithUnicode.
Context {U : Unicode}.

(** A character of [page.chars] with its left edge. *)
Record rchar : Set := RChar {
  r_text : str;
  r_top : Q;
  r_x0 : Q;
  r_fontname : str;
  r_bold : bool
}.

(** [round(y)]: the nearest integer, the even one of two that are equally
    near. *)
Definition py_round (y : Q) : Z :=
  let den := Z.pos (Qden y) in
  let floor := (Qnum y / den)%Z in
  let twice_rest := (2 * (Qnum y - floor * den))%Z in
  match (twice_rest ?= den)%Z with
  | Lt => floor
  | Gt => (floor + 1)%Z
  | Eq => if Z.even floor then floor else (floor + 1)%Z
  end.

(** [lines_dict[y].append(char)] on a [defaultdict(list)], in insertion
    order. *)
Fixpoint group_add (lines_dict : list (Z * list rchar)) (y : Z) (c : rchar)
    : list (Z * list rchar) :=
  match lines_dict with
  | [] => [(y, [c])]
  | (k, cs) :: d' =>
    if (k =? y)%Z then (k, cs ++ [c]) :: d' else (k, cs) :: group_add d' y c
  end.

(** [lines_dict[k]], empty for a key that is not there. *)
Fixpoint row_of (lines_dict : list (Z * list rchar)) (k : Z) : list rchar :=
  match lines_dict with
  | [] => []
  | (k', cs) :: d' => if (k' =? k)%Z then cs else row_of d' k
  end.

Definition group_by_row (chars : list rchar) : list (Z * list rchar) :=
  fold_left (fun d c => group_add d (py_round (r_top c)) c) chars [].

(** A stable sort: [x] goes before the first element it may precede. *)
Fixpoint insert_by {A} (before : A -> A -> bool) (x : A) (l : list A) : list A :=
  match l with
  | [] => [x]
  | y :: l' => if before x y then x :: l else y :: insert_by before x l'
  end.

Definition sort_by {A} (before : A -> A -> bool) (l : list A) : list A :=
  fold_right (insert_by before) [] l.

(** [sorted(lines_dict.items(), key=lambda x: x[0], reverse=True)] *)
Definition sorted_lines (lines_dict : list (Z * list rchar)) : list (Z * list rchar) :=
  sort_by (fun a b => (fst b <=? fst a)%Z) lines_dict.

(** [line_chars.sort(key=lambda c: c.get('x0', 0))] *)
Definition sort_chars (line_chars : list rchar) : list rchar :=
  sort_by (fun a b => Qle_bool (r_x0 a) (r_x0 b)) line_chars.

Definition is_bold_char (c : rchar) : bool :=
  contains (upper (r_fontname c)) (u "BOLD") || r_bold c.

(** The loop over the characters of a line: the text and the bold flag. *)
Definition line_of (line_chars : list rchar) : str * bool :=
  fold_left (fun (acc : str * bool) c =>
               let '(line_text, is_bold_line) := acc in
               if nonempty (r_text c)
               then (line_text ++ r_text c,
                     if is_bold_char c then true else is_bold_line)
               else acc)
            line_chars ([], false).

Definition reconstruct_text_from_chars (chars : list rchar) : list (str * Z * bool) :=
  flat_map (fun item : Z * list rchar =>
              let '(y, line_chars) := item in
              let '(line_text, is_bold_line) := line_of (sort_chars line_chars) in
              if nonempty (strip line_text)
              then [(strip line_text, y, is_bold_line)]
              else [])
           (sorted_lines (group_by_row chars)).

End WithUnicode.
End ExtractPdfV3Lines.

(* ===================================================================== *)
(** * extract_header_info                                                   *)
(* ===================================================================== *)

(** The function is the same text in extract_pdf.py, extract_pdf_v2.py and
    extract_pdf_v3.py; extract_pdf_final.py differs in one call, the one
    that finishes the company name. *)
Module HeaderInfo.
Import Re.
Section WithUnicode.
Context {U : Unicode}.

Record header : Set := Header {
  company : option str;
  cnpj : option str;
  report_type : option str;
  period : option str;
  issue_date : option str;
  time : option str;
  page : option str;
  book_number : option str
}.

(** [Empresa:\s*(.+?)(?:\s+Folha:|$)] *)
Definition company_re : re :=
  cat [lits "Empresa:"; star spc; Group 1 (Repeat 1 None false Dot);
       Alt (cat [plus spc; lits "Folha:"]) Eol].

(** [\d{2}\.\d{3}\.\d{3}/\d{4}-\d{2}] *)
Definition cnpj_digits : re :=
  cat [times 2 dig; Lit (ch "."); times 3 dig; Lit (ch "."); times 3 dig;
       Lit (ch "/"); times 4 dig; Lit (ch "-"); times 2 dig].

(** [\d{2}/\d{2}/\d{4}] *)
Definition date_digits : re :=
  cat [times 2 dig; Lit (ch "/"); times 2 dig; Lit (ch "/"); times 4 dig].

(** [\d{2}:\d{2}:\d{2}] *)
Definition time_digits : re :=
  cat [times 2 dig; Lit (ch ":"); times 2 dig; Lit (ch ":"); times 2 dig].

(** [C\.N\.P\.J\.:\s*(\d{2}\.\d{3}\.\d{3}/\d{4}-\d{2})] *)
Definition cnpj_re : re := cat [lits "C.N.P.J.:"; star spc; Group 1 cnpj_digits].

(** [Número livro:\s*(\d+)] *)
Definition book_re : re := cat [lits "Número livro:"; star spc; Group 1 (plus dig)].

(** [Período:\s*(\d{2}/\d{2}/\d{4})\s*-\s*(\d{2}/\d{2}/\d{4})] *)
Definition period_re : re :=
  cat [lits "Período:"; star spc; Group 1 date_digits; star spc; Lit (ch "-");
       star spc; Group 2 date_digits].

(** [Emissão:\s*(\d{2}/\d{2}/\d{4})] *)
Definition date_re : re := cat [lits "Emissão:"; star spc; Group 1 date_digits].

(** [Hora:\s*(\d{2}:\d{2}:\d{2})] *)
Definition time_re : re := cat [lits "Hora:"; star spc; Group 1 time_digits].

(** [Folha:\s*(\d+)] *)
Definition page_re : re := cat [lits "Folha:"; star spc; Group 1 (plus dig)].

(** A group in an f-string: a group that took no part prints as [None]. *)
Definition formatted (o : option str) : str :=
  match o with
  | Some t => t
  | None => u "None"
  end.

(** [m.group(1)] when [m] is a match, for the fields set under [if m:]. *)
Definition group1_of (r : re) (text : str) : option str :=
  match re_search r text with
  | Some m => group m 1
  | None => None
  end.

(** The loop over [lines[:5]]: the first line with ["Empresa:"] decides,
    [finish] is applied to its first group. *)
Definition company_of (finish : str -> str) (lines : list str) : py (option str) :=
  match find (fun line => contains line (u "Empresa:")) (firstn 5 lines) with
  | Some line =>
    match re_search company_re line with
    | Some m => name <- attr (group m 1) finish ;; Ok (Some name)
    | None => Ok None
    end
  | None => Ok None
  end.

Definition header_with (finish : str -> str) (text : str) : py header :=
  let lines := split_on 10 text in
  company <- company_of finish lines ;;
  let cnpj := group1_of cnpj_re text in
  let book_number := group1_of book_re text in
  let period :=
    match re_search period_re text with
    | Some m => Some (formatted (group m 1) ++ u " - " ++ formatted (group m 2))
    | None => None
    end in
  let issue_date := group1_of date_re text in
  let time := group1_of time_re text in
  let report_type :=
    if contains (upper text) (u "BALANCETE")
    then Some (if contains (upper text) (u "CONSOLIDADO")
               then u "BALANCETE CONSOLIDADO" else u "BALANCETE")
    else None in
  let page := group1_of page_re text in
  Ok (Header company cnpj report_type period issue_date time page book_number).

(** extract_pdf.py, extract_pdf_v2.py, extract_pdf_v3.py:
    [header["company"] = match.group(1).strip()] *)
Definition extract_header_info (text : str) : py header := header_with strip text.

(** extract_pdf_final.py: [header["company"] = clean_text(match.group(1))] *)
Definition extract_header_info_final (text : str) : py header :=
  header_with ExtractPdfFinal.clean_text text.

End WithUnicode.
End HeaderInfo.

Section Shape.
Context {U : Unicode}.

(** [t] reads as [shape]: a decimal digit where [shape] has a [d], the
    character of [shape] elsewhere. *)
Fixpoint has_shape (shape t : str) : bool :=
  match shape, t with
  | [], [] => true
  | s :: shape', x :: t' =>
    (if char_eqb s (ch "d") then is_decimal x else char_eqb x s) && has_shape shape' t'
  | _, _ => false
  end.

(** [value] stands in [text] after [label] and spaces. *)
Definition follows (text label value : str) : Prop :=
  exists before spaces after,
    text = before ++ label ++ spaces ++ value ++ after
    /\ forallb is_space spaces = true.

End Shape.

(* ===================================================================== *)
(** * The amounts of a record                                              *)
(* ===================================================================== *)

(** The four monetary fields of a record. *)
Definition amounts (e : entry) : list (option str) :=
  [previous_balance e; debit e; credit e; current_balance e].

(** [value] is a piece of [text]. *)
Definition stands_in (value text : str) : Prop :=
  exists before after, text = before ++ value ++ after.

Section AmountPredicates.
Context {U : Unicode}.

(** A non-empty run of digits and dots, a comma and two digits. *)
Definition amount_text (v : str) : Prop :=
  exists a d1 d2,
    v = a ++ [ch ","; d1; d2]
    /\ nonempty a = true /\ forallb amount_char a = true
    /\ is_decimal d1 = true /\ is_decimal d2 = true.

(** An optional minus sign, one to three digits, groups of a dot and three
    digits, a comma and two digits. *)
Definition grouped_amount_text (v : str) : Prop :=
  exists sign g0 gs d1 d2,
    v = sign ++ g0 ++ concat (map (fun g => ch "." :: g) gs) ++ [ch ","; d1; d2]
    /\ (sign = [] \/ sign = [ch "-"])
    /\ 1 <= length g0 <= 3 /\ forallb is_decimal g0 = true
    /\ Forall (fun g => length g = 3 /\ forallb is_decimal g = true) gs
    /\ is_decimal d1 = true /\ is_decimal d2 = true.

End AmountPredicates.

(* ===================================================================== *)
(** * final_balancete_parser.py: extract_header                             *)
(* ===================================================================== *)

Module BalanceteHeader.
Import Re HeaderInfo.
Section WithUnicode.
Context {U : Unicode}.

(** [str.lower]; the function uses it in one test only, and nothing is
    assumed about it. *)
Variable lower : str -> str.

(** [Empresa:\s*([A-ZÀ-Ú\s]+?)(?:\s+Folha:|$)] *)
Definition company_chars : list item :=
  [Range (ch "A") (ch "Z"); Range (ch "À") (ch "Ú"); Cls Space].
Definition company_re : re :=
  cat [lits "Empresa:"; star spc; Group 1 (Repeat 1 None false (OneOf company_chars));
       Alt (cat [plus spc; lits "Folha:"]) Eol].

(** [C\.N\.P\.J\.|CNPJ] *)
Definition cnpj_label_re : re := Alt (lits "C.N.P.J.") (lits "CNPJ").

(** [(\d{2}\.\d{3}\.\d{3}/\d{4}-\d{2})] *)
Definition cnpj_re : re := Group 1 cnpj_digits.

(** [livro:\s*(\d+)] with [re.IGNORECASE]: a letter of the pattern matches
    the characters whose lower case it is, and [i] also the dotless
    U+0131. *)
Definition book_re : re :=
  cat [OneOf [One (ch "l"); One (ch "L")];
       OneOf [One (ch "i"); One (ch "I"); One 304%N; One 305%N];
       OneOf [One (ch "v"); One (ch "V")];
       OneOf [One (ch "r"); One (ch "R")];
       OneOf [One (ch "o"); One (ch "O")];
       Lit (ch ":"); star spc; Group 1 (plus dig)].

(** [(\d{2}/\d{2}/\d{4})\s*-\s*(\d{2}/\d{2}/\d{4})] *)
Definition period_re : re :=
  cat [Group 1 date_digits; star spc; Lit (ch "-"); star spc; Group 2 date_digits].

Definition found (r : re) (line : str) : bool :=
  match re_search r line with
  | Some _ => true
  | None => false
  end.

Definition set_company (h : header) (v : option str) : header :=
  Header v (cnpj h) (report_type h) (period h) (issue_date h) (time h) (page h)
         (book_number h).
Definition set_cnpj (h : header) (v : option str) : header :=
  Header (company h) v (report_type h) (period h) (issue_date h) (time h) (page h)
         (book_number h).
Definition set_report_type (h : header) (v : option str) : header :=
  Header (company h) (cnpj h) v (period h) (issue_date h) (time h) (page h)
         (book_number h).
Definition set_period (h : header) (v : option str) : header :=
  Header (company h) (cnpj h) (report_type h) v (issue_date h) (time h) (page h)
         (book_number h).
Definition set_issue_date (h : header) (v : option str) : header :=
  Header (company h) (cnpj h) (report_type h) (period h) v (time h) (page h)
         (book_number h).
Definition set_time (h : header) (v : option str) : header :=
  Header (company h) (cnpj h) (report_type h) (period h) (issue_date h) v (page h)
         (book_number h).
Definition set_book_number (h : header) (v : option str) : header :=
  Header (company h) (cnpj h) (report_type h) (period h) (issue_date h) (time h)
         (page h) v.

(** [if test: match = re.search(r, line); if match: header[key] =
    match.group(1)] *)
Definition set_group1 (test : bool) (r : re) (line : str)
    (set : header -> option str -> header) (h : header) : header :=
  if test then
    match re_search r line with
    | Some m => set h (group m 1)
    | None => h
    end
  else h.

(** The body of the loop over the lines. *)
Definition header_step (line : str) (h : header) : py header :=
  h <- (if contains line (u "Empresa:") then
          match re_search company_re line with
          | Some m => name <- attr (group m 1) strip ;; Ok (set_company h (Some name))
          | None => Ok h
          end
        else Ok h) ;;
  let h := set_group1 (found cnpj_label_re line) cnpj_re line set_cnpj h in
  let h := set_group1 (contains (lower line) (u "livro:")) book_re line set_book_number h in
  let h :=
    if contains line (u "Período:") then
      match re_search period_re line with
      | Some m =>
        set_period h (Some (formatted (group m 1) ++ u " - " ++ formatted (group m 2)))
      | None => h
      end
    else h in
  let h := set_group1 (contains line (u "Emissão:")) date_re line set_issue_date h in
  let h := set_group1 (contains line (u "Hora:")) time_re line set_time h in
  let h :=
    if contains line (u "BALANCETE") && negb (truthy (report_type h))
    then set_report_type h (Some (u "BALANCETE CONSOLIDADO"))
    else h in
  Ok h.

Definition empty_header : header := Header None None None None None None None None.

Definition extract_header (text : str) : py header :=
  let lines := firstn 25 (split_on 10 text) in
  for_each lines header_step empty_header.

End WithUnicode.
End BalanceteHeader.

(** A field that is null or holds a text with [P]. *)
Definition field_ok (P : str -> Prop) (o : option str) : Prop :=
  forall v, o = Some v -> P v.

Section CompanyCharacters.
Context {U : Unicode}.

(** [[A-ZÀ-Ú\s]] *)
Definition company_char (x : char) : bool :=
  in_range (ch "A") (ch "Z") x || in_range (ch "À") (ch "Ú") x || is_space x.

(** What the loop of [extract_header] keeps true of the header. *)
Definition header_ok (h : HeaderInfo.header) : Prop :=
  HeaderInfo.page h = None
  /\ (HeaderInfo.report_type h = None
      \/ HeaderInfo.report_type h = Some (u "BALANCETE CONSOLIDADO"))
  /\ field_ok (fun v => strip v = v /\ forallb company_char v = true)
              (HeaderInfo.company h)
  /\ field_ok (fun v => has_shape (u "dd.ddd.ddd/dddd-dd") v = true) (HeaderInfo.cnpj h)
  /\ field_ok (fun v => digits v = true) (HeaderInfo.book_number h)
  /\ field_ok (fun v => has_shape (u "dd/dd/dddd - dd/dd/dddd") v = true)
              (HeaderInfo.period h)
  /\ field_ok (fun v => has_shape (u "dd/dd/dddd") v = true) (HeaderInfo.issue_date h)
  /\ field_ok (fun v => has_shape (u "dd:dd:dd") v = true) (HeaderInfo.time h).

End CompanyCharacters.

(* ===================================================================== *)
(** * final_balancete_parser.py: parse_balancete_pdf                        *)
(* ===================================================================== *)

(** The document is given by what [page.extract_text()] returns for each
    of its pages. *)
Module BalancetePdf.
Section WithUnicode.
Context {U : Unicode}.
Variable lower : str -> str.

Record result : Set := Result {
  header : HeaderInfo.header;
  data : list entry
}.

(** [if text: all_text += text + "\n"] *)
Definition add_page (all_text : str) (text : option str) : str :=
  match text with
  | Some t => if nonempty t then all_text ++ (t ++ [10%N]) else all_text
  | None => all_text
  end.

Definition all_text (pages : list (option str)) : str := fold_left add_page pages [].

Definition parse_balancete_pdf (pages : list (option str)) : py result :=
  let all_text := all_text pages in
  header <- BalanceteHeader.extract_header lower all_text ;;
  data <- FinalBalancete.extract_data all_text ;;
  Ok (Result header data).

End WithUnicode.
End BalancetePdf.

(* ===================================================================== *)
(** * The text behind the account                                          *)
(* ===================================================================== *)

Section AccountText.
Context {U : Unicode}.

(** The text that [parse_data_line] normalizes into the account when it
    finds no classification, [line] being the line as the parser reads
    it: the whole line when it holds no amount; otherwise the text before
    the first amount, from the end of the first match of [\b(\d{4,6})\b]
    on, or all of it when there is no match. *)
Definition account_text (line : str) : str :=
  match Re.re_finditer Shared.monetary_pattern line with
  | [] => line
  | m0 :: _ =>
    let parts_before_values := strip (firstn (Re.m_start m0) line) in
    let account_start_idx :=
      match Re.re_search Shared.code_re parts_before_values with
      | Some code_match => Re.m_end code_match
      | None => 0
      end in
    strip (skipn account_start_idx parts_before_values)
  end.

(** [parts_after_values] of extract_pdf_final: the text after the last
    amount. *)
Definition text_after_amounts (line : str) : str :=
  let monetary_matches := Re.re_finditer Shared.monetary_pattern line in
  match nth_error monetary_matches (length monetary_matches - 1) with
  | Some m => strip (skipn (Re.m_end m) line)
  | None => []
  end.

(** In extract_pdf_final the text after the last amount stands in for an
    empty account text. *)
Definition account_text_final (line : str) : str :=
  let account_text := account_text line in
  if negb (nonempty account_text) && nonempty (text_after_amounts line)
  then text_after_amounts line
  else account_text.

End AccountText.

(* ===================================================================== *)
(** * Facts about the error monad and the list operations                  *)
(* ===================================================================== *)

Lemma bind_ok_inv A B (m : py A) (f : A -> py B) (b : B) :
  bind m f = Ok b -> exists a, m = Ok a /\ f a = Ok b.
Proof.
  destruct m as [a | e]; simpl; intros H; [eauto | discriminate].
Qed.

Lemma getitem_nat A (l : list A) (i : nat) (a : A) :
  nth_error l i = Some a -> getitem l (Z.of_nat i) = Ok a.
Proof.
  intros H. unfold getitem.
  destruct (Z.of_nat i <? 0)%Z eqn:E; [apply Z.ltb_lt in E; lia |].
  rewrite E, Nat2Z.id, H. reflexivity.
Qed.

Lemma getitem_lt A (l : list A) (i : nat) :
  i < length l -> exists a, getitem l (Z.of_nat i) = Ok a /\ nth_error l i = Some a.
Proof.
  intros H. destruct (nth_error l i) as [a |] eqn:E.
  - exists a. split; [apply getitem_nat; exact E | reflexivity].
  - apply nth_error_None in E. lia.
Qed.

Lemma getitem_from_end A (l : list A) (k : nat) :
  0 < k <= length l ->
  exists a, getitem l (- Z.of_nat k) = Ok a /\ nth_error l (length l - k) = Some a.
Proof.
  intros H. unfold getitem.
  destruct (- Z.of_nat k <? 0)%Z eqn:E; [| apply Z.ltb_ge in E; lia].
  destruct (- Z.of_nat k + Z.of_nat (length l) <? 0)%Z eqn:E2;
    [apply Z.ltb_lt in E2; lia |].
  replace (Z.to_nat (- Z.of_nat k + Z.of_nat (length l))) with (length l - k) by lia.
  destruct (nth_error l (length l - k)) as [a |] eqn:E3.
  - eauto.
  - apply nth_error_None in E3. lia.
Qed.

Lemma for_each_total A S (body : A -> S -> py S) (l : list A) :
  (forall x acc, In x l -> exists acc', body x acc = Ok acc') ->
  forall acc, exists r, for_each l body acc = Ok r.
Proof.
  induction l as [| x l IH]; intros H acc; simpl.
  - eauto.
  - destruct (H x acc (or_introl eq_refl)) as [acc' E]. rewrite E. simpl.
    apply IH. intros y a Hy. apply H. right. exact Hy.
Qed.

Lemma for_each_invariant A S (P : S -> Prop) (body : A -> S -> py S) (l : list A) :
  (forall x s s', body x s = Ok s' -> P s -> P s') ->
  forall s0 s, for_each l body s0 = Ok s -> P s0 -> P s.
Proof.
  intros Hstep. induction l as [| x l IH]; intros s0 s H H0; simpl in H.
  - inversion H. subst. exact H0.
  - apply bind_ok_inv in H. destruct H as [s1 [H1 H2]].
    eapply IH; [exact H2 |]. eapply Hstep; eauto.
Qed.

Lemma last_cons A (l : list A) (x d : A) : last (x :: l) d = last l x.
Proof.
  revert x d. induction l as [| y l IH]; intros x d; [reflexivity |].
  change (last (x :: y :: l) d) with (last (y :: l) d).
  rewrite (IH y d), (IH y x). reflexivity.
Qed.

Lemma firstn_skipn_app A (n : nat) (a b : list A) :
  n = length a -> firstn n (a ++ b) = a /\ skipn n (a ++ b) = b.
Proof.
  intros ->. split.
  - rewrite firstn_app, Nat.sub_diag, firstn_all. simpl. apply app_nil_r.
  - rewrite skipn_app, Nat.sub_diag, skipn_all. reflexivity.
Qed.

Lemma skipn_skipn_app A (i : nat) (subj t a b : list A) :
  t = skipn i subj -> t = a ++ b -> b = skipn (i + length a) subj.
Proof.
  intros Ht Hab. rewrite Nat.add_comm, <- skipn_skipn, <- Ht, Hab.
  symmetry. apply (firstn_skipn_app a b eq_refl).
Qed.

Lemma slice_consumed (subj : str) (i : nat) (a b : str) :
  skipn i subj = a ++ b -> slice subj i (i + length a) = a.
Proof.
  intros H. unfold slice. rewrite H.
  replace (i + length a - i) with (length a) by lia.
  apply (firstn_skipn_app a b eq_refl).
Qed.

(* ===================================================================== *)
(** * Facts about the matcher                                              *)
(* ===================================================================== *)

Section EngineFacts.
Context {U : Unicode}.
Import Re.

Lemma run_Seq R a b (k : cursor -> groups -> option R) c g :
  run (Seq a b) k c g = run a (run b k) c g.
Proof. reflexivity. Qed.

Lemma run_Empty R (k : cursor -> groups -> option R) c g :
  run Empty k c g = k c g.
Proof. reflexivity. Qed.

Lemma run_Repeat R lo hi greedy r (k : cursor -> groups -> option R) c g :
  run (Repeat lo hi greedy r) k c g
  = rep_loop (run r) lo hi greedy k (length (rest c)) 0 c g.
Proof. reflexivity. Qed.

Lemma run_Group R i r (k : cursor -> groups -> option R) c g :
  run (Group i r) k c g = run r (fun c' g' => k c' ((i, (pos c, pos c')) :: g')) c g.
Proof. reflexivity. Qed.

Lemma run_Lit R x (k : cursor -> groups -> option R) c g :
  run (Lit x) k c g = step (fun y => char_eqb y x) k c g.
Proof. reflexivity. Qed.

Lemma run_OneOf R items (k : cursor -> groups -> option R) c g :
  run (OneOf items) k c g = step (set_has items) k c g.
Proof. reflexivity. Qed.

Lemma run_NoneOf R items (k : cursor -> groups -> option R) c g :
  run (NoneOf items) k c g = step (fun y => negb (set_has items y)) k c g.
Proof. reflexivity. Qed.

Lemma step_inv R ok (k : cursor -> groups -> option R) c g x :
  step ok k c g = Some x ->
  exists y t, rest c = y :: t /\ ok y = true
              /\ k (Cursor (S (pos c)) (Some y) t) g = Some x.
Proof.
  unfold step. destruct (rest c) as [| y t]; [discriminate |].
  destruct (ok y) eqn:E; [| discriminate]. intros H. eauto.
Qed.

Lemma or_else_inv R (a : option R) b x :
  or_else a b = Some x -> a = Some x \/ (a = None /\ b tt = Some x).
Proof. destruct a; simpl; intros H; [left | right]; auto. Qed.

Lemma rep_loop_S R body lo hi greedy (k : cursor -> groups -> option R) fuel n c g :
  rep_loop body lo hi greedy k (S fuel) n c g
  = if greedy
    then or_else
           (if below n hi
            then body (fun c' g' =>
                         if pos c' =? pos c then None
                         else rep_loop body lo hi greedy k fuel (S n) c' g') c g
            else None)
           (fun _ => if lo <=? n then k c g else None)
    else or_else
           (if lo <=? n then k c g else None)
           (fun _ =>
              if below n hi
              then body (fun c' g' =>
                           if pos c' =? pos c then None
                           else rep_loop body lo hi greedy k fuel (S n) c' g') c g
              else None).
Proof. reflexivity. Qed.

(** A repetition of a one-character pattern consumes a run of characters
    of its class, within its bounds. *)
Lemma rep_class_inv R body ok lo hi greedy (k : cursor -> groups -> option R) :
  (forall k' c g, body k' c g = step ok k' c g) ->
  forall fuel n c g x,
    (forall h, hi = Some h -> n <= h) ->
    rep_loop body lo hi greedy k fuel n c g = Some x ->
    exists taken c',
      rest c = taken ++ rest c' /\ forallb ok taken = true
      /\ pos c' = pos c + length taken
      /\ lo <= n + length taken
      /\ (forall h, hi = Some h -> n + length taken <= h)
      /\ k c' g = Some x.
Proof.
  intros Hbody. induction fuel as [| fuel IH]; intros n c g x Hn H.
  - simpl in H. destruct (lo <=? n) eqn:E; [| discriminate].
    apply Nat.leb_le in E. exists [], c. simpl.
    repeat split; auto; try lia. intros h Hh. specialize (Hn h Hh). lia.
  - assert (Hstop : (if lo <=? n then k c g else None) = Some x ->
                    exists taken c',
                      rest c = taken ++ rest c' /\ forallb ok taken = true
                      /\ pos c' = pos c + length taken
                      /\ lo <= n + length taken
                      /\ (forall h, hi = Some h -> n + length taken <= h)
                      /\ k c' g = Some x).
    { destruct (lo <=? n) eqn:E; [| discriminate].
      apply Nat.leb_le in E. intros Hk. exists [], c. simpl.
      repeat split; auto; try lia. intros h Hh. specialize (Hn h Hh). lia. }
    assert (Hagain :
              (if below n hi
               then body (fun c' g' =>
                            if pos c' =? pos c then None
                            else rep_loop body lo hi greedy k fuel (S n) c' g') c g
               else None) = Some x ->
              exists taken c',
                rest c = taken ++ rest c' /\ forallb ok taken = true
                /\ pos c' = pos c + length taken
                /\ lo <= n + length taken
                /\ (forall h, hi = Some h -> n + length taken <= h)
                /\ k c' g = Some x).
    { destruct (below n hi) eqn:Eb; [| discriminate].
      rewrite Hbody. intros Hs. apply step_inv in Hs.
      destruct Hs as [y [t [Hr [Hy Hk]]]]. cbn [pos] in Hk.
      replace (S (pos c) =? pos c) with false in Hk
        by (symmetry; apply Nat.eqb_neq; lia).
      apply IH in Hk.
      - destruct Hk as [taken [c' [H1 [H2 [H3 [H4 [H5 H6]]]]]]]. cbn [rest pos] in H1, H3.
        exists (y :: taken), c'. simpl. rewrite Hy, H2, Hr, H1.
        repeat split; auto; try lia.
        intros h Hh. specialize (H5 h Hh). lia.
      - intros h Hh. subst hi. simpl in Eb. apply Nat.ltb_lt in Eb. lia. }
    simpl in H. destruct greedy; apply or_else_inv in H;
      destruct H as [H | [_ H]]; auto.
Qed.

(** A greedy unbounded repetition of a one-character pattern first tries
    the longest run; when the continuation accepts there, that is the
    result. *)
Lemma rep_class_greedy R body ok lo (k : cursor -> groups -> option R) :
  (forall k' c g, body k' c g = step ok k' c g) ->
  forall taken fuel n i p g t x,
    forallb ok taken = true ->
    match t with
    | [] => True
    | y :: _ => ok y = false
    end ->
    lo <= n + length taken ->
    k (Cursor (i + length taken) (last (map Some taken) p) t) g = Some x ->
    (rep_loop body lo None true k fuel n (Cursor i p (taken ++ t)) g = Some x)
    \/ (fuel < length taken).
Proof.
  intros Hbody. induction taken as [| y taken IH]; intros fuel n i p g t x Hall Ht Hlo Hk.
  - left. simpl in *. rewrite Nat.add_0_r in *.
    assert (E : (lo <=? n) = true) by (apply Nat.leb_le; lia).
    destruct fuel as [| fuel]; simpl; rewrite E; [exact Hk |].
    rewrite Hbody. unfold step. simpl.
    destruct t as [| z t]; simpl; [exact Hk |]. rewrite Ht. simpl. exact Hk.
  - simpl in Hall. apply andb_prop in Hall. destruct Hall as [Hy Hall].
    destruct fuel as [| fuel]; [right; simpl; lia |].
    specialize (IH fuel (S n) (S i) (Some y) g t x Hall Ht).
    destruct IH as [IH | IH].
    + simpl. simpl in Hlo. lia.
    + rewrite map_cons, last_cons in Hk.
      replace (S i + length taken) with (i + length (y :: taken)) by (simpl; lia).
      exact Hk.
    + left. rewrite rep_loop_S, Hbody. unfold step. cbn [rest pos app]. rewrite Hy.
      replace (S i =? i) with false by (symmetry; apply Nat.eqb_neq; lia).
      rewrite IH. reflexivity.
    + right. simpl. lia.
Qed.

Lemma search_from_inv r subj i p t m :
  search_from r subj i p t = Some m ->
  exists skipped p' t',
    t = skipped ++ t'
    /\ match_at r subj (Cursor (i + length skipped) p' t') = Some m.
Proof.
  revert i p. induction t as [| y t IH]; intros i p H; simpl in H.
  - destruct (match_at r subj (Cursor i p [])) eqn:E; [| discriminate].
    inversion H. subst. exists [], p, []. simpl. rewrite Nat.add_0_r. auto.
  - destruct (match_at r subj (Cursor i p (y :: t))) eqn:E.
    + inversion H. subst. exists [], p, (y :: t). simpl. rewrite Nat.add_0_r. auto.
    + apply IH in H. destruct H as [sk [p' [t' [H1 H2]]]].
      exists (y :: sk), p', t'. simpl. rewrite H1.
      replace (i + S (length sk)) with (S i + length sk) by lia. auto.
Qed.

Lemma search_from_none r subj i p t :
  (forall j q t', match_at r subj (Cursor j q t') = None) ->
  search_from r subj i p t = None.
Proof.
  intros H. revert i p. induction t as [| y t IH]; intros i p; simpl; rewrite H; auto.
Qed.

(** Every match of [finditer] is a match of the pattern at a position of
    the subject. *)
Lemma finditer_from_In r subj fuel :
  forall i p t m,
    t = skipn i subj ->
    In m (finditer_from fuel r subj i p t) ->
    exists j q, match_at r subj (Cursor j q (skipn j subj)) = Some m.
Proof.
  induction fuel as [| fuel IH]; intros i p t m Ht Hin; simpl in Hin; [contradiction |].
  destruct (search_from r subj i p t) as [m0 |] eqn:E; [| contradiction].
  destruct Hin as [-> | Hin].
  - apply search_from_inv in E. destruct E as [sk [p' [t' [H1 H2]]]].
    exists (i + length sk), p'.
    rewrite <- (skipn_skipn_app i subj sk t' Ht H1). exact H2.
  - destruct (m_end m0 =? m_start m0).
    + destruct (skipn (m_end m0) subj) as [| x t''] eqn:E2; [contradiction |].
      eapply IH; [| exact Hin].
      change (S (m_end m0)) with (1 + m_end m0).
      rewrite <- skipn_skipn, E2. reflexivity.
    + eapply IH; [| exact Hin]. reflexivity.
Qed.

Lemma re_finditer_In r subj m :
  In m (re_finditer r subj) ->
  exists j q, match_at r subj (Cursor j q (skipn j subj)) = Some m.
Proof.
  unfold re_finditer. apply finditer_from_In. reflexivity.
Qed.

Lemma re_search_inv r subj m :
  re_search r subj = Some m ->
  exists j q, match_at r subj (Cursor j q (skipn j subj)) = Some m.
Proof.
  unfold re_search. intros H. apply search_from_inv in H.
  destruct H as [sk [p' [t' [H1 H2]]]]. exists (0 + length sk), p'.
  rewrite <- (skipn_skipn_app 0 subj sk t' eq_refl H1). exact H2.
Qed.

End EngineFacts.

(* ===================================================================== *)
(** * What the patterns of the parsers match                               *)
(* ===================================================================== *)

Section Shapes.
Context {U : Unicode}.
Import Re.

Lemma consumes_refl c : consumes c [] c.
Proof. split; simpl; [reflexivity | lia]. Qed.

Lemma consumes_trans c1 a c2 b c3 :
  consumes c1 a c2 -> consumes c2 b c3 -> consumes c1 (a ++ b) c3.
Proof.
  intros [H1 H2] [H3 H4]. split.
  - rewrite H1, H3, app_assoc. reflexivity.
  - rewrite H4, H2, length_app. lia.
Qed.

Lemma consumes_slice subj c text c' :
  rest c = skipn (pos c) subj -> consumes c text c' ->
  slice subj (pos c) (pos c') = text.
Proof.
  intros Hc [H1 H2]. rewrite H2. eapply slice_consumed.
  rewrite <- Hc. exact H1.
Qed.

Lemma run_class_plus_inv R items (k : cursor -> groups -> option R) c g x :
  run (plus (OneOf items)) k c g = Some x ->
  exists taken c',
    consumes c taken c' /\ nonempty taken = true
    /\ forallb (set_has items) taken = true /\ k c' g = Some x.
Proof.
  unfold plus. rewrite run_Repeat. intros H.
  apply rep_class_inv with (ok := set_has items) in H;
    [| intros; reflexivity | discriminate].
  destruct H as [taken [c' [H1 [H2 [H3 [H4 [_ H6]]]]]]].
  exists taken, c'. repeat split; auto.
  destruct taken; [simpl in H4; lia | reflexivity].
Qed.

Lemma run_class_between_inv R items lo hi (k : cursor -> groups -> option R) c g x :
  run (between lo hi (OneOf items)) k c g = Some x ->
  exists taken c',
    consumes c taken c' /\ lo <= length taken <= hi
    /\ forallb (set_has items) taken = true /\ k c' g = Some x.
Proof.
  unfold between. rewrite run_Repeat. intros H.
  apply rep_class_inv with (ok := set_has items) in H;
    [| intros; reflexivity | intros h Hh; lia].
  destruct H as [taken [c' [H1 [H2 [H3 [H4 [H5 H6]]]]]]].
  exists taken, c'. specialize (H5 hi eq_refl). repeat split; auto; lia.
Qed.

Lemma run_lit_inv R y (k : cursor -> groups -> option R) c g x :
  run (Lit y) k c g = Some x ->
  exists c', consumes c [y] c' /\ k c' g = Some x.
Proof.
  rewrite run_Lit. intros H. apply step_inv in H.
  destruct H as [z [t [H1 [H2 H3]]]]. apply N.eqb_eq in H2. subst z.
  eexists. split; [| exact H3]. split; simpl; [exact H1 | lia].
Qed.

Lemma run_WordB_inv R (k : cursor -> groups -> option R) c g x :
  run WordB k c g = Some x -> k c g = Some x.
Proof.
  simpl. destruct (xorb _ _); [auto | discriminate].
Qed.

Lemma set_digit_only t : forallb (set_has [Cls Digit]) t = forallb is_decimal t.
Proof.
  induction t as [| y t IH]; simpl; [reflexivity |].
  rewrite IH, orb_false_r. reflexivity.
Qed.

Lemma run_digits_inv R (k : cursor -> groups -> option R) c g x :
  run (plus dig) k c g = Some x ->
  exists a c', consumes c a c' /\ digits a = true /\ k c' g = Some x.
Proof.
  intros H. apply run_class_plus_inv in H.
  destruct H as [a [c' [H1 [H2 [H3 H4]]]]]. exists a, c'.
  repeat split; try apply H1; auto.
  unfold digits. rewrite H2, <- set_digit_only, H3. reflexivity.
Qed.

(** [\.\d+] *)
Lemma run_dot_digits_inv R r (k : cursor -> groups -> option R) c g x :
  run (Seq (Lit (ch ".")) (Seq (plus dig) r)) k c g = Some x ->
  exists a c', consumes c (ch "." :: a) c' /\ digits a = true
               /\ run r k c' g = Some x.
Proof.
  rewrite run_Seq. intros H. apply run_lit_inv in H. destruct H as [c1 [H1 H]].
  rewrite run_Seq in H. apply run_digits_inv in H.
  destruct H as [a [c' [H2 [H3 H4]]]]. exists a, c'. repeat split; auto.
  - destruct (consumes_trans H1 H2) as [E _]. exact E.
  - destruct (consumes_trans H1 H2) as [_ E]. exact E.
Qed.

Lemma run_five_inv R (k : cursor -> groups -> option R) c g x :
  run Shared.five_groups_re k c g = Some x ->
  exists a b c3 d e c',
    consumes c (a ++ ch "." :: b ++ ch "." :: c3 ++ ch "." :: d ++ ch "." :: e) c'
    /\ digits a = true /\ digits b = true /\ digits c3 = true
    /\ digits d = true /\ digits e = true /\ k c' g = Some x.
Proof.
  unfold Shared.five_groups_re, cat. cbn [fold_right]. rewrite run_Seq. intros H.
  apply run_digits_inv in H. destruct H as [a [c1 [Ha [Da H]]]].
  apply run_dot_digits_inv in H. destruct H as [b [c2 [Hb [Db H]]]].
  apply run_dot_digits_inv in H. destruct H as [c3 [c4 [Hc [Dc H]]]].
  apply run_dot_digits_inv in H. destruct H as [d [c5 [Hd [Dd H]]]].
  apply run_dot_digits_inv in H. destruct H as [e [c' [He [De H]]]].
  rewrite run_Empty in H.
  exists a, b, c3, d, e, c'. repeat split; auto.
  - pose proof (consumes_trans Ha (consumes_trans Hb (consumes_trans Hc
                  (consumes_trans Hd He)))) as [E _].
    simpl in E. exact E.
  - pose proof (consumes_trans Ha (consumes_trans Hb (consumes_trans Hc
                  (consumes_trans Hd He)))) as [_ E].
    simpl in E. exact E.
Qed.

End Shapes.

(* ===================================================================== *)
(** * The classification field                                             *)
(* ===================================================================== *)

Section ClassificationField.
Context {U : Unicode}.
Import Re Shared.

Lemma dot_not_decimal : is_decimal (ch ".") = false.
Proof. rewrite decimal_latin1; [reflexivity | reflexivity]. Qed.

Lemma decimal_not_dot y : is_decimal y = true -> char_eqb y (ch ".") = false.
Proof.
  intros H. destruct (char_eqb y (ch ".")) eqn:E; [| reflexivity].
  apply N.eqb_eq in E. subst y. rewrite dot_not_decimal in H. discriminate.
Qed.

Lemma split_on_digits a :
  forallb is_decimal a = true -> split_on (ch ".") a = [a].
Proof.
  induction a as [| y a IH]; simpl; intros H; [reflexivity |].
  apply andb_prop in H. destruct H as [Hy Ha].
  rewrite (decimal_not_dot y Hy), (IH Ha). reflexivity.
Qed.

Lemma split_on_digits_dot a t :
  forallb is_decimal a = true ->
  split_on (ch ".") (a ++ ch "." :: t) = a :: split_on (ch ".") t.
Proof.
  induction a as [| y a IH]; simpl; intros H.
  - reflexivity.
  - apply andb_prop in H. destruct H as [Hy Ha].
    rewrite (decimal_not_dot y Hy), (IH Ha). reflexivity.
Qed.

Lemma digits_all a : digits a = true -> forallb is_decimal a = true.
Proof. unfold digits. intros H. apply andb_prop in H. apply H. Qed.

Lemma count_dot_digits a : forallb is_decimal a = true -> count_char (ch ".") a = 0.
Proof.
  induction a as [| y a IH]; simpl; intros H; [reflexivity |].
  apply andb_prop in H. destruct H as [Hy Ha].
  rewrite (decimal_not_dot y Hy), (IH Ha). reflexivity.
Qed.

Lemma count_dot_digits_dot a t :
  forallb is_decimal a = true ->
  count_char (ch ".") (a ++ ch "." :: t) = S (count_char (ch ".") t).
Proof.
  induction a as [| y a IH]; simpl; intros H.
  - reflexivity.
  - apply andb_prop in H. destruct H as [Hy Ha].
    rewrite (decimal_not_dot y Hy), (IH Ha). reflexivity.
Qed.

Lemma five_groups_intro a b c d e :
  digits a = true -> digits b = true -> digits c = true ->
  digits d = true -> digits e = true ->
  five_groups (a ++ ch "." :: b ++ ch "." :: c ++ ch "." :: d ++ ch "." :: e) = true
  /\ count_char (ch ".") (a ++ ch "." :: b ++ ch "." :: c ++ ch "." :: d ++ ch "." :: e) = 4.
Proof.
  intros Ha Hb Hc Hd He. split.
  - unfold five_groups.
    rewrite !split_on_digits_dot, split_on_digits by (apply digits_all; assumption).
    rewrite Ha, Hb, Hc, Hd, He. reflexivity.
  - rewrite !count_dot_digits_dot, count_dot_digits by (apply digits_all; assumption).
    reflexivity.
Qed.

(** Group 1 of a match of [(\d+\.\d+\.\d+\.\d+\.\d+)], with or without
    the word boundaries around it, is five groups of digits. *)
Lemma five_groups_match (bounded : bool) subj c m :
  rest c = skipn (pos c) subj ->
  match_at (if bounded then cat [WordB; Group 1 five_groups_re; WordB]
            else Group 1 five_groups_re) subj c = Some m ->
  exists t, group m 1 = Some t /\ five_groups t = true
            /\ count_char (ch ".") t = 4.
Proof.
  intros Hc H. unfold match_at in H.
  assert (K : exists text c',
             consumes c text c' /\ five_groups text = true
             /\ count_char (ch ".") text = 4
             /\ m = Match subj (pos c) (pos c') [(1, (pos c, pos c'))]).
  { destruct bounded.
    - unfold cat in H. cbn [fold_right] in H. rewrite run_Seq in H.
      apply run_WordB_inv in H. rewrite run_Seq, run_Group in H.
      apply run_five_inv in H.
      destruct H as [a [b [c3 [d [e [c' [E1 [Ha [Hb [Hc3 [Hd [He E2]]]]]]]]]]]].
      rewrite run_Seq in E2. apply run_WordB_inv in E2. rewrite run_Empty in E2.
      inversion E2. eexists. exists c'. split; [exact E1 |].
      destruct (five_groups_intro a b c3 d e Ha Hb Hc3 Hd He) as [F1 F2]. auto.
    - rewrite run_Group in H. apply run_five_inv in H.
      destruct H as [a [b [c3 [d [e [c' [E1 [Ha [Hb [Hc3 [Hd [He E2]]]]]]]]]]]].
      inversion E2. eexists. exists c'. split; [exact E1 |].
      destruct (five_groups_intro a b c3 d e Ha Hb Hc3 Hd He) as [F1 F2]. auto. }
  destruct K as [text [c' [K1 [K2 [K3 K4]]]]]. exists text. subst m.
  split; [| split; assumption].
  unfold group. cbn [m_groups span_of subject]. rewrite Nat.eqb_refl.
  rewrite (consumes_slice subj Hc K1). reflexivity.
Qed.

Lemma five_groups_search (bounded : bool) subj m :
  re_search (if bounded then cat [WordB; Group 1 five_groups_re; WordB]
             else Group 1 five_groups_re) subj = Some m ->
  exists t, group m 1 = Some t /\ five_groups t = true
            /\ count_char (ch ".") t = 4.
Proof.
  intros H. apply re_search_inv in H. destruct H as [j [q H]].
  eapply five_groups_match; [| exact H]. reflexivity.
Qed.

(** The classification [find_code_and_classification] returns, when it is
    not empty, is group 1 of a match of the classification pattern. *)
Lemma find_classification cre pbv code cls idx t :
  find_code_and_classification cre pbv = Ok (code, cls, idx) ->
  or_none cls = Some t ->
  exists m, re_search cre pbv = Some m /\ group m 1 = Some t.
Proof.
  unfold find_code_and_classification. intros H Ht.
  destruct (re_search cre pbv) as [m |] eqn:E.
  - exists m. split; [reflexivity |].
    destruct (truthy (group m 1)) eqn:T; cbn [negb] in H.
    + cbn [attr bind] in H.
      destruct (re_search code_re _) in H; inversion H; subst;
        unfold or_none in Ht; rewrite T in Ht; exact Ht.
    + destruct (re_search code_re pbv) in H; cbn [bind] in H; inversion H; subst;
        unfold or_none in Ht; rewrite T in Ht; discriminate.
  - cbn [truthy negb] in H.
    destruct (re_search code_re pbv) in H; cbn [bind] in H; inversion H; subst;
      discriminate.
Qed.

End ClassificationField.

(* ===================================================================== *)
(** * The shape of what the line parsers return                            *)
(* ===================================================================== *)

Section ParserShapes.
Context {U : Unicode}.
Import Re Shared.

Lemma getitem_head A (x : A) (l : list A) : getitem (x :: l) 0 = Ok x.
Proof. reflexivity. Qed.

Lemma parse_data_line_inv line e :
  ExtractPdf.parse_data_line line = Ok (Some e) ->
  let l := strip line in
  let ms := re_finditer monetary_pattern l in
  3 <= length l /\ has_skip_keyword ExtractPdf.skip_keywords l = false /\
  ((ms = [] /\ 10 < length l
    /\ ExtractPdf.clean_account_name_final l = Ok (account e)
    /\ 3 < length (account e) /\ e = bare (account e))
   \/ (exists m0 ms' code cls idx sl,
         ms = m0 :: ms'
         /\ find_code_and_classification ExtractPdf.classification_re
              (strip (firstn (m_start m0) l)) = Ok (code, cls, idx)
         /\ ExtractPdf.clean_account_name_final
              (strip (skipn idx (strip (firstn (m_start m0) l)))) = Ok (account e)
         /\ 3 <= length (account e)
         /\ monetary_slots (map group0 ms) = Ok sl
         /\ e = make_entry code cls (account e) sl)).
Proof.
  intros H. unfold ExtractPdf.parse_data_line in H. cbv zeta in *.
  set (l := strip line) in *.
  destruct (match line with [] => true | _ => false end || (length l <? 3))
    eqn:E0; [discriminate |].
  apply orb_false_elim in E0. destruct E0 as [_ E0]. apply Nat.ltb_ge in E0.
  destruct (has_skip_keyword ExtractPdf.skip_keywords l) eqn:E1; [discriminate |].
  split; [exact E0 |]. split; [reflexivity |].
  destruct (re_finditer monetary_pattern l) as [| m0 ms'] eqn:Ems.
  - left. destruct (10 <? length l) eqn:E2; [| discriminate].
    apply Nat.ltb_lt in E2.
    destruct (ExtractPdf.clean_account_name_final l) as [acc | ex] eqn:E3;
      [| discriminate].
    cbn [bind] in H.
    destruct (match acc with [] => false | _ => true end && (3 <? length acc)) eqn:E4;
      [| discriminate].
    inversion H. subst e. cbn [account].
    apply andb_prop in E4. destruct E4 as [_ E4]. apply Nat.ltb_lt in E4.
    repeat split; auto.
  - right. cbn [map] in H. rewrite getitem_head in H. cbn [bind fst] in H.
    destruct (find_code_and_classification ExtractPdf.classification_re
                (strip (firstn (m_start m0) l))) as [[[code cls] idx] | ex] eqn:E2;
      [| discriminate].
    cbn [bind] in H.
    destruct (ExtractPdf.clean_account_name_final _) as [acc | ex] eqn:E3 in H;
      [| discriminate].
    cbn [bind] in H.
    destruct (match acc with [] => true | _ => false end || (length acc <? 3)) eqn:E4;
      [discriminate |].
    apply orb_false_elim in E4. destruct E4 as [_ E4]. apply Nat.ltb_ge in E4.
    destruct (monetary_slots _) as [sl | ex] eqn:E5 in H; [| discriminate].
    cbn [bind] in H. inversion H. subst e.
    exists m0, ms', code, cls, idx, sl.
    assert (Ha : account (make_entry code cls acc sl) = acc)
      by (destruct sl as [[[? ?] ?] ?]; reflexivity).
    rewrite Ha. repeat split; auto.
Qed.

Lemma make_entry_classification code cls acc sl :
  classification (make_entry code cls acc sl) = or_none cls.
Proof. destruct sl as [[[? ?] ?] ?]. reflexivity. Qed.

Lemma make_entry_parent code cls acc sl :
  parent_category (make_entry code cls acc sl) = None.
Proof. destruct sl as [[[? ?] ?] ?]. reflexivity. Qed.

Lemma parse_data_line_classification line e :
  ExtractPdf.parse_data_line line = Ok (Some e) ->
  classification e = None
  \/ exists pbv code cls idx,
       find_code_and_classification ExtractPdf.classification_re pbv = Ok (code, cls, idx)
       /\ classification e = or_none cls.
Proof.
  intros H. apply parse_data_line_inv in H. cbv zeta in H.
  destruct H as [_ [_ [[_ [_ [_ [_ H]]]] | H]]].
  - left. rewrite H. reflexivity.
  - right. destruct H as [m0 [ms' [code [cls [idx [sl [_ [H1 [_ [_ [_ H2]]]]]]]]]]].
    exists (strip (firstn (m_start m0) (strip line))), code, cls, idx.
    split; [exact H1 |]. rewrite H2. apply make_entry_classification.
Qed.

Lemma v3_parse_data_line_classification line is_bold e :
  ExtractPdfV3.parse_data_line line is_bold = Ok (Some e) ->
  classification e = None
  \/ exists pbv code cls idx,
       find_code_and_classification ExtractPdfV3.classification_re pbv = Ok (code, cls, idx)
       /\ classification e = or_none cls.
Proof.
  intros H. unfold ExtractPdfV3.parse_data_line in H. cbv zeta in H.
  set (l := strip line) in *.
  destruct (match line with [] => true | _ => false end || (length l <? 3));
    [discriminate |].
  destruct (has_skip_keyword ExtractPdfV3.skip_keywords l); [discriminate |].
  destruct (re_finditer monetary_pattern l) as [| m0 ms'].
  - left. destruct (10 <? length l); [| discriminate].
    destruct (ExtractPdfV3.clean_account_name l); inversion H. reflexivity.
  - right. cbn [map] in H. rewrite getitem_head in H. cbn [bind fst] in H.
    destruct (find_code_and_classification ExtractPdfV3.classification_re
                (strip (firstn (m_start m0) l))) as [[[code cls] idx] | ex] eqn:E2;
      [| discriminate].
    cbn [bind] in H.
    destruct (ExtractPdfV3.clean_account_name _) in H; [discriminate |].
    destruct (monetary_slots _) as [sl | ex] in H; [| discriminate].
    cbn [bind] in H. inversion H.
    eexists. exists code, cls, idx. split; [exact E2 |].
    apply make_entry_classification.
Qed.

Lemma final_parse_data_line_classification line e :
  ExtractPdfFinal.parse_data_line line = Ok (Some e) ->
  classification e = None
  \/ exists pbv code cls idx,
       find_code_and_classification ExtractPdfFinal.classification_re pbv
       = Ok (code, cls, idx)
       /\ classification e = or_none cls.
Proof.
  intros H. unfold ExtractPdfFinal.parse_data_line in H. cbv zeta in H.
  destruct (match line with [] => true | _ => false end || (length (strip line) <? 5));
    [discriminate |].
  set (l := ExtractPdfFinal.clean_text line) in *.
  destruct (has_skip_keyword ExtractPdfFinal.skip_keywords l); [discriminate |].
  destruct (re_finditer monetary_pattern l) as [| m0 ms'].
  - left. destruct (15 <? length l); inversion H. reflexivity.
  - right. cbn [map] in H. rewrite getitem_head in H. cbn [bind fst] in H.
    destruct (getitem _ (-1)) in H; [| discriminate]. cbn [bind] in H.
    destruct (find_code_and_classification ExtractPdfFinal.classification_re
                (strip (firstn (m_start m0) l))) as [[[code cls] idx] | ex] eqn:E2;
      [| discriminate].
    cbn [bind] in H.
    destruct (ExtractPdfFinal.clean_account_name _) in H; [discriminate |].
    destruct (monetary_slots _) as [sl | ex] in H; [| discriminate].
    cbn [bind] in H. inversion H.
    eexists. exists code, cls, idx. split; [exact E2 |].
    apply make_entry_classification.
Qed.

End ParserShapes.

(* ===================================================================== *)
(** * Amounts                                                              *)
(* ===================================================================== *)

Section Amounts.
Context {U : Unicode}.
Import Re Shared.

Lemma comma_not_amount_char : amount_char (ch ",") = false.
Proof.
  unfold amount_char, set_has. cbn [existsb item_has in_cls].
  rewrite decimal_latin1 by reflexivity. reflexivity.
Qed.

Lemma amount_char_kept y :
  amount_char y = true -> set_has [Cls Digit; One (ch "."); One (ch ",")] y = true.
Proof.
  unfold amount_char, set_has. cbn [existsb item_has in_cls].
  destruct (is_decimal y); [reflexivity |].
  destruct (char_eqb y (ch ".")); [reflexivity | discriminate].
Qed.

(** What [[\d\.]+,\d{2}] matches. *)
Lemma monetary_match subj c m :
  rest c = skipn (pos c) subj ->
  match_at monetary_pattern subj c = Some m ->
  exists a d1 d2,
    group0 m = a ++ [ch ","; d1; d2]
    /\ nonempty a = true /\ forallb amount_char a = true
    /\ is_decimal d1 = true /\ is_decimal d2 = true.
Proof.
  intros Hc H. unfold match_at, monetary_pattern, cat in H. cbn [fold_right] in H.
  rewrite run_Seq in H. apply run_class_plus_inv in H.
  destruct H as [a [c1 [H1 [Ha [Hall H]]]]].
  rewrite run_Seq in H. apply run_lit_inv in H. destruct H as [c2 [H2 H]].
  rewrite run_Seq in H. change (times 2 dig) with (between 2 2 (OneOf [Cls Digit])) in H.
  apply run_class_between_inv in H. destruct H as [ds [c3 [H3 [Hlen [Hds H]]]]].
  rewrite run_Empty in H. inversion H. subst m. unfold group0. cbn [subject m_start m_end].
  pose proof (consumes_trans H1 (consumes_trans H2 H3)) as K.
  rewrite (consumes_slice subj Hc K).
  destruct ds as [| d1 [| d2 [| d3 ds]]]; simpl in Hlen; try lia.
  rewrite set_digit_only in Hds. simpl in Hds.
  apply andb_prop in Hds. destruct Hds as [Hd1 Hd2].
  apply andb_prop in Hd2. destruct Hd2 as [Hd2 _].
  exists a, d1, d2. repeat split; auto.
Qed.

Lemma search_class_none r ok subj :
  (forall R (k : cursor -> groups -> option R) c g, run r k c g = step ok k c g) ->
  forall t i p, forallb (fun y => negb (ok y)) t = true ->
  search_from r subj i p t = None.
Proof.
  intros Hr. induction t as [| y t IH]; intros i p H; simpl.
  - unfold match_at. rewrite Hr. reflexivity.
  - simpl in H. apply andb_prop in H. destruct H as [Hy Ht].
    unfold match_at at 1. rewrite Hr. unfold step. cbn [rest].
    apply negb_true_iff in Hy. rewrite Hy. apply IH. exact Ht.
Qed.

Lemma sub_class_none r ok repl subj :
  (forall R (k : cursor -> groups -> option R) c g, run r k c g = step ok k c g) ->
  forallb (fun y => negb (ok y)) subj = true ->
  re_sub r repl subj = subj.
Proof.
  intros Hr H. unfold re_sub, re_finditer. cbn [finditer_from].
  rewrite search_class_none with (ok := ok); auto.
Qed.

Lemma forallb_app_intro A (f : A -> bool) (a b : list A) :
  forallb f a = true -> forallb f b = true -> forallb f (a ++ b) = true.
Proof. intros Ha Hb. rewrite forallb_app, Ha, Hb. reflexivity. Qed.

Lemma run_Bol R (k : cursor -> groups -> option R) c g :
  run Bol k c g = if pos c =? 0 then k c g else None.
Proof. reflexivity. Qed.

(** A greedy [[...]+] reads the whole run in front of it when the rest of
    the pattern matches after the run. *)
Lemma run_plus_greedy R items (k : cursor -> groups -> option R) a t i p g x :
  forallb (set_has items) a = true -> nonempty a = true ->
  match t with
  | [] => True
  | y :: _ => set_has items y = false
  end ->
  k (Cursor (i + length a) (last (map Some a) p) t) g = Some x ->
  run (plus (OneOf items)) k (Cursor i p (a ++ t)) g = Some x.
Proof.
  intros Ha Hne Ht Hk. unfold plus. rewrite run_Repeat. cbn [rest].
  destruct (@rep_class_greedy R (run (OneOf items)) (set_has items) 1 k
              (fun _ _ _ => eq_refl) a (length (a ++ t)) 0 i p g t x Ha Ht)
    as [K | K].
  - destruct a; [discriminate | simpl; lia].
  - exact Hk.
  - exact K.
  - rewrite length_app in K. lia.
Qed.

(** [\d{2}] on two digits. *)
Lemma run_two_digits R (k : cursor -> groups -> option R) i p d1 d2 t g :
  is_decimal d1 = true -> is_decimal d2 = true ->
  run (times 2 dig) k (Cursor i p (d1 :: d2 :: t)) g
  = k (Cursor (S (S i)) (Some d2) t) g.
Proof.
  intros H1 H2. unfold times. rewrite run_Repeat. cbn [rest length].
  rewrite rep_loop_S. cbn [below Nat.ltb Nat.leb].
  unfold dig. rewrite run_OneOf. unfold step at 1. cbn [rest pos].
  unfold set_has at 1. cbn [existsb item_has in_cls]. rewrite H1. cbn [orb].
  replace (S i =? i) with false by (symmetry; apply Nat.eqb_neq; lia).
  rewrite rep_loop_S. cbn [below Nat.ltb Nat.leb].
  rewrite run_OneOf. unfold step at 1. cbn [rest pos].
  unfold set_has at 1. cbn [existsb item_has in_cls]. rewrite H2. cbn [orb].
  replace (S (S i) =? S i) with false by (symmetry; apply Nat.eqb_neq; lia).
  destruct (length t) as [| n];
    [cbn [rep_loop] | rewrite rep_loop_S; cbn [below Nat.ltb Nat.leb or_else]];
    cbn [Nat.leb]; destruct (k _ g); reflexivity.
Qed.

(** [parse_monetary_value] returns a match of [[\d\.]+,\d{2}] as it is. *)
Lemma parse_monetary_value_amount a d1 d2 :
  nonempty a = true -> forallb amount_char a = true ->
  is_decimal d1 = true -> is_decimal d2 = true ->
  parse_monetary_value (a ++ [ch ","; d1; d2]) = Some (a ++ [ch ","; d1; d2]).
Proof.
  intros Hne Ha Hd1 Hd2. unfold parse_monetary_value.
  destruct (a ++ [ch ","; d1; d2]) as [| y v'] eqn:Ev;
    [destruct a; discriminate |].
  rewrite <- Ev. clear y v' Ev.
  assert (Hsub : re_sub not_amount_char_re (fun _ => []) (a ++ [ch ","; d1; d2])
              = a ++ [ch ","; d1; d2]).
  { apply sub_class_none
      with (ok := fun y => negb (set_has [Cls Digit; One (ch "."); One (ch ",")] y)).
    - intros. reflexivity.
    - rewrite forallb_forall. intros y Hy. rewrite negb_involutive.
      apply in_app_or in Hy. destruct Hy as [Hy | Hy].
      + apply amount_char_kept. rewrite forallb_forall in Ha. apply Ha. exact Hy.
      + unfold set_has. cbn [existsb item_has in_cls].
        destruct Hy as [<- | [<- | [<- | []]]].
        * unfold char_eqb. rewrite N.eqb_refl. rewrite !orb_true_r. reflexivity.
        * rewrite Hd1. reflexivity.
        * rewrite Hd2. reflexivity. }
  rewrite Hsub.
  assert (M : re_match amount_re (a ++ [ch ","; d1; d2])
              = Some (Match (a ++ [ch ","; d1; d2]) 0 (S (S (S (0 + length a)))) [])).
  { unfold re_match, match_at, amount_re, cat. cbn [fold_right].
    rewrite run_Seq, run_Bol. cbn [pos Nat.eqb]. rewrite run_Seq.
    apply run_plus_greedy; auto.
    - exact comma_not_amount_char.
    - rewrite run_Seq, run_Lit. unfold step. cbn [rest pos].
      unfold char_eqb. rewrite N.eqb_refl.
      rewrite run_Seq, run_two_digits by assumption.
      reflexivity. }
  rewrite M. reflexivity.
Qed.

(** Every amount [finditer] finds goes through [parse_monetary_value] and
    the [x if x else None] of the record unchanged. *)
Lemma amount_kept subj m :
  In m (re_finditer monetary_pattern subj) ->
  or_none (parse_monetary_value (group0 m)) = Some (group0 m).
Proof.
  intros H. apply re_finditer_In in H. destruct H as [j [q H]].
  apply monetary_match in H; [| reflexivity].
  destruct H as [a [d1 [d2 [E [Hne [Ha [H1 H2]]]]]]].
  rewrite E, parse_monetary_value_amount by assumption.
  destruct a; [discriminate | reflexivity].
Qed.

End Amounts.

(* ===================================================================== *)
(** * The monetary slots                                                   *)
(* ===================================================================== *)

Section Slots.
Context {U : Unicode}.
Import Re Shared.

Lemma slots_make_entry code cls acc a b c d :
  slots (make_entry code cls acc (a, b, c, d))
  = (or_none a, or_none b, or_none c, or_none d).
Proof. reflexivity. Qed.

Lemma monetary_slots_table V sl code cls acc :
  checked V ->
  monetary_slots V = Ok sl ->
  slots (make_entry code cls acc sl) = first_four_table V.
Proof.
  intros HV H. unfold monetary_slots in H.
  destruct V as [| v0 [| v1 [| v2 [| v3 V]]]]; cbn in H; inversion H; subst sl;
    rewrite slots_make_entry; cbn [first_four_table or_none truthy];
    repeat rewrite HV by (simpl; auto); reflexivity.
Qed.

Lemma monetary_slots_total V : exists sl, monetary_slots V = Ok sl.
Proof.
  unfold monetary_slots.
  destruct V as [| v0 [| v1 [| v2 [| v3 V]]]]; eexists; reflexivity.
Qed.

(** [values[-k]] is the [k]-th element from the end. *)
Lemma getitem_rev A (V : list A) (k : nat) (x : A) :
  nth_error (rev V) k = Some x -> getitem V (- Z.of_nat (S k)) = Ok x.
Proof.
  intros H.
  assert (Hk : k < length V).
  { rewrite <- (length_rev V). apply nth_error_Some. rewrite H. discriminate. }
  destruct (@getitem_from_end A V (S k)) as [a [G N]]; [lia |].
  rewrite G. f_equal.
  rewrite nth_error_rev in H.
  destruct (Nat.ltb_spec k (length V)); [congruence | lia].
Qed.

Lemma assign_values_table values :
  FinalBalancete.assign_values values = Ok (balancete_table values).
Proof.
  unfold FinalBalancete.assign_values, balancete_table.
  rewrite <- (length_rev values).
  pose proof (@getitem_rev _ values) as G.
  assert (E : values = rev (rev values)) by (symmetry; apply rev_involutive).
  destruct (rev values) as [| r0 [| r1 [| r2 [| r3 R]]]].
  - rewrite E. reflexivity.
  - rewrite E. reflexivity.
  - rewrite E. reflexivity.
  - rewrite E. reflexivity.
  - cbn [length Nat.leb].
    change (-4)%Z with (- Z.of_nat 4)%Z. change (-3)%Z with (- Z.of_nat 3)%Z.
    change (-2)%Z with (- Z.of_nat 2)%Z. change (-1)%Z with (- Z.of_nat 1)%Z.
    rewrite (G 3 r3 eq_refl), (G 2 r2 eq_refl), (G 1 r1 eq_refl), (G 0 r0 eq_refl).
    reflexivity.
Qed.

Lemma parse_entry_line_inv line e :
  FinalBalancete.parse_entry_line line = Ok (Some e) ->
  let l := strip line in
  let values := re_findall FinalBalancete.value_pattern l in
  values <> []
  /\ code e = match re_match FinalBalancete.code_re l with
              | Some code_match => group code_match 1
              | None => None
              end
  /\ slots e = balancete_table values
  /\ parent_category e = None
  /\ FinalBalancete.clean_description
       (FinalBalancete.extract_account_description l (code e) (classification e) values)
     = Ok (account e).
Proof.
  intros H. unfold FinalBalancete.parse_entry_line in H. cbv zeta in *.
  set (l := strip line) in *.
  set (values := re_findall FinalBalancete.value_pattern l) in *.
  destruct values as [| v0 V] eqn:EV; [discriminate |].
  rewrite <- EV in *.
  destruct (negb (nonempty _) || _) in H; [discriminate |].
  destruct (FinalBalancete.clean_description _) as [acc | ex] eqn:EA in H;
    [| discriminate].
  cbn [bind] in H. rewrite assign_values_table in H. cbn [bind] in H.
  destruct (balancete_table values) as [[[pb db] cr] cb] eqn:ET.
  inversion H. subst e.
  cbn [code classification account parent_category slots previous_balance debit
       credit current_balance].
  repeat split; auto. rewrite EV. discriminate.
Qed.

End Slots.

(* ===================================================================== *)
(** * The line parsers return                                              *)
(* ===================================================================== *)

Section Totality.
Context {U : Unicode}.
Import Re Shared.

Lemma getitem_in_range A (l : list A) (z : Z) :
  (0 <= z < Z.of_nat (length l))%Z -> exists a, getitem l z = Ok a.
Proof.
  intros H. destruct (@getitem_lt A l (Z.to_nat z)) as [a [G _]]; [lia |].
  exists a. rewrite Z2Nat.id in G by lia. exact G.
Qed.

Lemma guarded_getitem A B (b : bool) (l : list A) (z : Z) (f : A -> B) (d : B) :
  (b = true -> (0 <= z < Z.of_nat (length l))%Z) ->
  exists r, (if b then x <- getitem l z ;; Ok (f x) else Ok d) = Ok r.
Proof.
  intros H. destruct b; [| eauto].
  destruct (getitem_in_range l (H eq_refl)) as [a G]. rewrite G. cbn [bind]. eauto.
Qed.

Lemma strip_digit_step_total name i cleaned :
  i < length name ->
  exists r, ExtractPdf.strip_digit_step name i cleaned = Ok r.
Proof.
  intros Hi. unfold ExtractPdf.strip_digit_step.
  destruct (@getitem_lt _ name i Hi) as [c [G _]]. rewrite G. cbn [bind].
  destruct (is_digit c); [| eauto].
  destruct (@guarded_getitem _ _ (0 <? i) name (Z.of_nat i - 1) is_alpha false)
    as [pa Ea].
  { intros E. apply Nat.ltb_lt in E. lia. }
  rewrite Ea. cbn [bind].
  destruct (@guarded_getitem _ _ (Z.of_nat i <? Z.of_nat (length name) - 1)%Z name
              (Z.of_nat i + 1) is_alpha false) as [na En].
  { intros E. apply Z.ltb_lt in E. lia. }
  rewrite En. cbn [bind].
  destruct (pa && na); [eauto |].
  destruct (@guarded_getitem _ _ (0 <? i) name (Z.of_nat i - 1) is_digit false)
    as [pd Ed].
  { intros E. apply Nat.ltb_lt in E. lia. }
  rewrite Ed. cbn [bind]. destruct pd; [eauto |].
  destruct (@guarded_getitem _ _ (Z.of_nat i <? Z.of_nat (length name) - 1)%Z name
              (Z.of_nat i + 1) is_digit false) as [nd End_].
  { intros E. apply Z.ltb_lt in E. lia. }
  rewrite End_. cbn [bind]. destruct nd; [eauto |].
  destruct (pa || na); eauto.
Qed.

Lemma similar_total a b : 3 < length a -> exists r, ExtractPdf.similar a b = Ok r.
Proof.
  intros H. unfold ExtractPdf.similar.
  destruct (Nat.max (length a) (length b) =? 0) eqn:E; [| eauto].
  apply Nat.eqb_eq in E. lia.
Qed.

(** The loop of [remove_duplicate_text] ends within [len(words)] rounds. *)
Lemma remove_duplicate_loop_total words :
  forall fuel i result,
    length words <= fuel + i ->
    exists r, ExtractPdf.remove_duplicate_loop fuel words i result = Ok r.
Proof.
  induction fuel as [| fuel IH]; intros i result H.
  - simpl. destruct (i <? length words) eqn:E; [| eauto].
    apply Nat.ltb_lt in E. lia.
  - cbn [ExtractPdf.remove_duplicate_loop].
    destruct (i <? length words) eqn:E; [| eauto]. apply Nat.ltb_lt in E.
    destruct (@getitem_lt _ words i E) as [w [G _]]. rewrite G. cbn [bind].
    destruct (i + 1 <? length words) eqn:E1.
    + apply Nat.ltb_lt in E1.
      destruct (@getitem_lt _ words (i + 1) E1) as [w' [G' _]]. rewrite G'. cbn [bind].
      destruct ((3 <? length w) && (3 <? length w')) eqn:E2.
      * apply andb_prop in E2. destruct E2 as [E2 _]. apply Nat.ltb_lt in E2.
        destruct (similar_total w w' E2) as [sim Es]. rewrite Es. cbn [bind].
        destruct sim; apply IH; lia.
      * apply IH. lia.
    + apply IH. lia.
Qed.

Lemma remove_duplicate_text_total text :
  exists r, ExtractPdf.remove_duplicate_text text = Ok r.
Proof.
  unfold ExtractPdf.remove_duplicate_text. destruct text as [| y t]; [eauto |].
  destruct (length (split_ws (y :: t)) <? 2); [eauto |].
  destruct (remove_duplicate_loop_total (split_ws (y :: t))
              (length (split_ws (y :: t))) 0 []) as [r E]; [lia |].
  rewrite E. cbn [bind]. eauto.
Qed.

Lemma clean_account_name_final_total name :
  exists r, ExtractPdf.clean_account_name_final name = Ok r.
Proof.
  unfold ExtractPdf.clean_account_name_final. destruct name as [| y t]; [eauto |].
  cbv zeta. destruct (fold_left _ _ _) as [parts nm].
  destruct (@for_each_total _ _ (ExtractPdf.strip_digit_step nm) (seq 0 (length nm)))
    with (acc := @nil char) as [cleaned E].
  { intros i acc Hi. apply in_seq in Hi. apply strip_digit_step_total. lia. }
  rewrite E. cbn [bind].
  destruct (remove_duplicate_text_total
              (re_sub ExtractPdf.spaces_re (fun _ => u " ")
                 (re_sub ExtractPdf.lone_dot_re (fun _ => u " ")
                    (re_sub ExtractPdf.trailing_digits_re
                       (fun m => group_text m 1 ++ group_text m 3)
                       (fold_left (fun nm0 (ic : nat * str) =>
                                     replace nm0 (ExtractPdf.placeholder (fst ic)) (snd ic))
                                  (enumerate parts) cleaned))))) as [r Er].
  rewrite Er. cbn [bind]. eauto.
Qed.

Lemma find_code_and_classification_total cre pbv :
  exists r, find_code_and_classification cre pbv = Ok r.
Proof.
  unfold find_code_and_classification.
  destruct (re_search cre pbv) as [m |].
  - destruct (truthy (group m 1)); cbn [negb attr bind].
    + destruct (re_search code_re _); cbn [bind]; eauto.
    + destruct (re_search code_re pbv); cbn [bind]; eauto.
  - cbn [truthy negb]. destruct (re_search code_re pbv); cbn [bind]; eauto.
Qed.

Lemma parse_data_line_total line :
  exists r, ExtractPdf.parse_data_line line = Ok r.
Proof.
  unfold ExtractPdf.parse_data_line. cbv zeta.
  destruct (_ || _); [eauto |].
  destruct (has_skip_keyword _ _); [eauto |].
  destruct (re_finditer monetary_pattern (strip line)) as [| m0 ms].
  - destruct (10 <? _); [| eauto].
    destruct (clean_account_name_final_total (strip line)) as [acc E].
    rewrite E. cbn [bind]. destruct (_ && _); eauto.
  - cbn [map]. rewrite getitem_head. cbn [bind fst].
    destruct (find_code_and_classification_total ExtractPdf.classification_re
                (strip (firstn (m_start m0) (strip line)))) as [[[code cls] idx] E].
    rewrite E. cbn [bind].
    destruct (clean_account_name_final_total
                (strip (skipn idx (strip (firstn (m_start m0) (strip line))))))
      as [acc Ea].
    rewrite Ea. cbn [bind]. destruct (_ || _); [eauto |].
    destruct (monetary_slots_total (group0 m0 :: map group0 ms)) as [sl Es].
    rewrite Es. cbn [bind]. eauto.
Qed.

Lemma clean_description_total text :
  exists r, FinalBalancete.clean_description text = Ok r.
Proof.
  unfold FinalBalancete.clean_description. cbv zeta.
  set (words := split_ws _).
  destruct (2 <=? length words) eqn:E; cbn [bind]; [| eauto].
  apply Nat.leb_le in E.
  destruct (@getitem_lt _ words 0) as [w0 [G0 _]]; [lia |].
  change (Z.of_nat 0) with 0%Z in G0. rewrite G0. cbn [bind].
  destruct (@getitem_from_end _ words 1) as [w1 [G1 _]]; [lia |].
  change (- Z.of_nat 1)%Z with (-1)%Z in G1. rewrite G1. cbn [bind].
  destruct (map snd _); cbn [bind]; eauto.
Qed.

Lemma parse_entry_line_total line :
  exists r, FinalBalancete.parse_entry_line line = Ok r.
Proof.
  unfold FinalBalancete.parse_entry_line. cbv zeta.
  destruct (re_findall FinalBalancete.value_pattern (strip line)) as [| v0 V] eqn:EV;
    [eauto |].
  rewrite <- EV.
  destruct (negb (nonempty _) || _); [eauto |].
  destruct (clean_description_total
              (FinalBalancete.extract_account_description (strip line)
                 match re_match FinalBalancete.code_re (strip line) with
                 | Some code_match => group code_match 1
                 | None => None
                 end
                 match re_findall FinalBalancete.class_pattern (strip line) with
                 | [] => None
                 | _ :: _ =>
                   match
                     filter (fun c => (length c <=? 20) && (2 <=? count_char (ch ".") c))
                       (re_findall FinalBalancete.class_pattern (strip line))
                   with
                   | [] => None
                   | c :: cs => Some (FinalBalancete.max_by (count_char (ch ".")) c cs)
                   end
                 end
                 (re_findall FinalBalancete.value_pattern (strip line)))) as [acc E].
  rewrite E. cbn [bind]. rewrite assign_values_table. cbn [bind].
  destruct (balancete_table _) as [[[? ?] ?] ?]. eauto.
Qed.

Lemma enumerate_In A (l : list A) i x :
  In (i, x) (enumerate l) -> i < length l.
Proof.
  unfold enumerate. intros H. apply in_combine_l in H. apply in_seq in H. lia.
Qed.

Lemma first_index_lt test parts i part :
  ExtractPdfV2.first_index test parts = Some (i, part) -> i < length parts.
Proof.
  unfold ExtractPdfV2.first_index. intros H. apply find_some in H.
  destruct H as [H _]. eapply enumerate_In. exact H.
Qed.

Lemma indices_lt (test : nat * str -> bool) parts i :
  In i (map fst (filter test (enumerate parts))) -> i < length parts.
Proof.
  intros H. apply in_map_iff in H. destruct H as [[j x] [E H]]. simpl in E. subst j.
  apply filter_In in H. destruct H as [H _]. eapply enumerate_In. exact H.
Qed.

Lemma part_at_total (indices : list nat) (parts : list str) (k : nat) :
  (forall i, In i indices -> i < length parts) ->
  k < length indices ->
  exists p, ExtractPdfV2.part_at parts indices (Z.of_nat k) = Ok p.
Proof.
  intros Hall Hk. unfold ExtractPdfV2.part_at.
  destruct (@getitem_lt _ indices k Hk) as [i [G N]].
  rewrite G. cbn [bind]. apply nth_error_In in N.
  destruct (@getitem_lt _ parts i (Hall i N)) as [p [G' _]].
  rewrite G'. cbn [bind]. eauto.
Qed.

Lemma assign_parts_total (indices : list nat) (parts : list str) :
  (forall i, In i indices -> i < length parts) ->
  exists sl, ExtractPdfV2.assign_parts parts indices = Ok sl.
Proof.
  intros Hall. unfold ExtractPdfV2.assign_parts. cbv zeta.
  pose proof (fun k => @part_at_total indices parts k Hall) as P.
  change 0%Z with (Z.of_nat 0). change 1%Z with (Z.of_nat 1).
  change 2%Z with (Z.of_nat 2). change 3%Z with (Z.of_nat 3).
  destruct (4 <=? length indices) eqn:E4.
  { apply Nat.leb_le in E4.
    destruct (P 0) as [v0 E0]; [lia |]. destruct (P 1) as [v1 E1]; [lia |].
    destruct (P 2) as [v2 E2]; [lia |]. destruct (P 3) as [v3 E3]; [lia |].
    rewrite E0, E1, E2, E3. cbn [bind]. eauto. }
  destruct (length indices =? 3) eqn:E3.
  { apply Nat.eqb_eq in E3.
    destruct (P 0) as [v0 E0]; [lia |]. destruct (P 1) as [v1 E1]; [lia |].
    destruct (P 2) as [v2 E2]; [lia |].
    rewrite E0, E1, E2. cbn [bind]. eauto. }
  destruct (length indices =? 2) eqn:E2.
  { apply Nat.eqb_eq in E2.
    destruct (P 0) as [v0 E0]; [lia |]. destruct (P 1) as [v1 E1]; [lia |].
    rewrite E0, E1. cbn [bind]. eauto. }
  eauto.
Qed.

Lemma find_code_total parts cidx :
  (cidx = (-1)%Z \/ exists i, cidx = Z.of_nat i /\ i < length parts) ->
  exists code, ExtractPdfV2.find_code parts cidx = Ok code.
Proof.
  intros Hc. unfold ExtractPdfV2.find_code. destruct (cidx =? -1)%Z eqn:E1.
  - destruct (ExtractPdfV2.first_index _ parts) as [[? ?] |]; eauto.
  - destruct (0 <? cidx)%Z eqn:E2; [| eauto].
    apply Z.ltb_lt in E2. apply Z.eqb_neq in E1.
    destruct Hc as [Hc | [i [Hc Hi]]]; [lia |].
    destruct (@getitem_in_range _ parts (cidx - 1)) as [pc G]; [lia |].
    rewrite G. cbn [bind]. destruct (ExtractPdfV2.matches _ pc); eauto.
Qed.

Lemma parse_line_total line :
  exists r, ExtractPdfV2.parse_line line = Ok r.
Proof.
  unfold ExtractPdfV2.parse_line. cbv zeta.
  destruct (_ || _); [eauto |].
  destruct (re_findall ExtractPdfV2.monetary_pattern (strip line)) as [| v0 V] eqn:EV.
  - destruct (_ && _); eauto.
  - set (parts := ExtractPdfV2.split_parts (strip line)).
    destruct (length parts <? 3); [eauto |].
    set (mi := map fst (filter _ (enumerate parts))).
    assert (Hmi : forall i, In i mi -> i < length parts)
      by (intros i Hi; eapply indices_lt; exact Hi).
    clearbody mi parts.
    destruct (assign_parts_total mi parts Hmi) as [[[[pb db] cr] cb] Es].
    destruct (ExtractPdfV2.first_index (ExtractPdfV2.matches ExtractPdfV2.classification_re)
                parts) as [[ci cpart] |] eqn:Ec.
    + destruct (@find_code_total parts (Z.of_nat ci)) as [code Ecode].
      { right. exists ci. split; [reflexivity |]. eapply first_index_lt. exact Ec. }
      rewrite Ecode. cbn [bind]. rewrite Es; cbn [bind];
        (destruct mi as [| i0 mi']; [| rewrite getitem_head]); cbn [bind];
        match goal with |- context [strip ?x] => destruct (strip x) end; eauto.
    + destruct (@find_code_total parts (-1)%Z) as [code Ecode]; [left; reflexivity |].
      rewrite Ecode. cbn [bind]. rewrite Es; cbn [bind];
        (destruct mi as [| i0 mi']; [| rewrite getitem_head]); cbn [bind];
        match goal with |- context [strip ?x] => destruct (strip x) end; eauto.
Qed.

End Totality.

(* ===================================================================== *)
(** * The category resolvers                                               *)
(* ===================================================================== *)

Section Resolver.
Context {U : Unicode}.
Import Re Shared.

Lemma for_each_total_inv A S (P : S -> Prop) (body : A -> S -> py S) (l : list A) :
  (forall x s, P s -> exists s', body x s = Ok s' /\ P s') ->
  forall s0, P s0 -> exists s, for_each l body s0 = Ok s /\ P s.
Proof.
  intros Hstep. induction l as [| x l IH]; intros s0 H0; simpl.
  - eauto.
  - destruct (Hstep x s0 H0) as [s1 [E1 P1]]. rewrite E1. cbn [bind].
    apply IH. exact P1.
Qed.

Lemma FOP_filter A (R : A -> A -> Prop) (f : A -> bool) (l : list A) :
  ForallOrdPairs R l -> ForallOrdPairs R (filter f l).
Proof.
  induction 1 as [| a l Ha Hl IH]; simpl; [constructor |].
  destruct (f a); [| exact IH]. constructor; [| exact IH].
  rewrite Forall_forall in *. intros x Hx. apply filter_In in Hx. apply Ha, Hx.
Qed.

Lemma FOP_snoc A (R : A -> A -> Prop) (l : list A) (x : A) :
  ForallOrdPairs R l -> Forall (fun a => R a x) l -> ForallOrdPairs R (l ++ [x]).
Proof.
  induction 1 as [| a l Ha Hl IH]; simpl; intros Hx.
  - constructor; constructor.
  - inversion Hx; subst. constructor; [| apply IH; assumption].
    apply Forall_app. split; [exact Ha |]. constructor; [assumption | constructor].
Qed.

(** A push keeps the stack free of an earlier entry that prefixes a later
    one. *)
Lemma push_category_ordered stack cleaned :
  ordered_prefix_free stack -> ordered_prefix_free (push_category stack cleaned).
Proof.
  intros H. unfold push_category, ordered_prefix_free. apply FOP_snoc.
  - apply FOP_filter. exact H.
  - rewrite Forall_forall. intros x Hx. apply filter_In in Hx.
    destruct Hx as [_ Hx]. apply negb_true_iff in Hx. exact Hx.
Qed.

Lemma attach_parent_ok stack e :
  attach_parent stack e
  = Ok (match stack with
        | [] => e
        | _ => set_parent_category e (top stack)
        end).
Proof.
  unfold attach_parent. destruct stack as [| x stack]; [reflexivity |].
  destruct (@getitem_from_end _ (x :: stack) 1) as [a [G N]]; [simpl; lia |].
  change (- Z.of_nat 1)%Z with (-1)%Z in G. rewrite G. cbn [bind].
  unfold top. rewrite N. reflexivity.
Qed.

Lemma v3_parse_data_line_total line is_bold :
  exists r, ExtractPdfV3.parse_data_line line is_bold = Ok r.
Proof.
  unfold ExtractPdfV3.parse_data_line. cbv zeta.
  destruct (_ || _); [eauto |].
  destruct (has_skip_keyword _ _); [eauto |].
  destruct (re_finditer monetary_pattern (strip line)) as [| m0 ms].
  - destruct (10 <? _); [| eauto]. destruct (ExtractPdfV3.clean_account_name _); eauto.
  - cbn [map]. rewrite getitem_head. cbn [bind fst].
    destruct (find_code_and_classification_total ExtractPdfV3.classification_re
                (strip (firstn (m_start m0) (strip line)))) as [[[code cls] idx] E].
    rewrite E. cbn [bind].
    destruct (ExtractPdfV3.clean_account_name _); [eauto |].
    destruct (monetary_slots_total (group0 m0 :: map group0 ms)) as [sl Es].
    rewrite Es. cbn [bind]. eauto.
Qed.

(** One line of extract_pdf_v3 keeps the invariant of the stack. *)
Lemma v3_process_line_step l st :
  ordered_prefix_free (ExtractPdfV3.parent_categories st) ->
  exists st', ExtractPdfV3.process_line l st = Ok st'
              /\ ordered_prefix_free (ExtractPdfV3.parent_categories st').
Proof.
  intros H. unfold ExtractPdfV3.process_line. destruct l as [line_text is_bold].
  destruct (_ || _); [eauto |].
  destruct (has_skip_keyword _ _); [eauto |].
  destruct (ExtractPdfV3.category_of line_text is_bold) as [cleaned |].
  - destruct (v3_parse_data_line_total line_text true) as [[e |] E];
      rewrite E; cbn [bind]; eexists; (split; [reflexivity |]);
      cbn [ExtractPdfV3.parent_categories]; apply push_category_ordered; exact H.
  - destruct (v3_parse_data_line_total line_text false) as [[e |] E];
      rewrite E; cbn [bind]; [| eauto].
    rewrite attach_parent_ok. cbn [bind]. eauto.
Qed.

Lemma v3_run_pages_ordered pages :
  exists st, ExtractPdfV3.run_pages pages = Ok st
             /\ ordered_prefix_free (ExtractPdfV3.parent_categories st).
Proof.
  unfold ExtractPdfV3.run_pages. apply for_each_total_inv.
  - intros pg st H. unfold ExtractPdfV3.process_page.
    destruct (ExtractPdfV3.extract_text pg) as [[| y t] |]; eauto.
    apply for_each_total_inv; [| exact H].
    intros l s Hs. apply v3_process_line_step. exact Hs.
  - constructor.
Qed.

Lemma find_line_y_total chars line :
  exists r, ExtractPdf.find_line_y chars line = Ok r.
Proof.
  induction chars as [| c chars IH]; simpl; [eauto |].
  destruct (nonempty (ExtractPdf.c_text c)) eqn:E1; [| exact IH].
  destruct (nonempty line) eqn:E2; [| exact IH]. cbn [andb].
  destruct (ExtractPdf.c_text c) as [| a t]; [discriminate |].
  destruct line as [| b l]; [discriminate |].
  rewrite !getitem_head. cbn [bind]. destruct (char_eqb a b); eauto.
Qed.

Lemma find_category_total items y line :
  exists r, ExtractPdf.find_category items y line = Ok r.
Proof.
  induction items as [| [bold_y bold_text] items IH]; simpl; [eauto |].
  destruct (Z.abs (y - bold_y) <? 5)%Z; [| exact IH].
  destruct (clean_account_name_final_total bold_text) as [cleaned E].
  rewrite E. cbn [bind]. destruct (_ && _); eauto.
Qed.

Lemma category_of_total chars bc line :
  exists r, ExtractPdf.category_of chars bc line = Ok r.
Proof.
  unfold ExtractPdf.category_of.
  destruct (find_line_y_total chars line) as [[y |] E]; rewrite E; cbn [bind];
    [apply find_category_total | eauto].
Qed.

(** One line of extract_pdf keeps the invariant of the stack. *)
Lemma process_line_step chars bc line st :
  ordered_prefix_free (ExtractPdf.parent_categories st) ->
  exists st', ExtractPdf.process_line chars bc line st = Ok st'
              /\ ordered_prefix_free (ExtractPdf.parent_categories st').
Proof.
  intros H. unfold ExtractPdf.process_line. cbv zeta.
  destruct (_ || _); [eauto |].
  destruct (has_skip_keyword _ _); [eauto |].
  destruct (category_of_total chars bc (strip line)) as [[cleaned |] E];
    rewrite E; cbn [bind].
  - destruct (parse_data_line_total (strip line)) as [[e |] Ee];
      rewrite Ee; cbn [bind]; eexists; (split; [reflexivity |]);
      cbn [ExtractPdf.parent_categories]; apply push_category_ordered; exact H.
  - destruct (parse_data_line_total (strip line)) as [[e |] Ee];
      rewrite Ee; cbn [bind]; [| eauto].
    rewrite attach_parent_ok. cbn [bind]. eauto.
Qed.

Lemma run_pages_ordered pages :
  exists st, ExtractPdf.run_pages pages = Ok st
             /\ ordered_prefix_free (ExtractPdf.parent_categories st).
Proof.
  unfold ExtractPdf.run_pages. apply for_each_total_inv.
  - intros pg st H. unfold ExtractPdf.process_page.
    destruct (ExtractPdf.extract_text pg) as [[| y t] |]; eauto.
    apply for_each_total_inv; [| exact H].
    intros l s Hs. apply process_line_step. exact Hs.
  - constructor.
Qed.

End Resolver.

(* ===================================================================== *)
(** * The parent category of an emitted record                             *)
(* ===================================================================== *)

Section Parent.
Context {U : Unicode}.
Import Re Shared.

Lemma parse_data_line_parent line e :
  ExtractPdf.parse_data_line line = Ok (Some e) -> parent_category e = None.
Proof.
  intros H. apply parse_data_line_inv in H. cbv zeta in H.
  destruct H as [_ [_ [[_ [_ [_ [_ H]]]] | H]]].
  - rewrite H. reflexivity.
  - destruct H as [m0 [ms' [code [cls [idx [sl [_ [_ [_ [_ [_ H]]]]]]]]]]].
    rewrite H. apply make_entry_parent.
Qed.

Lemma is_category_set_parent e p :
  FinalBalancete.is_category (set_parent_category e p) = FinalBalancete.is_category e.
Proof. destruct e. reflexivity. Qed.

Lemma process_line_emits chars bc line st st' :
  ExtractPdf.process_line chars bc line st = Ok st' ->
  ExtractPdf.all_data st' = ExtractPdf.all_data st
  \/ exists e cat,
       ExtractPdf.all_data st' = ExtractPdf.all_data st ++ [e]
       /\ ExtractPdf.category_of chars bc (strip line) = Ok cat
       /\ parent_category e = match cat with
                              | Some _ => None
                              | None => top (ExtractPdf.parent_categories st)
                              end.
Proof.
  intros H. unfold ExtractPdf.process_line in H. cbv zeta in H.
  destruct (_ || _) in H; [inversion H; auto |].
  destruct (has_skip_keyword _ _) in H; [inversion H; auto |].
  destruct (ExtractPdf.category_of chars bc (strip line)) as [[cleaned |] | ex] eqn:E;
    cbn [bind] in H; [| | discriminate].
  - destruct (ExtractPdf.parse_data_line (strip line)) as [[e |] | ex];
      cbn [bind] in H; inversion H; auto.
    right. exists (set_parent_category e None), (Some cleaned). auto.
  - destruct (ExtractPdf.parse_data_line (strip line)) as [[e |] | ex] eqn:Ee;
      cbn [bind] in H; [| inversion H; auto | discriminate].
    rewrite attach_parent_ok in H. cbn [bind] in H. inversion H.
    cbn [ExtractPdf.all_data]. right. eexists. exists None.
    split; [reflexivity |]. split; [reflexivity |].
    destruct (ExtractPdf.parent_categories st); [| reflexivity].
    apply parse_data_line_parent in Ee. exact Ee.
Qed.

Lemma balancete_process_line_emits line st st' :
  FinalBalancete.process_line line st = Ok st' ->
  (FinalBalancete.entries st' = FinalBalancete.entries st
   /\ FinalBalancete.current_parent st' = FinalBalancete.current_parent st)
  \/ exists e,
       FinalBalancete.entries st' = FinalBalancete.entries st ++ [e]
       /\ parent_category e = (if FinalBalancete.is_category e then None
                               else FinalBalancete.current_parent st)
       /\ FinalBalancete.current_parent st'
          = (if FinalBalancete.is_category e then Some (account e)
             else FinalBalancete.current_parent st).
Proof.
  intros H. unfold FinalBalancete.process_line in H.
  destruct (FinalBalancete.skip_line line); [inversion H; auto |].
  destruct (FinalBalancete.parse_entry_line line) as [[e |] | ex] eqn:E;
    cbn [bind] in H; [| inversion H; auto | discriminate].
  apply parse_entry_line_inv in E. cbv zeta in E.
  destruct E as [_ [_ [_ [Ep _]]]].
  destruct (FinalBalancete.is_category e) eqn:Ec; inversion H;
    cbn [FinalBalancete.entries FinalBalancete.current_parent]; right.
  - exists e. rewrite Ec. auto.
  - exists (set_parent_category e (FinalBalancete.current_parent st)).
    rewrite is_category_set_parent, Ec. destruct e. auto.
Qed.

End Parent.

(* ===================================================================== *)
(** * The document pass of final_balancete_parser                          *)
(* ===================================================================== *)

Section BalanceteRun.
Context {U : Unicode}.
Import Re Shared.

Lemma last_category_snoc es e :
  last_category (es ++ [e])
  = if FinalBalancete.is_category e then Some (account e) else last_category es.
Proof. unfold last_category. rewrite fold_left_app. reflexivity. Qed.

Lemma last_category_details es mid :
  forallb (fun x => negb (FinalBalancete.is_category x)) mid = true ->
  last_category (es ++ mid) = last_category es.
Proof.
  induction mid as [| x mid IH] using rev_ind; intros H.
  - rewrite app_nil_r. reflexivity.
  - rewrite forallb_app in H. apply andb_prop in H. destruct H as [H1 H2].
    simpl in H2. rewrite andb_true_r in H2. apply negb_true_iff in H2.
    rewrite app_assoc, last_category_snoc, H2. apply IH. exact H1.
Qed.

Lemma last_category_some es :
  existsb FinalBalancete.is_category es = true -> last_category es <> None.
Proof.
  induction es as [| x es IH] using rev_ind; intros H; [discriminate |].
  rewrite last_category_snoc. rewrite existsb_app in H.
  destruct (FinalBalancete.is_category x) eqn:E; [discriminate |].
  simpl in H. rewrite E in H. simpl in H. rewrite orb_false_r in H. apply IH, H.
Qed.

Lemma snoc_split A (es pre post : list A) (e x : A) :
  es ++ [e] = pre ++ x :: post ->
  (post = [] /\ pre = es /\ x = e)
  \/ exists post', post = post' ++ [e] /\ es = pre ++ x :: post'.
Proof.
  intros H. destruct post as [| y post] using rev_ind.
  - left. apply app_inj_tail in H. destruct H as [H1 H2]. auto.
  - right. exists post.
    change (pre ++ x :: post ++ [y]) with (pre ++ (x :: post) ++ [y]) in H.
    rewrite app_assoc in H. apply app_inj_tail in H. destruct H as [H1 H2].
    subst. auto.
Qed.

Lemma process_line_invariant line st st' :
  FinalBalancete.process_line line st = Ok st' ->
  run_invariant st -> run_invariant st'.
Proof.
  intros H [I1 I2]. apply balancete_process_line_emits in H.
  destruct H as [[H1 H2] | [e [H1 [H2 H3]]]].
  - split; [rewrite H1, H2; exact I1 | rewrite H1; exact I2].
  - split.
    + rewrite H3, H1, last_category_snoc, I1. reflexivity.
    + intros pre x post Hx Hc. rewrite H1 in Hx. apply snoc_split in Hx.
      destruct Hx as [[_ [-> ->]] | [post' [_ Hx]]].
      * rewrite H2, Hc, I1. reflexivity.
      * eapply I2; eauto.
Qed.

Lemma balancete_process_line_total line st :
  exists st', FinalBalancete.process_line line st = Ok st'.
Proof.
  unfold FinalBalancete.process_line.
  destruct (FinalBalancete.skip_line line); [eauto |].
  destruct (parse_entry_line_total line) as [[e |] E]; rewrite E; cbn [bind];
    [| eauto].
  destruct (FinalBalancete.is_category e); eauto.
Qed.

Lemma extract_data_invariant text :
  exists st,
    FinalBalancete.run_lines (split_on 10 text) (FinalBalancete.State [] None) = Ok st
    /\ FinalBalancete.extract_data text = Ok (FinalBalancete.entries st)
    /\ run_invariant st.
Proof.
  destruct (@for_each_total_inv _ _ run_invariant FinalBalancete.process_line
              (split_on 10 text)) with (s0 := FinalBalancete.State [] None)
    as [st [E I]].
  - intros line s Hs. destruct (balancete_process_line_total line s) as [s' Es].
    exists s'. split; [exact Es |]. eapply process_line_invariant; eauto.
  - split; [reflexivity |]. intros pre e post H. destruct pre; discriminate.
  - exists st. unfold FinalBalancete.extract_data.
    unfold FinalBalancete.run_lines in *. rewrite E. cbn [bind]. auto.
Qed.

End BalanceteRun.

(* ===================================================================== *)
(** * Header candidates                                                    *)
(* ===================================================================== *)

Section Header.
Context {U : Unicode}.
Import Re Shared.

Lemma split_on_not_nil c t : split_on c t <> [].
Proof.
  destruct t as [| y t]; simpl; [discriminate |].
  destruct (char_eqb y c); [discriminate |].
  destruct (split_on c t); discriminate.
Qed.

Lemma split_on_join c t : join [c] (split_on c t) = t.
Proof.
  induction t as [| y t IH]; [reflexivity |].
  simpl. pose proof (split_on_not_nil c t) as Hn.
  destruct (split_on c t) as [| w ws] eqn:Es; [congruence |].
  destruct (char_eqb y c) eqn:E.
  - apply N.eqb_eq in E. subst y. simpl in *. rewrite IH. reflexivity.
  - simpl in *. rewrite IH. reflexivity.
Qed.

Lemma five_groups_inv t :
  five_groups t = true ->
  exists a b c d e,
    t = a ++ ch "." :: b ++ ch "." :: c ++ ch "." :: d ++ ch "." :: e
    /\ digits a = true /\ digits b = true /\ digits c = true
    /\ digits d = true /\ digits e = true.
Proof.
  unfold five_groups. intros H. pose proof (split_on_join (ch ".") t) as J.
  destruct (split_on (ch ".") t) as [| a [| b [| c [| d [| e [| f l]]]]]];
    try discriminate.
  apply andb_prop in H. destruct H as [H He].
  apply andb_prop in H. destruct H as [H Hd].
  apply andb_prop in H. destruct H as [H Hc].
  apply andb_prop in H. destruct H as [Ha Hb].
  exists a, b, c, d, e.
  split; [| repeat split; assumption].
  rewrite <- J. simpl. rewrite app_nil_r. reflexivity.
Qed.

(** The longest run of digits at the head of a string. *)
Lemma digit_span s :
  exists a b, s = a ++ b /\ forallb is_decimal a = true
              /\ match b with
                 | [] => True
                 | y :: _ => is_decimal y = false
                 end.
Proof.
  induction s as [| y s IH].
  - exists [], []. auto.
  - destruct (is_decimal y) eqn:E.
    + destruct IH as [a [b [H1 [H2 H3]]]]. exists (y :: a), b.
      simpl. rewrite E, H2, H1. auto.
    + exists [], (y :: s). auto.
Qed.

Lemma set_digit_one y : set_has [Cls Digit] y = is_decimal y.
Proof. unfold set_has. simpl. apply orb_false_r. Qed.

(** [\d+] in front of a character that is no digit. *)
Lemma run_digits_intro R r (k : cursor -> groups -> option R) a s i p g x :
  digits a = true ->
  match s with
  | [] => True
  | y :: _ => is_decimal y = false
  end ->
  run r k (Cursor (i + length a) (last (map Some a) p) s) g = Some x ->
  run (Seq (plus dig) r) k (Cursor i p (a ++ s)) g = Some x.
Proof.
  intros Ha Hs Hk. rewrite run_Seq. unfold dig. apply run_plus_greedy.
  - rewrite set_digit_only. apply digits_all. exact Ha.
  - unfold digits in Ha. apply andb_prop in Ha. apply Ha.
  - destruct s; [exact I | rewrite set_digit_one; exact Hs].
  - exact Hk.
Qed.

(** [\d+\.] *)
Lemma run_digits_dot_intro R r (k : cursor -> groups -> option R) a s i p g x :
  digits a = true ->
  run r k (Cursor (S (i + length a)) (Some (ch ".")) s) g = Some x ->
  run (Seq (plus dig) (Seq (Lit (ch ".")) r)) k (Cursor i p (a ++ ch "." :: s)) g
  = Some x.
Proof.
  intros Ha Hk. apply run_digits_intro; [exact Ha | exact dot_not_decimal |].
  rewrite run_Seq, run_Lit. unfold step. cbn [rest pos].
  unfold char_eqb. rewrite N.eqb_refl. exact Hk.
Qed.

Lemma digits_app a b :
  digits a = true -> forallb is_decimal b = true -> digits (a ++ b) = true.
Proof.
  unfold digits. intros Ha Hb. apply andb_prop in Ha. destruct Ha as [H1 H2].
  rewrite forallb_app, H2, Hb. destruct a; [discriminate | reflexivity].
Qed.

(** The five-group pattern matches where a five-group code starts. *)
Lemma five_groups_match_at subj i p t post :
  five_groups t = true ->
  match_at five_groups_re subj (Cursor i p (t ++ post)) <> None.
Proof.
  intros H. apply five_groups_inv in H.
  destruct H as [a [b [c [d [e [E [Ha [Hb [Hc [Hd He]]]]]]]]]].
  destruct (digit_span post) as [e' [post' [E1 [E2 E3]]]].
  subst t post. unfold match_at, five_groups_re, cat. cbn [fold_right pos].
  repeat (rewrite <- app_assoc; cbn [app]).
  match goal with
  | |- ?t <> None => assert (K : exists m, t = Some m); [| destruct K as [m K]; congruence]
  end.
  eexists.
  eapply run_digits_dot_intro; [exact Ha |].
  eapply run_digits_dot_intro; [exact Hb |].
  eapply run_digits_dot_intro; [exact Hc |].
  eapply run_digits_dot_intro; [exact Hd |].
  rewrite app_assoc.
  eapply run_digits_intro; [apply digits_app; eassumption | exact E3 |].
  rewrite run_Empty. reflexivity.
Qed.

Lemma search_from_some r subj :
  forall sk i p t',
    (forall p', match_at r subj (Cursor (i + length sk) p' t') <> None) ->
    search_from r subj i p (sk ++ t') <> None.
Proof.
  induction sk as [| y sk IH]; intros i p t' H.
  - simpl in *. rewrite Nat.add_0_r in H. specialize (H p).
    destruct t'; simpl; destruct (match_at r subj _); congruence.
  - simpl. destruct (match_at r subj (Cursor i p (y :: sk ++ t'))); [discriminate |].
    apply IH. intros p'. replace (S i + length sk) with (i + length (y :: sk))
      by (simpl; lia). apply H.
Qed.

(** [re.search] of the five-group pattern succeeds on every line that
    holds a five-group code. *)
Lemma five_groups_found pre t post :
  five_groups t = true ->
  re_search five_groups_re (pre ++ t ++ post) <> None.
Proof.
  intros H. unfold re_search. apply search_from_some.
  intros p'. apply five_groups_match_at. exact H.
Qed.

Lemma isupper_nonempty s : isupper s = true -> nonempty s = true.
Proof. destruct s; [discriminate | reflexivity]. Qed.

End Header.

(* ===================================================================== *)
(** * The ledger code                                                      *)
(* ===================================================================== *)

Section LedgerCode.
Context {U : Unicode}.
Import Re Shared.

Lemma code_end_not_decimal x : code_end x = true -> is_decimal x = false.
Proof.
  unfold code_end, set_has. cbn [existsb item_has in_cls]. intros H.
  apply orb_prop in H. destruct H as [H | H].
  - rewrite orb_false_r in H. apply space_not_decimal. exact H.
  - rewrite orb_false_r in H. change (ch "A") with 65%N in H.
    change (ch "Z") with 90%N in H. change (ch "À") with 192%N in H.
    change (ch "Ú") with 218%N in H. unfold in_range in H.
    assert (Hx : (x < 256)%N).
    { apply orb_prop in H. destruct H as [H | H]; apply andb_prop in H;
        destruct H as [_ H]; apply N.leb_le in H; lia. }
    rewrite decimal_latin1 by exact Hx. unfold latin1_decimal, in_range.
    apply orb_prop in H. destruct H as [H | H]; apply andb_prop in H;
      destruct H as [H1 H2]; apply N.leb_le in H1, H2;
      destruct (48 <=? x)%N eqn:E1; destruct (x <=? 57)%N eqn:E2; try reflexivity;
      apply N.leb_le in E1, E2; lia.
Qed.

Lemma code_end_not_dot x : code_end x = true -> x <> ch ".".
Proof.
  intros H E. subst x. unfold code_end, set_has in H.
  cbn [existsb item_has in_cls] in H.
  rewrite space_latin1 in H by reflexivity. vm_compute in H. discriminate.
Qed.

(** What [^(\d{1,6})(?:\s|[A-ZÀ-Ú])] matches at the start of a line. *)
Lemma code_match l m c :
  re_match FinalBalancete.code_re l = Some m -> group m 1 = Some c ->
  exists x t,
    l = c ++ x :: t /\ forallb is_decimal c = true /\ 1 <= length c <= 6
    /\ code_end x = true.
Proof.
  unfold re_match, match_at, FinalBalancete.code_re, cat. cbn [fold_right].
  intros H G. rewrite run_Seq, run_Bol in H. cbn [pos Nat.eqb] in H.
  rewrite run_Seq, run_Group in H. unfold dig in H.
  apply run_class_between_inv in H. destruct H as [taken [c1 [H1 [Hlen [Hall H]]]]].
  rewrite run_Seq in H. cbn [pos] in H.
  assert (K : exists x t (e : nat),
             rest c1 = x :: t /\ code_end x = true
             /\ Match l 0 e [(1, (0, pos c1))] = m).
  { change (run (Alt spc (OneOf [Range (ch "A") (ch "Z"); Range (ch "À") (ch "Ú")]))
              (run Empty (fun c' g' => Some (Match l 0 (pos c') g')))
              c1 [(1, (0, pos c1))] = Some m) in H.
    cbn [run] in H. apply or_else_inv in H. destruct H as [H | [_ H]];
      apply step_inv in H; destruct H as [x [t [Hr [Hx Hk]]]];
      inversion Hk; exists x, t; eexists; (split; [exact Hr |]);
      (split; [| reflexivity]); unfold code_end; rewrite Hx;
      [reflexivity | apply orb_true_r]. }
  destruct K as [x [t [e [Hr [Hx Hm]]]]]. subst m.
  unfold group in G. cbn [m_groups span_of subject Nat.eqb] in G.
  inversion G as [G']. destruct H1 as [H1 H2]. cbn [rest pos] in H1, H2.
  assert (Ec : slice l 0 (pos c1) = taken).
  { unfold slice. cbn [skipn]. rewrite H2, Nat.sub_0_r. cbn [Nat.add].
    rewrite H1. apply (firstn_skipn_app taken (rest c1) eq_refl). }
  rewrite Ec. exists x, t. rewrite <- Hr. rewrite set_digit_only in Hall.
  split; [exact H1 |]. split; [exact Hall |]. split; [exact Hlen | exact Hx].
Qed.

Lemma split_on_head c g g' gs t :
  split_on c t = g :: g' :: gs -> exists t', t = g ++ c :: t'.
Proof.
  intros H. pose proof (split_on_join c t) as J. rewrite H in J.
  simpl in J. exists (g' ++ flat_map (fun x => c :: x) gs). rewrite <- J.
  reflexivity.
Qed.

Lemma dotted_code_head t :
  dotted_code t = true ->
  exists g t', t = g ++ ch "." :: t' /\ digits g = true.
Proof.
  unfold dotted_code. intros H. apply andb_prop in H. destruct H as [H1 H2].
  apply Nat.leb_le in H1.
  destruct (split_on (ch ".") t) as [| g [| g' gs]] eqn:E; simpl in H1; try lia.
  destruct (split_on_head _ _ E) as [t' Et]. exists g, t'.
  split; [exact Et |]. simpl in H2. apply andb_prop in H2. apply H2.
Qed.

(** A run of digits that ends before white space or a capital letter
    shares no character with a dotted code. *)
Lemma code_apart c x rest_ pre t post :
  forallb is_decimal c = true -> code_end x = true ->
  c ++ x :: rest_ = pre ++ t ++ post ->
  dotted_code t = true ->
  length c <= length pre.
Proof.
  intros Hc Hx E Ht. destruct (dotted_code_head t Ht) as [g [t' [Et Hg]]]. subst t.
  destruct (Nat.le_gt_cases (length c) (length pre)) as [L | L]; [exact L | exfalso].
  pose proof (digits_all _ Hg) as Hg'.
  rewrite <- app_assoc in E. cbn [app] in E.
  destruct (Nat.lt_trichotomy (length pre + length g) (length c)) as [K | [K | K]].
  - (* the dot falls inside the code *)
    assert (N1 : nth_error (pre ++ g ++ ch "." :: t' ++ post) (length pre + length g)
                 = Some (ch ".")).
    { rewrite app_assoc, nth_error_app2 by (rewrite length_app; lia).
      rewrite length_app, Nat.sub_diag. reflexivity. }
    rewrite <- E, nth_error_app1 in N1 by lia.
    apply nth_error_In in N1. rewrite forallb_forall in Hc.
    specialize (Hc _ N1). rewrite dot_not_decimal in Hc. discriminate.
  - (* the dot is the character after the code *)
    assert (N1 : nth_error (pre ++ g ++ ch "." :: t' ++ post) (length c)
                 = Some (ch ".")).
    { rewrite <- K, app_assoc, nth_error_app2 by (rewrite length_app; lia).
      rewrite length_app, Nat.sub_diag. reflexivity. }
    rewrite <- E, nth_error_app2, Nat.sub_diag in N1 by lia.
    inversion N1. apply (@code_end_not_dot x Hx). assumption.
  - (* the character after the code is a digit of the first group *)
    assert (N1 : exists y, nth_error (pre ++ g ++ ch "." :: t' ++ post) (length c)
                           = Some y /\ is_decimal y = true).
    { rewrite nth_error_app2 by lia. rewrite nth_error_app1 by lia.
      destruct (nth_error g (length c - length pre)) as [y |] eqn:Ey.
      - exists y. split; [reflexivity |]. apply nth_error_In in Ey.
        rewrite forallb_forall in Hg'. apply Hg'. exact Ey.
      - apply nth_error_None in Ey. lia. }
    destruct N1 as [y [N1 Hy]].
    rewrite <- E, nth_error_app2, Nat.sub_diag in N1 by lia.
    inversion N1. subst y. rewrite (@code_end_not_decimal x Hx) in Hy. discriminate.
Qed.

(** With a classification, [find_code_and_classification] reads the code
    from the text before the match of the classification. *)
Lemma find_code_before cre pbv code cls idx cl c :
  find_code_and_classification cre pbv = Ok (code, cls, idx) ->
  or_none cls = Some cl -> or_none code = Some c ->
  exists m cm,
    re_search cre pbv = Some m /\ group m 1 = Some cl
    /\ re_search code_re (strip (firstn (m_start m) pbv)) = Some cm
    /\ group cm 1 = Some c.
Proof.
  unfold find_code_and_classification. intros H Hcl Hc.
  destruct (re_search cre pbv) as [m |] eqn:E.
  - destruct (truthy (group m 1)) eqn:T; cbn [negb] in H.
    + cbn [attr bind] in H.
      destruct (re_search code_re (strip (firstn (m_start m) pbv))) as [cm |] eqn:Ec;
        cbn [bind] in H; inversion H; subst code cls idx.
      * exists m, cm. unfold or_none in Hcl, Hc. rewrite T in Hcl.
        destruct (truthy (group cm 1)); [| discriminate]. auto.
      * discriminate.
    + destruct (re_search code_re pbv) in H; cbn [bind] in H; inversion H; subst;
        unfold or_none in Hcl; rewrite T in Hcl; discriminate.
  - cbn [truthy negb] in H.
    destruct (re_search code_re pbv) in H; cbn [bind] in H; inversion H; subst;
      discriminate.
Qed.

Lemma make_entry_code c cls acc sl : code (make_entry c cls acc sl) = or_none c.
Proof. destruct sl as [[[? ?] ?] ?]. reflexivity. Qed.

End LedgerCode.

(* ===================================================================== *)
(** * Substitution of one-character patterns and of white space            *)
(* ===================================================================== *)

Section Substitution.
Context {U : Unicode}.
Import Re.

Lemma class_split (ok : char -> bool) (t : str) :
  forallb (fun y => negb (ok y)) t = true
  \/ exists sk x t',
       t = sk ++ x :: t' /\ forallb (fun y => negb (ok y)) sk = true /\ ok x = true.
Proof.
  induction t as [| y t IH]; [left; reflexivity |].
  destruct (ok y) eqn:E.
  - right. exists [], y, t. auto.
  - destruct IH as [IH | [sk [x [t' [H1 [H2 H3]]]]]].
    + left. simpl. rewrite E. exact IH.
    + right. exists (y :: sk), x, t'. simpl. rewrite E, H1. auto.
Qed.

(** The leftmost match of a one-character pattern is the first character
    of its class. *)
Lemma search_class_first r ok subj :
  (forall R (k : cursor -> groups -> option R) c g, run r k c g = step ok k c g) ->
  forall sk i p x t',
    forallb (fun y => negb (ok y)) sk = true -> ok x = true ->
    search_from r subj i p (sk ++ x :: t')
    = Some (Match subj (i + length sk) (S (i + length sk)) []).
Proof.
  intros Hr. induction sk as [| y sk IH]; intros i p x t' Hsk Hx.
  - cbn [app length search_from]. unfold match_at. rewrite Hr. unfold step.
    cbn [rest pos]. rewrite Hx, Nat.add_0_r. reflexivity.
  - cbn [app length search_from]. unfold match_at at 1. rewrite Hr. unfold step.
    cbn [rest pos]. simpl in Hsk. apply andb_prop in Hsk. destruct Hsk as [Hy Hsk].
    apply negb_true_iff in Hy. rewrite Hy.
    rewrite (IH (S i) (Some y) x t' Hsk Hx).
    replace (S i + length sk) with (i + S (length sk)) by lia. reflexivity.
Qed.

Lemma flat_map_keep (ok : char -> bool) (sp t : str) :
  forallb (fun y => negb (ok y)) t = true ->
  flat_map (fun x => if ok x then sp else [x]) t = t.
Proof.
  induction t as [| y t IH]; intros H; [reflexivity |].
  simpl in H. apply andb_prop in H. destruct H as [Hy Ht].
  apply negb_true_iff in Hy. simpl. rewrite Hy, (IH Ht). reflexivity.
Qed.

(** [re.sub] of a one-character pattern by a constant replaces every
    character of the class. *)
Lemma sub_class_from r ok sp subj :
  (forall R (k : cursor -> groups -> option R) c g, run r k c g = step ok k c g) ->
  forall fuel i p t,
    t = skipn i subj -> length t < fuel ->
    sub_build subj i (fun _ => sp) (finditer_from fuel r subj i p t)
    = flat_map (fun x => if ok x then sp else [x]) t.
Proof.
  intros Hr. induction fuel as [| fuel IH]; intros i p t Ht Hf; [lia |].
  cbn [finditer_from].
  destruct (class_split ok t) as [H | [sk [x [t' [H1 [H2 H3]]]]]].
  - rewrite (search_class_none r ok subj Hr t i p H). cbn [sub_build].
    rewrite flat_map_keep by exact H. symmetry. exact Ht.
  - rewrite H1, (@search_class_first r ok subj Hr sk i p x t' H2 H3).
    cbn [m_end m_start sub_build].
    replace (S (i + length sk) =? i + length sk) with false
      by (symmetry; apply Nat.eqb_neq; lia).
    assert (E1 : skipn i subj = sk ++ x :: t') by congruence.
    assert (E2 : t' = skipn (S (i + length sk)) subj).
    { replace (S (i + length sk)) with (i + length (sk ++ [x]))
        by (rewrite length_app; simpl; lia).
      apply skipn_skipn_app with (t := t); [exact Ht |].
      rewrite <- app_assoc. exact H1. }
    rewrite <- E2, IH.
    + rewrite (slice_consumed subj i sk (x :: t') E1).
      rewrite flat_map_app, (@flat_map_keep ok sp sk H2).
      cbn [flat_map]. rewrite H3. reflexivity.
    + exact E2.
    + rewrite H1, length_app in Hf. simpl in Hf. lia.
Qed.

Lemma sub_class r ok sp subj :
  (forall R (k : cursor -> groups -> option R) c g, run r k c g = step ok k c g) ->
  re_sub r (fun _ => sp) subj = flat_map (fun x => if ok x then sp else [x]) subj.
Proof.
  intros Hr. unfold re_sub, re_finditer.
  apply sub_class_from with (ok := ok); [exact Hr | reflexivity | lia].
Qed.

End Substitution.

Section WhiteSpace.
Context {U : Unicode}.
Import Re.

(** [[...]+] does not match where no character of the class stands. *)
Lemma match_plus_none items subj i p t :
  match t with
  | [] => True
  | y :: _ => set_has items y = false
  end ->
  match_at (plus (OneOf items)) subj (Cursor i p t) = None.
Proof.
  intros H. unfold match_at, plus. rewrite run_Repeat. cbn [rest].
  destruct t as [| y t]; [reflexivity |].
  cbn [length]. rewrite rep_loop_S. cbn [below]. rewrite run_OneOf.
  unfold step. cbn [rest]. rewrite H. reflexivity.
Qed.

Lemma search_plus_none items subj :
  forall t i p,
    forallb (fun y => negb (set_has items y)) t = true ->
    search_from (plus (OneOf items)) subj i p t = None.
Proof.
  induction t as [| y t IH]; intros i p H; cbn [search_from].
  - rewrite match_plus_none by exact I. reflexivity.
  - simpl in H. apply andb_prop in H. destruct H as [Hy Ht].
    apply negb_true_iff in Hy. rewrite match_plus_none by exact Hy.
    apply IH. exact Ht.
Qed.

(** The leftmost match of [[...]+] is the first run of the class. *)
Lemma search_plus_first items subj :
  forall sk i p a t',
    forallb (fun y => negb (set_has items y)) sk = true ->
    forallb (set_has items) a = true -> nonempty a = true ->
    match t' with
    | [] => True
    | y :: _ => set_has items y = false
    end ->
    search_from (plus (OneOf items)) subj i p (sk ++ a ++ t')
    = Some (Match subj (i + length sk) (i + length sk + length a) []).
Proof.
  induction sk as [| y sk IH]; intros i p a t' Hsk Ha Hne Ht.
  - cbn [app length]. rewrite Nat.add_0_r.
    assert (M : match_at (plus (OneOf items)) subj (Cursor i p (a ++ t'))
                = Some (Match subj i (i + length a) [])).
    { unfold match_at. apply run_plus_greedy; auto. }
    destruct (a ++ t'); cbn [search_from]; rewrite M; reflexivity.
  - cbn [app length search_from]. simpl in Hsk. apply andb_prop in Hsk.
    destruct Hsk as [Hy Hsk]. apply negb_true_iff in Hy.
    rewrite match_plus_none by exact Hy.
    rewrite (IH (S i) (Some y) a t' Hsk Ha Hne Ht).
    replace (S i + length sk) with (i + S (length sk)) by lia. reflexivity.
Qed.

End WhiteSpace.

(* ===================================================================== *)
(** * Words, [str.split()] and [str.strip()]                                *)
(* ===================================================================== *)

Section Words.
Context {U : Unicode}.

Lemma word_inv w :
  word w = true ->
  exists x w', w = x :: w' /\ is_space x = false
               /\ forallb (fun y => negb (is_space y)) w' = true.
Proof.
  unfold word. intros H. apply andb_prop in H. destruct H as [H1 H2].
  destruct w as [| x w']; [discriminate |]. simpl in H2.
  apply andb_prop in H2. destruct H2 as [Hx Hw]. apply negb_true_iff in Hx.
  exists x, w'. auto.
Qed.

Lemma word_no_space w :
  word w = true -> forallb (fun y => negb (is_space y)) w = true.
Proof. unfold word. intros H. apply andb_prop in H. apply H. Qed.

Lemma forallb_rev A (f : A -> bool) (l : list A) :
  forallb f l = true -> forallb f (rev l) = true.
Proof.
  rewrite !forallb_forall. intros H x Hx. apply H. apply in_rev. exact Hx.
Qed.

Lemma lstrip_spaces a t : forallb is_space a = true -> lstrip (a ++ t) = lstrip t.
Proof.
  induction a as [| x a IH]; intros H; [reflexivity |].
  simpl in H. apply andb_prop in H. destruct H as [Hx Ha].
  simpl. rewrite Hx. apply IH. exact Ha.
Qed.

Lemma lstrip_word w t : word w = true -> lstrip (w ++ t) = w ++ t.
Proof.
  intros H. destruct (word_inv w H) as [x [w' [-> [Hx _]]]].
  simpl. rewrite Hx. reflexivity.
Qed.

Lemma lstrip_all_spaces a : forallb is_space a = true -> lstrip a = [].
Proof.
  intros H. rewrite <- (app_nil_r a), lstrip_spaces by exact H. reflexivity.
Qed.

Lemma rev_word w : word w = true -> word (rev w) = true.
Proof.
  intros H. unfold word. rewrite (forallb_rev _ _ (word_no_space w H)).
  destruct (word_inv w H) as [x [w' [-> _]]]. simpl.
  destruct (rev w'); reflexivity.
Qed.

(** [strip] removes the white space around a word and nothing of a text
    that starts and ends with a word. *)
Lemma rstrip_word a w : word w = true -> rstrip (a ++ w) = a ++ w.
Proof.
  intros H. unfold rstrip. rewrite rev_app_distr, lstrip_word by (apply rev_word; exact H).
  rewrite <- rev_app_distr. apply rev_involutive.
Qed.

Lemma rstrip_spaces w b :
  word w = true -> forallb is_space b = true -> rstrip (w ++ b) = w.
Proof.
  intros Hw Hb. unfold rstrip.
  rewrite rev_app_distr, lstrip_spaces by (apply forallb_rev; exact Hb).
  rewrite <- (app_nil_r (rev w)), lstrip_word by (apply rev_word; exact Hw).
  rewrite app_nil_r. apply rev_involutive.
Qed.

Lemma strip_around a w b :
  forallb is_space a = true -> word w = true -> forallb is_space b = true ->
  strip (a ++ w ++ b) = w.
Proof.
  intros Ha Hw Hb. unfold strip.
  rewrite lstrip_spaces, lstrip_word by assumption.
  apply rstrip_spaces; assumption.
Qed.

Lemma strip_all_spaces a : forallb is_space a = true -> strip a = [].
Proof. intros H. unfold strip. rewrite lstrip_all_spaces by exact H. reflexivity. Qed.

(** The text that [" ".join] makes of words. *)
Lemma join_cons2 sep (w w' : str) ws :
  join sep (w :: w' :: ws) = w ++ sep ++ join sep (w' :: ws).
Proof. unfold join. cbn [flat_map]. rewrite <- app_assoc. reflexivity. Qed.

Lemma join_one sep (w : str) : join sep [w] = w.
Proof. unfold join. cbn [flat_map]. apply app_nil_r. Qed.

Lemma join_snoc sep (ws : list str) (wl : str) :
  exists pre, join sep (ws ++ [wl]) = pre ++ wl.
Proof.
  destruct ws as [| w ws].
  - exists []. apply join_one.
  - exists (w ++ flat_map (fun x => sep ++ x) ws ++ sep).
    unfold join. cbn [app]. rewrite flat_map_app. cbn [flat_map].
    rewrite app_nil_r, <- !app_assoc. reflexivity.
Qed.

Lemma join_head sep (w : str) ws : exists post, join sep (w :: ws) = w ++ post.
Proof. exists (flat_map (fun x => sep ++ x) ws). reflexivity. Qed.

Lemma strip_join (ws : list str) :
  Forall (fun w => word w = true) ws -> strip (join (u " ") ws) = join (u " ") ws.
Proof.
  intros H. destruct ws as [| w ws]; [reflexivity |].
  unfold strip. destruct (join_head (u " ") w ws) as [post E].
  rewrite E, lstrip_word by (inversion H; assumption). rewrite <- E.
  destruct (@exists_last _ (w :: ws)) as [ws0 [wl E2]]; [discriminate |].
  rewrite E2. destruct (join_snoc (u " ") ws0 wl) as [pre E3]. rewrite E3.
  apply rstrip_word. rewrite E2 in H. rewrite Forall_forall in H. apply H.
  apply in_or_app. right. left. reflexivity.
Qed.

End Words.

Section SplitWords.
Context {U : Unicode}.

Lemma space_is_space : is_space (ch " ") = true.
Proof. rewrite space_latin1 by reflexivity. reflexivity. Qed.

Lemma split_ws_go_word cur w rest :
  forallb (fun y => negb (is_space y)) w = true ->
  split_ws_go cur (w ++ rest) = split_ws_go (rev w ++ cur) rest.
Proof.
  revert cur. induction w as [| x w IH]; intros cur H; [reflexivity |].
  simpl in H. apply andb_prop in H. destruct H as [Hx Hw].
  apply negb_true_iff in Hx. cbn [app split_ws_go rev]. rewrite Hx.
  rewrite (IH (x :: cur) Hw), <- app_assoc. reflexivity.
Qed.

Lemma split_ws_go_join (ws : list str) :
  Forall (fun w => word w = true) ws ->
  forall cur, cur <> [] ->
  split_ws_go cur (flat_map (fun x => u " " ++ x) ws) = rev cur :: ws.
Proof.
  induction 1 as [| w ws Hw Hws IH]; intros cur Hc.
  - destruct cur; [contradiction | reflexivity].
  - cbn [flat_map]. change (u " ") with [ch " "]. cbn [app split_ws_go].
    rewrite space_is_space. destruct cur as [| c cur]; [contradiction |].
    rewrite split_ws_go_word by (apply word_no_space; exact Hw).
    rewrite app_nil_r, IH.
    + rewrite rev_involutive. reflexivity.
    + destruct (word_inv w Hw) as [x [w' [-> _]]]. simpl.
      destruct (rev w'); discriminate.
Qed.

(** [" ".join(ws).split()] gives the words back. *)
Lemma split_ws_join (ws : list str) :
  Forall (fun w => word w = true) ws -> split_ws (join (u " ") ws) = ws.
Proof.
  intros H. destruct ws as [| w ws]; [reflexivity |].
  inversion H as [| ? ? Hw Hws]. subst. unfold split_ws, join.
  rewrite split_ws_go_word by (apply word_no_space; exact Hw).
  rewrite app_nil_r, split_ws_go_join.
  - rewrite rev_involutive. reflexivity.
  - exact Hws.
  - destruct (word_inv w Hw) as [x [w' [-> _]]]. simpl.
    destruct (rev w'); discriminate.
Qed.

(** The words of [s.split()] are words, made of characters of [s]. *)
Lemma split_ws_go_words s :
  forall cur w,
    forallb (fun y => negb (is_space y)) cur = true ->
    In w (split_ws_go cur s) ->
    word w = true /\ forall x, In x w -> In x cur \/ In x s.
Proof.
  assert (R : forall cur, cur <> [] ->
              forallb (fun y => negb (is_space y)) cur = true ->
              word (rev cur) = true /\ forall x, In x (rev cur) -> In x cur).
  { intros cur Hne Hc. split.
    - unfold word. rewrite (forallb_rev _ _ Hc), andb_true_r.
      destruct cur as [| c cur]; [contradiction |]. simpl.
      destruct (rev cur); reflexivity.
    - intros x Hx. apply in_rev. exact Hx. }
  induction s as [| y s IH]; intros cur w Hc Hin.
  - simpl in Hin. destruct cur as [| c cur]; [contradiction |].
    destruct Hin as [<- | []]. destruct (R (c :: cur)) as [R1 R2];
      [discriminate | exact Hc |]. split; [exact R1 |]. intros x Hx. left. auto.
  - cbn [split_ws_go] in Hin. destruct (is_space y) eqn:Ey.
    + destruct cur as [| c cur].
      * destruct (IH [] w eq_refl Hin) as [K1 K2]. split; [exact K1 |].
        intros x Hx. destruct (K2 x Hx) as [[] | K]. right. right. exact K.
      * destruct Hin as [<- | Hin].
        -- destruct (R (c :: cur)) as [R1 R2]; [discriminate | exact Hc |].
           split; [exact R1 |]. intros x Hx. left. auto.
        -- destruct (IH [] w eq_refl Hin) as [K1 K2]. split; [exact K1 |].
           intros x Hx. destruct (K2 x Hx) as [[] | K]. right. right. exact K.
    + destruct (IH (y :: cur) w) as [K1 K2].
      * simpl. rewrite Ey. exact Hc.
      * exact Hin.
      * split; [exact K1 |]. intros x Hx.
        destruct (K2 x Hx) as [[K | K] | K]; [right; left; exact K | left; exact K |].
        right. right. exact K.
Qed.

Lemma split_ws_words s w :
  In w (split_ws s) -> word w = true /\ forall x, In x w -> In x s.
Proof.
  intros H. destruct (split_ws_go_words s [] w eq_refl H) as [K1 K2].
  split; [exact K1 |]. intros x Hx. destruct (K2 x Hx) as [[] | K]. exact K.
Qed.

(** A text without words is white space. *)
Lemma split_ws_go_nil s :
  forall cur, split_ws_go cur s = [] -> cur = [] /\ forallb is_space s = true.
Proof.
  induction s as [| y s IH]; intros cur H.
  - destruct cur; [auto | discriminate].
  - cbn [split_ws_go] in H. destruct (is_space y) eqn:Ey.
    + destruct cur; [| discriminate]. destruct (IH [] H) as [_ K].
      simpl. rewrite Ey. auto.
    + destruct (IH (y :: cur) H) as [K _]. discriminate.
Qed.

(** A text of one word is that word within white space. *)
Lemma split_ws_go_one s :
  forall cur w,
    forallb (fun y => negb (is_space y)) cur = true ->
    split_ws_go cur s = [w] ->
    exists a w' b,
      s = a ++ w' ++ b /\ w = rev cur ++ w'
      /\ forallb is_space a = true /\ forallb is_space b = true
      /\ forallb (fun y => negb (is_space y)) w' = true
      /\ (cur <> [] -> a = []).
Proof.
  induction s as [| y s IH]; intros cur w Hc H.
  - simpl in H. destruct cur as [| c cur]; [discriminate |]. inversion H.
    exists [], [], []. rewrite !app_nil_r. repeat split; auto.
  - cbn [split_ws_go] in H. destruct (is_space y) eqn:Ey.
    + destruct cur as [| c cur].
      * destruct (IH [] w eq_refl H) as [a [w' [b [E1 [E2 [Ha [Hb [Hw _]]]]]]]].
        exists (y :: a), w', b. rewrite E1. simpl. rewrite Ey.
        repeat split; auto. intros K. contradiction.
      * inversion H as [[E1 E2]]. destruct (split_ws_go_nil s [] E2) as [_ K].
        exists [], [], (y :: s). rewrite app_nil_r. simpl. rewrite Ey.
        repeat split; auto.
    + destruct (IH (y :: cur) w) as [a [w' [b [E1 [E2 [Ha [Hb [Hw Hn]]]]]]]].
      * simpl. rewrite Ey. exact Hc.
      * exact H.
      * rewrite (Hn ltac:(discriminate)) in E1. cbn [app] in E1.
        exists [], (y :: w'), b. rewrite E1, E2. cbn [rev app].
        rewrite <- app_assoc. simpl. rewrite Ey. repeat split; auto.
Qed.

Lemma strip_no_word s : split_ws s = [] -> strip s = [].
Proof.
  intros H. apply strip_all_spaces. apply (split_ws_go_nil s [] H).
Qed.

Lemma strip_one_word s w : split_ws s = [w] -> strip s = w /\ word w = true.
Proof.
  intros H. assert (Hw : word w = true).
  { apply (split_ws_words s). rewrite H. left. reflexivity. }
  destruct (split_ws_go_one s [] eq_refl H) as [a [w' [b [E1 [E2 [Ha [Hb _]]]]]]].
  cbn [rev app] in E2. subst w'. subst s.
  split; [apply strip_around; assumption | exact Hw].
Qed.

End SplitWords.

Section SpacesOfWords.
Context {U : Unicode}.
Import Re.

Lemma set_space_one y : set_has [Cls Space] y = is_space y.
Proof. unfold set_has. cbn [existsb item_has in_cls]. apply orb_false_r. Qed.

Lemma no_space_class w :
  forallb (fun y => negb (is_space y)) w = true ->
  forallb (fun y => negb (set_has [Cls Space] y)) w = true.
Proof.
  intros H. rewrite forallb_forall in *. intros x Hx.
  rewrite set_space_one. apply H. exact Hx.
Qed.

(** [re.sub(r'\s+', ' ', t)] leaves words that single spaces separate as
    they are. *)
Lemma sub_spaces_words subj (ws : list str) :
  Forall (fun w => word w = true) ws ->
  forall fuel i p,
    join (u " ") ws = skipn i subj -> length (join (u " ") ws) < fuel ->
    sub_build subj i (fun _ => u " ")
      (finditer_from fuel FinalBalancete.spaces_re subj i p (join (u " ") ws))
    = join (u " ") ws.
Proof.
  unfold FinalBalancete.spaces_re, spc.
  induction 1 as [| w ws Hw Hws IH]; intros fuel i p Hs Hf.
  - destruct fuel as [| fuel]; [lia |]. cbn [finditer_from join].
    rewrite search_plus_none by reflexivity. cbn [sub_build]. symmetry. exact Hs.
  - destruct fuel as [| fuel]; [lia |]. cbn [finditer_from].
    destruct ws as [| w' ws].
    + rewrite join_one in *.
      rewrite search_plus_none by (apply no_space_class, word_no_space; exact Hw).
      cbn [sub_build]. symmetry. exact Hs.
    + rewrite join_cons2 in *.
      assert (Hw' : word w' = true) by (inversion Hws; assumption).
      rewrite search_plus_first.
      * cbn [m_end m_start sub_build].
        change (length (u " ")) with 1.
        replace (i + length w + 1 =? i + length w) with false
          by (symmetry; apply Nat.eqb_neq; lia).
        assert (E2 : join (u " ") (w' :: ws) = skipn (i + length w + 1) subj).
        { replace (i + length w + 1) with (i + length (w ++ u " "))
            by (rewrite length_app; simpl; lia).
          apply skipn_skipn_app with (t := skipn i subj); [reflexivity |].
          rewrite <- app_assoc. symmetry. exact Hs. }
        rewrite <- E2, IH.
        -- symmetry in Hs. rewrite (slice_consumed subj i w _ Hs). reflexivity.
        -- exact E2.
        -- rewrite !length_app in Hf. change (length (u " ")) with 1 in Hf. lia.
      * apply no_space_class, word_no_space. exact Hw.
      * change (u " ") with [ch " "]. cbn [forallb].
        rewrite set_space_one, space_is_space. reflexivity.
      * reflexivity.
      * destruct (join_head (u " ") w' ws) as [post E]. rewrite E.
        destruct (word_inv w' Hw') as [x [w'' [-> [Hx _]]]]. cbn [app].
        rewrite set_space_one. exact Hx.
Qed.

Lemma sub_spaces_join (ws : list str) :
  Forall (fun w => word w = true) ws ->
  re_sub FinalBalancete.spaces_re (fun _ => u " ") (join (u " ") ws) = join (u " ") ws.
Proof.
  intros H. unfold re_sub, re_finditer. apply sub_spaces_words; [exact H | reflexivity | lia].
Qed.

Lemma skipn_subset A (n : nat) (l : list A) x : In x (skipn n l) -> In x l.
Proof.
  intros H. rewrite <- (firstn_skipn n l). apply in_or_app. right. exact H.
Qed.

Lemma firstn_subset A (n : nat) (l : list A) x : In x (firstn n l) -> In x l.
Proof.
  intros H. rewrite <- (firstn_skipn n l). apply in_or_app. left. exact H.
Qed.

(** The text [re.sub] builds is made of the subject and the replacements. *)
Lemma sub_build_chars (P : char -> Prop) subj repl ms :
  Forall P subj -> (forall m, Forall P (repl m)) ->
  forall from, Forall P (sub_build subj from repl ms).
Proof.
  intros Hs Hr. induction ms as [| m ms IH]; intros from; cbn [sub_build].
  - rewrite Forall_forall in *. intros x Hx. apply Hs.
    apply (skipn_subset from subj). exact Hx.
  - apply Forall_app. split; [| apply Forall_app; split; [apply Hr | apply IH]].
    unfold slice. rewrite Forall_forall in *. intros x Hx. apply Hs.
    apply (skipn_subset from subj). apply (firstn_subset (m_start m - from)). exact Hx.
Qed.

End SpacesOfWords.

(* ===================================================================== *)
(** * [clean_description] on its own results                               *)
(* ===================================================================== *)

Section CleanDescription.
Context {U : Unicode}.
Import Re.

Lemma run_special R (k : cursor -> groups -> option R) c g :
  run FinalBalancete.special_re k c g = step (fun y => negb (kept y)) k c g.
Proof. reflexivity. Qed.

Lemma kept_space x : is_space x = true -> kept x = true.
Proof.
  intros H. unfold kept, set_has. cbn [existsb item_has in_cls]. rewrite H.
  rewrite !orb_true_r. reflexivity.
Qed.

Lemma sub_special_kept s :
  Forall (fun x => kept x = true)
         (re_sub FinalBalancete.special_re (fun _ => u " ") s).
Proof.
  rewrite sub_class with (ok := fun y => negb (kept y))
    by (intros; apply run_special).
  induction s as [| x s IH]; [constructor |].
  cbn [flat_map]. apply Forall_app. split; [| exact IH].
  destruct (kept x) eqn:E; cbn [negb].
  - constructor; [exact E | constructor].
  - change (u " ") with [ch " "]. constructor; [| constructor].
    apply kept_space, space_is_space.
Qed.

Lemma sub_special_id s :
  Forall (fun x => kept x = true) s ->
  re_sub FinalBalancete.special_re (fun _ => u " ") s = s.
Proof.
  intros H. apply sub_class_none with (ok := fun y => negb (kept y)).
  - intros R k c g. apply run_special.
  - rewrite forallb_forall. rewrite Forall_forall in H. intros x Hx.
    rewrite (H x Hx). reflexivity.
Qed.

Lemma lstrip_subset s x : In x (lstrip s) -> In x s.
Proof.
  induction s as [| y s IH]; [auto |]. simpl. destruct (is_space y); [| auto].
  intros H. right. apply IH. exact H.
Qed.

Lemma strip_subset s x : In x (strip s) -> In x s.
Proof.
  unfold strip, rstrip. intros H. apply lstrip_subset.
  apply in_rev in H. apply lstrip_subset in H. apply in_rev. exact H.
Qed.

Lemma join_chars sep (ws : list str) x :
  In x (join sep ws) -> In x sep \/ exists w, In w ws /\ In x w.
Proof.
  destruct ws as [| w ws]; [intros [] |]. unfold join. intros H.
  apply in_app_or in H. destruct H as [H | H].
  - right. exists w. split; [left; reflexivity | exact H].
  - apply in_flat_map in H. destruct H as [w' [H1 H2]].
    apply in_app_or in H2. destruct H2 as [H2 | H2]; [left; exact H2 |].
    right. exists w'. split; [right; exact H1 | exact H2].
Qed.

(** The words [clean_description] keeps: the first, the last and those of
    more than two characters between them. *)
Lemma clean_words_tail n (wl : str) :
  forall mid a,
    1 <= a -> a + length mid = n ->
    map snd (filter (fun iw : nat * str =>
                       (2 <? length (snd iw)) || (fst iw =? 0) || (fst iw =? n))
                    (combine (seq a (length (mid ++ [wl]))) (mid ++ [wl])))
    = filter (fun w => 2 <? length w) mid ++ [wl].
Proof.
  induction mid as [| m mid IH]; intros a Ha Hn.
  - cbn [app length seq combine filter snd fst]. simpl in Hn.
    rewrite Nat.add_0_r in Hn. subst a. rewrite Nat.eqb_refl, orb_true_r.
    reflexivity.
  - cbn [app length seq combine filter snd fst]. simpl in Hn.
    replace (a =? 0) with false by (symmetry; apply Nat.eqb_neq; lia).
    replace (a =? n) with false by (symmetry; apply Nat.eqb_neq; lia).
    rewrite !orb_false_r.
    specialize (IH (S a) ltac:(lia) ltac:(lia)).
    destruct (2 <? length m); cbn [map snd app]; rewrite IH; reflexivity.
Qed.

Lemma clean_words (w0 : str) mid (wl : str) :
  map snd (filter (fun iw : nat * str =>
                     (2 <? length (snd iw)) || (fst iw =? 0)
                     || (fst iw =? length (w0 :: mid ++ [wl]) - 1))
                  (enumerate (w0 :: mid ++ [wl])))
  = w0 :: filter (fun w => 2 <? length w) mid ++ [wl].
Proof.
  unfold enumerate. cbn [length seq combine filter snd fst Nat.eqb].
  rewrite orb_true_r. cbn [orb map snd].
  replace (S (length (mid ++ [wl])) - 1) with (length (mid ++ [wl])) by lia.
  rewrite (@clean_words_tail (length (mid ++ [wl])) wl mid 1); [reflexivity | lia |].
  rewrite length_app. simpl. lia.
Qed.

Lemma filter_all A (f : A -> bool) (l : list A) :
  forallb f l = true -> filter f l = l.
Proof.
  induction l as [| x l IH]; intros H; [reflexivity |].
  simpl in H. apply andb_prop in H. destruct H as [Hx Hl].
  simpl. rewrite Hx, (IH Hl). reflexivity.
Qed.

Lemma filter_holds A (f : A -> bool) (l : list A) : forallb f (filter f l) = true.
Proof.
  induction l as [| x l IH]; [reflexivity |]. simpl.
  destruct (f x) eqn:E; [simpl; rewrite E |]; exact IH.
Qed.

Lemma two_words A (l : list A) :
  2 <= length l -> exists w0 mid wl, l = w0 :: mid ++ [wl].
Proof.
  intros H. destruct l as [| w0 [| w1 l]]; simpl in H; try lia.
  destruct (@exists_last _ (w1 :: l)) as [mid [wl E]]; [discriminate |].
  exists w0, mid, wl. rewrite E. reflexivity.
Qed.

(** A result of [clean_description] is a list of words joined by single
    spaces; it has at most one word, or the words between the first and
    the last have more than two characters. *)
Lemma clean_description_shape text r :
  FinalBalancete.clean_description text = Ok r ->
  exists ws,
    r = join (u " ") ws
    /\ Forall (fun w => word w = true) ws
    /\ (forall w x, In w ws -> In x w -> kept x = true)
    /\ (length ws <= 1
        \/ exists w0 mid wl,
             ws = w0 :: mid ++ [wl]
             /\ forallb (fun w => 2 <? length w) mid = true).
Proof.
  unfold FinalBalancete.clean_description. cbv zeta.
  set (text1 := re_sub FinalBalancete.special_re (fun _ => u " ") text).
  set (text2 := strip (re_sub FinalBalancete.spaces_re (fun _ => u " ") text1)).
  assert (K2 : forall x, In x text2 -> kept x = true).
  { intros x Hx. apply strip_subset in Hx.
    assert (F : Forall (fun x => kept x = true)
                  (re_sub FinalBalancete.spaces_re (fun _ => u " ") text1)).
    { apply sub_build_chars; [apply sub_special_kept |].
      intros m. change (u " ") with [ch " "]. constructor; [| constructor].
      apply kept_space, space_is_space. }
    rewrite Forall_forall in F. apply F. exact Hx. }
  assert (W : forall w, In w (split_ws text2) ->
                word w = true /\ forall x, In x w -> kept x = true).
  { intros w Hw. destruct (split_ws_words text2 w Hw) as [W1 W2].
    split; [exact W1 |]. intros x Hx. apply K2, W2, Hx. }
  destruct (2 <=? length (split_ws text2)) eqn:E.
  - apply Nat.leb_le in E.
    destruct (@getitem_lt _ (split_ws text2) 0) as [a0 [G0 _]]; [lia |].
    change (Z.of_nat 0) with 0%Z in G0. rewrite G0. cbn [bind].
    destruct (@getitem_from_end _ (split_ws text2) 1) as [a1 [G1 _]]; [lia |].
    change (- Z.of_nat 1)%Z with (-1)%Z in G1. rewrite G1. cbn [bind].
    destruct (two_words (split_ws text2) E) as [w0 [mid [wl Ew]]].
    rewrite Ew in *. rewrite clean_words. cbn [bind]. intros H.
    injection H as Hr. rewrite <- Hr.
    set (ws := w0 :: filter (fun w => 2 <? length w) mid ++ [wl]) in *.
    assert (S : forall w, In w ws -> In w (w0 :: mid ++ [wl])).
    { intros w [Hw | Hw]; [left; exact Hw | right].
      apply in_app_or in Hw. apply in_or_app.
      destruct Hw as [Hw | Hw]; [left | right; exact Hw].
      apply filter_In in Hw. apply Hw. }
    assert (F : Forall (fun w => word w = true) ws).
    { rewrite Forall_forall. intros w Hw. apply (W w (S w Hw)). }
    exists ws.
    split; [change (strip (join (u " ") ws) = join (u " ") ws);
            apply strip_join; exact F |].
    split; [exact F |].
    split.
    + intros w x Hw Hx. apply (W w (S w Hw)). exact Hx.
    + right. exists w0, (filter (fun w => 2 <? length w) mid), wl.
      split; [reflexivity | apply filter_holds].
  - apply Nat.leb_gt in E. cbn [bind]. intros H. injection H as Hr. rewrite <- Hr.
    destruct (split_ws text2) as [| w [| w' l]] eqn:Ew; simpl in E; try lia.
    + exists []. rewrite (strip_no_word text2 Ew).
      split; [reflexivity |]. split; [constructor |]. split; [intros w x [] |].
      left. simpl. lia.
    + destruct (strip_one_word text2 Ew) as [E1 E2]. exists [w].
      rewrite E1, join_one. split; [reflexivity |].
      split; [constructor; [exact E2 | constructor] |]. split.
      * intros w1 x [<- | []] Hx. apply (W w); [left; reflexivity | exact Hx].
      * left. simpl. lia.
Qed.

(** On such a text [clean_description] changes nothing. *)
Lemma clean_description_fixed (ws : list str) :
  Forall (fun w => word w = true) ws ->
  (forall w x, In w ws -> In x w -> kept x = true) ->
  (length ws <= 1
   \/ exists w0 mid wl,
        ws = w0 :: mid ++ [wl] /\ forallb (fun w => 2 <? length w) mid = true) ->
  FinalBalancete.clean_description (join (u " ") ws) = Ok (join (u " ") ws).
Proof.
  intros F K S. unfold FinalBalancete.clean_description. cbv zeta.
  rewrite sub_special_id.
  2:{ rewrite Forall_forall. intros x Hx. apply join_chars in Hx.
      destruct Hx as [Hx | [w [H1 H2]]]; [| exact (K w x H1 H2)].
      change (u " ") with [ch " "] in Hx. destruct Hx as [<- | []].
      apply kept_space, space_is_space. }
  rewrite sub_spaces_join, strip_join, split_ws_join by exact F.
  destruct S as [S | [w0 [mid [wl [E1 E2]]]]].
  - replace (2 <=? length ws) with false by (symmetry; apply Nat.leb_gt; lia).
    cbn [bind]. rewrite strip_join by exact F. reflexivity.
  - assert (L : 2 <= length ws).
    { rewrite E1. simpl. rewrite length_app. simpl. lia. }
    replace (2 <=? length ws) with true by (symmetry; apply Nat.leb_le; exact L).
    destruct (@getitem_lt _ ws 0) as [a0 [G0 _]]; [lia |].
    change (Z.of_nat 0) with 0%Z in G0. rewrite G0. cbn [bind].
    destruct (@getitem_from_end _ ws 1) as [a1 [G1 _]]; [lia |].
    change (- Z.of_nat 1)%Z with (-1)%Z in G1. rewrite G1. cbn [bind].
    assert (C : map snd (filter (fun iw : nat * str =>
                                   (2 <? length (snd iw)) || (fst iw =? 0)
                                   || (fst iw =? length ws - 1))
                                (enumerate ws)) = ws).
    { rewrite E1, clean_words, (filter_all _ _ E2). reflexivity. }
    rewrite C.
    destruct ws as [| w ws']; [discriminate |]. cbn [bind].
    rewrite strip_join by exact F. reflexivity.
Qed.

End CleanDescription.

(* ===================================================================== *)
(** * [re.sub(r'\s+', ' ', t).strip()] is [" ".join(t.split())]             *)
(* ===================================================================== *)

Section Squeeze.
Context {U : Unicode}.
Import Re.

Lemma squeeze_word w r :
  forallb (fun y => negb (is_space y)) w = true ->
  squeeze false (w ++ r) = w ++ squeeze false r.
Proof.
  induction w as [| x w IH]; intros H; [reflexivity |].
  simpl in H. apply andb_prop in H. destruct H as [Hx Hw].
  apply negb_true_iff in Hx. cbn [app squeeze]. rewrite Hx, (IH Hw). reflexivity.
Qed.

Lemma squeeze_spaces a r :
  forallb is_space a = true -> squeeze true (a ++ r) = squeeze true r.
Proof.
  induction a as [| x a IH]; intros H; [reflexivity |].
  simpl in H. apply andb_prop in H. destruct H as [Hx Ha].
  cbn [app squeeze]. rewrite Hx. apply IH. exact Ha.
Qed.

Lemma squeeze_at_word r :
  match r with
  | [] => True
  | y :: _ => is_space y = false
  end ->
  squeeze true r = squeeze false r.
Proof. destruct r as [| y r]; [reflexivity |]. intros H. simpl. rewrite H. reflexivity. Qed.

Lemma squeeze_run sk a r :
  forallb (fun y => negb (is_space y)) sk = true ->
  forallb is_space a = true -> nonempty a = true ->
  match r with
  | [] => True
  | y :: _ => is_space y = false
  end ->
  squeeze false (sk ++ a ++ r) = sk ++ u " " ++ squeeze false r.
Proof.
  intros Hsk Ha Hne Hr. rewrite squeeze_word by exact Hsk.
  destruct a as [| x a]; [discriminate |]. simpl in Ha.
  apply andb_prop in Ha. destruct Ha as [Hx Ha].
  cbn [app squeeze]. rewrite Hx, squeeze_spaces, squeeze_at_word by assumption.
  reflexivity.
Qed.

(** A text that starts with white space starts with a whole run of it. *)
Lemma space_run x t :
  is_space x = true ->
  exists a r,
    x :: t = a ++ r /\ forallb is_space a = true /\ nonempty a = true
    /\ match r with
       | [] => True
       | y :: _ => is_space y = false
       end.
Proof.
  revert x. induction t as [| y t IH]; intros x Hx.
  - exists [x], []. simpl. rewrite Hx. auto.
  - destruct (is_space y) eqn:Ey.
    + destruct (IH y Ey) as [a [r [E [Ha [Hne Hr]]]]].
      exists (x :: a), r. rewrite E. simpl. rewrite Hx, Ha. auto.
    + exists [x], (y :: t). simpl. rewrite Hx. auto.
Qed.

Lemma squeeze_no_space t :
  forallb (fun y => negb (is_space y)) t = true -> squeeze false t = t.
Proof.
  intros H. rewrite <- (app_nil_r t) at 1. rewrite squeeze_word by exact H.
  apply app_nil_r.
Qed.

(** [re.sub(r'\s+', ' ', t)] *)
Lemma sub_spaces_from subj :
  forall fuel i p t,
    t = skipn i subj -> length t < fuel ->
    sub_build subj i (fun _ => u " ") (finditer_from fuel (plus spc) subj i p t)
    = squeeze false t.
Proof.
  unfold spc.
  induction fuel as [| fuel IH]; intros i p t Ht Hf; [lia |].
  cbn [finditer_from].
  destruct (class_split is_space t) as [H | [sk [x [t1 [H1 [H2 H3]]]]]].
  - rewrite search_plus_none by (apply no_space_class; exact H).
    cbn [sub_build]. rewrite squeeze_no_space by exact H. symmetry. exact Ht.
  - destruct (space_run x t1 H3) as [a [r [E [Ha [Hne Hr]]]]].
    rewrite H1, E. rewrite search_plus_first.
    + cbn [m_end m_start sub_build].
      assert (La : 0 < length a) by (destruct a; [discriminate | simpl; lia]).
      replace (i + length sk + length a =? i + length sk) with false
        by (symmetry; apply Nat.eqb_neq; lia).
      assert (E1 : skipn i subj = sk ++ a ++ r) by congruence.
      assert (E2 : r = skipn (i + length sk + length a) subj).
      { replace (i + length sk + length a) with (i + length (sk ++ a))
          by (rewrite length_app; lia).
        apply skipn_skipn_app with (t := skipn i subj); [reflexivity |].
        rewrite <- app_assoc. exact E1. }
      rewrite <- E2, IH.
      * rewrite (slice_consumed subj i sk (a ++ r) E1).
        rewrite squeeze_run by assumption. reflexivity.
      * exact E2.
      * rewrite H1, E, !length_app in Hf. lia.
    + apply no_space_class. exact H2.
    + rewrite forallb_forall in *. intros y Hy. rewrite set_space_one. auto.
    + exact Hne.
    + destruct r as [| y r]; [exact I |]. rewrite set_space_one. exact Hr.
Qed.

Lemma sub_spaces t : re_sub (plus spc) (fun _ => u " ") t = squeeze false t.
Proof.
  unfold re_sub, re_finditer. apply sub_spaces_from; [reflexivity | lia].
Qed.

End Squeeze.

Section NormalSpaces.
Context {U : Unicode}.
Import Re.

Lemma trailing_after_space x t :
  is_space x = true ->
  match t with
  | [] => [ch " "]
  | _ => trailing t
  end = trailing (x :: t).
Proof. intros H. destruct t; [simpl; rewrite H |]; reflexivity. Qed.

Lemma trailing_after_char x t : is_space x = false -> trailing (x :: t) = trailing t.
Proof. intros H. destruct t; [simpl; rewrite H |]; reflexivity. Qed.

Lemma trailing_spaces t : forallb is_space (trailing t) = true.
Proof.
  induction t as [| x t IH]; [reflexivity |].
  destruct t as [| y t]; [| exact IH]. simpl.
  destruct (is_space x); [simpl; rewrite space_is_space |]; reflexivity.
Qed.

Lemma split_ws_go_not_nil t : forall cur, cur <> [] -> split_ws_go cur t <> [].
Proof.
  induction t as [| x t IH]; intros cur H; simpl.
  - destruct cur; [contradiction | discriminate].
  - destruct (is_space x).
    + destruct cur; [contradiction | discriminate].
    + apply IH. discriminate.
Qed.

Lemma spaced_words_join (ws : list str) :
  ws <> [] -> flat_map (fun w => u " " ++ w) ws = u " " ++ join (u " ") ws.
Proof. destruct ws as [| w ws]; [contradiction |]. intros _. reflexivity. Qed.

(** The squeezed text, word by word. *)
Lemma squeeze_words t :
  (forall cur,
      cur <> [] ->
      rev cur ++ squeeze false t
      = join (u " ") (split_ws_go cur t) ++ trailing t)
  /\ ch " " :: squeeze true t
     = flat_map (fun w => u " " ++ w) (split_ws_go [] t)
       ++ match t with
          | [] => [ch " "]
          | _ => trailing t
          end.
Proof.
  induction t as [| x t [IHa IHb]].
  - split; [| reflexivity]. intros cur H.
    destruct cur as [| c cur]; [contradiction |].
    cbn [split_ws_go squeeze trailing]. rewrite join_one. reflexivity.
  - split.
    + intros cur H. cbn [squeeze split_ws_go]. destruct (is_space x) eqn:Ex.
      * destruct cur as [| c cur]; [contradiction |].
        rewrite IHb, (trailing_after_space x t Ex). unfold join.
        rewrite <- app_assoc. reflexivity.
      * rewrite (trailing_after_char x t Ex), <- (IHa (x :: cur)) by discriminate.
        cbn [rev]. rewrite <- app_assoc. reflexivity.
    + cbn [squeeze split_ws_go]. destruct (is_space x) eqn:Ex.
      * rewrite IHb, (trailing_after_space x t Ex). reflexivity.
      * rewrite (trailing_after_char x t Ex).
        rewrite spaced_words_join by (apply split_ws_go_not_nil; discriminate).
        rewrite <- app_assoc, <- (IHa [x]) by discriminate. reflexivity.
Qed.

Lemma rstrip_after a w b :
  word w = true -> forallb is_space b = true -> rstrip (a ++ w ++ b) = a ++ w.
Proof.
  intros Hw Hb. unfold rstrip.
  rewrite !rev_app_distr, <- app_assoc, lstrip_spaces by (apply forallb_rev; exact Hb).
  rewrite lstrip_word by (apply rev_word; exact Hw).
  rewrite <- rev_app_distr. apply rev_involutive.
Qed.

(** [strip] of words joined by spaces, within white space. *)
Lemma strip_around_join a (ws : list str) b :
  Forall (fun w => word w = true) ws ->
  forallb is_space a = true -> forallb is_space b = true ->
  strip (a ++ join (u " ") ws ++ b) = join (u " ") ws.
Proof.
  intros F Ha Hb. destruct ws as [| w ws].
  - simpl. apply strip_all_spaces. rewrite forallb_app, Ha, Hb. reflexivity.
  - unfold strip. rewrite lstrip_spaces by exact Ha.
    destruct (join_head (u " ") w ws) as [post E].
    rewrite E, <- app_assoc, lstrip_word by (inversion F; assumption).
    rewrite app_assoc, <- E.
    destruct (@exists_last _ (w :: ws)) as [ws0 [wl E2]]; [discriminate |].
    rewrite E2. destruct (join_snoc (u " ") ws0 wl) as [pre E3]. rewrite E3.
    rewrite <- app_assoc. apply rstrip_after; [| exact Hb].
    rewrite E2 in F. rewrite Forall_forall in F. apply F.
    apply in_or_app. right. left. reflexivity.
Qed.

Lemma split_ws_all_words t : Forall (fun w => word w = true) (split_ws t).
Proof. rewrite Forall_forall. intros w H. apply (split_ws_words t w H). Qed.

(** [re.sub(r'\s+', ' ', t).strip()] *)
Lemma strip_squeeze t : strip (squeeze false t) = join (u " ") (split_ws t).
Proof.
  destruct t as [| x t]; [reflexivity |].
  destruct (squeeze_words t) as [A B].
  pose proof (split_ws_all_words (x :: t)) as F. revert F.
  unfold split_ws. cbn [squeeze split_ws_go]. destruct (is_space x) eqn:Ex; intros F.
  - rewrite B. destruct (split_ws_go [] t) as [| w ws] eqn:E.
    + cbn [flat_map app join]. apply strip_all_spaces.
      destruct t; [simpl; rewrite space_is_space; reflexivity | apply trailing_spaces].
    + rewrite spaced_words_join by discriminate. rewrite <- app_assoc.
      apply strip_around_join; [exact F | simpl; rewrite space_is_space; reflexivity |].
      destruct t; [simpl; rewrite space_is_space; reflexivity | apply trailing_spaces].
  - change (x :: squeeze false t) with (rev [x] ++ squeeze false t).
    rewrite A by discriminate.
    apply (@strip_around_join [] _ (trailing t) F eq_refl (trailing_spaces t)).
Qed.

Lemma normal_spaces t :
  strip (re_sub (plus spc) (fun _ => u " ") t) = join (u " ") (split_ws t).
Proof. rewrite sub_spaces. apply strip_squeeze. Qed.

(** Such a text is [spaced], and [strip] leaves it as it is. *)
Lemma join_spaced (ws : list str) :
  Forall (fun w => word w = true) ws -> spaced (join (u " ") ws).
Proof. intros F. unfold spaced. rewrite split_ws_join by exact F. reflexivity. Qed.

Lemma spaced_strip t : spaced t -> strip t = t.
Proof.
  unfold spaced. intros H. rewrite <- H. apply strip_join, split_ws_all_words.
Qed.

End NormalSpaces.

(* ===================================================================== *)
(** * [remove_duplicate_text]                                              *)
(* ===================================================================== *)

Section Duplicates.
Context {U : Unicode}.
Import Re.

Lemma getitem_nat_inv A (l : list A) (i : nat) (a : A) :
  getitem l (Z.of_nat i) = Ok a -> nth_error l i = Some a.
Proof.
  unfold getitem. destruct (Z.of_nat i <? 0)%Z eqn:E; [apply Z.ltb_lt in E; lia |].
  rewrite E, Nat2Z.id. destruct (nth_error l i); [| discriminate].
  intros H. inversion H. reflexivity.
Qed.

Lemma skipn_nth A (l : list A) (i : nat) (a : A) :
  nth_error l i = Some a -> skipn i l = a :: skipn (S i) l.
Proof.
  revert i. induction l as [| x l IH]; intros i H; [destruct i; discriminate |].
  destruct i as [| i]; [inversion H; reflexivity |]. simpl in H.
  cbn [skipn]. rewrite (IH i H). reflexivity.
Qed.

Lemma subseq_In A (a l : list A) : subseq a l -> forall x, In x a -> In x l.
Proof.
  induction 1 as [l | y a l H IH | y a l H IH]; intros x Hx.
  - destruct Hx.
  - right. apply IH. exact Hx.
  - destruct Hx as [Hx | Hx]; [left; exact Hx | right; apply IH; exact Hx].
Qed.

Lemma subseq_length A (a l : list A) : subseq a l -> length a <= length l.
Proof. induction 1; simpl; lia. Qed.

Lemma remove_duplicate_loop_S fuel words i result :
  ExtractPdf.remove_duplicate_loop (S fuel) words i result
  = if i <? length words then
      word <- getitem words (Z.of_nat i) ;;
      let result := result ++ [word] in
      if i + 1 <? length words then
        next_word <- getitem words (Z.of_nat (i + 1)) ;;
        if (3 <? length word) && (3 <? length next_word) then
          sim <- ExtractPdf.similar word next_word ;;
          if sim then ExtractPdf.remove_duplicate_loop fuel words (i + 2) result
          else ExtractPdf.remove_duplicate_loop fuel words (i + 1) result
        else ExtractPdf.remove_duplicate_loop fuel words (i + 1) result
      else ExtractPdf.remove_duplicate_loop fuel words (i + 1) result
    else Ok result.
Proof. reflexivity. Qed.

Lemma remove_duplicate_loop_done fuel words i result :
  length words <= i -> ExtractPdf.remove_duplicate_loop fuel words i result = Ok result.
Proof.
  intros H. apply Nat.ltb_ge in H.
  destruct fuel; cbn [ExtractPdf.remove_duplicate_loop]; rewrite H; reflexivity.
Qed.

(** The loop keeps the word at [i] and a choice of the words after it. *)
Lemma remove_duplicate_loop_kept words :
  forall fuel i result r,
    ExtractPdf.remove_duplicate_loop fuel words i result = Ok r ->
    exists kept,
      r = result ++ kept /\ subseq kept (skipn i words)
      /\ forall w, nth_error words i = Some w -> exists kept', kept = w :: kept'.
Proof.
  assert (Done : forall i result r,
             (i <? length words) = false -> Ok result = Ok r ->
             exists kept : list str,
               r = result ++ kept /\ subseq kept (skipn i words)
               /\ forall w, nth_error words i = Some w -> exists kept', kept = w :: kept').
  { intros i result r E H. inversion H. subst r. exists []. rewrite app_nil_r.
    split; [reflexivity |]. split; [constructor |].
    intros w Hw. apply Nat.ltb_ge in E.
    assert (nth_error words i = None) by (apply nth_error_None; exact E). congruence. }
  induction fuel as [| fuel IH]; intros i result r H; cbn [ExtractPdf.remove_duplicate_loop] in H;
    destruct (i <? length words) eqn:E; try (apply Done; assumption); [discriminate |].
  destruct (getitem words (Z.of_nat i)) as [word | ex] eqn:G; [| discriminate].
  cbn [bind] in H. apply getitem_nat_inv in G.
  assert (Step1 : forall r',
             ExtractPdf.remove_duplicate_loop fuel words (i + 1) (result ++ [word]) = Ok r' ->
             exists kept,
               r' = result ++ kept /\ subseq kept (skipn i words)
               /\ forall w, nth_error words i = Some w -> exists kept', kept = w :: kept').
  { intros r' H'. apply IH in H'. destruct H' as [kept [K1 [K2 _]]].
    exists (word :: kept). rewrite K1, <- app_assoc. split; [reflexivity |].
    rewrite (skipn_nth words i G). replace (S i) with (i + 1) by lia.
    split; [constructor; exact K2 |]. intros w Hw. exists kept. congruence. }
  destruct (i + 1 <? length words) eqn:E1; [| apply Step1; exact H].
  destruct (getitem words (Z.of_nat (i + 1))) as [next_word | ex] eqn:G1; [| discriminate].
  cbn [bind] in H. apply getitem_nat_inv in G1.
  destruct ((3 <? length word) && (3 <? length next_word)); [| apply Step1; exact H].
  destruct (ExtractPdf.similar word next_word) as [[|] | ex]; cbn [bind] in H;
    [| apply Step1; exact H | discriminate].
  apply IH in H. destruct H as [kept [K1 [K2 _]]].
  exists (word :: kept). rewrite K1, <- app_assoc. split; [reflexivity |].
  rewrite (skipn_nth words i G). replace (S i) with (i + 1) by lia.
  rewrite (skipn_nth words (i + 1) G1). replace (S (i + 1)) with (i + 2) by lia.
  split; [constructor; constructor; exact K2 |]. intros w Hw. exists kept. congruence.
Qed.

(** The result of [remove_duplicate_text]. *)
Lemma remove_duplicate_text_kept text r :
  ExtractPdf.remove_duplicate_text text = Ok r ->
  (length (split_ws text) < 2 /\ r = text)
  \/ (2 <= length (split_ws text)
      /\ exists w kept,
           r = join (u " ") (w :: kept)
           /\ subseq (w :: kept) (split_ws text)
           /\ nth_error (split_ws text) 0 = Some w).
Proof.
  unfold ExtractPdf.remove_duplicate_text. destruct text as [| c text].
  - intros H. inversion H. left. split; [simpl; lia | reflexivity].
  - set (s := c :: text). destruct (length (split_ws s) <? 2) eqn:E.
    + intros H. inversion H. left. apply Nat.ltb_lt in E. auto.
    + apply Nat.ltb_ge in E.
      destruct (ExtractPdf.remove_duplicate_loop _ _ 0 []) as [res | ex] eqn:L;
        [| discriminate].
      cbn [bind]. intros H. inversion H. right. split; [exact E |].
      apply remove_duplicate_loop_kept in L. destruct L as [kept [K1 [K2 K3]]].
      cbn [app skipn] in K1, K2.
      destruct (split_ws s) as [| w ws] eqn:Ew; [simpl in E; lia |].
      destruct (K3 w eq_refl) as [kept' K]. subst kept res.
      exists w, kept'. auto.
Qed.

End Duplicates.

(* ===================================================================== *)
(** * The normal form of cleaned texts                                     *)
(* ===================================================================== *)

Section CleanedTexts.
Context {U : Unicode}.
Import Re Shared.

Lemma flat_map_filter (ok : char -> bool) (t : str) :
  flat_map (fun x => if ok x then [] else [x]) t = filter (fun x => negb (ok x)) t.
Proof.
  induction t as [| x t IH]; [reflexivity |]. simpl.
  destruct (ok x); simpl; rewrite IH; reflexivity.
Qed.

Lemma control_class x : set_has [Range 0 31; Range 127 159] x = control x.
Proof. unfold set_has, control. cbn [existsb item_has]. rewrite orb_false_r. reflexivity. Qed.

Lemma sub_control t :
  re_sub ExtractPdfFinal.control_re (fun _ => []) t
  = filter (fun x => negb (control x)) t.
Proof.
  rewrite sub_class with (ok := set_has [Range 0 31; Range 127 159])
    by (intros; reflexivity).
  rewrite flat_map_filter. apply filter_ext. intros x. rewrite control_class.
  reflexivity.
Qed.

Lemma clean_text_words t :
  ExtractPdfFinal.clean_text t
  = join (u " ") (split_ws (filter (fun x => negb (control x)) t)).
Proof.
  unfold ExtractPdfFinal.clean_text. destruct t as [| c t]; [reflexivity |].
  cbv zeta. unfold ExtractPdfFinal.spaces_re. rewrite normal_spaces, sub_control.
  reflexivity.
Qed.

Lemma space_not_control : control (ch " ") = false.
Proof. reflexivity. Qed.

Lemma clean_text_no_control t x :
  In x (ExtractPdfFinal.clean_text t) -> control x = false.
Proof.
  rewrite clean_text_words. intros H. apply join_chars in H.
  destruct H as [H | [w [H1 H2]]].
  - change (u " ") with [ch " "] in H. destruct H as [<- | []]. reflexivity.
  - apply split_ws_words in H1. destruct H1 as [_ H1]. apply H1 in H2.
    apply filter_In in H2. destruct H2 as [_ H2]. apply negb_true_iff. exact H2.
Qed.

Lemma clean_text_fixed t :
  ExtractPdfFinal.clean_text (ExtractPdfFinal.clean_text t) = ExtractPdfFinal.clean_text t.
Proof.
  rewrite (clean_text_words (ExtractPdfFinal.clean_text t)).
  rewrite filter_all.
  - rewrite clean_text_words. rewrite split_ws_join by apply split_ws_all_words.
    reflexivity.
  - rewrite forallb_forall. intros x Hx. apply clean_text_no_control in Hx.
    rewrite Hx. reflexivity.
Qed.

Lemma spaced_nil : spaced [].
Proof. reflexivity. Qed.

Lemma normal_spaces_spaced t : spaced (strip (re_sub (plus spc) (fun _ => u " ") t)).
Proof. rewrite normal_spaces. apply join_spaced, split_ws_all_words. Qed.

Lemma clean_text_spaced t : spaced (ExtractPdfFinal.clean_text t).
Proof. rewrite clean_text_words. apply join_spaced, split_ws_all_words. Qed.

Lemma final_clean_account_name_spaced name :
  spaced (ExtractPdfFinal.clean_account_name name).
Proof.
  unfold ExtractPdfFinal.clean_account_name. destruct name; [apply spaced_nil |].
  cbv zeta. apply normal_spaces_spaced.
Qed.

Lemma v3_clean_account_name_spaced name :
  spaced (ExtractPdfV3.clean_account_name name).
Proof.
  unfold ExtractPdfV3.clean_account_name. destruct name as [| c name]; [apply spaced_nil |].
  cbv zeta. destruct (fold_left _ _ _) as [result last_end].
  apply normal_spaces_spaced.
Qed.

Lemma clean_account_name_final_spaced name r :
  ExtractPdf.clean_account_name_final name = Ok r -> spaced r.
Proof.
  unfold ExtractPdf.clean_account_name_final. destruct name as [| c name].
  - intros H. inversion H. apply spaced_nil.
  - cbv zeta. destruct (fold_left _ _ _) as [protected_parts name1].
    destruct (for_each _ _ _) as [cleaned | ex]; [| discriminate]. cbn [bind].
    set (x := re_sub ExtractPdf.lone_dot_re _ _).
    destruct (ExtractPdf.remove_duplicate_text _) as [nm | ex] eqn:E; [| discriminate].
    cbn [bind]. intros H. inversion H.
    apply remove_duplicate_text_kept in E.
    destruct E as [[_ E] | [_ [w [kept [E1 [E2 _]]]]]].
    + rewrite E. apply normal_spaces_spaced.
    + rewrite E1.
      assert (F : Forall (fun w => word w = true) (w :: kept)).
      { rewrite Forall_forall. intros y Hy.
        apply (split_ws_words (re_sub ExtractPdf.spaces_re (fun _ => u " ") x)).
        apply (subseq_In E2). exact Hy. }
      rewrite strip_join by exact F. apply join_spaced. exact F.
Qed.

(** The account of a record is a cleaned text. *)
Lemma v3_parse_data_line_account line is_bold e :
  ExtractPdfV3.parse_data_line line is_bold = Ok (Some e) ->
  exists t, account e = ExtractPdfV3.clean_account_name t.
Proof.
  intros H. unfold ExtractPdfV3.parse_data_line in H. cbv zeta in H.
  set (l := strip line) in *.
  destruct (match line with [] => true | _ => false end || (length l <? 3));
    [discriminate |].
  destruct (has_skip_keyword ExtractPdfV3.skip_keywords l); [discriminate |].
  destruct (re_finditer monetary_pattern l) as [| m0 ms'].
  - destruct (10 <? length l); [| discriminate].
    destruct (ExtractPdfV3.clean_account_name l) eqn:E; inversion H.
    exists l. rewrite E. reflexivity.
  - cbn [map] in H. rewrite getitem_head in H. cbn [bind fst] in H.
    destruct (find_code_and_classification ExtractPdfV3.classification_re
                (strip (firstn (m_start m0) l))) as [[[code cls] idx] | ex] eqn:E2;
      [| discriminate].
    cbn [bind] in H.
    destruct (ExtractPdfV3.clean_account_name _) eqn:E in H; [discriminate |].
    destruct (monetary_slots _) as [[[[v1 v2] v3] v4] | ex] in H; [| discriminate].
    cbn [bind] in H. inversion H. eexists. cbn [account]. rewrite <- E. reflexivity.
Qed.

Lemma final_parse_data_line_account line e :
  ExtractPdfFinal.parse_data_line line = Ok (Some e) ->
  exists t, account e = ExtractPdfFinal.clean_account_name t.
Proof.
  intros H. unfold ExtractPdfFinal.parse_data_line in H. cbv zeta in H.
  destruct (match line with [] => true | _ => false end || (length (strip line) <? 5));
    [discriminate |].
  set (l := ExtractPdfFinal.clean_text line) in *.
  destruct (has_skip_keyword ExtractPdfFinal.skip_keywords l); [discriminate |].
  destruct (re_finditer monetary_pattern l) as [| m0 ms'].
  - destruct (15 <? length l); inversion H. exists l. reflexivity.
  - cbn [map] in H. rewrite getitem_head in H. cbn [bind fst] in H.
    destruct (getitem _ (-1)) in H; [| discriminate]. cbn [bind] in H.
    destruct (find_code_and_classification ExtractPdfFinal.classification_re
                (strip (firstn (m_start m0) l))) as [[[code cls] idx] | ex] eqn:E2;
      [| discriminate].
    cbn [bind] in H.
    destruct (ExtractPdfFinal.clean_account_name _) eqn:E in H; [discriminate |].
    destruct (monetary_slots _) as [[[[v1 v2] v3] v4] | ex] in H; [| discriminate].
    cbn [bind] in H. inversion H. eexists. cbn [account]. rewrite <- E. reflexivity.
Qed.

End CleanedTexts.

(* ===================================================================== *)
(** * [parse_monetary_value]                                               *)
(* ===================================================================== *)

Section MonetaryValue.
Context {U : Unicode}.
Import Re Shared.

Lemma newline_not_amount :
  set_has [Cls Digit; One (ch "."); One (ch ",")] 10 = false.
Proof.
  unfold set_has. cbn [existsb item_has in_cls].
  rewrite decimal_latin1 by reflexivity. reflexivity.
Qed.

(** What [^[\d\.]+,\d{2}$] matches. *)
Lemma amount_match cleaned m :
  forallb (set_has [Cls Digit; One (ch "."); One (ch ",")]) cleaned = true ->
  re_match amount_re cleaned = Some m ->
  exists a d1 d2,
    cleaned = a ++ [ch ","; d1; d2]
    /\ nonempty a = true /\ forallb amount_char a = true
    /\ is_decimal d1 = true /\ is_decimal d2 = true.
Proof.
  intros Hc H. unfold re_match, match_at, amount_re, cat in H. cbn [fold_right] in H.
  rewrite run_Seq, run_Bol in H. cbn [pos Nat.eqb] in H.
  rewrite run_Seq in H. apply run_class_plus_inv in H.
  destruct H as [a [c1 [H1 [Ha [Hall H]]]]].
  rewrite run_Seq in H. apply run_lit_inv in H. destruct H as [c2 [H2 H]].
  rewrite run_Seq in H. change (times 2 dig) with (between 2 2 (OneOf [Cls Digit])) in H.
  apply run_class_between_inv in H. destruct H as [ds [c3 [H3 [Hlen [Hds H]]]]].
  rewrite run_Seq in H.
  pose proof (consumes_trans H1 (consumes_trans H2 H3)) as [K _]. cbn [rest] in K.
  destruct ds as [| d1 [| d2 [| d3 ds]]]; simpl in Hlen; try lia.
  rewrite set_digit_only in Hds. simpl in Hds.
  apply andb_prop in Hds. destruct Hds as [Hd1 Hd2].
  apply andb_prop in Hd2. destruct Hd2 as [Hd2 _].
  assert (E : rest c3 = []).
  { cbn [run] in H. destruct (rest c3) as [| y [| z r]] eqn:Er; [reflexivity | | discriminate].
    destruct (char_eqb y 10) eqn:Ey; [| discriminate].
    apply N.eqb_eq in Ey. subst y. exfalso.
    rewrite K, !forallb_app in Hc. cbn [forallb] in Hc.
    rewrite newline_not_amount in Hc. rewrite !andb_false_r in Hc. discriminate. }
  rewrite E in K. exists a, d1, d2. rewrite K. cbn [app]. rewrite app_nil_r.
  repeat split; auto.
Qed.

Lemma parse_monetary_value_inv v c :
  parse_monetary_value v = Some c ->
  c = filter (set_has [Cls Digit; One (ch "."); One (ch ",")]) v
  /\ exists a d1 d2,
       c = a ++ [ch ","; d1; d2]
       /\ nonempty a = true /\ forallb amount_char a = true
       /\ is_decimal d1 = true /\ is_decimal d2 = true.
Proof.
  unfold parse_monetary_value. destruct v as [| y v]; [discriminate |].
  set (s := y :: v).
  assert (E : re_sub not_amount_char_re (fun _ => []) s
              = filter (set_has [Cls Digit; One (ch "."); One (ch ",")]) s).
  { rewrite sub_class
      with (ok := fun x => negb (set_has [Cls Digit; One (ch "."); One (ch ",")] x))
      by (intros; reflexivity).
    rewrite flat_map_filter. apply filter_ext. intros x. apply negb_involutive. }
  rewrite E. destruct (re_match amount_re _) as [m |] eqn:M; [| discriminate].
  intros H. inversion H. subst c. split; [reflexivity |].
  apply (amount_match _ (filter_holds _ s) M).
Qed.

End MonetaryValue.

(* ===================================================================== *)
(** * More on [str.strip()]                                                *)
(* ===================================================================== *)

Section StripFacts.
Context {U : Unicode}.

Lemma lstrip_head s :
  match lstrip s with
  | [] => True
  | x :: _ => is_space x = false
  end.
Proof.
  induction s as [| x s IH]; [exact I |]. simpl.
  destruct (is_space x) eqn:E; [exact IH | exact E].
Qed.

Lemma lstrip_split s : exists a, s = a ++ lstrip s /\ forallb is_space a = true.
Proof.
  induction s as [| x s [a [E H]]]; [exists []; auto |]. simpl.
  destruct (is_space x) eqn:Ex.
  - exists (x :: a). simpl. rewrite Ex, <- E. auto.
  - exists []. auto.
Qed.

Lemma lstrip_fixed s :
  match s with
  | [] => True
  | x :: _ => is_space x = false
  end -> lstrip s = s.
Proof. destruct s as [| x s]; [reflexivity |]. simpl. intros ->. reflexivity. Qed.

Lemma rstrip_split s : exists b, s = rstrip s ++ b /\ forallb is_space b = true.
Proof.
  unfold rstrip. destruct (lstrip_split (rev s)) as [a [E H]].
  exists (rev a). split; [| apply forallb_rev; exact H].
  rewrite <- rev_app_distr, <- E, rev_involutive. reflexivity.
Qed.

Lemma rstrip_rstrip s : rstrip (rstrip s) = rstrip s.
Proof.
  unfold rstrip. rewrite rev_involutive.
  rewrite (lstrip_fixed (lstrip (rev s)) (lstrip_head (rev s))). reflexivity.
Qed.

(** The ends of a stripped text are no white space. *)
Lemma strip_first s x t : strip s = x :: t -> is_space x = false.
Proof.
  unfold strip. intros H. destruct (rstrip_split (lstrip s)) as [b [E _]].
  rewrite H in E. pose proof (lstrip_head s) as K. rewrite E in K. exact K.
Qed.

Lemma strip_last s a x : strip s = a ++ [x] -> is_space x = false.
Proof.
  unfold strip, rstrip. intros H.
  assert (E : lstrip (rev (lstrip s)) = x :: rev a).
  { rewrite <- (rev_involutive (lstrip (rev (lstrip s)))), H, rev_app_distr. reflexivity. }
  pose proof (lstrip_head (rev (lstrip s))) as K. rewrite E in K. exact K.
Qed.

Lemma strip_strip s : strip (strip s) = strip s.
Proof.
  unfold strip at 1. rewrite lstrip_fixed.
  - unfold strip. apply rstrip_rstrip.
  - destruct (strip s) as [| x t] eqn:E; [exact I |]. apply (strip_first s E).
Qed.

Lemma strip_length s : length (strip s) <= length s.
Proof.
  unfold strip. destruct (rstrip_split (lstrip s)) as [b [E _]].
  destruct (lstrip_split s) as [a [E' _]].
  rewrite E' at 2. rewrite E at 2. rewrite !length_app. lia.
Qed.

End StripFacts.

(* ===================================================================== *)
(** * [parse_line] of extract_pdf_v2                                        *)
(* ===================================================================== *)

Section SecondParser.
Context {U : Unicode}.
Import Re.

Lemma split_parts_stripped line p :
  In p (ExtractPdfV2.split_parts line) -> nonempty p = true /\ strip p = p.
Proof.
  unfold ExtractPdfV2.split_parts. cbv zeta. intros H.
  apply in_map_iff in H. destruct H as [q [E H]]. apply filter_In in H.
  destruct H as [_ H]. subst p. split; [exact H | apply strip_strip].
Qed.

Lemma combine_seq_nth A (l : list A) :
  forall a i x, In (i, x) (combine (seq a (length l)) l) ->
                a <= i /\ nth_error l (i - a) = Some x.
Proof.
  induction l as [| y l IH]; intros a i x H; [destruct H |].
  cbn [length seq combine] in H. destruct H as [H | H].
  - inversion H. subst. rewrite Nat.sub_diag. split; [lia | reflexivity].
  - apply IH in H. destruct H as [H1 H2]. split; [lia |].
    replace (i - a) with (S (i - S a)) by lia. exact H2.
Qed.

Lemma enumerate_nth A (l : list A) i x :
  In (i, x) (enumerate l) -> nth_error l i = Some x.
Proof.
  unfold enumerate. intros H. apply combine_seq_nth in H.
  rewrite Nat.sub_0_r in H. apply H.
Qed.

Lemma filter_combine_seq A (test : A -> bool) (l : list A) :
  forall a,
    map snd (filter (fun ip : nat * A => test (snd ip)) (combine (seq a (length l)) l))
    = filter test l.
Proof.
  induction l as [| y l IH]; intros a; [reflexivity |].
  cbn [length seq combine filter snd]. destruct (test y); cbn [map snd]; rewrite IH;
    reflexivity.
Qed.

Lemma filter_enumerate A (test : A -> bool) (l : list A) :
  map snd (filter (fun ip : nat * A => test (snd ip)) (enumerate l)) = filter test l.
Proof. apply filter_combine_seq. Qed.

(** [parts[monetary_indices[k]]] is the [k]-th part that passes the test. *)
Lemma part_at_value (test : str -> bool) parts (k : nat) p :
  nth_error (filter test parts) k = Some p ->
  ExtractPdfV2.part_at parts
    (map fst (filter (fun ip : nat * str => test (snd ip)) (enumerate parts)))
    (Z.of_nat k) = Ok (Some p).
Proof.
  intros H. rewrite <- filter_enumerate in H.
  set (F := filter (fun ip : nat * str => test (snd ip)) (enumerate parts)) in *.
  rewrite nth_error_map in H. destruct (nth_error F k) as [[i q] |] eqn:E; [| discriminate].
  inversion H. subst q. unfold ExtractPdfV2.part_at.
  rewrite (@getitem_nat _ (map fst F) k i) by (rewrite nth_error_map, E; reflexivity).
  cbn [bind]. apply nth_error_In in E. apply filter_In in E. destruct E as [E _].
  apply enumerate_nth in E. rewrite (getitem_nat _ _ E). reflexivity.
Qed.

Lemma assign_parts_table (test : str -> bool) parts :
  ExtractPdfV2.assign_parts parts
    (map fst (filter (fun ip : nat * str => test (snd ip)) (enumerate parts)))
  = Ok (v2_table (filter test parts)).
Proof.
  unfold ExtractPdfV2.assign_parts. cbv zeta.
  rewrite length_map.
  replace (length (filter (fun ip : nat * str => test (snd ip)) (enumerate parts)))
    with (length (filter test parts))
    by (rewrite <- filter_enumerate, length_map; reflexivity).
  pose proof (@part_at_value test parts) as P.
  change 0%Z with (Z.of_nat 0). change 1%Z with (Z.of_nat 1).
  change 2%Z with (Z.of_nat 2). change 3%Z with (Z.of_nat 3).
  destruct (filter test parts) as [| v0 [| v1 [| v2 [| v3 M]]]]; try reflexivity.
  - cbn [length Nat.leb Nat.eqb].
    rewrite (P 0 v0 eq_refl), (P 1 v1 eq_refl). reflexivity.
  - cbn [length Nat.leb Nat.eqb].
    rewrite (P 0 v0 eq_refl), (P 1 v1 eq_refl), (P 2 v2 eq_refl). reflexivity.
  - cbn [length Nat.leb].
    rewrite (P 0 v0 eq_refl), (P 1 v1 eq_refl), (P 2 v2 eq_refl), (P 3 v3 eq_refl).
    reflexivity.
Qed.

Lemma or_none_nonempty p : nonempty p = true -> or_none (Some p) = Some p.
Proof. destruct p; [discriminate | reflexivity]. Qed.

Lemma v2_table_parts parts :
  (forall p, In p parts -> nonempty p = true) ->
  forall pb db cr cb,
    v2_table parts = (pb, db, cr, cb) ->
    (or_none pb, or_none db, or_none cr, or_none cb) = v2_table parts.
Proof.
  intros H pb db cr cb E.
  destruct parts as [| v0 [| v1 [| v2 [| v3 M]]]]; simpl in E; inversion E; subst;
    simpl; rewrite ?or_none_nonempty; try reflexivity;
    apply H; simpl; auto.
Qed.

End SecondParser.

Section SecondParserShapes.
Context {U : Unicode}.
Import Re.

Lemma run_Eol_inv R (k : cursor -> groups -> option R) c g x :
  run Eol k c g = Some x -> (rest c = [] \/ rest c = [10%N]) /\ k c g = Some x.
Proof.
  cbn [run]. destruct (rest c) as [| y [| z r]]; [auto | | discriminate].
  destruct (char_eqb y 10) eqn:E; [| discriminate].
  apply N.eqb_eq in E. subst y. auto.
Qed.

Lemma newline_is_space : is_space 10 = true.
Proof. rewrite space_latin1 by reflexivity. reflexivity. Qed.

Lemma stripped_no_newline t text :
  strip t = t -> t = text ++ [10%N] -> False.
Proof.
  intros H E. rewrite E in H. apply strip_last in H.
  rewrite newline_is_space in H. discriminate.
Qed.

(** A stripped text that matches [^\d+\.\d+\.\d+\.\d+\.\d+$] is five
    groups of digits. *)
Lemma v2_classification_shape t :
  ExtractPdfV2.matches ExtractPdfV2.classification_re t = true ->
  strip t = t -> five_groups t = true.
Proof.
  unfold ExtractPdfV2.matches. destruct (re_match _ t) as [m |] eqn:H; [| discriminate].
  intros _ Hs. unfold re_match, match_at, ExtractPdfV2.classification_re, cat in H.
  cbn [fold_right] in H. unfold ExtractPdfV2.dot in H.
  rewrite run_Seq, run_Bol in H. cbn [pos Nat.eqb] in H. rewrite run_Seq in H.
  apply run_digits_inv in H. destruct H as [a [c1 [Ha [Da H]]]].
  apply run_dot_digits_inv in H. destruct H as [b [c2 [Hb [Db H]]]].
  apply run_dot_digits_inv in H. destruct H as [c3 [c4 [Hc [Dc H]]]].
  apply run_dot_digits_inv in H. destruct H as [d [c5 [Hd [Dd H]]]].
  apply run_dot_digits_inv in H. destruct H as [e [c' [He [De H]]]].
  rewrite run_Seq in H. apply run_Eol_inv in H. destruct H as [Hr _].
  pose proof (consumes_trans Ha (consumes_trans Hb (consumes_trans Hc
                (consumes_trans Hd He)))) as [K _].
  cbn [rest] in K. cbn [app] in K.
  destruct (five_groups_intro a b c3 d e Da Db Dc Dd De) as [F _].
  destruct Hr as [Hr | Hr]; rewrite Hr in K.
  - rewrite app_nil_r in K. rewrite K. exact F.
  - exfalso. eapply stripped_no_newline; [exact Hs |]. exact K.
Qed.

(** A stripped text that matches [^\d{4,6}$] is four to six digits. *)
Lemma v2_code_shape t :
  ExtractPdfV2.matches ExtractPdfV2.code_re t = true ->
  strip t = t -> 4 <= length t <= 6 /\ forallb is_decimal t = true.
Proof.
  unfold ExtractPdfV2.matches. destruct (re_match _ t) as [m |] eqn:H; [| discriminate].
  intros _ Hs. unfold re_match, match_at, ExtractPdfV2.code_re, cat in H.
  cbn [fold_right] in H.
  rewrite run_Seq, run_Bol in H. cbn [pos Nat.eqb] in H. rewrite run_Seq in H.
  unfold dig in H. apply run_class_between_inv in H.
  destruct H as [taken [c1 [[K _] [Hlen [Hall H]]]]].
  rewrite run_Seq in H. apply run_Eol_inv in H. destruct H as [Hr _].
  cbn [rest] in K. rewrite set_digit_only in Hall.
  destruct Hr as [Hr | Hr]; rewrite Hr in K.
  - rewrite app_nil_r in K. rewrite K. auto.
  - exfalso. eapply stripped_no_newline; [exact Hs | exact K].
Qed.

Lemma first_index_found test parts i part :
  ExtractPdfV2.first_index test parts = Some (i, part) ->
  nth_error parts i = Some part /\ test part = true.
Proof.
  unfold ExtractPdfV2.first_index. intros H. apply find_some in H.
  destruct H as [H1 H2]. split; [apply enumerate_nth; exact H1 | exact H2].
Qed.

(** What [parse_line] returns on a line with amounts. *)
Lemma parse_line_inv line e :
  ExtractPdfV2.parse_line line = Ok (Some e) ->
  let l := strip line in
  let parts := ExtractPdfV2.split_parts l in
  5 <= length l
  /\ ((re_findall ExtractPdfV2.monetary_pattern l = [] /\ 20 < length l
       /\ re_search ExtractPdfV2.long_number_re l = None
       /\ e = bare (strip l))
      \/ (re_findall ExtractPdfV2.monetary_pattern l <> []
          /\ 3 <= length parts
          /\ slots e
             = v2_table (filter (ExtractPdfV2.matches ExtractPdfV2.monetary_pattern) parts)
          /\ (forall t, classification e = Some t ->
                        In t parts
                        /\ ExtractPdfV2.matches ExtractPdfV2.classification_re t = true)
          /\ (forall c, code e = Some c ->
                        In c parts
                        /\ ExtractPdfV2.matches ExtractPdfV2.code_re c = true)
          /\ nonempty (account e) = true
          /\ parent_category e = None)).
Proof.
  intros H. unfold ExtractPdfV2.parse_line in H. cbv zeta in *.
  set (l := strip line) in *.
  destruct (match line with [] => true | _ => false end || (length l <? 5)) eqn:E0;
    [discriminate |].
  apply orb_false_elim in E0. destruct E0 as [_ E0]. apply Nat.ltb_ge in E0.
  split; [exact E0 |].
  destruct (re_findall ExtractPdfV2.monetary_pattern l) as [| v0 V] eqn:EV.
  - left. destruct (20 <? length l) eqn:E1; [| discriminate].
    destruct (re_search ExtractPdfV2.long_number_re l); [discriminate |].
    cbn [andb] in H. inversion H. apply Nat.ltb_lt in E1. auto.
  - right. split; [discriminate |].
    set (parts := ExtractPdfV2.split_parts l) in *.
    destruct (length parts <? 3) eqn:E3; [discriminate |].
    apply Nat.ltb_ge in E3. split; [exact E3 |].
    assert (NE : forall p, In p parts -> nonempty p = true)
      by (intros p Hp; apply (split_parts_stripped l p Hp)).
    rewrite assign_parts_table in H.
    destruct (v2_table _) as [[[pb db] cr] cb] eqn:ET.
    pose proof (v2_table_parts _ (fun p Hp => NE p (proj1 (proj1 (filter_In _ _ _) Hp)))
                  ET) as TT.
    destruct (ExtractPdfV2.first_index
                (ExtractPdfV2.matches ExtractPdfV2.classification_re) parts)
      as [[ci cpart] |] eqn:Ec.
    + destruct (ExtractPdfV2.find_code parts (Z.of_nat ci)) as [cd | ex] eqn:Ecode;
        [| discriminate].
      cbn [bind] in H.
      destruct (match _ with [] => Ok (length parts) | _ => _ end) as [end_idx | ex];
        [| discriminate].
      cbn [bind] in H.
      destruct (strip (join (u " ") _)) as [| y acc] eqn:EA; [discriminate |].
      inversion H. subst e. unfold slots.
      cbn [previous_balance debit credit current_balance
           classification code account parent_category].
      apply first_index_found in Ec. destruct Ec as [Ec1 Ec2].
      split; [rewrite TT; exact ET |]. split; [| split; [| auto]].
      * intros t Ht. rewrite or_none_nonempty in Ht
          by (apply NE; eapply nth_error_In; exact Ec1).
        inversion Ht. subst t. split; [eapply nth_error_In; exact Ec1 | exact Ec2].
      * intros c Hc. unfold ExtractPdfV2.find_code in Ecode.
        destruct (Z.of_nat ci =? -1)%Z eqn:Z1; [apply Z.eqb_eq in Z1; lia |].
        destruct (0 <? Z.of_nat ci)%Z eqn:Z2;
          [| inversion Ecode; subst cd; discriminate].
        destruct (getitem parts (Z.of_nat ci - 1)) as [pc | ex] eqn:G; [| discriminate].
        cbn [bind] in Ecode.
        destruct (ExtractPdfV2.matches ExtractPdfV2.code_re pc) eqn:M;
          inversion Ecode; subst cd; [| discriminate].
        apply Z.ltb_lt in Z2.
        replace (Z.of_nat ci - 1)%Z with (Z.of_nat (ci - 1)) in G by lia.
        apply getitem_nat_inv in G. apply nth_error_In in G.
        rewrite or_none_nonempty in Hc by (apply NE; exact G).
        inversion Hc. subst c. auto.
    + destruct (ExtractPdfV2.find_code parts (-1)%Z) as [cd | ex] eqn:Ecode;
        [| discriminate].
      cbn [bind] in H.
      destruct (match _ with [] => Ok (length parts) | _ => _ end) as [end_idx | ex];
        [| discriminate].
      cbn [bind] in H.
      destruct (strip (join (u " ") _)) as [| y acc] eqn:EA; [discriminate |].
      inversion H. subst e. unfold slots.
      cbn [previous_balance debit credit current_balance
           classification code account parent_category].
      split; [rewrite TT; exact ET |]. split; [| split; [| auto]].
      * intros t Ht. discriminate.
      * intros c Hc. unfold ExtractPdfV2.find_code in Ecode.
        change (-1 =? -1)%Z with true in Ecode. cbv iota in Ecode.
        destruct (ExtractPdfV2.first_index
                    (fun part => ExtractPdfV2.matches ExtractPdfV2.code_re part
                                 && negb (ExtractPdfV2.matches ExtractPdfV2.dotted_re part))
                    parts) as [[i part] |] eqn:Ef;
          injection Ecode as Ecd; subst cd; [| discriminate].
        apply first_index_found in Ef. destruct Ef as [Ef1 Ef2].
        apply andb_prop in Ef2. destruct Ef2 as [Ef2 _].
        apply nth_error_In in Ef1.
        rewrite or_none_nonempty in Hc by (apply NE; exact Ef1).
        inversion Hc. subst c. auto.
Qed.

End SecondParserShapes.

(* ===================================================================== *)
(** * The records of a longer document                                     *)
(* ===================================================================== *)

Section LongerDocument.
Context {U : Unicode}.
Import Re Shared.

Lemma for_each_app A S (body : A -> S -> py S) (l1 l2 : list A) (s : S) :
  for_each (l1 ++ l2) body s = (s' <- for_each l1 body s ;; for_each l2 body s').
Proof.
  revert s. induction l1 as [| x l1 IH]; intros s; [reflexivity |].
  cbn [app for_each]. destruct (body x s) as [s1 | ex]; [| reflexivity].
  cbn [bind]. apply IH.
Qed.

Lemma split_on_app c a b :
  split_on c (a ++ c :: b) = split_on c a ++ split_on c b.
Proof.
  induction a as [| x a IH].
  - cbn [app split_on]. unfold char_eqb. rewrite N.eqb_refl. reflexivity.
  - cbn [app split_on]. destruct (char_eqb x c); rewrite IH; [reflexivity |].
    destruct (split_on c a) as [| h t] eqn:E; [| reflexivity].
    exfalso. apply (split_on_not_nil c a E).
Qed.

(** A loop whose body adds at most one record adds at most one record
    for each element. *)
Lemma for_each_adds A S X (data : S -> list X) (P : S -> Prop)
    (body : A -> S -> py S) (l : list A) :
  (forall x s, P s ->
     exists s' new, body x s = Ok s' /\ P s' /\ data s' = data s ++ new
                    /\ length new <= 1) ->
  forall s, P s ->
  exists s' new, for_each l body s = Ok s' /\ P s' /\ data s' = data s ++ new
                 /\ length new <= length l.
Proof.
  intros Hstep. induction l as [| x l IH]; intros s Hs.
  - exists s, []. rewrite app_nil_r. simpl. auto.
  - destruct (Hstep x s Hs) as [s1 [n1 [E1 [P1 [D1 L1]]]]].
    destruct (IH s1 P1) as [s2 [n2 [E2 [P2 [D2 L2]]]]].
    exists s2, (n1 ++ n2). cbn [for_each]. rewrite E1. cbn [bind].
    rewrite D2, D1, <- app_assoc, length_app. simpl. repeat split; auto. lia.
Qed.

Lemma process_line_adds chars bc line st :
  ordered_prefix_free (ExtractPdf.parent_categories st) ->
  exists st' new,
    ExtractPdf.process_line chars bc line st = Ok st'
    /\ ordered_prefix_free (ExtractPdf.parent_categories st')
    /\ ExtractPdf.all_data st' = ExtractPdf.all_data st ++ new
    /\ length new <= 1.
Proof.
  intros H. destruct (@process_line_step _ chars bc line st H) as [st' [E O]].
  destruct (process_line_emits _ _ _ _ E) as [D | [e [cat [D _]]]].
  - exists st', []. rewrite app_nil_r. simpl. auto.
  - exists st', [e]. simpl. auto.
Qed.

Lemma v3_process_line_adds l st :
  ordered_prefix_free (ExtractPdfV3.parent_categories st) ->
  exists st' new,
    ExtractPdfV3.process_line l st = Ok st'
    /\ ordered_prefix_free (ExtractPdfV3.parent_categories st')
    /\ ExtractPdfV3.all_data st' = ExtractPdfV3.all_data st ++ new
    /\ length new <= 1.
Proof.
  intros H. destruct (@v3_process_line_step _ l st H) as [st' [E O]].
  exists st'. revert E. unfold ExtractPdfV3.process_line.
  destruct l as [line_text is_bold].
  destruct (_ || _);
    [intros E; inversion E; subst; exists []; rewrite app_nil_r; simpl; auto |].
  destruct (has_skip_keyword _ _);
    [intros E; inversion E; subst; exists []; rewrite app_nil_r; simpl; auto |].
  destruct (ExtractPdfV3.category_of line_text is_bold) as [cleaned |].
  - destruct (ExtractPdfV3.parse_data_line line_text true) as [[e |] | ex];
      cbn [bind]; intros E; inversion E; subst; cbn [ExtractPdfV3.all_data].
    + eexists [_]. simpl. auto.
    + exists []. rewrite app_nil_r. simpl. auto.
  - destruct (ExtractPdfV3.parse_data_line line_text false) as [[e |] | ex];
      cbn [bind]; try (intros E; discriminate).
    + destruct (attach_parent _ e) as [e' | ex]; cbn [bind]; intros E; inversion E; subst.
      cbn [ExtractPdfV3.all_data]. eexists [_]. simpl. auto.
    + intros E. inversion E. subst. exists []. rewrite app_nil_r. simpl. auto.
Qed.

Lemma process_page_adds pg st :
  ordered_prefix_free (ExtractPdf.parent_categories st) ->
  exists st' new,
    ExtractPdf.process_page pg st = Ok st'
    /\ ordered_prefix_free (ExtractPdf.parent_categories st')
    /\ ExtractPdf.all_data st' = ExtractPdf.all_data st ++ new.
Proof.
  intros H. unfold ExtractPdf.process_page.
  destruct (ExtractPdf.extract_text pg) as [[| y t] |];
    try solve [exists st, []; rewrite app_nil_r; auto].
  destruct (@for_each_adds _ _ _ ExtractPdf.all_data
              (fun s => ordered_prefix_free (ExtractPdf.parent_categories s))
              (ExtractPdf.process_line (ExtractPdf.chars pg)
                 (ExtractPdf.extract_bold_categories (ExtractPdf.chars pg)))
              (split_on 10 (y :: t))
              (fun x s Hs => process_line_adds (ExtractPdf.chars pg) _ x s Hs) st H)
    as [s' [new [E [O [D _]]]]].
  exists s', new. auto.
Qed.

Lemma v3_process_page_adds pg st :
  ordered_prefix_free (ExtractPdfV3.parent_categories st) ->
  exists st' new,
    ExtractPdfV3.process_page pg st = Ok st'
    /\ ordered_prefix_free (ExtractPdfV3.parent_categories st')
    /\ ExtractPdfV3.all_data st' = ExtractPdfV3.all_data st ++ new.
Proof.
  intros H. unfold ExtractPdfV3.process_page.
  destruct (ExtractPdfV3.extract_text pg) as [[| y t] |];
    try solve [exists st, []; rewrite app_nil_r; auto].
  destruct (@for_each_adds _ _ _ ExtractPdfV3.all_data
              (fun s => ordered_prefix_free (ExtractPdfV3.parent_categories s))
              ExtractPdfV3.process_line (ExtractPdfV3.reconstructed_lines pg)
              (fun x s Hs => v3_process_line_adds x s Hs) st H)
    as [s' [new [E [O [D _]]]]].
  exists s', new. auto.
Qed.

(** A loop whose body only adds records. *)
Lemma for_each_extends A S X (data : S -> list X) (P : S -> Prop)
    (body : A -> S -> py S) (l : list A) :
  (forall x s, P s ->
     exists s' new, body x s = Ok s' /\ P s' /\ data s' = data s ++ new) ->
  forall s, P s ->
  exists s' new, for_each l body s = Ok s' /\ P s' /\ data s' = data s ++ new.
Proof.
  intros Hstep. induction l as [| x l IH]; intros s Hs.
  - exists s, []. rewrite app_nil_r. simpl. auto.
  - destruct (Hstep x s Hs) as [s1 [n1 [E1 [P1 D1]]]].
    destruct (IH s1 P1) as [s2 [n2 [E2 [P2 D2]]]].
    exists s2, (n1 ++ n2). cbn [for_each]. rewrite E1. cbn [bind].
    rewrite D2, D1, <- app_assoc. auto.
Qed.

Lemma balancete_process_line_adds line st :
  exists st' new,
    FinalBalancete.process_line line st = Ok st' /\ True
    /\ FinalBalancete.entries st' = FinalBalancete.entries st ++ new
    /\ length new <= 1.
Proof.
  destruct (balancete_process_line_total line st) as [st' E].
  destruct (balancete_process_line_emits _ _ E) as [[D _] | [e [D _]]].
  - exists st', []. rewrite app_nil_r. simpl. auto.
  - exists st', [e]. simpl. auto.
Qed.

End LongerDocument.

(* ===================================================================== *)
(** * The bold texts of a page                                             *)
(* ===================================================================== *)

Section BoldTexts.
Context {U : Unicode}.

Lemma dict_set_key_in (d : ExtractPdf.dict) k v x :
  In x (map fst (ExtractPdf.dict_set d k v)) -> x = k \/ In x (map fst d).
Proof.
  induction d as [| [k' w] d IH]; simpl.
  - intros [H | []]. auto.
  - destruct (k' =? k)%Z; simpl; intros [H | H]; auto.
    destruct (IH H); auto.
Qed.

Lemma dict_set_keys (d : ExtractPdf.dict) k v :
  NoDup (map fst d) -> NoDup (map fst (ExtractPdf.dict_set d k v)).
Proof.
  induction d as [| [k' w] d IH]; simpl; intros H.
  - constructor; [intros [] | constructor].
  - inversion H as [| ? ? H1 H2]. subst. destruct (k' =? k)%Z eqn:E; simpl.
    + constructor; assumption.
    + constructor; [| apply IH; exact H2]. intros K.
      apply dict_set_key_in in K. destruct K as [K | K]; [| contradiction].
      apply Z.eqb_neq in E. contradiction.
Qed.

Lemma dict_set_values (P : str -> Prop) (d : ExtractPdf.dict) k v :
  Forall (fun kv => P (snd kv)) d -> P v ->
  Forall (fun kv => P (snd kv)) (ExtractPdf.dict_set d k v).
Proof.
  intros H Hv. induction d as [| [k' w] d IH]; simpl.
  - constructor; [exact Hv | constructor].
  - inversion H as [| ? ? H1 H2]. subst. destruct (k' =? k)%Z; constructor; auto.
Qed.

Lemma dict_set_twice (d : ExtractPdf.dict) k w v :
  ExtractPdf.dict_set (ExtractPdf.dict_set d k w) k v = ExtractPdf.dict_set d k v.
Proof.
  induction d as [| [k' w'] d IH]; simpl.
  - rewrite Z.eqb_refl. reflexivity.
  - destruct (k' =? k)%Z eqn:E; simpl; rewrite E; [reflexivity |].
    rewrite IH. reflexivity.
Qed.

Lemma dict_get_in (d : ExtractPdf.dict) k v :
  ExtractPdf.dict_get d k = Some v -> In v (map snd d).
Proof.
  induction d as [| [k' w] d IH]; simpl; [discriminate |].
  destruct (k' =? k)%Z; [intros H; inversion H; auto | auto].
Qed.

(** [keep_longest] with a text that is not blank keeps the keys distinct
    and the values stripped and not empty. *)
Lemma keep_longest_keeps (P : str -> Prop) d current_bold current_y :
  NoDup (map fst d) -> Forall (fun kv => P (snd kv)) d ->
  nonempty (strip current_bold) = true -> P (strip current_bold) ->
  NoDup (map fst (ExtractPdf.keep_longest d current_bold current_y))
  /\ Forall (fun kv => P (snd kv)) (ExtractPdf.keep_longest d current_bold current_y).
Proof.
  intros N F Hne Hp. unfold ExtractPdf.keep_longest, ExtractPdf.defaultdict_get.
  cbv zeta. destruct (ExtractPdf.dict_get d _) as [v |].
  - destruct (length v <? length (strip current_bold)).
    + split; [apply dict_set_keys | apply dict_set_values]; assumption.
    + auto.
  - destruct (strip current_bold) as [| y s] eqn:E; [discriminate |].
    change (length [] <? length (y :: s)) with true. cbv iota.
    rewrite dict_set_twice.
    split; [apply dict_set_keys | apply dict_set_values]; assumption.
Qed.

Lemma bold_step_keeps (P : str -> Prop) acc c :
  (forall s, nonempty (strip s) = true -> P (strip s)) ->
  NoDup (map fst (fst (fst acc))) ->
  Forall (fun kv => P (snd kv)) (fst (fst acc)) ->
  NoDup (map fst (fst (fst (ExtractPdf.bold_step acc c))))
  /\ Forall (fun kv => P (snd kv)) (fst (fst (ExtractPdf.bold_step acc c))).
Proof.
  intros HP. destruct acc as [[d cb] cy]. cbn [fst]. intros N F.
  unfold ExtractPdf.bold_step. cbv zeta.
  destruct (ExtractPdf.is_bold_char c && nonempty (ExtractPdf.c_text c)).
  - destruct (match cy with None => true | Some y => _ end); cbn [fst]; [auto |].
    destruct (nonempty (strip cb)) eqn:E; cbn [andb]; [| auto].
    destruct (5 <? length (strip cb)); [| auto].
    apply keep_longest_keeps; auto.
  - destruct (nonempty (strip cb)) eqn:E; cbn [fst]; [| auto].
    apply keep_longest_keeps; auto.
Qed.

Lemma extract_bold_categories_keeps (P : str -> Prop) chars :
  (forall s, nonempty (strip s) = true -> P (strip s)) ->
  NoDup (map fst (ExtractPdf.extract_bold_categories chars))
  /\ Forall (fun kv => P (snd kv)) (ExtractPdf.extract_bold_categories chars).
Proof.
  intros HP. unfold ExtractPdf.extract_bold_categories.
  assert (K : forall l acc,
             NoDup (map fst (fst (fst acc))) ->
             Forall (fun kv => P (snd kv)) (fst (fst acc)) ->
             NoDup (map fst (fst (fst (fold_left ExtractPdf.bold_step l acc))))
             /\ Forall (fun kv => P (snd kv))
                       (fst (fst (fold_left ExtractPdf.bold_step l acc)))).
  { induction l as [| c l IH]; intros acc N F; [auto |]. cbn [fold_left].
    destruct (bold_step_keeps P acc c HP N F) as [N' F']. apply IH; assumption. }
  destruct (K chars ([], [], None)) as [N F]; [constructor | constructor |].
  destruct (fold_left ExtractPdf.bold_step chars ([], [], None)) as [[d cb] cy].
  cbn [fst] in N, F. destruct (nonempty (strip cb)) eqn:E; [| auto].
  apply keep_longest_keeps; auto.
Qed.

End BoldTexts.

(* ===================================================================== *)
(** * The pass of extract_pdf_final over the pages                          *)
(* ===================================================================== *)

Section FinalPass.
Context {U : Unicode}.
Import Re Shared.

Lemma final_parse_data_line_total line :
  exists r, ExtractPdfFinal.parse_data_line line = Ok r.
Proof.
  unfold ExtractPdfFinal.parse_data_line. cbv zeta.
  destruct (_ || _); [eauto |].
  set (l := ExtractPdfFinal.clean_text line).
  destruct (has_skip_keyword ExtractPdfFinal.skip_keywords l); [eauto |].
  destruct (re_finditer monetary_pattern l) as [| m0 ms'] eqn:E.
  - destruct (15 <? length l); eauto.
  - rewrite <- E. set (ms := re_finditer monetary_pattern l) in *.
    set (vp := map (fun m => (m_start m, m_end m, group0 m)) ms).
    assert (L : 0 < length vp) by (unfold vp; rewrite length_map, E; simpl; lia).
    destruct (@getitem_lt _ vp 0 L) as [fv [G0 _]].
    change (Z.of_nat 0) with 0%Z in G0. rewrite G0. cbn [bind].
    destruct (@getitem_from_end _ vp 1) as [lv [G1 _]]; [lia |].
    change (- Z.of_nat 1)%Z with (-1)%Z in G1.
    destruct vp as [| v0 vp'] eqn:Ev; [simpl in L; lia |]. rewrite G1. cbn [bind].
    destruct (find_code_and_classification_total ExtractPdfFinal.classification_re
                (strip (firstn (fst (fst fv)) l))) as [[[code cls] idx] F].
    rewrite F. cbn [bind].
    destruct (ExtractPdfFinal.clean_account_name _); [eauto |].
    destruct (monetary_slots_total (map group0 ms)) as [sl S]. rewrite S. cbn [bind].
    eauto.
Qed.

Lemma final_parse_data_line_parent line e :
  ExtractPdfFinal.parse_data_line line = Ok (Some e) -> parent_category e = None.
Proof.
  intros H. unfold ExtractPdfFinal.parse_data_line in H. cbv zeta in H.
  destruct (_ || _) in H; [discriminate |].
  set (l := ExtractPdfFinal.clean_text line) in *.
  destruct (has_skip_keyword ExtractPdfFinal.skip_keywords l); [discriminate |].
  destruct (re_finditer monetary_pattern l) as [| m0 ms'].
  - destruct (15 <? length l); inversion H. reflexivity.
  - cbn [map] in H. rewrite getitem_head in H. cbn [bind fst] in H.
    destruct (getitem _ (-1)) in H; [| discriminate]. cbn [bind] in H.
    destruct (find_code_and_classification ExtractPdfFinal.classification_re _)
      as [[[code cls] idx] | ex]; [| discriminate].
    cbn [bind] in H.
    destruct (ExtractPdfFinal.clean_account_name _) in H; [discriminate |].
    destruct (monetary_slots _) as [sl | ex] in H; [| discriminate].
    cbn [bind] in H. inversion H. apply make_entry_parent.
Qed.

Lemma final_category_of_total chars bc line :
  exists r, ExtractPdfFinalPass.category_of chars bc line = Ok r.
Proof.
  unfold ExtractPdfFinalPass.category_of.
  destruct (find_line_y_total chars line) as [[y |] E]; rewrite E; cbn [bind]; eauto.
Qed.

(** One line of the pass: it ends, the stack stays ordered, and at most
    one record is added, whose parent is null on a category line and the
    top of the stack otherwise. *)
Lemma final_process_line_step (Q : list str -> Prop) chars bc line st :
  (forall stack cleaned, Q stack -> Q (push_category stack cleaned)) ->
  Q (ExtractPdfFinalPass.parent_categories st) ->
  exists st',
    ExtractPdfFinalPass.process_line chars bc line st = Ok st'
    /\ Q (ExtractPdfFinalPass.parent_categories st')
    /\ (ExtractPdfFinalPass.all_data st' = ExtractPdfFinalPass.all_data st
        \/ exists e cat,
             ExtractPdfFinalPass.all_data st' = ExtractPdfFinalPass.all_data st ++ [e]
             /\ ExtractPdfFinalPass.category_of chars bc (strip line) = Ok cat
             /\ parent_category e
                = match cat with
                  | Some _ => None
                  | None => top (ExtractPdfFinalPass.parent_categories st)
                  end).
Proof.
  intros HQ H. unfold ExtractPdfFinalPass.process_line. cbv zeta.
  destruct (_ || _); [eauto |].
  destruct (has_skip_keyword _ _); [eauto |].
  destruct (final_category_of_total chars bc (strip line)) as [[cleaned |] E];
    rewrite E; cbn [bind].
  - destruct (final_parse_data_line_total (strip line)) as [[e |] Ee];
      rewrite Ee; cbn [bind]; eexists; (split; [reflexivity |]);
      cbn [ExtractPdfFinalPass.parent_categories ExtractPdfFinalPass.all_data];
      (split; [apply HQ; exact H |]); [| auto].
    right. exists (set_parent_category e None), (Some cleaned). auto.
  - destruct (final_parse_data_line_total (strip line)) as [[e |] Ee];
      rewrite Ee; cbn [bind]; [| eauto].
    rewrite attach_parent_ok. cbn [bind]. eexists. split; [reflexivity |].
    cbn [ExtractPdfFinalPass.parent_categories ExtractPdfFinalPass.all_data].
    split; [exact H |]. right. eexists. exists None.
    split; [reflexivity |]. split; [reflexivity |].
    destruct (ExtractPdfFinalPass.parent_categories st); [| reflexivity].
    apply final_parse_data_line_parent in Ee. exact Ee.
Qed.

Lemma final_process_page_step pg st :
  ordered_prefix_free (ExtractPdfFinalPass.parent_categories st) ->
  exists st' new,
    ExtractPdfFinalPass.process_page pg st = Ok st'
    /\ ordered_prefix_free (ExtractPdfFinalPass.parent_categories st')
    /\ ExtractPdfFinalPass.all_data st' = ExtractPdfFinalPass.all_data st ++ new.
Proof.
  intros H. unfold ExtractPdfFinalPass.process_page.
  destruct (ExtractPdf.extract_text pg) as [[| y t] |];
    try solve [exists st, []; rewrite app_nil_r; auto].
  apply for_each_extends
    with (P := fun s => ordered_prefix_free (ExtractPdfFinalPass.parent_categories s));
    [| exact H].
  intros x s Hs.
  destruct (final_process_line_step ordered_prefix_free (ExtractPdf.chars pg)
              (ExtractPdfFinalPass.extract_bold_categories (ExtractPdf.chars pg))
              x s push_category_ordered Hs) as [s' [E [O [D | [e [cat [D _]]]]]]].
  - exists s', []. rewrite app_nil_r. auto.
  - exists s', [e]. auto.
Qed.

End FinalPass.

(* ===================================================================== *)
(** * The pass of extract_pdf_v2 over the pages                             *)
(* ===================================================================== *)

Section SecondPass.
Context {U : Unicode}.
Import Re.

Lemma parse_line_parent line e :
  ExtractPdfV2.parse_line line = Ok (Some e) -> parent_category e = None.
Proof.
  intros H. apply parse_line_inv in H. cbv zeta in H.
  destruct H as [_ [[_ [_ [_ H]]] | [_ [_ [_ [_ [_ [_ H]]]]]]]].
  - rewrite H. reflexivity.
  - exact H.
Qed.

Lemma v2_category_of_total chars y_to_bold line :
  exists r, ExtractPdfV2Pass.category_of chars y_to_bold line = Ok r.
Proof.
  unfold ExtractPdfV2Pass.category_of.
  destruct (find_line_y_total chars line) as [[y |] E]; rewrite E; cbn [bind];
    [| eauto].
  cbv zeta. destruct (ExtractPdf.dict_get _ _); [| eauto].
  destruct (_ || _); eauto.
Qed.

(** One line of the pass: it ends and adds at most one record.  On a
    category line the bold text becomes the current parent and the record
    has no parent; otherwise the record has the current parent. *)
Lemma v2_process_line_step chars y_to_bold line st :
  exists st' cat,
    ExtractPdfV2Pass.process_line chars y_to_bold line st = Ok st'
    /\ (st' = st
        \/ (ExtractPdfV2Pass.category_of chars y_to_bold (strip line) = Ok cat
            /\ ExtractPdfV2Pass.current_parent_category st'
               = match cat with
                 | Some bold_text => Some (strip bold_text)
                 | None => ExtractPdfV2Pass.current_parent_category st
                 end
            /\ (ExtractPdfV2Pass.all_data st' = ExtractPdfV2Pass.all_data st
                \/ exists e,
                     ExtractPdfV2Pass.all_data st' = ExtractPdfV2Pass.all_data st ++ [e]
                     /\ parent_category e
                        = match cat with
                          | Some _ => None
                          | None => or_none (ExtractPdfV2Pass.current_parent_category st)
                          end))).
Proof.
  unfold ExtractPdfV2Pass.process_line. cbv zeta.
  destruct (_ || _); [exists st, None; auto |].
  destruct (Shared.has_skip_keyword _ _); [exists st, None; auto |].
  destruct (v2_category_of_total chars y_to_bold (strip line)) as [[bold_text |] E];
    rewrite E; cbn [bind].
  - destruct (parse_line_total (strip line)) as [[e |] Ee]; rewrite Ee; cbn [bind];
      eexists; exists (Some bold_text); (split; [reflexivity |]); right;
      cbn [ExtractPdfV2Pass.current_parent_category ExtractPdfV2Pass.all_data];
      (split; [reflexivity |]); (split; [reflexivity |]); [| auto].
    right. exists (set_parent_category e None). auto.
  - destruct (parse_line_total (strip line)) as [[e |] Ee]; rewrite Ee; cbn [bind];
      [| exists st, None; auto].
    eexists. exists None. split; [reflexivity |]. right.
    cbn [ExtractPdfV2Pass.current_parent_category ExtractPdfV2Pass.all_data].
    split; [reflexivity |]. split; [reflexivity |]. right. eexists.
    split; [reflexivity |]. unfold or_none.
    destruct (truthy (ExtractPdfV2Pass.current_parent_category st)); [reflexivity |].
    apply parse_line_parent in Ee. exact Ee.
Qed.

Lemma v2_process_line_adds chars y_to_bold line st :
  exists st' new,
    ExtractPdfV2Pass.process_line chars y_to_bold line st = Ok st' /\ True
    /\ ExtractPdfV2Pass.all_data st' = ExtractPdfV2Pass.all_data st ++ new.
Proof.
  destruct (v2_process_line_step chars y_to_bold line st)
    as [st' [cat [E [K | [_ [_ [K | [e [K _]]]]]]]]].
  - exists st', []. subst st'. rewrite app_nil_r. auto.
  - exists st', []. rewrite app_nil_r. auto.
  - exists st', [e]. auto.
Qed.

Lemma v2_process_page_adds pg st :
  exists st' new,
    ExtractPdfV2Pass.process_page pg st = Ok st' /\ True
    /\ ExtractPdfV2Pass.all_data st' = ExtractPdfV2Pass.all_data st ++ new.
Proof.
  unfold ExtractPdfV2Pass.process_page.
  destruct (ExtractPdf.extract_text pg) as [[| y t] |];
    try solve [exists st, []; rewrite app_nil_r; auto].
  cbv zeta. apply for_each_extends with (P := fun _ => True); [| exact I].
  intros x s _. apply v2_process_line_adds.
Qed.

End SecondPass.

(* ===================================================================== *)
(** * The lines rebuilt from the characters                                *)
(* ===================================================================== *)

Section RebuiltLines.
Context {U : Unicode}.
Import ExtractPdfV3Lines.

Lemma insert_by_In A (before : A -> A -> bool) (x z : A) (l : list A) :
  In z (insert_by before x l) <-> z = x \/ In z l.
Proof.
  induction l as [| y l IH]; simpl.
  - split; intros [H | H]; auto; contradiction.
  - destruct (before x y); simpl; [split; intros [H | H]; auto |].
    rewrite IH. split; intros H; intuition.
Qed.

Lemma sort_by_In A (before : A -> A -> bool) (z : A) (l : list A) :
  In z (sort_by before l) <-> In z l.
Proof.
  induction l as [| y l IH]; simpl; [reflexivity |].
  rewrite insert_by_In, IH. split; intros [H | H]; auto.
Qed.

Lemma existsb_same A (f : A -> bool) (l l' : list A) :
  (forall z, In z l <-> In z l') -> existsb f l = existsb f l'.
Proof.
  intros H. destruct (existsb f l) eqn:E, (existsb f l') eqn:E'; try reflexivity.
  - apply existsb_exists in E. destruct E as [z [Hz Hf]]. apply H in Hz.
    assert (K : existsb f l' = true) by (apply existsb_exists; eauto). congruence.
  - apply existsb_exists in E'. destruct E' as [z [Hz Hf]]. apply H in Hz.
    assert (K : existsb f l = true) by (apply existsb_exists; eauto). congruence.
Qed.

(** Rows with different keys come out with the keys going down. *)
Lemma insert_row_sorted (x : Z * list rchar) l :
  ~ In (fst x) (map fst l) ->
  ForallOrdPairs (fun a b : Z * list rchar => (fst b < fst a)%Z) l ->
  ForallOrdPairs (fun a b : Z * list rchar => (fst b < fst a)%Z)
                 (insert_by (fun a b => (fst b <=? fst a)%Z) x l).
Proof.
  intros Hx H. induction H as [| y l F H IH]; simpl.
  - constructor; constructor.
  - assert (Ny : fst x <> fst y) by (intros E; apply Hx; left; symmetry; exact E).
    assert (Nl : ~ In (fst x) (map fst l)) by (intros K; apply Hx; right; exact K).
    destruct (fst y <=? fst x)%Z eqn:E.
    + apply Z.leb_le in E. constructor; [| constructor; assumption].
      constructor; [lia |]. rewrite Forall_forall in *. intros z Hz.
      specialize (F z Hz). lia.
    + apply Z.leb_gt in E. constructor; [| apply IH; exact Nl].
      rewrite Forall_forall in *. intros z Hz. apply insert_by_In in Hz.
      destruct Hz as [-> | Hz]; [exact E | apply F; exact Hz].
Qed.

Lemma sorted_lines_sorted l :
  NoDup (map fst l) ->
  ForallOrdPairs (fun a b : Z * list rchar => (fst b < fst a)%Z) (sorted_lines l).
Proof.
  unfold sorted_lines, sort_by. induction l as [| x l IH]; simpl; intros H.
  - constructor.
  - inversion H as [| ? ? H1 H2]. subst. apply insert_row_sorted; [| apply IH; exact H2].
    intros K. apply H1. apply in_map_iff in K. destruct K as [z [E K]].
    apply sort_by_In in K. rewrite <- E. apply in_map. exact K.
Qed.

(** The rows of [lines_dict]. *)
Lemma group_add_keys d y c k :
  In k (map fst (group_add d y c)) <-> k = y \/ In k (map fst d).
Proof.
  induction d as [| [k' cs] d IH]; simpl.
  - split; intros [H | H]; auto; contradiction.
  - destruct (k' =? y)%Z eqn:E; simpl.
    + apply Z.eqb_eq in E. subst k'. split; intros H; intuition.
    + rewrite IH. split; intros H; intuition.
Qed.

Lemma group_add_nodup d y c :
  NoDup (map fst d) -> NoDup (map fst (group_add d y c)).
Proof.
  induction d as [| [k' cs] d IH]; simpl; intros H.
  - constructor; [intros [] | constructor].
  - inversion H as [| ? ? H1 H2]. subst. destruct (k' =? y)%Z eqn:E; simpl.
    + constructor; assumption.
    + constructor; [| apply IH; exact H2]. intros K. apply group_add_keys in K.
      apply Z.eqb_neq in E. destruct K as [K | K]; [congruence | contradiction].
Qed.

Lemma group_add_row d y c k :
  row_of (group_add d y c) k
  = if (k =? y)%Z then row_of d y ++ [c] else row_of d k.
Proof.
  induction d as [| [k' cs] d IH]; simpl.
  - rewrite (Z.eqb_sym y k). destruct (k =? y)%Z; reflexivity.
  - destruct (k' =? y)%Z eqn:E; simpl.
    + apply Z.eqb_eq in E. subst k'. rewrite (Z.eqb_sym y k).
      destruct (k =? y)%Z; reflexivity.
    + destruct (k' =? k)%Z eqn:E'.
      * apply Z.eqb_eq in E'. subst k'. rewrite E. reflexivity.
      * rewrite IH. destruct (k =? y)%Z eqn:E''; reflexivity.
Qed.

Lemma group_add_rows_not_empty d y c :
  Forall (fun kv : Z * list rchar => snd kv <> []) d ->
  Forall (fun kv : Z * list rchar => snd kv <> []) (group_add d y c).
Proof.
  induction d as [| [k' cs] d IH]; simpl; intros H.
  - constructor; [discriminate | constructor].
  - inversion H as [| ? ? H1 H2]. subst. destruct (k' =? y)%Z; constructor; auto.
    simpl. destruct cs; discriminate.
Qed.

Lemma group_by_row_rows chars :
  NoDup (map fst (group_by_row chars))
  /\ Forall (fun kv : Z * list rchar => snd kv <> []) (group_by_row chars)
  /\ forall k, row_of (group_by_row chars) k
               = filter (fun c => (py_round (r_top c) =? k)%Z) chars.
Proof.
  unfold group_by_row.
  assert (K : forall l d,
             NoDup (map fst d) ->
             Forall (fun kv : Z * list rchar => snd kv <> []) d ->
             let d' := fold_left (fun d c => group_add d (py_round (r_top c)) c) l d in
             NoDup (map fst d')
             /\ Forall (fun kv : Z * list rchar => snd kv <> []) d'
             /\ forall k, row_of d' k
                          = row_of d k ++ filter (fun c => (py_round (r_top c) =? k)%Z) l).
  { induction l as [| c l IH]; intros d N F; cbv zeta; cbn [fold_left filter].
    - repeat split; auto. intros k. rewrite app_nil_r. reflexivity.
    - destruct (IH (group_add d (py_round (r_top c)) c)
                   (group_add_nodup _ _ _ N) (group_add_rows_not_empty _ _ F))
        as [N' [F' R']].
      repeat split; auto. intros k. rewrite R', group_add_row.
      rewrite (Z.eqb_sym (py_round (r_top c)) k).
      destruct (k =? py_round (r_top c))%Z eqn:E.
      + apply Z.eqb_eq in E. subst k. rewrite <- app_assoc. reflexivity.
      + reflexivity. }
  destruct (K chars [] (NoDup_nil _) (Forall_nil _)) as [N [F R]].
  repeat split; auto.
Qed.

Lemma row_of_In d k cs :
  NoDup (map fst d) -> In (k, cs) d -> row_of d k = cs.
Proof.
  induction d as [| [k' cs'] d IH]; simpl; intros N H; [contradiction |].
  inversion N as [| ? ? N1 N2]. subst. destruct H as [H | H].
  - inversion H. subst. rewrite Z.eqb_refl. reflexivity.
  - destruct (k' =? k)%Z eqn:E; [| apply IH; assumption].
    apply Z.eqb_eq in E. subst k'. exfalso. apply N1.
    apply in_map_iff. exists (k, cs). auto.
Qed.

(** The text and the bold flag of a line. *)
Lemma line_of_value l :
  line_of l
  = (concat (map r_text l),
     existsb (fun c => nonempty (r_text c) && is_bold_char c) l).
Proof.
  unfold line_of.
  assert (K : forall l t0 b0,
             fold_left (fun (acc : str * bool) c =>
                          let '(line_text, is_bold_line) := acc in
                          if nonempty (r_text c)
                          then (line_text ++ r_text c,
                                if is_bold_char c then true else is_bold_line)
                          else acc) l (t0, b0)
             = (t0 ++ concat (map r_text l),
                b0 || existsb (fun c => nonempty (r_text c) && is_bold_char c) l)).
  { clear l. induction l as [| c l IH]; intros t0 b0; cbn [fold_left map concat existsb].
    - rewrite app_nil_r, orb_false_r. reflexivity.
    - destruct (r_text c) as [| y t] eqn:E; cbn [nonempty andb orb].
      + rewrite IH. reflexivity.
      + rewrite IH, <- app_assoc. destruct (is_bold_char c); cbn [orb].
        * rewrite orb_true_r. reflexivity.
        * reflexivity. }
  apply (K l [] false).
Qed.

Lemma row_of_found d k :
  row_of d k <> [] -> In (k, row_of d k) d.
Proof.
  induction d as [| [k' cs] d IH]; simpl; intros H; [congruence |].
  destruct (k' =? k)%Z eqn:E.
  - apply Z.eqb_eq in E. subst k'. left. reflexivity.
  - right. apply IH. exact H.
Qed.

(** The characters of a line go from left to right. *)
Lemma sort_chars_sorted l :
  ForallOrdPairs (fun a b : rchar => Qle (r_x0 a) (r_x0 b)) (sort_chars l).
Proof.
  unfold sort_chars, sort_by. induction l as [| x l IH]; simpl; [constructor |].
  revert IH. generalize (fold_right (insert_by (fun a b => Qle_bool (r_x0 a) (r_x0 b))) [] l).
  intros s H. induction H as [| y s F H IH]; simpl.
  - constructor; constructor.
  - destruct (Qle_bool (r_x0 x) (r_x0 y)) eqn:E.
    + apply Qle_bool_iff in E. constructor; [| constructor; assumption].
      constructor; [exact E |]. rewrite Forall_forall in *. intros z Hz.
      eapply Qle_trans; [exact E | apply F; exact Hz].
    + assert (L : Qle (r_x0 y) (r_x0 x)).
      { destruct (Qlt_le_dec (r_x0 y) (r_x0 x)) as [K | K].
        - apply Qlt_le_weak. exact K.
        - apply Qle_bool_iff in K. congruence. }
      constructor; [| exact IH]. rewrite Forall_forall in *. intros z Hz.
      apply insert_by_In in Hz. destruct Hz as [-> | Hz]; [exact L | apply F; exact Hz].
Qed.

(** The lines that come out of the sorted rows. *)
Lemma lines_of_rows_sorted (f : Z * list rchar -> list (str * Z * bool)) l :
  (forall item out, In out (f item) -> snd (fst out) = fst item) ->
  (forall item, length (f item) <= 1) ->
  ForallOrdPairs (fun a b : Z * list rchar => (fst b < fst a)%Z) l ->
  ForallOrdPairs (fun a b : str * Z * bool => (snd (fst b) < snd (fst a))%Z)
                 (flat_map f l).
Proof.
  intros Hk H1 H. induction H as [| x l F H IH]; simpl; [constructor |].
  specialize (H1 x). destruct (f x) as [| o [| o' r]] eqn:E; simpl in *; [exact IH | | lia].
  constructor; [| exact IH]. rewrite Forall_forall in *. intros z Hz.
  apply in_flat_map in Hz. destruct Hz as [item [Hi Hz]].
  rewrite (Hk item z Hz). rewrite (Hk x o); [| rewrite E; left; reflexivity].
  apply F. exact Hi.
Qed.

End RebuiltLines.

(* ===================================================================== *)
(** * The fields of the header                                             *)
(* ===================================================================== *)

Section HeaderFacts.
Context {U : Unicode}.
Import Re HeaderInfo.

Lemma consumes_next subj c text c' :
  rest c = skipn (pos c) subj -> consumes c text c' ->
  rest c' = skipn (pos c') subj.
Proof.
  intros Hc [H1 H2]. rewrite H2.
  apply (@skipn_skipn_app _ (pos c) subj (rest c) text (rest c') Hc H1).
Qed.

Lemma run_chars_inv R (s : str) (k : cursor -> groups -> option R) c g x :
  run (cat (map Lit s)) k c g = Some x ->
  exists c', consumes c s c' /\ k c' g = Some x.
Proof.
  revert c. induction s as [| y s IH]; intros c H.
  - exists c. split; [apply consumes_refl | exact H].
  - change (cat (map Lit (y :: s))) with (Seq (Lit y) (cat (map Lit s))) in H.
    rewrite run_Seq in H. apply run_lit_inv in H. destruct H as [c1 [H1 H]].
    apply IH in H. destruct H as [c' [H2 H]]. exists c'. split; [| exact H].
    apply (consumes_trans H1 H2).
Qed.

Lemma run_spaces_inv R (k : cursor -> groups -> option R) c g x :
  run (star spc) k c g = Some x ->
  exists sp c', consumes c sp c' /\ forallb is_space sp = true /\ k c' g = Some x.
Proof.
  unfold star, spc. rewrite run_Repeat. intros H.
  apply rep_class_inv with (ok := set_has [Cls Space]) in H;
    [| intros; reflexivity | discriminate].
  destruct H as [sp [c' [H1 [H2 [H3 [_ [_ H6]]]]]]]. exists sp, c'.
  split; [split; assumption |]. split; [| exact H6].
  rewrite forallb_forall in *. intros y Hy. rewrite <- set_space_one. auto.
Qed.

Lemma run_times_digits_inv R n (k : cursor -> groups -> option R) c g x :
  run (times n dig) k c g = Some x ->
  exists a c', consumes c a c' /\ length a = n
               /\ forallb is_decimal a = true /\ k c' g = Some x.
Proof.
  change (times n dig) with (between n n (OneOf [Cls Digit])). intros H.
  apply run_class_between_inv in H. destruct H as [a [c' [H1 [H2 [H3 H4]]]]].
  exists a, c'. repeat split; try apply H1; auto; [lia |].
  rewrite <- set_digit_only. exact H3.
Qed.

(** Shapes. *)
Lemma has_shape_app s1 t1 s2 t2 :
  has_shape s1 t1 = true -> has_shape s2 t2 = true ->
  has_shape (s1 ++ s2) (t1 ++ t2) = true.
Proof.
  revert t1. induction s1 as [| s s1 IH]; intros [| x t1] H1 H2; simpl in *;
    try discriminate; [exact H2 |].
  apply andb_true_iff in H1. destruct H1 as [H1 H3]. rewrite H1. simpl. auto.
Qed.

Lemma has_shape_digits a :
  forallb is_decimal a = true -> has_shape (repeat (ch "d") (length a)) a = true.
Proof.
  induction a as [| x a IH]; simpl; [reflexivity |]. intros H.
  apply andb_true_iff in H. destruct H as [H1 H2]. rewrite H1. simpl. auto.
Qed.

Lemma has_shape_times n a s2 t2 :
  length a = n -> forallb is_decimal a = true -> has_shape s2 t2 = true ->
  has_shape (repeat (ch "d") n ++ s2) (a ++ t2) = true.
Proof.
  intros <- H1 H2. apply has_shape_app; [apply has_shape_digits; exact H1 | exact H2].
Qed.

Lemma has_shape_length s t : has_shape s t = true -> length t = length s.
Proof.
  revert t. induction s as [| y s IH]; intros [| x t] H; simpl in *;
    try discriminate; [reflexivity |].
  apply andb_true_iff in H. destruct H as [_ H]. rewrite (IH t H). reflexivity.
Qed.

(** The bodies of the groups. *)
Lemma run_cnpj_digits_inv R (k : cursor -> groups -> option R) c g x :
  run cnpj_digits k c g = Some x ->
  exists v c', consumes c v c' /\ has_shape (u "dd.ddd.ddd/dddd-dd") v = true
               /\ k c' g = Some x.
Proof.
  unfold cnpj_digits, cat. cbn [fold_right]. intros H.
  rewrite run_Seq in H. apply run_times_digits_inv in H.
  destruct H as [a1 [c1 [C1 [L1 [D1 H]]]]].
  rewrite run_Seq in H. apply run_lit_inv in H. destruct H as [c2 [C2 H]].
  rewrite run_Seq in H. apply run_times_digits_inv in H.
  destruct H as [a2 [c3 [C3 [L2 [D2 H]]]]].
  rewrite run_Seq in H. apply run_lit_inv in H. destruct H as [c4 [C4 H]].
  rewrite run_Seq in H. apply run_times_digits_inv in H.
  destruct H as [a3 [c5 [C5 [L3 [D3 H]]]]].
  rewrite run_Seq in H. apply run_lit_inv in H. destruct H as [c6 [C6 H]].
  rewrite run_Seq in H. apply run_times_digits_inv in H.
  destruct H as [a4 [c7 [C7 [L4 [D4 H]]]]].
  rewrite run_Seq in H. apply run_lit_inv in H. destruct H as [c8 [C8 H]].
  rewrite run_Seq in H. apply run_times_digits_inv in H.
  destruct H as [a5 [c9 [C9 [L5 [D5 H]]]]].
  rewrite run_Empty in H.
  exists (a1 ++ [ch "."] ++ a2 ++ [ch "."] ++ a3 ++ [ch "/"] ++ a4 ++ [ch "-"] ++ a5 ++ []), c9.
  split; [| split; [| exact H]].
  - repeat (eapply consumes_trans; [eassumption |]). apply consumes_refl.
  - change (u "dd.ddd.ddd/dddd-dd")
      with (repeat (ch "d") 2 ++ [ch "."] ++ repeat (ch "d") 3 ++ [ch "."]
            ++ repeat (ch "d") 3 ++ [ch "/"] ++ repeat (ch "d") 4 ++ [ch "-"]
            ++ repeat (ch "d") 2 ++ []).
    repeat (first [ apply has_shape_times; [assumption | assumption |]
                  | apply has_shape_app; [reflexivity |] ]).
    reflexivity.
Qed.

Lemma run_date_digits_inv R (k : cursor -> groups -> option R) c g x :
  run date_digits k c g = Some x ->
  exists v c', consumes c v c' /\ has_shape (u "dd/dd/dddd") v = true
               /\ k c' g = Some x.
Proof.
  unfold date_digits, cat. cbn [fold_right]. intros H.
  rewrite run_Seq in H. apply run_times_digits_inv in H.
  destruct H as [a1 [c1 [C1 [L1 [D1 H]]]]].
  rewrite run_Seq in H. apply run_lit_inv in H. destruct H as [c2 [C2 H]].
  rewrite run_Seq in H. apply run_times_digits_inv in H.
  destruct H as [a2 [c3 [C3 [L2 [D2 H]]]]].
  rewrite run_Seq in H. apply run_lit_inv in H. destruct H as [c4 [C4 H]].
  rewrite run_Seq in H. apply run_times_digits_inv in H.
  destruct H as [a3 [c5 [C5 [L3 [D3 H]]]]].
  rewrite run_Empty in H.
  exists (a1 ++ [ch "/"] ++ a2 ++ [ch "/"] ++ a3 ++ []), c5.
  split; [| split; [| exact H]].
  - repeat (eapply consumes_trans; [eassumption |]). apply consumes_refl.
  - change (u "dd/dd/dddd")
      with (repeat (ch "d") 2 ++ [ch "/"] ++ repeat (ch "d") 2 ++ [ch "/"]
            ++ repeat (ch "d") 4 ++ []).
    repeat (first [ apply has_shape_times; [assumption | assumption |]
                  | apply has_shape_app; [reflexivity |] ]).
    reflexivity.
Qed.

Lemma run_time_digits_inv R (k : cursor -> groups -> option R) c g x :
  run time_digits k c g = Some x ->
  exists v c', consumes c v c' /\ has_shape (u "dd:dd:dd") v = true
               /\ k c' g = Some x.
Proof.
  unfold time_digits, cat. cbn [fold_right]. intros H.
  rewrite run_Seq in H. apply run_times_digits_inv in H.
  destruct H as [a1 [c1 [C1 [L1 [D1 H]]]]].
  rewrite run_Seq in H. apply run_lit_inv in H. destruct H as [c2 [C2 H]].
  rewrite run_Seq in H. apply run_times_digits_inv in H.
  destruct H as [a2 [c3 [C3 [L2 [D2 H]]]]].
  rewrite run_Seq in H. apply run_lit_inv in H. destruct H as [c4 [C4 H]].
  rewrite run_Seq in H. apply run_times_digits_inv in H.
  destruct H as [a3 [c5 [C5 [L3 [D3 H]]]]].
  rewrite run_Empty in H.
  exists (a1 ++ [ch ":"] ++ a2 ++ [ch ":"] ++ a3 ++ []), c5.
  split; [| split; [| exact H]].
  - repeat (eapply consumes_trans; [eassumption |]). apply consumes_refl.
  - change (u "dd:dd:dd")
      with (repeat (ch "d") 2 ++ [ch ":"] ++ repeat (ch "d") 2 ++ [ch ":"]
            ++ repeat (ch "d") 2 ++ []).
    repeat (first [ apply has_shape_times; [assumption | assumption |]
                  | apply has_shape_app; [reflexivity |] ]).
    reflexivity.
Qed.

Lemma run_number_inv R (k : cursor -> groups -> option R) c g x :
  run (plus dig) k c g = Some x ->
  exists v c', consumes c v c' /\ digits v = true /\ k c' g = Some x.
Proof. apply run_digits_inv. Qed.

(** A label, spaces and one group. *)
Lemma labelled_group (P : str -> Prop) label body subj m :
  (forall (k : cursor -> groups -> option rmatch) c g x,
      run body k c g = Some x ->
      exists v c', consumes c v c' /\ P v /\ k c' g = Some x) ->
  re_search (cat [lits label; star spc; Group 1 body]) subj = Some m ->
  exists v, group m 1 = Some v /\ P v /\ follows subj (u label) v.
Proof.
  intros Hbody H. apply re_search_inv in H. destruct H as [j [q H]].
  unfold match_at, cat in H. cbn [fold_right] in H.
  rewrite run_Seq in H. unfold lits in H. apply run_chars_inv in H.
  destruct H as [c1 [C1 H]].
  rewrite run_Seq in H. apply run_spaces_inv in H. destruct H as [sp [c2 [C2 [S2 H]]]].
  rewrite run_Seq, run_Group in H. apply Hbody in H. destruct H as [v [c3 [C3 [Pv H]]]].
  rewrite run_Empty in H. inversion H as [Em]. clear H.
  assert (R0 : rest (Cursor j q (skipn j subj)) = skipn (pos (Cursor j q (skipn j subj))) subj)
    by reflexivity.
  pose proof (consumes_next subj R0 C1) as R1.
  pose proof (consumes_next subj R1 C2) as R2.
  exists v. split; [| split; [exact Pv |]].
  - unfold group. cbn [m_groups span_of subject]. rewrite Nat.eqb_refl.
    rewrite (consumes_slice subj R2 C3). reflexivity.
  - exists (firstn j subj), sp, (rest c3). split; [| exact S2].
    destruct (consumes_trans C1 (consumes_trans C2 C3)) as [E _]. cbn [rest] in E.
    rewrite <- (firstn_skipn j subj) at 1. rewrite E, <- !app_assoc. reflexivity.
Qed.

Lemma group1_labelled (P : str -> Prop) label body subj v :
  (forall (k : cursor -> groups -> option rmatch) c g x,
      run body k c g = Some x ->
      exists v c', consumes c v c' /\ P v /\ k c' g = Some x) ->
  group1_of (cat [lits label; star spc; Group 1 body]) subj = Some v ->
  P v /\ follows subj (u label) v.
Proof.
  intros Hbody. unfold group1_of.
  destruct (re_search _ subj) as [m |] eqn:E; [| discriminate].
  intros H. destruct (@labelled_group P label body subj m Hbody E) as [v' [G [Pv F]]].
  rewrite G in H. inversion H. subst. auto.
Qed.

(** The period: two dates around a dash. *)
Lemma period_groups subj m :
  re_search period_re subj = Some m ->
  exists v1 v2 sp,
    group m 1 = Some v1 /\ group m 2 = Some v2
    /\ has_shape (u "dd/dd/dddd") v1 = true /\ has_shape (u "dd/dd/dddd") v2 = true
    /\ follows subj (u "Período:") (v1 ++ sp ++ v2).
Proof.
  intros H. apply re_search_inv in H. destruct H as [j [q H]].
  unfold match_at, period_re, cat in H. cbn [fold_right] in H.
  rewrite run_Seq in H. unfold lits in H. apply run_chars_inv in H.
  destruct H as [c1 [C1 H]].
  rewrite run_Seq in H. apply run_spaces_inv in H. destruct H as [sp [c2 [C2 [S2 H]]]].
  rewrite run_Seq, run_Group in H. apply run_date_digits_inv in H.
  destruct H as [v1 [c3 [C3 [P1 H]]]].
  rewrite run_Seq in H. apply run_spaces_inv in H. destruct H as [s3 [c4 [C4 [S4 H]]]].
  rewrite run_Seq in H. apply run_lit_inv in H. destruct H as [c5 [C5 H]].
  rewrite run_Seq in H. apply run_spaces_inv in H. destruct H as [s6 [c6 [C6 [S6 H]]]].
  rewrite run_Seq, run_Group in H. apply run_date_digits_inv in H.
  destruct H as [v2 [c7 [C7 [P2 H]]]].
  rewrite run_Empty in H. inversion H as [Em]. clear H.
  assert (R0 : rest (Cursor j q (skipn j subj)) = skipn (pos (Cursor j q (skipn j subj))) subj)
    by reflexivity.
  pose proof (consumes_next subj R0 C1) as R1.
  pose proof (consumes_next subj R1 C2) as R2.
  pose proof (consumes_next subj R2 C3) as R3.
  pose proof (consumes_next subj R3 C4) as R4.
  pose proof (consumes_next subj R4 C5) as R5.
  pose proof (consumes_next subj R5 C6) as R6.
  exists v1, v2, (s3 ++ [ch "-"] ++ s6). repeat split; auto.
  - unfold group. cbn [m_groups span_of subject Nat.eqb].
    rewrite (consumes_slice subj R2 C3). reflexivity.
  - unfold group. cbn [m_groups span_of subject Nat.eqb].
    rewrite (consumes_slice subj R6 C7). reflexivity.
  - exists (firstn j subj), sp, (rest c7). split; [| exact S2].
    pose proof (consumes_trans C1 (consumes_trans C2 (consumes_trans C3
                  (consumes_trans C4 (consumes_trans C5 (consumes_trans C6 C7))))))
      as [E _].
    cbn [rest] in E.
    rewrite <- (firstn_skipn j subj) at 1. rewrite E, <- !app_assoc. reflexivity.
Qed.

(** Group 1 of the company pattern takes part in every match. *)
Lemma company_group line m :
  re_search company_re line = Some m -> exists v, group m 1 = Some v.
Proof.
  intros H. apply re_search_inv in H. destruct H as [j [q H]].
  unfold match_at, company_re, cat in H. cbn [fold_right] in H.
  rewrite run_Seq in H. unfold lits in H. apply run_chars_inv in H.
  destruct H as [c1 [C1 H]].
  rewrite run_Seq in H. apply run_spaces_inv in H. destruct H as [sp [c2 [C2 [S2 H]]]].
  rewrite run_Seq, run_Group, run_Repeat in H.
  apply rep_class_inv with (ok := fun y => negb (char_eqb y 10)) in H;
    [| intros; reflexivity | discriminate].
  destruct H as [v [c3 [_ [_ [_ [_ [_ H]]]]]]].
  rewrite run_Seq in H. cbn [run] in H. apply or_else_inv in H.
  assert (K : forall c' : cursor,
             Some (Match line j (pos c') [(1, (pos c2, pos c3))]) = Some m ->
             exists v, group m 1 = Some v).
  { intros c' E. inversion E. unfold group. cbn [m_groups span_of Nat.eqb]. eauto. }
  destruct H as [H | [_ H]].
  - change (run (plus spc) (run (cat (map Lit (u "Folha:")))
              (fun c' g' => Some (Match line j (pos c') g'))) c3 [(1, (pos c2, pos c3))]
            = Some m) in H.
    apply run_class_plus_inv in H. destruct H as [s [c4 [_ [_ [_ H]]]]].
    apply run_chars_inv in H. destruct H as [c5 [_ H]]. apply (K c5 H).
  - destruct (rest c3) as [| y [| z r]]; [apply (K c3 H) | | discriminate].
    destruct (char_eqb y 10); [apply (K c3 H) | discriminate].
Qed.

(** The company never makes the function raise, and what it stores is a
    result of [finish]. *)
Lemma company_of_value finish lines :
  exists o, company_of finish lines = Ok o
            /\ forall v, o = Some v -> exists g, v = finish g.
Proof.
  unfold company_of. destruct (find _ (firstn 5 lines)) as [line |].
  - destruct (re_search company_re line) as [m |] eqn:E.
    + destruct (@company_group line m E) as [g G]. rewrite G. cbn [attr bind].
      eexists. split; [reflexivity |]. intros v Hv. inversion Hv. eauto.
    + eexists. split; [reflexivity |]. discriminate.
  - eexists. split; [reflexivity |]. discriminate.
Qed.

Lemma period_shape v1 v2 :
  has_shape (u "dd/dd/dddd") v1 = true -> has_shape (u "dd/dd/dddd") v2 = true ->
  has_shape (u "dd/dd/dddd - dd/dd/dddd") (v1 ++ u " - " ++ v2) = true.
Proof.
  intros H1 H2.
  change (u "dd/dd/dddd - dd/dd/dddd") with (u "dd/dd/dddd" ++ u " - " ++ u "dd/dd/dddd").
  apply has_shape_app; [exact H1 |]. apply has_shape_app; [reflexivity | exact H2].
Qed.

Lemma header_with_inv finish text h :
  header_with finish text = Ok h ->
  company_of finish (split_on 10 text) = Ok (company h)
  /\ cnpj h = group1_of cnpj_re text
  /\ book_number h = group1_of book_re text
  /\ period h = match re_search period_re text with
                | Some m => Some (formatted (group m 1) ++ u " - " ++ formatted (group m 2))
                | None => None
                end
  /\ issue_date h = group1_of date_re text
  /\ time h = group1_of time_re text
  /\ page h = group1_of page_re text
  /\ report_type h
     = if contains (upper text) (u "BALANCETE")
       then Some (if contains (upper text) (u "CONSOLIDADO")
                  then u "BALANCETE CONSOLIDADO" else u "BALANCETE")
       else None.
Proof.
  unfold header_with. cbv zeta. intros H. apply bind_ok_inv in H.
  destruct H as [o [Ho H]]. injection H as Hh. rewrite <- Hh. cbn.
  repeat split; auto.
Qed.

Lemma header_with_total finish text : exists h, header_with finish text = Ok h.
Proof.
  unfold header_with. cbv zeta.
  destruct (company_of_value finish (split_on 10 text)) as [o [Ho _]].
  rewrite Ho. cbn [bind]. eauto.
Qed.

End HeaderFacts.

(* ===================================================================== *)
(** * The amounts of a record                                              *)
(* ===================================================================== *)

Section RecordAmounts.
Context {U : Unicode}.
Import Re Shared.

Lemma consumed_stands_in subj j q text c' :
  consumes (Cursor j q (skipn j subj)) text c' -> stands_in text subj.
Proof.
  intros [H _]. cbn [rest] in H. exists (firstn j subj), (rest c').
  rewrite <- H. symmetry. apply firstn_skipn.
Qed.

(** A match of [[\d\.]+,\d{2}] and where it stands. *)
Lemma monetary_found subj m :
  In m (re_finditer monetary_pattern subj) ->
  amount_text (group0 m) /\ stands_in (group0 m) subj.
Proof.
  intros H. apply re_finditer_In in H. destruct H as [j [q H]]. split.
  - apply (@monetary_match _ subj (Cursor j q (skipn j subj)) m eq_refl H).
  - unfold match_at, monetary_pattern, cat in H. cbn [fold_right] in H.
    rewrite run_Seq in H. apply run_class_plus_inv in H.
    destruct H as [a [c1 [H1 [_ [_ H]]]]].
    rewrite run_Seq in H. apply run_lit_inv in H. destruct H as [c2 [H2 H]].
    rewrite run_Seq in H. change (times 2 dig) with (between 2 2 (OneOf [Cls Digit])) in H.
    apply run_class_between_inv in H. destruct H as [ds [c3 [H3 [_ [_ H]]]]].
    rewrite run_Empty in H. injection H as Em. rewrite <- Em.
    unfold group0. cbn [subject m_start m_end pos].
    pose proof (consumes_trans H1 (consumes_trans H2 H3)) as K.
    pose proof (@consumes_slice subj (Cursor j q (skipn j subj)) _ c3 eq_refl K) as Es.
    cbn [pos] in Es. rewrite Es. apply (@consumed_stands_in subj j q _ c3 K).
Qed.

Lemma first_four_table_In V v :
  In (Some v) [fst (fst (fst (first_four_table V))); snd (fst (fst (first_four_table V)));
               snd (fst (first_four_table V)); snd (first_four_table V)] ->
  In v V.
Proof.
  destruct V as [| v0 [| v1 [| v2 [| v3 V]]]]; simpl; intros H;
    repeat (destruct H as [H | H]; [try discriminate; inversion H; auto |]);
    contradiction.
Qed.

Lemma balancete_table_In V v :
  In (Some v) [fst (fst (fst (balancete_table V))); snd (fst (fst (balancete_table V)));
               snd (fst (balancete_table V)); snd (balancete_table V)] ->
  In v V.
Proof.
  unfold balancete_table. intros H. apply in_rev.
  destruct (rev V) as [| v0 [| v1 [| v2 [| v3 R]]]]; simpl in *;
    repeat (destruct H as [H | H]; [try discriminate; inversion H; auto |]);
    contradiction.
Qed.

Lemma amounts_slots e :
  amounts e = [fst (fst (fst (slots e))); snd (fst (fst (slots e)));
               snd (fst (slots e)); snd (slots e)].
Proof. reflexivity. Qed.

(** The amounts of a record with the slots of [monetary_slots]. *)
Lemma made_entry_amounts subj code cls acc sl v :
  monetary_slots (map group0 (re_finditer monetary_pattern subj)) = Ok sl ->
  In (Some v) (amounts (make_entry code cls acc sl)) ->
  amount_text v /\ stands_in v subj.
Proof.
  intros Hs Hv. rewrite amounts_slots in Hv.
  rewrite (@monetary_slots_table _ (map group0 (re_finditer monetary_pattern subj))
             sl code cls acc) in Hv; [| | exact Hs].
  - apply first_four_table_In in Hv. apply in_map_iff in Hv.
    destruct Hv as [m [<- Hm]]. apply monetary_found. exact Hm.
  - intros w Hw. apply in_map_iff in Hw. destruct Hw as [m [<- Hm]].
    apply (amount_kept _ _ Hm).
Qed.

Lemma bare_amounts acc v : In (Some v) (amounts (bare acc)) -> False.
Proof.
  simpl. intros H. repeat (destruct H as [H | H]; [discriminate |]). exact H.
Qed.

Lemma parse_data_line_amounts line e v :
  ExtractPdf.parse_data_line line = Ok (Some e) ->
  In (Some v) (amounts e) ->
  amount_text v /\ stands_in v (strip line).
Proof.
  intros H Hv. apply parse_data_line_inv in H. cbv zeta in H.
  destruct H as [_ [_ [[_ [_ [_ [_ H]]]] | H]]].
  - rewrite H in Hv. destruct (bare_amounts Hv).
  - destruct H as [m0 [ms' [code [cls [idx [sl [E [_ [_ [_ [H1 H2]]]]]]]]]]].
    rewrite H2 in Hv. apply (made_entry_amounts _ _ _ _ H1 Hv).
Qed.

Lemma v3_parse_data_line_amounts line is_bold e v :
  ExtractPdfV3.parse_data_line line is_bold = Ok (Some e) ->
  In (Some v) (amounts e) ->
  amount_text v /\ stands_in v (strip line).
Proof.
  intros H Hv. unfold ExtractPdfV3.parse_data_line in H. cbv zeta in H.
  set (l := strip line) in *.
  destruct (match line with [] => true | _ => false end || (length l <? 3));
    [discriminate |].
  destruct (has_skip_keyword ExtractPdfV3.skip_keywords l); [discriminate |].
  destruct (re_finditer monetary_pattern l) as [| m0 ms'] eqn:Em.
  - destruct (10 <? length l); [| discriminate].
    destruct (ExtractPdfV3.clean_account_name l) eqn:E; inversion H. subst e.
    destruct (bare_amounts Hv).
  - cbn [map] in H. rewrite getitem_head in H. cbn [bind fst] in H.
    destruct (find_code_and_classification ExtractPdfV3.classification_re
                (strip (firstn (m_start m0) l))) as [[[code cls] idx] | ex] eqn:E2;
      [| discriminate].
    cbn [bind] in H.
    destruct (ExtractPdfV3.clean_account_name _) eqn:E in H; [discriminate |].
    destruct (monetary_slots _) as [sl | ex] eqn:Es in H; [| discriminate].
    cbn [bind] in H. inversion H. subst e.
    change (group0 m0 :: map group0 ms') with (map group0 (m0 :: ms')) in Es.
    rewrite <- Em in Es. apply (made_entry_amounts _ _ _ _ Es Hv).
Qed.

Lemma final_parse_data_line_amounts line e v :
  ExtractPdfFinal.parse_data_line line = Ok (Some e) ->
  In (Some v) (amounts e) ->
  amount_text v /\ stands_in v (ExtractPdfFinal.clean_text line).
Proof.
  intros H Hv. unfold ExtractPdfFinal.parse_data_line in H. cbv zeta in H.
  destruct (match line with [] => true | _ => false end || (length (strip line) <? 5));
    [discriminate |].
  set (l := ExtractPdfFinal.clean_text line) in *.
  destruct (has_skip_keyword ExtractPdfFinal.skip_keywords l); [discriminate |].
  destruct (re_finditer monetary_pattern l) as [| m0 ms'] eqn:Em.
  - destruct (15 <? length l); inversion H. subst e. destruct (bare_amounts Hv).
  - cbn [map] in H. rewrite getitem_head in H. cbn [bind fst] in H.
    destruct (getitem _ (-1)) in H; [| discriminate]. cbn [bind] in H.
    destruct (find_code_and_classification ExtractPdfFinal.classification_re
                (strip (firstn (m_start m0) l))) as [[[code cls] idx] | ex] eqn:E2;
      [| discriminate].
    cbn [bind] in H.
    destruct (ExtractPdfFinal.clean_account_name _) eqn:E in H; [discriminate |].
    destruct (monetary_slots _) as [sl | ex] eqn:Es in H; [| discriminate].
    cbn [bind] in H. inversion H. subst e.
    change (group0 m0 :: map group0 ms') with (map group0 (m0 :: ms')) in Es.
    rewrite <- Em in Es. apply (made_entry_amounts _ _ _ _ Es Hv).
Qed.

(** A repetition whose body reads a text of a known kind reads a
    sequence of such texts. *)
Lemma rep_body_inv R (P : str -> Prop)
    (body : (cursor -> groups -> option R) -> cursor -> groups -> option R)
    lo hi greedy (k : cursor -> groups -> option R) :
  (forall k' c g x, body k' c g = Some x ->
     exists w c', consumes c w c' /\ P w /\ k' c' g = Some x) ->
  forall fuel n c g x,
    rep_loop body lo hi greedy k fuel n c g = Some x ->
    exists ws c', consumes c (concat ws) c' /\ Forall P ws /\ k c' g = Some x.
Proof.
  intros Hbody. induction fuel as [| fuel IH]; intros n c g x H.
  - simpl in H. destruct (lo <=? n); [| discriminate].
    exists [], c. split; [apply consumes_refl | auto].
  - assert (Hstop : (if lo <=? n then k c g else None) = Some x ->
                    exists ws c', consumes c (concat ws) c' /\ Forall P ws
                                  /\ k c' g = Some x).
    { destruct (lo <=? n); [| discriminate]. intros Hk.
      exists [], c. split; [apply consumes_refl | auto]. }
    assert (Hagain :
              (if below n hi
               then body (fun c' g' =>
                            if pos c' =? pos c then None
                            else rep_loop body lo hi greedy k fuel (S n) c' g') c g
               else None) = Some x ->
              exists ws c', consumes c (concat ws) c' /\ Forall P ws
                            /\ k c' g = Some x).
    { destruct (below n hi); [| discriminate]. intros Hs.
      apply Hbody in Hs. destruct Hs as [w [c1 [C1 [Pw Hk]]]].
      destruct (pos c1 =? pos c); [discriminate |].
      apply IH in Hk. destruct Hk as [ws [c' [C2 [Pws Hk]]]].
      exists (w :: ws), c'. split; [| split; [constructor; assumption | exact Hk]].
      apply (consumes_trans C1 C2). }
    simpl in H. destruct greedy; apply or_else_inv in H;
      destruct H as [H | [_ H]]; auto.
Qed.

(** [\.\d{3}] *)
Lemma run_group_of_three_inv R (k : cursor -> groups -> option R) c g x :
  run (cat [FinalBalancete.dot; times 3 dig]) k c g = Some x ->
  exists w c', consumes c w c'
    /\ (exists t, w = ch "." :: t /\ length t = 3 /\ forallb is_decimal t = true)
    /\ k c' g = Some x.
Proof.
  unfold cat, FinalBalancete.dot. cbn [fold_right]. rewrite run_Seq. intros H.
  apply run_lit_inv in H. destruct H as [c1 [C1 H]].
  rewrite run_Seq in H. apply run_times_digits_inv in H.
  destruct H as [t [c2 [C2 [L [D H]]]]]. rewrite run_Empty in H.
  exists (ch "." :: t), c2. split; [apply (consumes_trans C1 C2) |].
  split; [eauto | exact H].
Qed.

Lemma groups_of_three ws :
  Forall (fun w => exists t, w = ch "." :: t /\ length t = 3
                             /\ forallb is_decimal t = true) ws ->
  exists gs, concat ws = concat (map (fun g => ch "." :: g) gs)
             /\ Forall (fun g => length g = 3 /\ forallb is_decimal g = true) gs.
Proof.
  induction 1 as [| w ws [t [E [L D]]] _ [gs [E2 F]]].
  - exists []. split; [reflexivity | constructor].
  - exists (t :: gs). cbn [map concat]. rewrite E, E2. split; [reflexivity |].
    constructor; auto.
Qed.

(** What [-?\d{1,3}(?:\.\d{3})*,\d{2}] matches. *)
Lemma value_found subj m :
  In m (re_finditer FinalBalancete.value_pattern subj) ->
  grouped_amount_text (group0 m) /\ stands_in (group0 m) subj.
Proof.
  intros H. apply re_finditer_In in H. destruct H as [j [q H]].
  unfold match_at, FinalBalancete.value_pattern, cat in H. cbn [fold_right] in H.
  rewrite run_Seq in H. unfold opt in H. rewrite run_Repeat in H.
  apply rep_class_inv with (ok := fun y => char_eqb y (ch "-")) in H;
    [| intros; reflexivity | intros h Hh; lia].
  destruct H as [sign [c1 [S1 [S2 [S3 [_ [S5 H]]]]]]].
  specialize (S5 1 eq_refl). simpl in S5.
  assert (C0 : consumes (Cursor j q (skipn j subj)) sign c1) by (split; assumption).
  rewrite run_Seq in H. apply run_class_between_inv in H.
  destruct H as [g0 [c2 [C1 [L0 [D0 H]]]]]. rewrite set_digit_only in D0.
  rewrite run_Seq in H. unfold star in H. rewrite run_Repeat in H.
  apply rep_body_inv
    with (P := fun w => exists t, w = ch "." :: t /\ length t = 3
                                  /\ forallb is_decimal t = true) in H;
    [| intros k' c g x; apply run_group_of_three_inv].
  destruct H as [ws [c3 [C2 [F H]]]].
  rewrite run_Seq in H. apply run_lit_inv in H. destruct H as [c4 [C3 H]].
  rewrite run_Seq in H. apply run_times_digits_inv in H.
  destruct H as [ds [c5 [C4 [L [D H]]]]].
  rewrite run_Empty in H. injection H as Em. rewrite <- Em.
  unfold group0. cbn [subject m_start m_end pos].
  pose proof (consumes_trans C0 (consumes_trans C1 (consumes_trans C2
                (consumes_trans C3 C4)))) as K.
  pose proof (@consumes_slice subj (Cursor j q (skipn j subj)) _ c5 eq_refl K) as Es.
  cbn [pos] in Es. rewrite Es.
  split; [| apply (@consumed_stands_in subj j q _ c5 K)].
  destruct (groups_of_three F) as [gs [Eg Fg]].
  destruct ds as [| d1 [| d2 [| d3 ds]]]; simpl in L; try lia.
  simpl in D. apply andb_prop in D. destruct D as [D1 D]. apply andb_prop in D.
  destruct D as [D2 _].
  exists sign, g0, gs, d1, d2. rewrite Eg. repeat split; auto; try lia.
  destruct sign as [| y [| z r]]; simpl in S5; try lia; [left; reflexivity |].
  right. simpl in S2. apply andb_prop in S2. destruct S2 as [S2 _].
  apply N.eqb_eq in S2. subst y. reflexivity.
Qed.

Lemma parse_entry_line_amounts line e v :
  FinalBalancete.parse_entry_line line = Ok (Some e) ->
  In (Some v) (amounts e) ->
  grouped_amount_text v /\ stands_in v (strip line).
Proof.
  intros H Hv. apply parse_entry_line_inv in H. cbv zeta in H.
  destruct H as [_ [_ [H _]]]. rewrite amounts_slots, H in Hv.
  apply balancete_table_In in Hv. unfold re_findall in Hv.
  apply in_map_iff in Hv. destruct Hv as [m [<- Hm]].
  apply value_found. exact Hm.
Qed.

End RecordAmounts.

(* ===================================================================== *)
(** * The bold texts of extract_pdf_final and extract_pdf_v2                *)
(* ===================================================================== *)

Section OtherBoldTexts.
Context {U : Unicode}.

Lemma final_keep_longest_keeps (P : str -> Prop) d current_bold current_y :
  NoDup (map fst d) -> Forall (fun kv => P (snd kv)) d ->
  P (ExtractPdfFinal.clean_text current_bold) ->
  nonempty (strip current_bold) = true ->
  NoDup (map fst (ExtractPdfFinalPass.keep_longest d current_bold current_y))
  /\ Forall (fun kv => P (snd kv))
            (ExtractPdfFinalPass.keep_longest d current_bold current_y).
Proof.
  intros N F Hp Hne. unfold ExtractPdfFinalPass.keep_longest, ExtractPdf.defaultdict_get.
  cbv zeta. destruct (ExtractPdf.dict_get d _) as [v |].
  - destruct (length v <? length (strip current_bold)).
    + split; [apply dict_set_keys | apply dict_set_values]; assumption.
    + auto.
  - destruct (strip current_bold) as [| y s] eqn:E; [discriminate |].
    change (length [] <? length (y :: s)) with true. cbv iota.
    rewrite dict_set_twice.
    split; [apply dict_set_keys | apply dict_set_values]; assumption.
Qed.

Lemma final_bold_step_keeps (P : str -> Prop) acc c :
  (forall s, P (ExtractPdfFinal.clean_text s)) ->
  NoDup (map fst (fst (fst acc))) ->
  Forall (fun kv => P (snd kv)) (fst (fst acc)) ->
  NoDup (map fst (fst (fst (ExtractPdfFinalPass.bold_step acc c))))
  /\ Forall (fun kv => P (snd kv)) (fst (fst (ExtractPdfFinalPass.bold_step acc c))).
Proof.
  intros HP. destruct acc as [[d cb] cy]. cbn [fst]. intros N F.
  unfold ExtractPdfFinalPass.bold_step. cbv zeta.
  destruct (ExtractPdf.is_bold_char c && nonempty (ExtractPdf.c_text c)).
  - destruct (match cy with None => true | Some y => _ end); cbn [fst]; [auto |].
    destruct (nonempty (strip cb)) eqn:E; cbn [andb]; [| auto].
    destruct (5 <? length (strip cb)); [| auto].
    apply final_keep_longest_keeps; auto.
  - destruct (nonempty (strip cb)) eqn:E; cbn [fst]; [| auto].
    apply final_keep_longest_keeps; auto.
Qed.

Lemma final_extract_bold_categories_keeps (P : str -> Prop) chars :
  (forall s, P (ExtractPdfFinal.clean_text s)) ->
  NoDup (map fst (ExtractPdfFinalPass.extract_bold_categories chars))
  /\ Forall (fun kv => P (snd kv)) (ExtractPdfFinalPass.extract_bold_categories chars).
Proof.
  intros HP. unfold ExtractPdfFinalPass.extract_bold_categories.
  assert (K : forall l acc,
             NoDup (map fst (fst (fst acc))) ->
             Forall (fun kv => P (snd kv)) (fst (fst acc)) ->
             NoDup (map fst (fst (fst (fold_left ExtractPdfFinalPass.bold_step l acc))))
             /\ Forall (fun kv => P (snd kv))
                       (fst (fst (fold_left ExtractPdfFinalPass.bold_step l acc)))).
  { induction l as [| c l IH]; intros acc N F; [auto |]. cbn [fold_left].
    destruct (final_bold_step_keeps P acc c HP N F) as [N' F']. apply IH; assumption. }
  destruct (K chars ([], [], None)) as [N F]; [constructor | constructor |].
  destruct (fold_left ExtractPdfFinalPass.bold_step chars ([], [], None)) as [[d cb] cy].
  cbn [fst] in N, F. destruct (nonempty (strip cb)) eqn:E; [| auto].
  apply final_keep_longest_keeps; auto.
Qed.

Lemma v2_keep_longest_keeps (P : str -> Prop) d current_bold current_y :
  NoDup (map fst d) -> Forall (fun kv => P (snd kv)) d ->
  P (strip current_bold) ->
  NoDup (map fst (ExtractPdfV2Pass.keep_longest d current_bold current_y))
  /\ Forall (fun kv => P (snd kv))
            (ExtractPdfV2Pass.keep_longest d current_bold current_y).
Proof.
  intros N F Hp. unfold ExtractPdfV2Pass.keep_longest. cbv zeta.
  destruct (ExtractPdf.dict_get d _) as [v |].
  - destruct (length v <? length (strip current_bold)).
    + split; [apply dict_set_keys | apply dict_set_values]; assumption.
    + auto.
  - split; [apply dict_set_keys | apply dict_set_values]; assumption.
Qed.

Lemma v2_bold_step_keeps (P : str -> Prop) acc c :
  (forall s, nonempty (strip s) = true -> P (strip s)) ->
  NoDup (map fst (fst (fst acc))) ->
  Forall (fun kv => P (snd kv)) (fst (fst acc)) ->
  NoDup (map fst (fst (fst (ExtractPdfV2Pass.bold_step acc c))))
  /\ Forall (fun kv => P (snd kv)) (fst (fst (ExtractPdfV2Pass.bold_step acc c))).
Proof.
  intros HP. destruct acc as [[d cb] cy]. cbn [fst]. intros N F.
  unfold ExtractPdfV2Pass.bold_step. cbv zeta.
  destruct (ExtractPdf.is_bold_char c).
  - destruct (match cy with None => true | Some y => _ end); cbn [fst]; [auto |].
    destruct (nonempty (strip cb)) eqn:E; cbn [andb]; [| auto].
    destruct (3 <? length (strip cb)); [| auto].
    apply v2_keep_longest_keeps; auto.
  - destruct (nonempty (strip cb)) eqn:E; cbn [fst]; [| auto].
    apply v2_keep_longest_keeps; auto.
Qed.

Lemma v2_extract_bold_text_keeps (P : str -> Prop) chars :
  (forall s, nonempty (strip s) = true -> P (strip s)) ->
  NoDup (map fst (ExtractPdfV2Pass.extract_bold_text_by_position chars))
  /\ Forall (fun kv => P (snd kv)) (ExtractPdfV2Pass.extract_bold_text_by_position chars).
Proof.
  intros HP. unfold ExtractPdfV2Pass.extract_bold_text_by_position.
  assert (K : forall l acc,
             NoDup (map fst (fst (fst acc))) ->
             Forall (fun kv => P (snd kv)) (fst (fst acc)) ->
             NoDup (map fst (fst (fst (fold_left ExtractPdfV2Pass.bold_step l acc))))
             /\ Forall (fun kv => P (snd kv))
                       (fst (fst (fold_left ExtractPdfV2Pass.bold_step l acc)))).
  { induction l as [| c l IH]; intros acc N F; [auto |]. cbn [fold_left].
    destruct (v2_bold_step_keeps P acc c HP N F) as [N' F']. apply IH; assumption. }
  destruct (K chars ([], [], None)) as [N F]; [constructor | constructor |].
  destruct (fold_left ExtractPdfV2Pass.bold_step chars ([], [], None)) as [[d cb] cy].
  cbn [fst] in N, F. destruct (nonempty (strip cb)) eqn:E; [| auto].
  apply v2_keep_longest_keeps; auto.
Qed.

End OtherBoldTexts.

(* ===================================================================== *)
(** * The header of final_balancete_parser                                  *)
(* ===================================================================== *)

Section BalanceteHeaderFacts.
Context {U : Unicode}.
Variable lower : str -> str.
Import Re HeaderInfo BalanceteHeader.

Lemma run_one_of_inv R items (k : cursor -> groups -> option R) c g x :
  run (OneOf items) k c g = Some x ->
  exists y c', consumes c [y] c' /\ set_has items y = true /\ k c' g = Some x.
Proof.
  rewrite run_OneOf. intros H. apply step_inv in H.
  destruct H as [y [t [H1 [H2 H3]]]]. exists y. eexists.
  split; [| split; [exact H2 | exact H3]]. split; simpl; [exact H1 | lia].
Qed.

(** A group alone. *)
Lemma group_alone (P : str -> Prop) body subj m :
  (forall (k : cursor -> groups -> option rmatch) c g x,
      run body k c g = Some x ->
      exists v c', consumes c v c' /\ P v /\ k c' g = Some x) ->
  re_search (Group 1 body) subj = Some m ->
  exists v, group m 1 = Some v /\ P v.
Proof.
  intros Hbody H. apply re_search_inv in H. destruct H as [j [q H]].
  unfold match_at in H. rewrite run_Group in H. apply Hbody in H.
  destruct H as [v [c3 [C3 [Pv H]]]]. injection H as Em. rewrite <- Em.
  exists v. split; [| exact Pv].
  unfold group. cbn [m_groups span_of subject]. rewrite Nat.eqb_refl.
  pose proof (@consumes_slice subj (Cursor j q (skipn j subj)) v c3 eq_refl C3) as Es.
  cbn [pos] in Es. rewrite Es. reflexivity.
Qed.

Lemma book_group subj m :
  re_search book_re subj = Some m ->
  exists v, group m 1 = Some v /\ digits v = true.
Proof.
  intros H. apply re_search_inv in H. destruct H as [j [q H]].
  unfold match_at, book_re, cat in H. cbn [fold_right] in H.
  assert (R0 : rest (Cursor j q (skipn j subj)) = skipn (pos (Cursor j q (skipn j subj))) subj)
    by reflexivity.
  rewrite run_Seq in H. apply run_one_of_inv in H. destruct H as [y1 [c1 [C1 [_ H]]]].
  rewrite run_Seq in H. apply run_one_of_inv in H. destruct H as [y2 [c2 [C2 [_ H]]]].
  rewrite run_Seq in H. apply run_one_of_inv in H. destruct H as [y3 [c3 [C3 [_ H]]]].
  rewrite run_Seq in H. apply run_one_of_inv in H. destruct H as [y4 [c4 [C4 [_ H]]]].
  rewrite run_Seq in H. apply run_one_of_inv in H. destruct H as [y5 [c5 [C5 [_ H]]]].
  rewrite run_Seq in H. apply run_lit_inv in H. destruct H as [c6 [C6 H]].
  rewrite run_Seq in H. apply run_spaces_inv in H. destruct H as [sp [c7 [C7 [_ H]]]].
  rewrite run_Seq, run_Group in H. apply run_digits_inv in H.
  destruct H as [v [c8 [C8 [D H]]]]. rewrite run_Empty in H.
  injection H as Em. rewrite <- Em.
  pose proof (consumes_next subj R0 C1) as R1.
  pose proof (consumes_next subj R1 C2) as R2.
  pose proof (consumes_next subj R2 C3) as R3.
  pose proof (consumes_next subj R3 C4) as R4.
  pose proof (consumes_next subj R4 C5) as R5.
  pose proof (consumes_next subj R5 C6) as R6.
  pose proof (consumes_next subj R6 C7) as R7.
  exists v. split; [| exact D].
  unfold group. cbn [m_groups span_of subject]. rewrite Nat.eqb_refl.
  rewrite (consumes_slice subj R7 C8). reflexivity.
Qed.

Lemma period_alone subj m :
  re_search BalanceteHeader.period_re subj = Some m ->
  exists v1 v2,
    group m 1 = Some v1 /\ group m 2 = Some v2
    /\ has_shape (u "dd/dd/dddd") v1 = true /\ has_shape (u "dd/dd/dddd") v2 = true.
Proof.
  intros H. apply re_search_inv in H. destruct H as [j [q H]].
  unfold match_at, BalanceteHeader.period_re, cat in H. cbn [fold_right] in H.
  assert (R0 : rest (Cursor j q (skipn j subj)) = skipn (pos (Cursor j q (skipn j subj))) subj)
    by reflexivity.
  rewrite run_Seq, run_Group in H. apply run_date_digits_inv in H.
  destruct H as [v1 [c3 [C3 [P1 H]]]].
  rewrite run_Seq in H. apply run_spaces_inv in H. destruct H as [s3 [c4 [C4 [S4 H]]]].
  rewrite run_Seq in H. apply run_lit_inv in H. destruct H as [c5 [C5 H]].
  rewrite run_Seq in H. apply run_spaces_inv in H. destruct H as [s6 [c6 [C6 [S6 H]]]].
  rewrite run_Seq, run_Group in H. apply run_date_digits_inv in H.
  destruct H as [v2 [c7 [C7 [P2 H]]]].
  rewrite run_Empty in H. injection H as Em. rewrite <- Em.
  pose proof (consumes_next subj R0 C3) as R3.
  pose proof (consumes_next subj R3 C4) as R4.
  pose proof (consumes_next subj R4 C5) as R5.
  pose proof (consumes_next subj R5 C6) as R6.
  exists v1, v2. repeat split; auto.
  - unfold group. cbn [m_groups span_of subject Nat.eqb].
    pose proof (consumes_slice subj R0 C3) as Es. cbn [pos] in Es.
    rewrite Es. reflexivity.
  - unfold group. cbn [m_groups span_of subject Nat.eqb].
    rewrite (consumes_slice subj R6 C7). reflexivity.
Qed.

Lemma company_chars_class y : set_has company_chars y = company_char y.
Proof.
  unfold set_has, company_chars, company_char. cbn [existsb item_has in_cls].
  rewrite orb_false_r, orb_assoc. reflexivity.
Qed.

(** Group 1 of the company pattern takes part in every match, with
    characters of its class only. *)
Lemma balancete_company_group line m :
  re_search BalanceteHeader.company_re line = Some m ->
  exists v, group m 1 = Some v /\ forallb company_char v = true.
Proof.
  intros H. apply re_search_inv in H. destruct H as [j [q H]].
  unfold match_at, BalanceteHeader.company_re, cat in H. cbn [fold_right] in H.
  assert (R0 : rest (Cursor j q (skipn j line)) = skipn (pos (Cursor j q (skipn j line))) line)
    by reflexivity.
  rewrite run_Seq in H. unfold lits in H. apply run_chars_inv in H.
  destruct H as [c1 [C1 H]].
  rewrite run_Seq in H. apply run_spaces_inv in H. destruct H as [sp [c2 [C2 [S2 H]]]].
  rewrite run_Seq, run_Group, run_Repeat in H.
  apply rep_class_inv with (ok := set_has company_chars) in H;
    [| intros; reflexivity | discriminate].
  destruct H as [v [c3 [V1 [V2 [V3 [_ [_ H]]]]]]].
  assert (C3 : consumes c2 v c3) by (split; assumption).
  pose proof (consumes_next line R0 C1) as R1.
  pose proof (consumes_next line R1 C2) as R2.
  rewrite run_Seq in H. cbn [run] in H. apply or_else_inv in H.
  assert (K : forall c' : cursor,
             Some (Match line j (pos c') [(1, (pos c2, pos c3))]) = Some m ->
             exists v, group m 1 = Some v /\ forallb company_char v = true).
  { intros c' E. injection E as Em. rewrite <- Em. exists v. split.
    - unfold group. cbn [m_groups span_of subject Nat.eqb].
      rewrite (consumes_slice line R2 C3). reflexivity.
    - rewrite forallb_forall in *. intros y Hy. rewrite <- company_chars_class. auto. }
  destruct H as [H | [_ H]].
  - change (run (plus spc) (run (cat (map Lit (u "Folha:")))
              (fun c' g' => Some (Match line j (pos c') g'))) c3 [(1, (pos c2, pos c3))]
            = Some m) in H.
    apply run_class_plus_inv in H. destruct H as [s [c4 [_ [_ [_ H]]]]].
    apply run_chars_inv in H. destruct H as [c5 [_ H]]. apply (K c5 H).
  - destruct (rest c3) as [| y [| z r]]; [apply (K c3 H) | | discriminate].
    destruct (char_eqb y 10); [apply (K c3 H) | discriminate].
Qed.

(** Setting one field leaves the others. *)
Lemma set_group1_cases test r line set h :
  set_group1 test r line set h = h
  \/ exists m, re_search r line = Some m /\ set_group1 test r line set h = set h (group m 1).
Proof.
  unfold set_group1. destruct test; [| auto].
  destruct (re_search r line) as [m |]; [right; eauto | auto].
Qed.

Lemma field_ok_some (P : str -> Prop) v : P v -> field_ok P (Some v).
Proof. intros H w E. inversion E. subst. exact H. Qed.

Lemma header_step_ok line h :
  header_ok h -> exists h', header_step lower line h = Ok h' /\ header_ok h'.
Proof.
  intros Hh. unfold header_step.
  (* the company *)
  assert (K1 : exists h1,
             (if contains line (u "Empresa:") then
                match re_search BalanceteHeader.company_re line with
                | Some m => name <- attr (group m 1) strip ;; Ok (set_company h (Some name))
                | None => Ok h
                end
              else Ok h) = Ok h1 /\ header_ok h1).
  { destruct (contains line (u "Empresa:")); [| eauto].
    destruct (re_search BalanceteHeader.company_re line) as [m |] eqn:E; [| eauto].
    destruct (@balancete_company_group line m E) as [v [G F]]. rewrite G. cbn [attr bind].
    eexists. split; [reflexivity |].
    destruct Hh as [H1 [H2 [H3 [H4 [H5 [H6 [H7 H8]]]]]]].
    unfold header_ok, set_company. cbn. repeat (split; [assumption |]).
    split.
    - apply field_ok_some. split; [apply strip_strip |].
      rewrite forallb_forall in *. intros y Hy. apply F. apply strip_subset. exact Hy.
    - repeat (split; [assumption |]). assumption. }
  destruct K1 as [h1 [E1 Hh1]]. rewrite E1. cbn [bind]. clear E1 Hh h.
  eexists. split; [reflexivity |].
  (* the CNPJ *)
  assert (K2 : header_ok (set_group1 (found cnpj_label_re line) BalanceteHeader.cnpj_re
                            line set_cnpj h1)).
  { destruct (set_group1_cases (found cnpj_label_re line) BalanceteHeader.cnpj_re line
                set_cnpj h1) as [-> | [m [E ->]]]; [exact Hh1 |].
    destruct (@group_alone (fun v => has_shape (u "dd.ddd.ddd/dddd-dd") v = true)
                cnpj_digits line m (@run_cnpj_digits_inv _ rmatch) E) as [v [G P]].
    rewrite G. destruct Hh1 as [H1 [H2 [H3 [H4 [H5 [H6 [H7 H8]]]]]]].
    unfold header_ok, set_cnpj. cbn. repeat (split; [assumption |]).
    split; [apply field_ok_some; exact P |].
    repeat (split; [assumption |]). assumption. }
  set (h2 := set_group1 (found cnpj_label_re line) BalanceteHeader.cnpj_re line set_cnpj h1)
    in *. clearbody h2. clear Hh1 h1.
  (* the book number *)
  assert (K3 : header_ok (set_group1 (contains (lower line) (u "livro:")) book_re line
                            set_book_number h2)).
  { destruct (set_group1_cases (contains (lower line) (u "livro:")) book_re line
                set_book_number h2) as [-> | [m [E ->]]]; [exact K2 |].
    destruct (@book_group line m E) as [v [G P]].
    rewrite G. destruct K2 as [H1 [H2 [H3 [H4 [H5 [H6 [H7 H8]]]]]]].
    unfold header_ok, set_book_number. cbn. repeat (split; [assumption |]).
    split; [apply field_ok_some; exact P |].
    repeat (split; [assumption |]). assumption. }
  set (h3 := set_group1 (contains (lower line) (u "livro:")) book_re line set_book_number h2)
    in *. clearbody h3. clear K2 h2.
  (* the period *)
  assert (K4 : header_ok
                 (if contains line (u "Período:") then
                    match re_search BalanceteHeader.period_re line with
                    | Some m =>
                      set_period h3 (Some (formatted (group m 1) ++ u " - "
                                             ++ formatted (group m 2)))
                    | None => h3
                    end
                  else h3)).
  { destruct (contains line (u "Período:")); [| exact K3].
    destruct (re_search BalanceteHeader.period_re line) as [m |] eqn:E; [| exact K3].
    destruct (@period_alone line m E) as [v1 [v2 [G1 [G2 [P1 P2]]]]].
    rewrite G1, G2. cbn [formatted].
    destruct K3 as [H1 [H2 [H3 [H4 [H5 [H6 [H7 H8]]]]]]].
    unfold header_ok, set_period. cbn. repeat (split; [assumption |]).
    split; [apply field_ok_some; apply period_shape; assumption |].
    repeat (split; [assumption |]). assumption. }
  match goal with
  | K : header_ok ?t |- _ => set (h4 := t) in *; clearbody h4
  end.
  clear K3 h3.
  (* the issue date *)
  assert (K5 : header_ok (set_group1 (contains line (u "Emissão:")) date_re line
                            set_issue_date h4)).
  { destruct (set_group1_cases (contains line (u "Emissão:")) date_re line
                set_issue_date h4) as [-> | [m [E ->]]]; [exact K4 |].
    destruct (@labelled_group _ (fun v => has_shape (u "dd/dd/dddd") v = true)
                "Emissão:" date_digits line m (@run_date_digits_inv _ rmatch) E)
      as [v [G [P _]]].
    rewrite G. destruct K4 as [H1 [H2 [H3 [H4 [H5 [H6 [H7 H8]]]]]]].
    unfold header_ok, set_issue_date. cbn. repeat (split; [assumption |]).
    split; [apply field_ok_some; exact P |].
    repeat (split; [assumption |]). assumption. }
  set (h5 := set_group1 (contains line (u "Emissão:")) date_re line set_issue_date h4)
    in *. clearbody h5. clear K4 h4.
  (* the time *)
  assert (K6 : header_ok (set_group1 (contains line (u "Hora:")) time_re line set_time h5)).
  { destruct (set_group1_cases (contains line (u "Hora:")) time_re line set_time h5)
      as [-> | [m [E ->]]]; [exact K5 |].
    destruct (@labelled_group _ (fun v => has_shape (u "dd:dd:dd") v = true)
                "Hora:" time_digits line m (@run_time_digits_inv _ rmatch) E)
      as [v [G [P _]]].
    rewrite G. destruct K5 as [H1 [H2 [H3 [H4 [H5 [H6 [H7 H8]]]]]]].
    unfold header_ok, set_time. cbn. repeat (split; [assumption |]).
    apply field_ok_some; exact P. }
  set (h6 := set_group1 (contains line (u "Hora:")) time_re line set_time h5)
    in *. clearbody h6. clear K5 h5.
  (* the report type *)
  destruct (contains line (u "BALANCETE") && negb (truthy (report_type h6))); [| exact K6].
  destruct K6 as [H1 [H2 [H3 [H4 [H5 [H6 [H7 H8]]]]]]].
  unfold header_ok, set_report_type. cbn. split; [assumption |].
  split; [right; reflexivity |]. repeat (split; [assumption |]). assumption.
Qed.

Lemma empty_header_ok : header_ok empty_header.
Proof.
  unfold header_ok, empty_header. cbn.
  split; [reflexivity |]. split; [left; reflexivity |].
  unfold field_ok. repeat split; intros; discriminate.
Qed.

Lemma extract_header_ok text :
  exists h, extract_header lower text = Ok h /\ header_ok h.
Proof.
  unfold extract_header. cbv zeta.
  apply for_each_total_inv with (P := header_ok); [| apply empty_header_ok].
  intros line h Hh. apply header_step_ok. exact Hh.
Qed.

(** The lines of a text that has [n] line breaks or more do not change
    when something is written after it. *)
Lemma firstn_split_on_app c a b n :
  n <= count_char c a ->
  firstn n (split_on c (a ++ b)) = firstn n (split_on c a).
Proof.
  revert n. induction a as [| x a IH]; intros n H.
  - simpl in H. replace n with 0 by lia. reflexivity.
  - cbn [app split_on]. cbn [count_char] in H. destruct (char_eqb x c).
    + destruct n as [| n]; [reflexivity |]. cbn [firstn]. rewrite IH by lia. reflexivity.
    + simpl in H. specialize (IH n H).
      destruct (split_on c (a ++ b)) as [| w ws] eqn:E1;
        [destruct (split_on_not_nil c (a ++ b) E1) |].
      destruct (split_on c a) as [| w' ws'] eqn:E2;
        [destruct (split_on_not_nil c a E2) |].
      destruct n as [| n]; [reflexivity |]. cbn [firstn] in *.
      injection IH as -> ->. reflexivity.
Qed.

End BalanceteHeaderFacts.

(* ===================================================================== *)
(** * The document of final_balancete_parser                                *)
(* ===================================================================== *)

Section BalanceteDocument.
Context {U : Unicode}.
Import BalancetePdf.

Lemma add_pages_from pages start :
  fold_left add_page pages start = start ++ all_text pages.
Proof.
  unfold all_text. revert start. induction pages as [| p pages IH]; intros start.
  - simpl. rewrite app_nil_r. reflexivity.
  - cbn [fold_left]. rewrite IH. rewrite (IH (add_page [] p)).
    destruct p as [[| x t] |]; cbn [add_page nonempty app]; try reflexivity.
    rewrite <- app_assoc. reflexivity.
Qed.

Lemma all_text_app pages more :
  all_text (pages ++ more) = all_text pages ++ all_text more.
Proof.
  unfold all_text at 1. rewrite fold_left_app. fold (all_text pages).
  apply add_pages_from.
Qed.

(** The text of a document is empty or ends with a line break. *)
Lemma all_text_ends pages :
  all_text pages = [] \/ exists t, all_text pages = t ++ [10%N].
Proof.
  induction pages as [| p pages IH] using rev_ind; [left; reflexivity |].
  rewrite all_text_app. unfold all_text at 2. cbn [fold_left].
  destruct p as [[| x t] |]; cbn [add_page nonempty app]; rewrite ?app_nil_r; auto.
  right. exists (all_text pages ++ x :: t). rewrite <- app_assoc. reflexivity.
Qed.

Lemma empty_line_is_skipped st : FinalBalancete.process_line [] st = Ok st.
Proof. reflexivity. Qed.

(** The lines of a text that ends with a line break: the empty line after
    the break changes nothing. *)
Lemma run_lines_break (t : str) st :
  FinalBalancete.run_lines (split_on 10 (t ++ [10%N])) st
  = FinalBalancete.run_lines (split_on 10 t) st.
Proof.
  unfold FinalBalancete.run_lines. rewrite split_on_app, for_each_app.
  destruct (for_each (split_on 10 t) FinalBalancete.process_line st) as [s1 | ex];
    reflexivity.
Qed.

Lemma run_lines_total lines st :
  exists st' new,
    FinalBalancete.run_lines lines st = Ok st'
    /\ FinalBalancete.entries st' = FinalBalancete.entries st ++ new.
Proof.
  destruct (@for_each_adds _ _ _ FinalBalancete.entries (fun _ => True)
              FinalBalancete.process_line lines
              (fun x s _ => balancete_process_line_adds x s) st I)
    as [s1 [n1 [E1 [_ [D1 _]]]]].
  exists s1, n1. auto.
Qed.

Lemma extract_data_grows (text more : str) :
  (text = [] \/ exists t, text = t ++ [10%N]) ->
  exists first rest,
    FinalBalancete.extract_data text = Ok first
    /\ FinalBalancete.extract_data (text ++ more) = Ok (first ++ rest).
Proof.
  intros [-> | [t ->]].
  - cbn [app]. unfold FinalBalancete.extract_data.
    destruct (run_lines_total (split_on 10 more) (FinalBalancete.State [] None))
      as [s [new [E D]]].
    rewrite E. cbn [bind]. exists [], new. split; [reflexivity |].
    rewrite D. reflexivity.
  - unfold FinalBalancete.extract_data. rewrite run_lines_break.
    rewrite <- app_assoc. cbn [app]. unfold FinalBalancete.run_lines.
    rewrite split_on_app, for_each_app.
    destruct (run_lines_total (split_on 10 t) (FinalBalancete.State [] None))
      as [s1 [n1 [E1 D1]]].
    unfold FinalBalancete.run_lines in E1. rewrite E1. cbn [bind].
    destruct (run_lines_total (split_on 10 more) s1) as [s2 [n2 [E2 D2]]].
    unfold FinalBalancete.run_lines in E2. rewrite E2. cbn [bind].
    exists (FinalBalancete.entries s1), n2. rewrite D2. auto.
Qed.

Lemma all_text_cons p pages : all_text (p :: pages) = all_text [p] ++ all_text pages.
Proof. apply (all_text_app [p] pages). Qed.

(** The pages without a text add nothing. *)
Lemma all_text_filter pages : all_text (filter truthy pages) = all_text pages.
Proof.
  induction pages as [| p pages IH]; [reflexivity |].
  rewrite (all_text_cons p pages).
  destruct p as [[| x t] |]; cbn [filter truthy]; try exact IH.
  etransitivity; [apply all_text_cons |]. rewrite IH. reflexivity.
Qed.

End BalanceteDocument.

(* ===================================================================== *)
(** * The account of a record without a classification                     *)
(* ===================================================================== *)

Section AccountWithoutClassification.
Context {U : Unicode}.
Import Re Shared.

Lemma five_groups_nonempty t : five_groups t = true -> nonempty t = true.
Proof. destruct t; [discriminate | reflexivity]. Qed.

(** Without a classification the account starts after the first match of
    the code pattern, or at the start. *)
Lemma no_classification_start (bounded : bool) pbv code cls idx :
  find_code_and_classification
    (if bounded then cat [WordB; Group 1 five_groups_re; WordB]
     else Group 1 five_groups_re) pbv = Ok (code, cls, idx) ->
  or_none cls = None ->
  idx = match re_search code_re pbv with
        | Some code_match => m_end code_match
        | None => 0
        end.
Proof.
  unfold find_code_and_classification. intros H Hc.
  destruct (re_search (if bounded then _ else _) pbv) as [m |] eqn:E.
  - exfalso. destruct (five_groups_search bounded pbv E) as [t [G1 [G2 _]]].
    rewrite G1 in H. apply five_groups_nonempty in G2.
    assert (T : truthy (Some t) = true) by (destruct t; [discriminate | reflexivity]).
    rewrite T in H. cbn [negb attr bind] in H.
    destruct (re_search code_re (strip (firstn (m_start m) pbv))) in H;
      cbn [bind] in H; inversion H; subst cls; unfold or_none in Hc;
      rewrite T in Hc; discriminate.
  - cbn [truthy negb] in H.
    destruct (re_search code_re pbv) as [cm |]; cbn [bind] in H; inversion H;
      reflexivity.
Qed.

Lemma parse_data_line_account_text line e :
  ExtractPdf.parse_data_line line = Ok (Some e) ->
  classification e = None ->
  ExtractPdf.clean_account_name_final (account_text (strip line)) = Ok (account e).
Proof.
  intros H Hc. apply parse_data_line_inv in H. cbv zeta in H.
  destruct H as [_ [_ [[E [_ [H _]]] | H]]].
  - unfold account_text. rewrite E. exact H.
  - destruct H as [m0 [ms' [code [cls [idx [sl [E [H1 [H2 [_ [_ H3]]]]]]]]]]].
    rewrite H3, make_entry_classification in Hc.
    pose proof (no_classification_start true _ H1 Hc) as Ei.
    unfold account_text. rewrite E. cbv zeta. rewrite <- Ei. exact H2.
Qed.

Lemma v3_parse_data_line_account_text line is_bold e :
  ExtractPdfV3.parse_data_line line is_bold = Ok (Some e) ->
  classification e = None ->
  ExtractPdfV3.clean_account_name (account_text (strip line)) = account e.
Proof.
  intros H Hc. unfold ExtractPdfV3.parse_data_line in H. cbv zeta in H.
  unfold account_text. set (l := strip line) in *.
  destruct (match line with [] => true | _ => false end || (length l <? 3));
    [discriminate |].
  destruct (has_skip_keyword ExtractPdfV3.skip_keywords l); [discriminate |].
  destruct (re_finditer monetary_pattern l) as [| m0 ms'] eqn:Em.
  - destruct (10 <? length l); [| discriminate].
    destruct (ExtractPdfV3.clean_account_name l) eqn:E; inversion H. reflexivity.
  - cbn [map] in H. rewrite getitem_head in H. cbn [bind fst] in H.
    destruct (find_code_and_classification ExtractPdfV3.classification_re
                (strip (firstn (m_start m0) l))) as [[[code cls] idx] | ex] eqn:E2;
      [| discriminate].
    cbn [bind] in H.
    destruct (ExtractPdfV3.clean_account_name _) eqn:E in H; [discriminate |].
    destruct (monetary_slots _) as [sl | ex] eqn:Es in H; [| discriminate].
    cbn [bind] in H. inversion H. subst e.
    rewrite make_entry_classification in Hc.
    pose proof (no_classification_start false _ E2 Hc) as Ei.
    cbv zeta. rewrite <- Ei, E. destruct sl as [[[? ?] ?] ?]. reflexivity.
Qed.

Lemma final_parse_data_line_account_text line e :
  ExtractPdfFinal.parse_data_line line = Ok (Some e) ->
  classification e = None ->
  ExtractPdfFinal.clean_account_name
    (account_text_final (ExtractPdfFinal.clean_text line))
  = account e.
Proof.
  intros H Hc. unfold ExtractPdfFinal.parse_data_line in H. cbv zeta in H.
  unfold account_text_final, text_after_amounts, account_text.
  destruct (match line with [] => true | _ => false end || (length (strip line) <? 5));
    [discriminate |].
  set (l := ExtractPdfFinal.clean_text line) in *.
  destruct (has_skip_keyword ExtractPdfFinal.skip_keywords l); [discriminate |].
  destruct (re_finditer monetary_pattern l) as [| m0 ms'] eqn:Em.
  - destruct (15 <? length l); inversion H. cbn [length Nat.sub nth_error nonempty].
    rewrite andb_false_r. reflexivity.
  - cbn [map] in H. rewrite getitem_head in H. cbn [bind fst] in H.
    set (f := fun m : rmatch => (m_start m, m_end m, group0 m)) in *.
    destruct (@getitem_from_end _ (map f (m0 :: ms')) 1) as [a [G N]];
      [rewrite length_map; simpl; lia |].
    assert (G' : getitem ((m_start m0, m_end m0, group0 m0) :: map f ms') (-1) = Ok a)
      by exact G.
    rewrite G' in H. cbn [bind] in H.
    rewrite length_map, nth_error_map in N.
    destruct (nth_error (m0 :: ms') (length (m0 :: ms') - 1)) as [ml |] eqn:El;
      [| discriminate].
    cbn [option_map] in N. injection N as <-. cbn [f fst snd] in H.
    destruct (find_code_and_classification ExtractPdfFinal.classification_re
                (strip (firstn (m_start m0) l))) as [[[code cls] idx] | ex] eqn:E2;
      [| discriminate].
    cbn [bind] in H.
    destruct (ExtractPdfFinal.clean_account_name _) eqn:E in H; [discriminate |].
    destruct (monetary_slots _) as [sl | ex] eqn:Es in H; [| discriminate].
    cbn [bind] in H. inversion H. subst e.
    rewrite make_entry_classification in Hc.
    pose proof (no_classification_start false _ E2 Hc) as Ei.
    cbv zeta. rewrite <- Ei. etransitivity; [exact E |].
    destruct sl as [[[? ?] ?] ?]. reflexivity.
Qed.

End AccountWithoutClassification.

(* ===================================================================== *)
(** * C1: the monetary slots                                               *)
(* ===================================================================== *)

(** C1 (amended).  Each line parser fills the monetary slots from the
    ordered list V of amounts it finds by a fixed table of its own.
    [parse_data_line] of extract_pdf follows the table of the
    specification for one, two and three amounts and takes the first four
    of four or more.  [parse_entry_line] of final_balancete_parser takes
    the last four of four or more, V[0], V[1], V[2] as previous balance,
    debit and current balance of three, and V[0], V[1] as debit and
    current balance of two. *)
Theorem slots_follow_the_table_of_each_parser {U : Unicode} line e :
  (ExtractPdf.parse_data_line line = Ok (Some e) ->
   slots e = first_four_table
               (map Re.group0 (Re.re_finditer Shared.monetary_pattern (strip line))))
  /\ (FinalBalancete.parse_entry_line line = Ok (Some e) ->
      slots e = balancete_table
                  (Re.re_findall FinalBalancete.value_pattern (strip line))).
Proof.
  split; intros H.
  - apply parse_data_line_inv in H. cbv zeta in H.
    destruct H as [_ [_ [[E [_ [_ [_ H]]]] | H]]].
    + rewrite E, H. reflexivity.
    + destruct H as [m0 [ms' [code [cls [idx [sl [E [_ [_ [_ [H1 H2]]]]]]]]]]].
      rewrite H2. apply monetary_slots_table; [| exact H1].
      intros v Hv. apply in_map_iff in Hv. destruct Hv as [m [<- Hm]].
      apply (amount_kept _ _ Hm).
  - apply parse_entry_line_inv in H. cbv zeta in H. apply H.
Qed.

(** The theorem at a line with five amounts, for both parsers. *)
Lemma slots_follow_the_table_of_each_parser_witness :
  (exists e,
      @ExtractPdf.parse_data_line latin1 (u "1001 CAIXA 1,00 2,00 3,00 4,00 5,00")
      = Ok (Some e)
      /\ slots e = (Some (u "1,00"), Some (u "2,00"), Some (u "3,00"), Some (u "4,00")))
  /\ (exists e,
         @FinalBalancete.parse_entry_line latin1 (u "1001 CAIXA 1,00 2,00 3,00 4,00 5,00")
         = Ok (Some e)
         /\ slots e = (Some (u "2,00"), Some (u "3,00"), Some (u "4,00"), Some (u "5,00"))).
Proof.
  split; eexists.
  - split; [vm_compute; reflexivity |].
    rewrite (proj1 (@slots_follow_the_table_of_each_parser latin1
                      (u "1001 CAIXA 1,00 2,00 3,00 4,00 5,00") _)).
    + vm_compute. reflexivity.
    + vm_compute. reflexivity.
  - split; [vm_compute; reflexivity |].
    rewrite (proj2 (@slots_follow_the_table_of_each_parser latin1
                      (u "1001 CAIXA 1,00 2,00 3,00 4,00 5,00") _)).
    + vm_compute. reflexivity.
    + vm_compute. reflexivity.
Defined.

(** C1 as stated fails in both parsers: [parse_data_line] takes the first
    four of five amounts, and [parse_entry_line] puts the first of two
    amounts in the debit slot. *)
Lemma slots_differ_from_the_specified_table :
  (exists e,
      @ExtractPdf.parse_data_line latin1 (u "1001 CAIXA 1,00 2,00 3,00 4,00 5,00")
      = Ok (Some e)
      /\ spec_slot_table
           (map Re.group0 (@Re.re_finditer latin1 Shared.monetary_pattern
                             (u "1001 CAIXA 1,00 2,00 3,00 4,00 5,00")))
         = (Some (u "2,00"), Some (u "3,00"), Some (u "4,00"), Some (u "5,00"))
      /\ slots e = (Some (u "1,00"), Some (u "2,00"), Some (u "3,00"), Some (u "4,00"))
      /\ slots e <> spec_slot_table
                      (map Re.group0 (@Re.re_finditer latin1 Shared.monetary_pattern
                                        (u "1001 CAIXA 1,00 2,00 3,00 4,00 5,00"))))
  /\ (exists e,
         @FinalBalancete.parse_entry_line latin1 (u "1001 CAIXA 10,00 20,00") = Ok (Some e)
         /\ spec_slot_table
              (@Re.re_findall latin1 FinalBalancete.value_pattern (u "1001 CAIXA 10,00 20,00"))
            = (Some (u "10,00"), None, None, Some (u "20,00"))
         /\ slots e = (None, Some (u "10,00"), None, Some (u "20,00"))
         /\ slots e <> spec_slot_table
                         (@Re.re_findall latin1 FinalBalancete.value_pattern
                            (u "1001 CAIXA 10,00 20,00"))).
Proof.
  split; eexists; (split; [vm_compute; reflexivity |]);
    repeat split; try (vm_compute; reflexivity); vm_compute; discriminate.
Qed.

(* ===================================================================== *)
(** * C2: the category stack                                               *)
(* ===================================================================== *)

(** The push as the code has it: it removes every stack entry whose name
    is a case-insensitive prefix of the new name and then appends the new
    name.  After every document the loops of extract_pdf and
    extract_pdf_v3 have returned and no stack entry is a case-insensitive
    prefix of an entry pushed after it. *)
Theorem stack_is_ordered_prefix_free {U : Unicode}
    (pages : list ExtractPdf.page) (pages_v3 : list ExtractPdfV3.page)
    (stack : list str) (cleaned : str) :
  Shared.push_category stack cleaned
  = filter (fun c => negb (ci_prefix c cleaned)) stack ++ [cleaned]
  /\ (exists st, ExtractPdf.run_pages pages = Ok st
                 /\ ordered_prefix_free (ExtractPdf.parent_categories st))
  /\ (exists st, ExtractPdfV3.run_pages pages_v3 = Ok st
                 /\ ordered_prefix_free (ExtractPdfV3.parent_categories st)).
Proof.
  split; [reflexivity |].
  split; [apply run_pages_ordered | apply v3_run_pages_ordered].
Qed.

(** C2.  The code at the failing input: a bold line "PASSIVO" after a bold
    line "PASSIVO CIRCULANTE" leaves both on the stack of extract_pdf_v3,
    and the second is a case-insensitive prefix of the first.  The comment
    above the filter, "Remover categorias mais específicas se esta for
    mais geral", asks for the first to be removed. *)
Lemma stack_holds_a_prefix_of_an_earlier_entry :
  exists st,
    @ExtractPdfV3.run_pages latin1
      [ExtractPdfV3.Page (Some (u "PASSIVO CIRCULANTE"))
         [(u "PASSIVO CIRCULANTE", true); (u "PASSIVO", true)]] = Ok st
    /\ ExtractPdfV3.parent_categories st = [u "PASSIVO CIRCULANTE"; u "PASSIVO"]
    /\ @ci_prefix latin1 (u "PASSIVO") (u "PASSIVO CIRCULANTE") = true
    /\ ~ @no_entry_prefixes_another latin1 (ExtractPdfV3.parent_categories st).
Proof.
  eexists. split; [vm_compute; reflexivity |].
  split; [reflexivity |]. split; [vm_compute; reflexivity |].
  intros H. specialize (H 1 0 (u "PASSIVO") (u "PASSIVO CIRCULANTE")).
  cbn [ExtractPdfV3.parent_categories nth_error] in H.
  assert (K : @ci_prefix latin1 (u "PASSIVO") (u "PASSIVO CIRCULANTE") = false)
    by (apply H; [discriminate | reflexivity | reflexivity]).
  vm_compute in K. discriminate.
Qed.

(* ===================================================================== *)
(** * C3: the parent category of an emitted record                         *)
(* ===================================================================== *)

(** C3.  A line adds at most one record to the output and changes none.
    In extract_pdf the record of a category line has a null parent and the
    record of a detail line has the top of the category stack as it was
    when the line was read, null when the stack was empty.  In
    final_balancete_parser, whose stack is the one variable
    [current_parent], the record of a category has a null parent and the
    record of a detail line has the value of [current_parent]. *)
Theorem parent_category_of_emitted_record {U : Unicode} :
  (forall chars bold_categories line st st',
      ExtractPdf.process_line chars bold_categories line st = Ok st' ->
      ExtractPdf.all_data st' = ExtractPdf.all_data st
      \/ exists e cat,
           ExtractPdf.all_data st' = ExtractPdf.all_data st ++ [e]
           /\ ExtractPdf.category_of chars bold_categories (strip line) = Ok cat
           /\ parent_category e = match cat with
                                  | Some _ => None
                                  | None => top (ExtractPdf.parent_categories st)
                                  end)
  /\ (forall line st st',
         FinalBalancete.process_line line st = Ok st' ->
         FinalBalancete.entries st' = FinalBalancete.entries st
         \/ exists e,
              FinalBalancete.entries st' = FinalBalancete.entries st ++ [e]
              /\ parent_category e = (if FinalBalancete.is_category e then None
                                      else FinalBalancete.current_parent st)).
Proof.
  split.
  - intros chars bc line st st' H. apply process_line_emits. exact H.
  - intros line st st' H. apply balancete_process_line_emits in H.
    destruct H as [[H _] | [e [H1 [H2 _]]]]; [left; exact H | right; eauto].
Qed.

(** The theorem at a detail line read with one category on the stack, and
    at a detail line read after a category of final_balancete_parser. *)
Lemma parent_category_of_emitted_record_witness :
  (exists e,
      @ExtractPdf.process_line latin1 [] [] (u "1001 Caixa Geral 1,00")
        (ExtractPdf.State [u "ATIVO CIRCULANTE"] [])
      = Ok (ExtractPdf.State [u "ATIVO CIRCULANTE"] [e])
      /\ parent_category e = Some (u "ATIVO CIRCULANTE"))
  /\ (exists e,
         @FinalBalancete.process_line latin1 (u "1001 Caixa Geral 1,00")
           (FinalBalancete.State [] (Some (u "ATIVO CIRCULANTE")))
         = Ok (FinalBalancete.State [e] (Some (u "ATIVO CIRCULANTE")))
         /\ parent_category e = Some (u "ATIVO CIRCULANTE")).
Proof.
  split.
  - eexists. split; [vm_compute; reflexivity |].
    destruct (proj1 (@parent_category_of_emitted_record latin1) [] []
                (u "1001 Caixa Geral 1,00")
                (ExtractPdf.State [u "ATIVO CIRCULANTE"] []) _ eq_refl)
      as [H | [e [cat [H1 [H2 H3]]]]].
    + vm_compute in H. discriminate.
    + vm_compute in H1, H2. inversion H1. inversion H2. subst e cat.
      vm_compute. reflexivity.
  - eexists. split; [vm_compute; reflexivity |].
    destruct (proj2 (@parent_category_of_emitted_record latin1)
                (u "1001 Caixa Geral 1,00")
                (FinalBalancete.State [] (Some (u "ATIVO CIRCULANTE"))) _ eq_refl)
      as [H | [e [H1 H2]]].
    + vm_compute in H. discriminate.
    + vm_compute in H1. inversion H1. subst e. vm_compute. reflexivity.
Defined.

(* ===================================================================== *)
(** * C4: ledger codes and dotted codes                                    *)
(* ===================================================================== *)

(** C4 (amended).  In [parse_entry_line] of final_balancete_parser an
    emitted code is a run of one to six digits at the start of the trimmed
    line, followed by white space or a capital letter, and no dotted code
    of three or more segments that occurs in the line starts before the
    end of that run: the code shares no character with any of them.
    In [parse_data_line] of extract_pdf, when a record carries both a
    classification and a code, the classification is group 1 of the
    search of the five-group pattern in the text before the first amount,
    and the code is group 1 of the search of the code pattern in the text
    before the start of that match. *)
Theorem code_is_apart_from_dotted_codes {U : Unicode} (line : str) (e : entry) (c : str) :
  (FinalBalancete.parse_entry_line line = Ok (Some e) -> code e = Some c ->
   (exists x t,
      strip line = c ++ x :: t /\ forallb is_decimal c = true
      /\ 1 <= length c <= 6 /\ code_end x = true)
   /\ forall pre t post,
        strip line = pre ++ t ++ post -> dotted_code t = true ->
        length c <= length pre)
  /\ (forall cl,
        ExtractPdf.parse_data_line line = Ok (Some e) ->
        classification e = Some cl -> code e = Some c ->
        exists m0 ms m cm,
          Re.re_finditer Shared.monetary_pattern (strip line) = m0 :: ms
          /\ Re.re_search ExtractPdf.classification_re
               (strip (firstn (Re.m_start m0) (strip line))) = Some m
          /\ Re.group m 1 = Some cl
          /\ Re.re_search Shared.code_re
               (strip (firstn (Re.m_start m)
                         (strip (firstn (Re.m_start m0) (strip line))))) = Some cm
          /\ Re.group cm 1 = Some c).
Proof.
  split.
  - intros H Hc. apply parse_entry_line_inv in H. cbv zeta in H.
    destruct H as [_ [H _]]. rewrite Hc in H.
    destruct (Re.re_match FinalBalancete.code_re (strip line)) as [m |] eqn:Em;
      [| discriminate].
    symmetry in H. destruct (code_match _ Em H) as [x [t [E [Hd [Hl Hx]]]]].
    split.
    + exists x, t. auto.
    + intros pre t' post E' Ht. rewrite E in E'.
      exact (@code_apart _ _ _ _ _ _ _ Hd Hx E' Ht).
  - intros cl H Hcl Hc. apply parse_data_line_inv in H. cbv zeta in H.
    destruct H as [_ [_ [H | H]]].
    + destruct H as [_ [_ [_ [_ H]]]]. rewrite H in Hcl. discriminate.
    + destruct H as [m0 [ms [cd [cls [idx [sl [H1 [H2 [_ [_ [_ H6]]]]]]]]]]].
      rewrite H6, make_entry_classification in Hcl.
      rewrite H6, make_entry_code in Hc.
      destruct (find_code_before _ _ H2 Hcl Hc) as [m [cm K]].
      exists m0, ms, m, cm. split; [exact H1 | exact K].
Qed.

(** The theorem at a line with a code and a three-segment code, and at a
    line with a code and a five-group classification. *)
Lemma code_is_apart_from_dotted_codes_witness :
  length (u "1001") <= length (u "1001 ")
  /\ exists m0 ms m cm,
       @Re.re_finditer latin1 Shared.monetary_pattern
         (@strip latin1 (u "1001 1.1.01.020.001 CAIXA GERAL 1.500,00")) = m0 :: ms
       /\ @Re.re_search latin1 ExtractPdf.classification_re
            (@strip latin1 (firstn (Re.m_start m0)
               (@strip latin1 (u "1001 1.1.01.020.001 CAIXA GERAL 1.500,00")))) = Some m
       /\ Re.group m 1 = Some (u "1.1.01.020.001")
       /\ @Re.re_search latin1 Shared.code_re
            (@strip latin1 (firstn (Re.m_start m)
               (@strip latin1 (firstn (Re.m_start m0)
                  (@strip latin1 (u "1001 1.1.01.020.001 CAIXA GERAL 1.500,00"))))))
          = Some cm
       /\ Re.group cm 1 = Some (u "1001").
Proof.
  split.
  - destruct (@code_is_apart_from_dotted_codes latin1
                (u "1001 1.1.01 CAIXA GERAL 1.500,00")
                (Entry (Some (u "1001")) (Some (u "1.1.01")) (u "CAIXA GERAL")
                       None (Some (u "1.500,00")) None None None)
                (u "1001")) as [A _].
    destruct (A ltac:(vm_compute; reflexivity) eq_refl) as [_ K].
    apply (K (u "1001 ") (u "1.1.01") (u " CAIXA GERAL 1.500,00"));
      vm_compute; reflexivity.
  - destruct (@code_is_apart_from_dotted_codes latin1
                (u "1001 1.1.01.020.001 CAIXA GERAL 1.500,00")
                (Entry (Some (u "1001")) (Some (u "1.1.01.020.001")) (u "CAIXA GERAL")
                       None (Some (u "1.500,00")) None None None)
                (u "1001")) as [_ B].
    apply (B (u "1.1.01.020.001")); vm_compute; reflexivity.
Defined.

(** C4 as stated fails: in extract_pdf the last segment of a
    three-segment code is read as the ledger code. *)
Lemma segment_of_dotted_code_read_as_code :
  exists e,
    @ExtractPdf.parse_data_line latin1 (u "1.1.2001 CAIXA GERAL 1.500,00") = Ok (Some e)
    /\ @dotted_code latin1 (u "1.1.2001") = true
    /\ u "1.1.2001 CAIXA GERAL 1.500,00"
       = u "1.1." ++ u "2001" ++ u " CAIXA GERAL 1.500,00"
    /\ code e = Some (u "2001")
    /\ classification e = None.
Proof.
  eexists. split; [vm_compute; reflexivity |].
  repeat split; vm_compute; reflexivity.
Qed.

(* ===================================================================== *)
(** * C5: lines without amounts                                            *)
(* ===================================================================== *)

(** C5 (amended).  For a line with no amount in the text the parser
    reads.  [parse_data_line] of extract_pdf reads the trimmed line [l]:
    it returns the bare-category record of the normalized line when [l]
    has more than 10 characters, holds no skip keyword and normalizes to
    more than 3 characters, and rejects the line otherwise, so always when
    [l] has at most 10 characters.  [parse_data_line] of extract_pdf_final
    reads [clean_text] of the line: it returns the bare-category record of
    the normalized cleaned line when the trimmed line has at least 5
    characters and the cleaned line has more than 15 characters and holds
    no skip keyword, and rejects the line otherwise, so always when the
    cleaned line has at most 15 characters.  [parse_entry_line] of
    final_balancete_parser reads the trimmed line and rejects every line
    without an amount. *)
Theorem lines_without_amounts {U : Unicode} (line : str) :
  (Re.re_finditer Shared.monetary_pattern (strip line) = [] ->
   exists acc,
     ExtractPdf.clean_account_name_final (strip line) = Ok acc
     /\ ExtractPdf.parse_data_line line
        = Ok (if (10 <? length (strip line))
                 && negb (Shared.has_skip_keyword ExtractPdf.skip_keywords (strip line))
                 && (3 <? length acc)
              then Some (bare acc) else None))
  /\ (Re.re_finditer Shared.monetary_pattern (ExtractPdfFinal.clean_text line) = [] ->
      ExtractPdfFinal.parse_data_line line
      = Ok (if (5 <=? length (strip line))
               && negb (Shared.has_skip_keyword ExtractPdfFinal.skip_keywords
                          (ExtractPdfFinal.clean_text line))
               && (15 <? length (ExtractPdfFinal.clean_text line))
            then Some (bare (ExtractPdfFinal.clean_account_name
                               (ExtractPdfFinal.clean_text line)))
            else None))
  /\ (Re.re_findall FinalBalancete.value_pattern (strip line) = [] ->
      FinalBalancete.parse_entry_line line = Ok None).
Proof.
  split; [| split].
  - intros H. destruct (clean_account_name_final_total (strip line)) as [acc E].
    exists acc. split; [exact E |].
    unfold ExtractPdf.parse_data_line. cbv zeta. rewrite H.
    destruct (length (strip line) <? 3) eqn:E3.
    + apply Nat.ltb_lt in E3.
      replace (10 <? length (strip line)) with false
        by (symmetry; apply Nat.ltb_ge; lia).
      rewrite orb_true_r. reflexivity.
    + assert (L : match line with [] => true | _ => false end = false).
      { destruct line; [| reflexivity]. apply Nat.ltb_ge in E3. simpl in E3. lia. }
      rewrite L. cbn [orb].
      destruct (Shared.has_skip_keyword ExtractPdf.skip_keywords (strip line));
        [rewrite andb_false_r; reflexivity |].
      destruct (10 <? length (strip line)); [| reflexivity].
      rewrite E. cbn [bind negb andb].
      destruct acc as [| y acc]; [reflexivity |].
      destruct (3 <? length (y :: acc)); reflexivity.
  - intros H. unfold ExtractPdfFinal.parse_data_line. cbv zeta. rewrite H.
    destruct (length (strip line) <? 5) eqn:E5.
    + apply Nat.ltb_lt in E5.
      replace (5 <=? length (strip line)) with false
        by (symmetry; apply Nat.leb_gt; lia).
      rewrite orb_true_r. reflexivity.
    + apply Nat.ltb_ge in E5.
      assert (L : match line with [] => true | _ => false end = false).
      { destruct line; [| reflexivity]. simpl in E5. lia. }
      rewrite L. cbn [orb].
      replace (5 <=? length (strip line)) with true
        by (symmetry; apply Nat.leb_le; lia).
      destruct (Shared.has_skip_keyword _ _); [reflexivity |].
      destruct (15 <? _); reflexivity.
  - intros H. unfold FinalBalancete.parse_entry_line. cbv zeta. rewrite H.
    reflexivity.
Qed.

(** The theorem at a heading of sixteen characters. *)
Lemma lines_without_amounts_witness :
  @ExtractPdf.parse_data_line latin1 (u "ATIVO CIRCULANTE")
  = Ok (Some (bare (u "ATIVO CIRCULANTE")))
  /\ @ExtractPdfFinal.parse_data_line latin1 (u "ATIVO CIRCULANTE")
     = Ok (Some (bare (u "ATIVO CIRCULANTE")))
  /\ @FinalBalancete.parse_entry_line latin1 (u "ATIVO CIRCULANTE") = Ok None.
Proof.
  destruct (@lines_without_amounts latin1 (u "ATIVO CIRCULANTE")) as [A [B C]].
  split; [| split].
  - destruct (A eq_refl) as [acc [E1 E2]].
    vm_compute in E1. inversion E1. subst acc. rewrite E2. vm_compute. reflexivity.
  - rewrite (B eq_refl). vm_compute. reflexivity.
  - apply C. vm_compute. reflexivity.
Defined.

(** C5 as stated fails: a line of sixteen characters without amounts is
    rejected by final_balancete_parser; one of fourteen is rejected by
    extract_pdf_final, and so is one of nineteen whose cleaned text has
    fourteen; one of eleven that normalizes to one character is rejected
    by extract_pdf. *)
Lemma long_lines_without_amounts_are_rejected :
  (length (@strip latin1 (u "ATIVO CIRCULANTE")) = 16
   /\ @Re.re_findall latin1 FinalBalancete.value_pattern (u "ATIVO CIRCULANTE") = []
   /\ @FinalBalancete.parse_entry_line latin1 (u "ATIVO CIRCULANTE") = Ok None)
  /\ (length (@strip latin1 (u "ATIVO NAO CIRC")) = 14
      /\ @Re.re_finditer latin1 Shared.monetary_pattern (u "ATIVO NAO CIRC") = []
      /\ @ExtractPdfFinal.parse_data_line latin1 (u "ATIVO NAO CIRC") = Ok None)
  /\ (length (@strip latin1 (u "ATIVO    NAO   CIRC")) = 19
      /\ @Re.re_finditer latin1 Shared.monetary_pattern (u "ATIVO    NAO   CIRC") = []
      /\ @ExtractPdfFinal.clean_text latin1 (u "ATIVO    NAO   CIRC") = u "ATIVO NAO CIRC"
      /\ @ExtractPdfFinal.parse_data_line latin1 (u "ATIVO    NAO   CIRC") = Ok None)
  /\ (length (@strip latin1 (u "A..........")) = 11
      /\ @Re.re_finditer latin1 Shared.monetary_pattern (u "A..........") = []
      /\ @ExtractPdf.clean_account_name_final latin1 (u "A..........") = Ok (u "A")
      /\ @ExtractPdf.parse_data_line latin1 (u "A..........") = Ok None).
Proof.
  repeat split; vm_compute; reflexivity.
Qed.

(* ===================================================================== *)
(** * C6: header candidates                                                *)
(* ===================================================================== *)

(** C6 (amended).  In extract_pdf_v3 a line that is not skipped is pushed
    on the category stack if and only if its bold flag is set, no
    five-group dotted code is found in it and its cleaned text has more
    than five characters; so no line that holds a five-group code is
    pushed, while a bold line with a code of three or four segments is.
    In final_balancete_parser there is no emphasis signal: a record is a
    category if and only if its account is upper case, has at most six
    words and its classification is absent or has at most two dots. *)
Theorem header_candidates {U : Unicode} :
  (forall line is_bold c,
      ExtractPdfV3.category_of line is_bold = Some c
      <-> is_bold = true
          /\ Re.re_search Shared.five_groups_re line = None
          /\ c = ExtractPdfV3.clean_account_name line
          /\ 5 < length c)
  /\ (forall line is_bold st st',
         ExtractPdfV3.process_line (line, is_bold) st = Ok st' ->
         ExtractPdfV3.parent_categories st'
         = match
             (if match line with [] => true | _ => false end
                 || (length (strip line) <? 3)
                 || Shared.has_skip_keyword ExtractPdfV3.loop_skip_keywords line
              then None
              else ExtractPdfV3.category_of line is_bold)
           with
           | Some c => Shared.push_category (ExtractPdfV3.parent_categories st) c
           | None => ExtractPdfV3.parent_categories st
           end)
  /\ (forall pre t post is_bold,
         five_groups t = true ->
         ExtractPdfV3.category_of (pre ++ t ++ post) is_bold = None)
  /\ (forall e,
         FinalBalancete.is_category e = true
         <-> isupper (account e) = true
             /\ length (split_ws (account e)) <= 6
             /\ (forall c, classification e = Some c ->
                           c = [] \/ count_char (ch ".") c <= 2)).
Proof.
  split; [| split; [| split]].
  - intros line is_bold c. unfold ExtractPdfV3.category_of. split.
    + intros H. destruct is_bold; [| discriminate].
      destruct (Re.re_search Shared.five_groups_re line); [discriminate |].
      destruct (nonempty _ && (5 <? _)) eqn:E; [| discriminate].
      inversion H. apply andb_prop in E. destruct E as [_ E].
      apply Nat.ltb_lt in E. subst c. auto.
    + intros [-> [H1 [-> H2]]]. rewrite H1.
      replace (5 <? length (ExtractPdfV3.clean_account_name line)) with true
        by (symmetry; apply Nat.ltb_lt; exact H2).
      destruct (ExtractPdfV3.clean_account_name line); [simpl in H2; lia | reflexivity].
  - intros line is_bold st st' H. unfold ExtractPdfV3.process_line in H.
    destruct (match line with [] => true | _ => false end || (length (strip line) <? 3));
      [inversion H; reflexivity |].
    cbn [orb].
    destruct (Shared.has_skip_keyword ExtractPdfV3.loop_skip_keywords line);
      [inversion H; reflexivity |].
    destruct (ExtractPdfV3.category_of line is_bold) as [c |].
    + destruct (ExtractPdfV3.parse_data_line line true) as [[e |] | ex];
        cbn [bind] in H; inversion H; reflexivity.
    + destruct (ExtractPdfV3.parse_data_line line false) as [[e |] | ex];
        cbn [bind] in H; [| inversion H; reflexivity | discriminate].
      rewrite attach_parent_ok in H. cbn [bind] in H. inversion H. reflexivity.
  - intros pre t post is_bold H. unfold ExtractPdfV3.category_of.
    destruct is_bold; [| reflexivity].
    pose proof (@five_groups_found _ pre t post H) as F.
    destruct (Re.re_search Shared.five_groups_re (pre ++ t ++ post));
      [reflexivity | congruence].
  - intros e. unfold FinalBalancete.is_category. split.
    + intros H. destruct (nonempty (account e)); [| discriminate]. cbn [negb] in H.
      apply andb_prop in H. destruct H as [H H3].
      apply andb_prop in H. destruct H as [H1 H2]. apply Nat.leb_le in H2.
      repeat split; auto. intros c Hc. rewrite Hc in H3.
      destruct c; [left; reflexivity | right; apply Nat.leb_le; exact H3].
    + intros [H1 [H2 H3]]. rewrite (isupper_nonempty _ H1). cbn [negb].
      rewrite H1. replace (length (split_ws (account e)) <=? 6) with true
        by (symmetry; apply Nat.leb_le; exact H2).
      cbn [andb]. destruct (classification e) as [[| y c] |]; try reflexivity.
      destruct (H3 (y :: c) eq_refl) as [K | K]; [discriminate |].
      cbn [nonempty negb orb]. apply Nat.leb_le. exact K.
Qed.

(** The theorem at a bold heading, and at an upper-case record. *)
Lemma header_candidates_witness :
  @ExtractPdfV3.category_of latin1 (u "ATIVO CIRCULANTE") true
  = Some (u "ATIVO CIRCULANTE")
  /\ (exists st',
         @ExtractPdfV3.process_line latin1 (u "ATIVO CIRCULANTE", true)
           (ExtractPdfV3.State [] []) = Ok st'
         /\ ExtractPdfV3.parent_categories st' = [u "ATIVO CIRCULANTE"])
  /\ @ExtractPdfV3.category_of latin1 (u "1001 1.1.01.020.001 CAIXA") true = None
  /\ @FinalBalancete.is_category latin1 (bare (u "ATIVO CIRCULANTE")) = true.
Proof.
  destruct (@header_candidates latin1) as [A [B [C D]]].
  split; [| split; [| split]].
  - apply A. repeat split; vm_compute; try reflexivity. lia.
  - eexists. split; [vm_compute; reflexivity |].
    pose proof (B (u "ATIVO CIRCULANTE") true (ExtractPdfV3.State [] []) _ eq_refl) as K.
    vm_compute in K. vm_compute. exact K.
  - apply (C (u "1001 ") (u "1.1.01.020.001") (u " CAIXA") true).
    vm_compute. reflexivity.
  - apply D. split; [vm_compute; reflexivity |].
    split; [vm_compute; lia |]. intros c Hc. discriminate.
Defined.

(** C6 as stated fails: a bold line with a code of depth 3 is pushed by
    extract_pdf_v3, and a record with a classification of depth 3 is a
    category in final_balancete_parser, which reads no emphasis signal. *)
Lemma depth_three_line_is_pushed :
  (@dotted_code latin1 (u "1.1.01") = true
   /\ length (split_on (ch ".") (u "1.1.01")) = 3
   /\ exists st',
        @ExtractPdfV3.process_line latin1 (u "1.1.01 ATIVO CIRCULANTE", true)
          (ExtractPdfV3.State [] []) = Ok st'
        /\ ExtractPdfV3.parent_categories st' = [u "1.1.01 ATIVO CIRCULANTE"])
  /\ (exists e,
         @FinalBalancete.parse_entry_line latin1 (u "1.1.01 ATIVO CIRCULANTE 10,00")
         = Ok (Some e)
         /\ classification e = Some (u "1.1.01")
         /\ @FinalBalancete.is_category latin1 e = true).
Proof.
  split.
  - split; [vm_compute; reflexivity |]. split; [vm_compute; reflexivity |].
    eexists. split; vm_compute; reflexivity.
  - eexists. split; [vm_compute; reflexivity |]. split; vm_compute; reflexivity.
Qed.

(* ===================================================================== *)
(** * C7: the normalizer applied twice                                     *)
(* ===================================================================== *)

(** C7 (amended).  [clean_description] of final_balancete_parser is
    idempotent: on every text it returns a result, and on that result it
    returns the same text again. *)
Theorem clean_description_is_idempotent {U : Unicode} (text : str) :
  exists r,
    FinalBalancete.clean_description text = Ok r
    /\ FinalBalancete.clean_description r = Ok r.
Proof.
  destruct (clean_description_total text) as [r H]. exists r.
  split; [exact H |].
  destruct (clean_description_shape text H) as [ws [-> [F [K S]]]].
  apply clean_description_fixed; assumption.
Qed.

(** C7 as stated fails for the normalizer of extract_pdf: a second run of
    [clean_account_name_final] removes a second leading code, and a second
    run of [remove_duplicate_text] removes one more repeated word. *)
Lemma normalizer_of_extract_pdf_is_not_idempotent :
  (@ExtractPdf.clean_account_name_final latin1 (u "1234 5678 CAIXA")
   = Ok (u "5678 CAIXA")
   /\ @ExtractPdf.clean_account_name_final latin1 (u "5678 CAIXA") = Ok (u "CAIXA")
   /\ u "5678 CAIXA" <> u "CAIXA")
  /\ (@ExtractPdf.remove_duplicate_text latin1 (u "CAIXA CAIXA CAIXA")
      = Ok (u "CAIXA CAIXA")
      /\ @ExtractPdf.remove_duplicate_text latin1 (u "CAIXA CAIXA") = Ok (u "CAIXA")
      /\ u "CAIXA CAIXA" <> u "CAIXA").
Proof.
  repeat split; try (vm_compute; reflexivity); vm_compute; discriminate.
Qed.

(* ===================================================================== *)
(** * C8: the line parsers never raise                                     *)
(* ===================================================================== *)

(** C8.  On every input string each line parser returns: no index is out
    of range, no method is called on [None], no division is by zero and
    every loop ends.  The result is [None] (the line is rejected) or a
    record with all its fields. *)
Theorem line_parsers_never_raise {U : Unicode} (line : str) :
  (exists r : option entry, ExtractPdf.parse_data_line line = Ok r)
  /\ (exists r : option entry, FinalBalancete.parse_entry_line line = Ok r)
  /\ (exists r : option entry, ExtractPdfV2.parse_line line = Ok r).
Proof.
  split; [apply parse_data_line_total |].
  split; [apply parse_entry_line_total | apply parse_line_total].
Qed.

(* ===================================================================== *)
(** * C9: the single parent variable of final_balancete_parser             *)
(* ===================================================================== *)

(** C9.  [extract_data] returns on every text.  In its output a detail
    record that comes after a category record has as parent the account of
    the most recent category record before it: the variable is never
    cleared, and no detail record after a category has a null parent. *)
Theorem parent_is_the_most_recent_category {U : Unicode} (text : str) :
  exists es,
    FinalBalancete.extract_data text = Ok es
    /\ (forall pre c mid e post,
           es = pre ++ c :: mid ++ e :: post ->
           FinalBalancete.is_category c = true ->
           forallb (fun x => negb (FinalBalancete.is_category x)) mid = true ->
           FinalBalancete.is_category e = false ->
           parent_category e = Some (account c))
    /\ (forall pre e post,
           es = pre ++ e :: post ->
           existsb FinalBalancete.is_category pre = true ->
           FinalBalancete.is_category e = false ->
           parent_category e <> None).
Proof.
  destruct (extract_data_invariant text) as [st [_ [E [_ I]]]].
  exists (FinalBalancete.entries st). split; [exact E |]. split.
  - intros pre c mid e post H Hc Hmid He.
    rewrite (I (pre ++ c :: mid) e post); [| | exact He].
    + change (pre ++ c :: mid) with (pre ++ [c] ++ mid).
      rewrite app_assoc, (last_category_details _ _ Hmid), last_category_snoc, Hc.
      reflexivity.
    + rewrite H, <- app_assoc. reflexivity.
  - intros pre e post H Hpre He. rewrite (I pre e post H He).
    apply last_category_some. exact Hpre.
Qed.

(** The theorem at a text of two lines, a category and a detail line. *)
Lemma parent_is_the_most_recent_category_witness :
  exists c e,
    @FinalBalancete.extract_data latin1
      (u "ATIVO CIRCULANTE 10,00" ++ [10%N] ++ u "1001 Caixa Geral 5,00") = Ok [c; e]
    /\ @FinalBalancete.is_category latin1 c = true
    /\ @FinalBalancete.is_category latin1 e = false
    /\ account c = u "ATIVO CIRCULANTE"
    /\ parent_category e = Some (account c).
Proof.
  destruct (@parent_is_the_most_recent_category latin1
              (u "ATIVO CIRCULANTE 10,00" ++ [10%N] ++ u "1001 Caixa Geral 5,00"))
    as [es [E [H _]]].
  vm_compute in E. inversion E as [E']. clear E.
  eexists. eexists. split; [vm_compute; reflexivity |].
  split; [vm_compute; reflexivity |]. split; [vm_compute; reflexivity |].
  split; [vm_compute; reflexivity |].
  eapply (H [] _ [] _ []).
  - rewrite <- E'. reflexivity.
  - vm_compute. reflexivity.
  - reflexivity.
  - vm_compute. reflexivity.
Defined.

(* ===================================================================== *)
(** * C10: the classification field                                        *)
(* ===================================================================== *)

(** C10 (amended).  In the line parsers of extract_pdf, extract_pdf_final
    and extract_pdf_v3, an emitted classification that is not null
    consists of exactly five dot-separated groups of digits, so it has
    exactly four dots and a dotted code of three or four segments is never
    emitted in that field.  When the classification is null, the account
    is the parser's normalization of this text of the line as the parser
    reads it (stripped; after [clean_text] in extract_pdf_final): the whole
    line when it holds no amount; otherwise the text before the first
    amount, from the end of the first match of the ledger-code pattern
    [\b(\d{4,6})\b] on, or all of it when there is no match; in
    extract_pdf_final the text after the last amount takes the place of
    that text when it is empty. *)
Theorem classification_is_five_groups {U : Unicode} line is_bold e :
  (ExtractPdf.parse_data_line line = Ok (Some e)
   \/ ExtractPdfFinal.parse_data_line line = Ok (Some e)
   \/ ExtractPdfV3.parse_data_line line is_bold = Ok (Some e) ->
   forall t, classification e = Some t ->
     five_groups t = true
     /\ count_char (ch ".") t = 4
     /\ length (split_on (ch ".") t) = 5)
  /\ (classification e = None ->
      (ExtractPdf.parse_data_line line = Ok (Some e) ->
       ExtractPdf.clean_account_name_final (account_text (strip line))
       = Ok (account e))
      /\ (ExtractPdfFinal.parse_data_line line = Ok (Some e) ->
          ExtractPdfFinal.clean_account_name
            (account_text_final (ExtractPdfFinal.clean_text line))
          = account e)
      /\ (ExtractPdfV3.parse_data_line line is_bold = Ok (Some e) ->
          ExtractPdfV3.clean_account_name (account_text (strip line)) = account e)).
Proof.
  split.
  - intros H t Ht.
    assert (K : exists (bounded : bool) pbv code cls idx,
               Shared.find_code_and_classification
                 (if bounded
                  then Re.cat [Re.WordB; Re.Group 1 Shared.five_groups_re; Re.WordB]
                  else Re.Group 1 Shared.five_groups_re) pbv = Ok (code, cls, idx)
               /\ classification e = or_none cls).
    { destruct H as [H | [H | H]].
      - apply parse_data_line_classification in H.
        destruct H as [H | [pbv [code [cls [idx H]]]]]; [congruence |].
        exists true, pbv, code, cls, idx. exact H.
      - apply final_parse_data_line_classification in H.
        destruct H as [H | [pbv [code [cls [idx H]]]]]; [congruence |].
        exists false, pbv, code, cls, idx. exact H.
      - apply v3_parse_data_line_classification in H.
        destruct H as [H | [pbv [code [cls [idx H]]]]]; [congruence |].
        exists false, pbv, code, cls, idx. exact H. }
    destruct K as [bounded [pbv [code [cls [idx [K1 K2]]]]]].
    rewrite Ht in K2. symmetry in K2.
    destruct (find_classification _ _ K1 K2) as [m [M1 M2]].
    destruct (five_groups_search bounded pbv M1) as [t' [G1 [G2 G3]]].
    rewrite M2 in G1. inversion G1. subst t'.
    repeat split; auto.
    unfold five_groups in G2.
    destruct (split_on (ch ".") t) as [| a [| b [| c [| d [| f [| g l]]]]]];
      try discriminate. reflexivity.
  - intros Hc. split; [| split]; intros H.
    + apply (parse_data_line_account_text _ H Hc).
    + apply (final_parse_data_line_account_text _ H Hc).
    + apply (v3_parse_data_line_account_text _ _ H Hc).
Qed.

(** The theorem at a line with a ledger code and a five-group code, and at
    a line with a ledger code in front of a three-segment code. *)
Lemma classification_is_five_groups_witness :
  (@five_groups latin1 (u "1.1.01.020.001") = true
   /\ count_char (ch ".") (u "1.1.01.020.001") = 4
   /\ length (split_on (ch ".") (u "1.1.01.020.001")) = 5)
  /\ @ExtractPdf.clean_account_name_final latin1
       (@account_text latin1 (@strip latin1 (u "1001 1.1.01 2002 CAIXA 1,00")))
     = Ok (u "1.1.01 2002 CAIXA").
Proof.
  split.
  - apply (proj1 (@classification_is_five_groups latin1
                    (u "1001 1.1.01.020.001 CAIXA GERAL 1.500,00") false
                    (Entry (Some (u "1001")) (Some (u "1.1.01.020.001")) (u "CAIXA GERAL")
                           None (Some (u "1.500,00")) None None None))).
    + left. vm_compute. reflexivity.
    + reflexivity.
  - apply (proj1 (proj2 (@classification_is_five_groups latin1
                           (u "1001 1.1.01 2002 CAIXA 1,00") false
                           (Entry (Some (u "1001")) None (u "1.1.01 2002 CAIXA")
                                  None (Some (u "1,00")) None None None))
                    eq_refl)).
    vm_compute. reflexivity.
Defined.

(** C10 as stated fails in its last part: a three-segment code that is
    followed by a ledger code does not remain in the account text. *)
Lemma dotted_code_leaves_account_text :
  exists e,
    @ExtractPdf.parse_data_line latin1
      (u "1.1.01  1001  CAIXA GERAL  1.500,00  200,00  50,00  1.650,00") = Ok (Some e)
    /\ @dotted_code latin1 (u "1.1.01") = true
    /\ length (split_on (ch ".") (u "1.1.01")) = 3
    /\ classification e = None
    /\ account e = u "CAIXA GERAL"
    /\ contains (account e) (u "1.1.01") = false.
Proof.
  eexists. split; [vm_compute; reflexivity |].
  repeat split; vm_compute; reflexivity.
Qed.

(* ===================================================================== *)
(** * Cleaned texts                                                        *)
(* ===================================================================== *)

(** X1.  [clean_text] of extract_pdf_final drops the control characters
    U+0000..U+001F and U+007F..U+009F and returns the words of what is
    left, joined by single spaces. *)
Theorem clean_text_joins_the_words {U : Unicode} (text : str) :
  ExtractPdfFinal.clean_text text
  = join (u " ") (split_ws (filter (fun x => negb (control x)) text)).
Proof. apply clean_text_words. Qed.

(** X2.  [clean_text] is idempotent, and its result holds no control
    character and no white space at either end. *)
Theorem clean_text_is_idempotent {U : Unicode} (text : str) :
  ExtractPdfFinal.clean_text (ExtractPdfFinal.clean_text text)
  = ExtractPdfFinal.clean_text text
  /\ forallb (fun x => negb (control x)) (ExtractPdfFinal.clean_text text) = true
  /\ strip (ExtractPdfFinal.clean_text text) = ExtractPdfFinal.clean_text text.
Proof.
  split; [apply clean_text_fixed |]. split.
  - rewrite forallb_forall. intros x Hx. apply clean_text_no_control in Hx.
    rewrite Hx. reflexivity.
  - apply spaced_strip, clean_text_spaced.
Qed.

(** X3.  The account of every record that the line parsers of extract_pdf,
    extract_pdf_final, extract_pdf_v3 and final_balancete_parser return
    is made of words separated by single spaces: [" ".join(account.split())]
    is the account itself, and so is [account.strip()]. *)
Theorem account_is_words_joined_by_spaces {U : Unicode}
    (line : str) (is_bold : bool) (e : entry) :
  ExtractPdf.parse_data_line line = Ok (Some e)
  \/ ExtractPdfFinal.parse_data_line line = Ok (Some e)
  \/ ExtractPdfV3.parse_data_line line is_bold = Ok (Some e)
  \/ FinalBalancete.parse_entry_line line = Ok (Some e) ->
  join (u " ") (split_ws (account e)) = account e
  /\ strip (account e) = account e.
Proof.
  intros H. assert (S : spaced (account e)).
  { destruct H as [H | [H | [H | H]]].
    - apply parse_data_line_inv in H. cbv zeta in H.
      destruct H as [_ [_ [[_ [_ [H _]]] | H]]].
      + apply (clean_account_name_final_spaced _ H).
      + destruct H as [m0 [ms' [code [cls [idx [sl [_ [_ [H _]]]]]]]]].
        apply (clean_account_name_final_spaced _ H).
    - apply final_parse_data_line_account in H. destruct H as [t ->].
      apply final_clean_account_name_spaced.
    - apply v3_parse_data_line_account in H. destruct H as [t ->].
      apply v3_clean_account_name_spaced.
    - apply parse_entry_line_inv in H. cbv zeta in H.
      destruct H as [_ [_ [_ [_ H]]]].
      apply clean_description_shape in H. destruct H as [ws [-> [F _]]].
      apply join_spaced. exact F. }
  split; [exact S | apply spaced_strip; exact S].
Qed.

(** The theorem at a line of extract_pdf with a code, a classification
    and an amount. *)
Lemma account_is_words_joined_by_spaces_witness :
  join (u " ") (@split_ws latin1 (u "CAIXA GERAL")) = u "CAIXA GERAL"
  /\ @strip latin1 (u "CAIXA GERAL") = u "CAIXA GERAL".
Proof.
  apply (@account_is_words_joined_by_spaces latin1
           (u "1001 1.1.01.020.001 CAIXA  GERAL 1.500,00") false
           (Entry (Some (u "1001")) (Some (u "1.1.01.020.001")) (u "CAIXA GERAL")
                  None (Some (u "1.500,00")) None None None)).
  left. vm_compute. reflexivity.
Defined.

(* ===================================================================== *)
(** * Amounts and repeated words                                           *)
(* ===================================================================== *)

(** X4.  When [parse_monetary_value] returns a value, it is the argument
    without the characters other than digits, dots and commas; it is a
    non-empty run of digits and dots, a comma and two digits; and
    [parse_monetary_value] returns it unchanged. *)
Theorem parse_monetary_value_result {U : Unicode} (value cleaned : str) :
  Shared.parse_monetary_value value = Some cleaned ->
  cleaned = filter (fun x => is_decimal x || char_eqb x (ch ".") || char_eqb x (ch ","))
                   value
  /\ (exists a d1 d2,
         cleaned = a ++ [ch ","; d1; d2]
         /\ nonempty a = true
         /\ forallb (fun x => is_decimal x || char_eqb x (ch ".")) a = true
         /\ is_decimal d1 = true /\ is_decimal d2 = true)
  /\ Shared.parse_monetary_value cleaned = Some cleaned.
Proof.
  intros H. apply parse_monetary_value_inv in H.
  destruct H as [E [a [d1 [d2 [K1 [K2 [K3 [K4 K5]]]]]]]].
  split; [| split].
  - rewrite E. apply filter_ext. intros x. unfold Re.set_has.
    cbn [existsb Re.item_has Re.in_cls]. rewrite orb_false_r, orb_assoc. reflexivity.
  - exists a, d1, d2. repeat split; auto.
    rewrite forallb_forall in *. intros x Hx. specialize (K3 x Hx).
    unfold amount_char, Re.set_has in K3. cbn [existsb Re.item_has Re.in_cls] in K3.
    rewrite orb_false_r in K3. exact K3.
  - rewrite K1. apply parse_monetary_value_amount; assumption.
Qed.

(** The theorem at an amount with a currency sign. *)
Lemma parse_monetary_value_result_witness :
  u "1.500,00"
  = filter (fun x => @is_decimal latin1 x || char_eqb x (ch ".") || char_eqb x (ch ","))
           (u "R$ 1.500,00")
  /\ (exists a d1 d2,
         u "1.500,00" = a ++ [ch ","; d1; d2]
         /\ nonempty a = true
         /\ forallb (fun x => @is_decimal latin1 x || char_eqb x (ch ".")) a = true
         /\ @is_decimal latin1 d1 = true /\ @is_decimal latin1 d2 = true)
  /\ @Shared.parse_monetary_value latin1 (u "1.500,00") = Some (u "1.500,00").
Proof.
  apply (@parse_monetary_value_result latin1 (u "R$ 1.500,00") (u "1.500,00")).
  vm_compute. reflexivity.
Defined.

(** X5.  [remove_duplicate_text] never raises.  A text of fewer than two
    words is returned as it is; otherwise the result is the first word
    and a choice, in order, of the words after it, joined by single
    spaces. *)
Theorem remove_duplicate_text_keeps_words_in_order {U : Unicode} (text : str) :
  exists r,
    ExtractPdf.remove_duplicate_text text = Ok r
    /\ ((length (split_ws text) < 2 /\ r = text)
        \/ (2 <= length (split_ws text)
            /\ exists w kept,
                 r = join (u " ") (w :: kept)
                 /\ subseq (w :: kept) (split_ws text)
                 /\ nth_error (split_ws text) 0 = Some w)).
Proof.
  destruct (remove_duplicate_text_total text) as [r H]. exists r.
  split; [exact H | apply remove_duplicate_text_kept; exact H].
Qed.

(** X6.  On a text of two words separated by one space,
    [remove_duplicate_text] drops the second word exactly when both words
    have more than three characters and they agree at more than four
    fifths of the positions of the longer one; otherwise it returns the
    text as it is. *)
Theorem second_of_two_similar_words_is_dropped {U : Unicode} (w1 w2 : str) :
  word w1 = true -> word w2 = true ->
  ExtractPdf.remove_duplicate_text (w1 ++ u " " ++ w2)
  = Ok (if (3 <? length w1) && (3 <? length w2)
           && (4 * Nat.max (length w1) (length w2) <? 5 * ExtractPdf.same_places w1 w2)
        then w1 else w1 ++ u " " ++ w2).
Proof.
  intros H1 H2.
  assert (F : Forall (fun w => word w = true) [w1; w2]) by (repeat constructor; assumption).
  assert (E : w1 ++ u " " ++ w2 = join (u " ") [w1; w2])
    by (rewrite join_cons2, join_one; reflexivity).
  rewrite E. clear E. unfold ExtractPdf.remove_duplicate_text.
  rewrite (split_ws_join F).
  destruct (join (u " ") [w1; w2]) as [| c t] eqn:J.
  { destruct (word_inv w1 H1) as [x [w' [-> _]]]. discriminate. }
  rewrite <- J. clear c t J.
  change (length [w1; w2] <? 2) with false. cbv iota.
  change (length [w1; w2]) with 2.
  rewrite remove_duplicate_loop_S. cbv zeta.
  change (0 <? length [w1; w2]) with true. change (0 + 1 <? length [w1; w2]) with true.
  cbv iota. rewrite (@getitem_nat _ [w1; w2] 0 w1 eq_refl). cbn [bind].
  rewrite (@getitem_nat _ [w1; w2] (0 + 1) w2 eq_refl). cbn [bind app].
  assert (Last : ExtractPdf.remove_duplicate_loop 1 [w1; w2] (0 + 1) [w1]
                 = Ok [w1; w2]).
  { rewrite remove_duplicate_loop_S. cbv zeta.
    change (0 + 1 <? length [w1; w2]) with true.
    change (0 + 1 + 1 <? length [w1; w2]) with false. cbv iota.
    rewrite (@getitem_nat _ [w1; w2] (0 + 1) w2 eq_refl). cbn [bind app].
    apply remove_duplicate_loop_done. simpl. lia. }
  destruct ((3 <? length w1) && (3 <? length w2)) eqn:L; cbn [andb].
  - unfold ExtractPdf.similar.
    assert (M : (Nat.max (length w1) (length w2) =? 0) = false).
    { apply andb_prop in L. destruct L as [L _]. apply Nat.ltb_lt in L.
      apply Nat.eqb_neq. lia. }
    rewrite M. cbn [bind].
    destruct (4 * Nat.max (length w1) (length w2) <? 5 * ExtractPdf.same_places w1 w2).
    + rewrite remove_duplicate_loop_done by (simpl; lia). cbn [bind].
      rewrite join_one. reflexivity.
    + rewrite Last. reflexivity.
  - rewrite Last. reflexivity.
Qed.

(** The theorem at a word and its copy, and at two different words. *)
Lemma second_of_two_similar_words_is_dropped_witness :
  @ExtractPdf.remove_duplicate_text latin1 (u "CAIXA CAIXA") = Ok (u "CAIXA")
  /\ @ExtractPdf.remove_duplicate_text latin1 (u "CAIXA GERAL") = Ok (u "CAIXA GERAL").
Proof.
  split.
  - apply (@second_of_two_similar_words_is_dropped latin1 (u "CAIXA") (u "CAIXA"));
      vm_compute; reflexivity.
  - apply (@second_of_two_similar_words_is_dropped latin1 (u "CAIXA") (u "GERAL"));
      vm_compute; reflexivity.
Defined.

(* ===================================================================== *)
(** * The record of extract_pdf_v2                                         *)
(* ===================================================================== *)

(** X7.  In [parse_line] of extract_pdf_v2 the amounts of a record are
    read from the parts of the line that start with an amount, the parts
    being the list [parts] as the function builds it: the pieces between
    gaps of two or more white-space characters or, when there are fewer
    than three such pieces, the list that its loop over the amounts of
    the line rebuilds; blank parts dropped and every part stripped.  Four
    or more such
    parts fill previous balance, debit, credit and current balance with
    the first four; three fill previous balance, debit and credit; two
    fill previous and current balance.  A record whose line has one such
    part, or none, carries no amount at all. *)
Theorem v2_slots_follow_the_parts {U : Unicode} (line : str) (e : entry) :
  ExtractPdfV2.parse_line line = Ok (Some e) ->
  let M := filter (ExtractPdfV2.matches ExtractPdfV2.monetary_pattern)
                  (ExtractPdfV2.split_parts (strip line)) in
  slots e = match Re.re_findall ExtractPdfV2.monetary_pattern (strip line) with
            | [] => (None, None, None, None)
            | _ => v2_table M
            end
  /\ (length M <= 1 -> slots e = (None, None, None, None)).
Proof.
  intros H M. apply parse_line_inv in H. cbv zeta in H.
  destruct H as [_ [[H1 [_ [_ H4]]] | [H1 [_ [H3 _]]]]].
  - rewrite H1, H4. split; reflexivity.
  - fold M in H3. rewrite H3.
    destruct (Re.re_findall ExtractPdfV2.monetary_pattern (strip line));
      [contradiction |].
    split; [reflexivity |]. intros L.
    destruct M as [| v0 [| v1 M']]; [reflexivity | reflexivity | simpl in L; lia].
Qed.

(** The theorem at a line with a code, a name and a single amount. *)
Lemma v2_slots_follow_the_parts_witness :
  slots (Entry (Some (u "1001")) None (u "CAIXA GERAL") None None None None None)
  = v2_table [u "1.500,00"]
  /\ (length [u "1.500,00"] <= 1 ->
      slots (Entry (Some (u "1001")) None (u "CAIXA GERAL") None None None None None)
      = (None, None, None, None)).
Proof.
  apply (@v2_slots_follow_the_parts latin1 (u "1001  CAIXA GERAL  1.500,00")).
  vm_compute. reflexivity.
Defined.

(** X8.  In a record of [parse_line] of extract_pdf_v2 a classification
    is a whole part of the line made of exactly five dot-separated groups
    of digits, a code is a whole part made of four to six digits, the
    account is not empty and the parent category is null. *)
Theorem v2_code_and_classification_shape {U : Unicode} (line : str) (e : entry) :
  ExtractPdfV2.parse_line line = Ok (Some e) ->
  match classification e with
  | Some t => five_groups t = true /\ In t (ExtractPdfV2.split_parts (strip line))
  | None => True
  end
  /\ match code e with
     | Some c => 4 <= length c <= 6 /\ forallb is_decimal c = true
                 /\ In c (ExtractPdfV2.split_parts (strip line))
     | None => True
     end
  /\ account e <> []
  /\ parent_category e = None.
Proof.
  intros H. apply parse_line_inv in H. cbv zeta in H.
  destruct H as [L [[_ [L2 [_ H4]]] | [_ [_ [_ [H4 [H5 [H6 H7]]]]]]]].
  - rewrite H4. cbn [bare classification code account parent_category].
    repeat split; auto. rewrite strip_strip. intros E. rewrite E in L. simpl in L. lia.
  - repeat split; auto.
    + destruct (classification e) as [t |]; [| exact I].
      destruct (H4 t eq_refl) as [K1 K2]. split; [| exact K1].
      apply v2_classification_shape; [exact K2 |].
      apply (split_parts_stripped _ _ K1).
    + destruct (code e) as [c |]; [| exact I].
      destruct (H5 c eq_refl) as [K1 K2].
      destruct (@v2_code_shape U c K2 (proj2 (split_parts_stripped _ _ K1))) as [A B].
      auto.
    + intros E. rewrite E in H6. discriminate.
Qed.

(** The theorem at a line with a code, a classification and amounts. *)
Lemma v2_code_and_classification_shape_witness :
  (@five_groups latin1 (u "1.1.01.020.001") = true
   /\ In (u "1.1.01.020.001")
         [u "1001"; u "1.1.01.020.001"; u "CAIXA GERAL"; u "1.500,00"; u "2,00"])
  /\ (4 <= length (u "1001") <= 6 /\ forallb (@is_decimal latin1) (u "1001") = true
      /\ In (u "1001")
            [u "1001"; u "1.1.01.020.001"; u "CAIXA GERAL"; u "1.500,00"; u "2,00"])
  /\ u "1.1.01.020.001 CAIXA GERAL" <> []
  /\ @None str = None.
Proof.
  pose proof (@v2_code_and_classification_shape latin1
                (u "1001  1.1.01.020.001  CAIXA GERAL  1.500,00  2,00")
                (Entry (Some (u "1001")) (Some (u "1.1.01.020.001"))
                       (u "1.1.01.020.001 CAIXA GERAL")
                       (Some (u "1.500,00")) (Some (u "2,00")) None None None)) as K.
  vm_compute in K. vm_compute. apply K. reflexivity.
Defined.

(* ===================================================================== *)
(** * Documents                                                            *)
(* ===================================================================== *)

(** X9.  The document passes never raise, and what they have emitted
    stays: the records of a document are a prefix of the records of the
    document with more pages (extract_pdf, extract_pdf_v3) or more lines
    (final_balancete_parser) after it.  [extract_data] emits at most one
    record for each line. *)
Theorem earlier_records_are_kept {U : Unicode} :
  (forall pages more,
      exists first rest,
        ExtractPdf.extract_data_from_pdf pages = Ok first
        /\ ExtractPdf.extract_data_from_pdf (pages ++ more) = Ok (first ++ rest))
  /\ (forall pages more,
         exists first rest,
           ExtractPdfV3.extract_data_from_pdf pages = Ok first
           /\ ExtractPdfV3.extract_data_from_pdf (pages ++ more) = Ok (first ++ rest))
  /\ (forall text more,
         exists first rest,
           FinalBalancete.extract_data text = Ok first
           /\ FinalBalancete.extract_data (text ++ 10%N :: more) = Ok (first ++ rest)
           /\ length first <= length (split_on 10 text)).
Proof.
  split; [| split].
  - intros pages more. unfold ExtractPdf.extract_data_from_pdf, ExtractPdf.run_pages.
    rewrite for_each_app.
    destruct (run_pages_ordered pages) as [st [E O]]. unfold ExtractPdf.run_pages in E.
    rewrite E. cbn [bind].
    destruct (@for_each_extends _ _ _ ExtractPdf.all_data
                (fun s => ordered_prefix_free (ExtractPdf.parent_categories s))
                ExtractPdf.process_page more
                (fun x s Hs => @process_page_adds _ x s Hs) st O)
      as [s' [new [E' [_ D]]]].
    rewrite E'. cbn [bind]. exists (ExtractPdf.all_data st), new. rewrite D. auto.
  - intros pages more. unfold ExtractPdfV3.extract_data_from_pdf, ExtractPdfV3.run_pages.
    rewrite for_each_app.
    destruct (v3_run_pages_ordered pages) as [st [E O]].
    unfold ExtractPdfV3.run_pages in E. rewrite E. cbn [bind].
    destruct (@for_each_extends _ _ _ ExtractPdfV3.all_data
                (fun s => ordered_prefix_free (ExtractPdfV3.parent_categories s))
                ExtractPdfV3.process_page more
                (fun x s Hs => @v3_process_page_adds _ x s Hs) st O)
      as [s' [new [E' [_ D]]]].
    rewrite E'. cbn [bind]. exists (ExtractPdfV3.all_data st), new. rewrite D. auto.
  - intros text more. unfold FinalBalancete.extract_data, FinalBalancete.run_lines.
    rewrite split_on_app, for_each_app.
    destruct (@for_each_adds _ _ _ FinalBalancete.entries (fun _ => True)
                FinalBalancete.process_line (split_on 10 text)
                (fun x s _ => balancete_process_line_adds x s)
                (FinalBalancete.State [] None) I)
      as [s1 [n1 [E1 [_ [D1 L1]]]]].
    rewrite E1. cbn [bind].
    destruct (@for_each_adds _ _ _ FinalBalancete.entries (fun _ => True)
                FinalBalancete.process_line (split_on 10 more)
                (fun x s _ => balancete_process_line_adds x s) s1 I)
      as [s2 [n2 [E2 [_ [D2 _]]]]].
    rewrite E2. cbn [bind]. exists (FinalBalancete.entries s1), n2.
    rewrite D2. repeat split. rewrite D1. simpl. exact L1.
Qed.

(** X10.  [extract_bold_categories] of extract_pdf returns a dictionary
    with one entry for each key, and every text in it is not empty and
    has no white space at either end. *)
Theorem bold_categories_are_stripped {U : Unicode} (chars : list ExtractPdf.pchar) :
  NoDup (map fst (ExtractPdf.extract_bold_categories chars))
  /\ Forall (fun kv => nonempty (snd kv) = true /\ strip (snd kv) = snd kv)
            (ExtractPdf.extract_bold_categories chars).
Proof.
  apply (extract_bold_categories_keeps
           (fun v => nonempty v = true /\ strip v = v)).
  intros s H. split; [exact H | apply strip_strip].
Qed.

(** X11.  The pass of extract_pdf_final over the pages never raises, no
    entry of its category stack is a case-insensitive prefix of an entry
    pushed after it, and the records of a document are a prefix of the
    records of the document with more pages after it. *)
Theorem final_pass_keeps_the_stack_ordered {U : Unicode}
    (pages more : list ExtractPdf.page) :
  exists st st' rest,
    ExtractPdfFinalPass.run_pages pages = Ok st
    /\ ordered_prefix_free (ExtractPdfFinalPass.parent_categories st)
    /\ ExtractPdfFinalPass.run_pages (pages ++ more) = Ok st'
    /\ ordered_prefix_free (ExtractPdfFinalPass.parent_categories st')
    /\ ExtractPdfFinalPass.all_data st' = ExtractPdfFinalPass.all_data st ++ rest.
Proof.
  unfold ExtractPdfFinalPass.run_pages. rewrite for_each_app.
  destruct (@for_each_extends _ _ _ ExtractPdfFinalPass.all_data
              (fun s => ordered_prefix_free (ExtractPdfFinalPass.parent_categories s))
              ExtractPdfFinalPass.process_page pages
              (fun x s Hs => @final_process_page_step _ x s Hs)
              (ExtractPdfFinalPass.State [] []))
    as [st [n1 [E1 [O1 D1]]]]; [constructor |].
  destruct (@for_each_extends _ _ _ ExtractPdfFinalPass.all_data
              (fun s => ordered_prefix_free (ExtractPdfFinalPass.parent_categories s))
              ExtractPdfFinalPass.process_page more
              (fun x s Hs => @final_process_page_step _ x s Hs) st O1)
    as [st' [n2 [E2 [O2 D2]]]].
  exists st, st', n2. rewrite E1. cbn [bind]. auto.
Qed.

(** X12.  In the pass of extract_pdf_final a line adds at most one record;
    its parent category is null when a bold text makes the line a
    category, and the top of the category stack as it was before the line
    otherwise (null when the stack is empty). *)
Theorem final_pass_parent_of_record {U : Unicode}
    (chars : list ExtractPdf.pchar) (bold_categories : ExtractPdf.dict)
    (line : str) (st st' : ExtractPdfFinalPass.state) :
  ExtractPdfFinalPass.process_line chars bold_categories line st = Ok st' ->
  ExtractPdfFinalPass.all_data st' = ExtractPdfFinalPass.all_data st
  \/ exists e cat,
       ExtractPdfFinalPass.all_data st' = ExtractPdfFinalPass.all_data st ++ [e]
       /\ ExtractPdfFinalPass.category_of chars bold_categories (strip line) = Ok cat
       /\ parent_category e
          = match cat with
            | Some _ => None
            | None => top (ExtractPdfFinalPass.parent_categories st)
            end.
Proof.
  intros H.
  destruct (final_process_line_step (fun _ => True) chars bold_categories line st
              (fun _ _ _ => I) I) as [st'' [E [_ K]]].
  rewrite H in E. inversion E. subst st''. exact K.
Qed.

(** The theorem at a line with a code and an amount, under one category. *)
Lemma final_pass_parent_of_record_witness :
  exists st',
    @ExtractPdfFinalPass.process_line latin1 [] [] (u "1001 CAIXA GERAL 1.500,00")
      (ExtractPdfFinalPass.State [u "ATIVO CIRCULANTE"] []) = Ok st'
    /\ (ExtractPdfFinalPass.all_data st' = []
        \/ exists e cat,
             ExtractPdfFinalPass.all_data st' = [] ++ [e]
             /\ @ExtractPdfFinalPass.category_of latin1 [] []
                  (@strip latin1 (u "1001 CAIXA GERAL 1.500,00")) = Ok cat
             /\ parent_category e
                = match cat with
                  | Some _ => None
                  | None => top [u "ATIVO CIRCULANTE"]
                  end).
Proof.
  eexists. split; [vm_compute; reflexivity |].
  apply (@final_pass_parent_of_record latin1 [] [] (u "1001 CAIXA GERAL 1.500,00")
           (ExtractPdfFinalPass.State [u "ATIVO CIRCULANTE"] [])).
  vm_compute. reflexivity.
Defined.

(** X13.  The pass of extract_pdf_v2 over the pages never raises, and the
    records of a document are a prefix of the records of the document
    with more pages after it. *)
Theorem v2_pass_never_raises {U : Unicode} (pages more : list ExtractPdf.page) :
  exists first rest,
    ExtractPdfV2Pass.extract_data_from_pdf pages = Ok first
    /\ ExtractPdfV2Pass.extract_data_from_pdf (pages ++ more) = Ok (first ++ rest).
Proof.
  unfold ExtractPdfV2Pass.extract_data_from_pdf, ExtractPdfV2Pass.run_pages.
  rewrite for_each_app.
  destruct (@for_each_extends _ _ _ ExtractPdfV2Pass.all_data (fun _ => True)
              ExtractPdfV2Pass.process_page pages
              (fun x s _ => @v2_process_page_adds _ x s)
              (ExtractPdfV2Pass.State None []) I)
    as [st [n1 [E1 [_ D1]]]].
  destruct (@for_each_extends _ _ _ ExtractPdfV2Pass.all_data (fun _ => True)
              ExtractPdfV2Pass.process_page more
              (fun x s _ => @v2_process_page_adds _ x s) st I)
    as [st' [n2 [E2 [_ D2]]]].
  rewrite E1. cbn [bind]. rewrite E2. cbn [bind].
  exists (ExtractPdfV2Pass.all_data st), n2. rewrite D2. auto.
Qed.



(* ===================================================================== *)
(** * extract_pdf_v3.py: the lines rebuilt from the characters              *)
(* ===================================================================== *)

Section RebuiltLinesTheorems.
Context {U : Unicode}.
Import ExtractPdfV3Lines.

(** X15.  The lines of [reconstruct_text_from_chars] come with their rounded
    [top] strictly going down, so no two of them share it; each text is not
    empty and has no space at either end, and each line is the row of some
    character of the input. *)
Theorem rebuilt_lines_go_down (chars : list rchar) :
  ForallOrdPairs (fun a b : str * Z * bool => (snd (fst b) < snd (fst a))%Z)
                 (reconstruct_text_from_chars chars)
  /\ forall t y b, In (t, y, b) (reconstruct_text_from_chars chars) ->
       t <> [] /\ strip t = t
       /\ exists c, In c chars /\ py_round (r_top c) = y.
Proof.
  destruct (group_by_row_rows chars) as [N [F R]]. split.
  - unfold reconstruct_text_from_chars. apply lines_of_rows_sorted.
    + intros [y cs] out. destruct (line_of (sort_chars cs)) as [t b].
      destruct (nonempty (strip t)); simpl; [| contradiction].
      intros [<- | []]. reflexivity.
    + intros [y cs]. destruct (line_of (sort_chars cs)) as [t b].
      destruct (nonempty (strip t)); simpl; lia.
    + apply sorted_lines_sorted. exact N.
  - intros t y b H. unfold reconstruct_text_from_chars in H.
    apply in_flat_map in H. destruct H as [[y' cs] [Hi H]].
    apply sort_by_In in Hi.
    destruct (line_of (sort_chars cs)) as [t' b'] eqn:E.
    destruct (nonempty (strip t')) eqn:En; simpl in H; [| contradiction].
    destruct H as [H | []]. inversion H. subst. split; [| split].
    + intros K. rewrite K in En. discriminate.
    + apply strip_strip.
    + pose proof (@row_of_In _ _ _ N Hi) as Er. rewrite R in Er.
      rewrite Forall_forall in F. specialize (F _ Hi). simpl in F.
      destruct cs as [| c cs]; [congruence |]. exists c.
      assert (Hc : In c (filter (fun c0 => (py_round (r_top c0) =? y)%Z) chars))
        by (rewrite Er; left; reflexivity).
      apply filter_In in Hc. destruct Hc as [Hc Ey]. apply Z.eqb_eq in Ey. auto.
Qed.

(** X16.  The line of the rounded [top] [y] is there exactly when the texts
    of the characters of that row, taken by [x0] from left to right (equal
    [x0] in the order of the input), give a text that is not only spaces;
    its text is that text stripped, and it is bold when one character with
    a text is. *)
Theorem rebuilt_line_of_a_row (chars : list rchar) (y : Z) :
  let row := filter (fun c => (py_round (r_top c) =? y)%Z) chars in
  let text := strip (concat (map r_text (sort_chars row))) in
  (forall t b, In (t, y, b) (reconstruct_text_from_chars chars) <->
     text <> [] /\ t = text
     /\ b = existsb (fun c => nonempty (r_text c) && is_bold_char c) row)
  /\ ForallOrdPairs (fun a b : rchar => Qle (r_x0 a) (r_x0 b)) (sort_chars row)
  /\ forall c, In c (sort_chars row) <-> In c row.
Proof.
  intros row text. destruct (group_by_row_rows chars) as [N [F R]].
  split; [| split; [apply sort_chars_sorted | intros c; apply sort_by_In]].
  assert (Eb : existsb (fun c => nonempty (r_text c) && is_bold_char c) (sort_chars row)
               = existsb (fun c => nonempty (r_text c) && is_bold_char c) row).
  { apply existsb_same. intros z. apply sort_by_In. }
  intros t b. unfold reconstruct_text_from_chars. rewrite in_flat_map. split.
  - intros [[y' cs] [Hi H]]. apply sort_by_In in Hi.
    rewrite line_of_value in H.
    destruct (nonempty (strip (concat (map r_text (sort_chars cs))))) eqn:En;
      simpl in H; [| contradiction].
    destruct H as [H | []]. injection H as Ht Ey Ebold. subst y'.
    pose proof (@row_of_In _ _ _ N Hi) as Er. rewrite R in Er. fold row in Er.
    subst cs. fold text in En, Ht. split; [| split].
    + intros K. rewrite K in En. discriminate.
    + symmetry. exact Ht.
    + rewrite <- Ebold. exact Eb.
  - intros [Ht [-> ->]]. exists (y, row). split.
    + apply sort_by_In. unfold row. rewrite <- R. apply row_of_found.
      rewrite R. fold row. intros K. apply Ht. unfold text. rewrite K. reflexivity.
    + rewrite line_of_value. fold text. destruct text as [| x t] eqn:E; [congruence |].
      simpl. left. rewrite Eb. reflexivity.
Qed.

End RebuiltLinesTheorems.

(* ===================================================================== *)
(** * extract_header_info                                                   *)
(* ===================================================================== *)

Section HeaderTheorems.
Context {U : Unicode}.
Import HeaderInfo.

(** X17.  A field that [extract_header_info] fills reads as its pattern
    says: the CNPJ as dd.ddd.ddd/dddd-dd, the issue date as dd/dd/dddd, the
    time as dd:dd:dd, the period as two such dates around [" - "], the page
    and the book number as digits only; and the CNPJ, the date, the time,
    the page and the book number stand in the text right after their label
    and white space. *)
Theorem header_fields_read_as_their_patterns (text : str) (h : header) :
  extract_header_info text = Ok h \/ extract_header_info_final text = Ok h ->
  (forall v, cnpj h = Some v ->
     has_shape (u "dd.ddd.ddd/dddd-dd") v = true /\ follows text (u "C.N.P.J.:") v)
  /\ (forall v, book_number h = Some v ->
        digits v = true /\ follows text (u "Número livro:") v)
  /\ (forall v, period h = Some v ->
        has_shape (u "dd/dd/dddd - dd/dd/dddd") v = true)
  /\ (forall v, issue_date h = Some v ->
        has_shape (u "dd/dd/dddd") v = true /\ follows text (u "Emissão:") v)
  /\ (forall v, time h = Some v ->
        has_shape (u "dd:dd:dd") v = true /\ follows text (u "Hora:") v)
  /\ (forall v, page h = Some v ->
        digits v = true /\ follows text (u "Folha:") v).
Proof.
  intros H.
  assert (K : exists finish, header_with finish text = Ok h).
  { destruct H as [H | H]; eexists; exact H. }
  destruct K as [finish K]. apply header_with_inv in K.
  destruct K as [_ [Ec [Eb [Ep [Ed [Et [Eg _]]]]]]].
  split; [| split; [| split; [| split; [| split]]]]; intros v H0.
  - rewrite Ec in H0.
    apply (@group1_labelled _ (fun v => has_shape (u "dd.ddd.ddd/dddd-dd") v = true)
             "C.N.P.J.:" cnpj_digits text v (@run_cnpj_digits_inv _ Re.rmatch) H0).
  - rewrite Eb in H0.
    apply (@group1_labelled _ (fun v => digits v = true)
             "Número livro:" (Re.plus Re.dig) text v (@run_number_inv _ Re.rmatch) H0).
  - rewrite Ep in H0. destruct (Re.re_search period_re text) as [m |] eqn:E;
      [| discriminate].
    destruct (@period_groups _ text m E) as [v1 [v2 [sp [G1 [G2 [S1 [S2 _]]]]]]].
    rewrite G1, G2 in H0. cbn [formatted] in H0. injection H0 as <-.
    apply period_shape; assumption.
  - rewrite Ed in H0.
    apply (@group1_labelled _ (fun v => has_shape (u "dd/dd/dddd") v = true)
             "Emissão:" date_digits text v (@run_date_digits_inv _ Re.rmatch) H0).
  - rewrite Et in H0.
    apply (@group1_labelled _ (fun v => has_shape (u "dd:dd:dd") v = true)
             "Hora:" time_digits text v (@run_time_digits_inv _ Re.rmatch) H0).
  - rewrite Eg in H0.
    apply (@group1_labelled _ (fun v => digits v = true)
             "Folha:" (Re.plus Re.dig) text v (@run_number_inv _ Re.rmatch) H0).
Qed.

(** X18.  [extract_header_info] never raises, in any of the four files.
    The company it stores has no white space at either end; the one of
    extract_pdf_final is moreover a fixed point of [clean_text]; in every
    other field the four files agree.  The report type is null exactly
    when the upper-cased text does not hold BALANCETE. *)
Theorem header_is_always_returned (text : str) :
  exists h hf,
    extract_header_info text = Ok h
    /\ extract_header_info_final text = Ok hf
    /\ (forall v, company h = Some v -> strip v = v)
    /\ (forall v, company hf = Some v ->
          strip v = v /\ ExtractPdfFinal.clean_text v = v)
    /\ (company h = None <-> company hf = None)
    /\ (cnpj hf, report_type hf, period hf, issue_date hf, time hf, page hf,
         book_number hf)
       = (cnpj h, report_type h, period h, issue_date h, time h, page h,
          book_number h)
    /\ (report_type h = None <-> contains (upper text) (u "BALANCETE") = false).
Proof.
  destruct (header_with_total strip text) as [h Hh].
  destruct (header_with_total ExtractPdfFinal.clean_text text) as [hf Hf].
  exists h, hf. split; [exact Hh |]. split; [exact Hf |].
  apply header_with_inv in Hh. apply header_with_inv in Hf.
  destruct Hh as [C1 [Ec [Eb [Ep [Ed [Et [Eg Er]]]]]]].
  destruct Hf as [C2 [Ec' [Eb' [Ep' [Ed' [Et' [Eg' Er']]]]]]].
  split; [| split; [| split; [| split]]].
  - intros v Hv.
    destruct (company_of_value strip (split_on 10 text)) as [o [Ho Hs]].
    rewrite Ho in C1. injection C1 as ->. destruct (Hs v Hv) as [g ->].
    apply strip_strip.
  - intros v Hv.
    destruct (company_of_value ExtractPdfFinal.clean_text (split_on 10 text))
      as [o [Ho Hs]].
    rewrite Ho in C2. injection C2 as ->. destruct (Hs v Hv) as [g ->].
    split; [apply spaced_strip, clean_text_spaced | apply clean_text_fixed].
  - unfold company_of in C1, C2.
    destruct (find _ (firstn 5 (split_on 10 text))) as [line |].
    + destruct (Re.re_search company_re line) as [m |] eqn:E.
      * destruct (@company_group _ line m E) as [g G]. rewrite G in C1, C2.
        cbn [attr bind] in C1, C2. injection C1 as <-. injection C2 as <-.
        split; discriminate.
      * injection C1 as <-. injection C2 as <-. split; reflexivity.
    + injection C1 as <-. injection C2 as <-. split; reflexivity.
  - rewrite Ec, Ec', Eb, Eb', Ep, Ep', Ed, Ed', Et, Et', Eg, Eg', Er, Er'. reflexivity.
  - rewrite Er. destruct (contains (upper text) (u "BALANCETE")); split;
      intros K; try discriminate; reflexivity.
Qed.

End HeaderTheorems.

(** The theorem at a header of two lines. *)
Lemma header_fields_read_as_their_patterns_witness :
  @HeaderInfo.extract_header_info latin1
    (u "Empresa: ACME LTDA  Folha: 12" ++ 10%N
       :: u "C.N.P.J.: 12.345.678/0001-90 Emissão: 05/01/2024 Hora: 10:20:30")
  = Ok (HeaderInfo.Header (Some (u "ACME LTDA")) (Some (u "12.345.678/0001-90"))
          None None (Some (u "05/01/2024")) (Some (u "10:20:30")) (Some (u "12")) None)
  /\ @has_shape latin1 (u "dd.ddd.ddd/dddd-dd") (u "12.345.678/0001-90") = true.
Proof.
  split; [vm_compute; reflexivity |].
  pose proof (@header_fields_read_as_their_patterns latin1
    (u "Empresa: ACME LTDA  Folha: 12" ++ 10%N
       :: u "C.N.P.J.: 12.345.678/0001-90 Emissão: 05/01/2024 Hora: 10:20:30")
    (HeaderInfo.Header (Some (u "ACME LTDA")) (Some (u "12.345.678/0001-90"))
          None None (Some (u "05/01/2024")) (Some (u "10:20:30")) (Some (u "12")) None))
    as K.
  destruct K as [K _]; [left; vm_compute; reflexivity |].
  destruct (K (u "12.345.678/0001-90") eq_refl) as [S _]. exact S.
Defined.

(* ===================================================================== *)
(** * The amounts of a record                                              *)
(* ===================================================================== *)

(** X19.  Every amount in a record of [parse_data_line] (extract_pdf,
    extract_pdf_final, extract_pdf_v3) is a non-empty run of digits and
    dots, a comma and two digits, and it is a piece of the line as the
    parser reads it: the stripped line, or in extract_pdf_final the line
    after [clean_text]. *)
Theorem amounts_of_a_record_stand_in_the_line {U : Unicode}
    (line : str) (is_bold : bool) (e : entry) (v : str) :
  In (Some v) (amounts e) ->
  (ExtractPdf.parse_data_line line = Ok (Some e) ->
   amount_text v /\ stands_in v (strip line))
  /\ (ExtractPdfV3.parse_data_line line is_bold = Ok (Some e) ->
      amount_text v /\ stands_in v (strip line))
  /\ (ExtractPdfFinal.parse_data_line line = Ok (Some e) ->
      amount_text v /\ stands_in v (ExtractPdfFinal.clean_text line)).
Proof.
  intros Hv. split; [| split]; intros H.
  - apply (parse_data_line_amounts _ H Hv).
  - apply (v3_parse_data_line_amounts _ _ H Hv).
  - apply (final_parse_data_line_amounts _ H Hv).
Qed.

(** The theorem at a line of extract_pdf with two amounts. *)
Lemma amounts_of_a_record_stand_in_the_line_witness :
  @amount_text latin1 (u "1.500,00")
  /\ stands_in (u "1.500,00") (@strip latin1 (u "1001 CAIXA GERAL 1.500,00 20,00")).
Proof.
  apply (proj1 (@amounts_of_a_record_stand_in_the_line latin1
                  (u "1001 CAIXA GERAL 1.500,00 20,00") false
                  (Entry (Some (u "1001")) None (u "CAIXA GERAL")
                         (Some (u "1.500,00")) (Some (u "20,00")) None None None)
                  (u "1.500,00") (or_introl eq_refl))).
  vm_compute. reflexivity.
Defined.

(** X20.  Every amount in a record of [parse_entry_line] is an optional
    minus sign, one to three digits, any number of groups of a dot and
    three digits, a comma and two digits, and it is a piece of the stripped
    line. *)
Theorem balancete_amounts_are_grouped {U : Unicode} (line : str) (e : entry) (v : str) :
  FinalBalancete.parse_entry_line line = Ok (Some e) ->
  In (Some v) (amounts e) ->
  grouped_amount_text v /\ stands_in v (strip line).
Proof. apply parse_entry_line_amounts. Qed.

(** The theorem at a line with a negative amount. *)
Lemma balancete_amounts_are_grouped_witness :
  @grouped_amount_text latin1 (u "-20,00")
  /\ stands_in (u "-20,00") (@strip latin1 (u "1001 CAIXA GERAL 1.500,00 -20,00")).
Proof.
  apply (@balancete_amounts_are_grouped latin1
           (u "1001 CAIXA GERAL 1.500,00 -20,00")
           (Entry (Some (u "1001")) None (u "CAIXA GERAL")
                  None (Some (u "-20,00")) (Some (u "1.500,00")) None None)
           (u "-20,00")).
  - vm_compute. reflexivity.
  - right. right. right. left. reflexivity.
Defined.

(** X21.  The dictionaries of bold texts of extract_pdf_final and
    extract_pdf_v2 have one entry for each key.  In extract_pdf_final
    every text is a result of [clean_text]: [clean_text] and [strip] leave
    it as it is.  In extract_pdf_v2 every text is not empty and has no
    white space at either end. *)
Theorem bold_texts_are_cleaned {U : Unicode} (chars : list ExtractPdf.pchar) :
  (NoDup (map fst (ExtractPdfFinalPass.extract_bold_categories chars))
   /\ Forall (fun kv => ExtractPdfFinal.clean_text (snd kv) = snd kv
                        /\ strip (snd kv) = snd kv)
             (ExtractPdfFinalPass.extract_bold_categories chars))
  /\ (NoDup (map fst (ExtractPdfV2Pass.extract_bold_text_by_position chars))
      /\ Forall (fun kv => nonempty (snd kv) = true /\ strip (snd kv) = snd kv)
                (ExtractPdfV2Pass.extract_bold_text_by_position chars)).
Proof.
  split.
  - apply (final_extract_bold_categories_keeps
             (fun v => ExtractPdfFinal.clean_text v = v /\ strip v = v)).
    intros s. split; [apply clean_text_fixed | apply spaced_strip, clean_text_spaced].
  - apply (v2_extract_bold_text_keeps (fun v => nonempty v = true /\ strip v = v)).
    intros s H. split; [exact H | apply strip_strip].
Qed.

(* ===================================================================== *)
(** * final_balancete_parser.py: extract_header                             *)
(* ===================================================================== *)

(** X22.  [extract_header] never raises.  It never fills the page; the
    report type is null or BALANCETE CONSOLIDADO; the company has no white
    space at either end and only characters of [A-ZÀ-Ú] and white space;
    the CNPJ reads dd.ddd.ddd/dddd-dd, the book number is digits only, the
    period reads as two dates dd/dd/dddd around [" - "], the issue date
    reads dd/dd/dddd and the time dd:dd:dd. *)
Theorem balancete_header_fields {U : Unicode} (lower : str -> str) (text : str) :
  exists h,
    BalanceteHeader.extract_header lower text = Ok h
    /\ HeaderInfo.page h = None
    /\ (HeaderInfo.report_type h = None
        \/ HeaderInfo.report_type h = Some (u "BALANCETE CONSOLIDADO"))
    /\ field_ok (fun v => strip v = v /\ forallb company_char v = true)
                (HeaderInfo.company h)
    /\ field_ok (fun v => has_shape (u "dd.ddd.ddd/dddd-dd") v = true) (HeaderInfo.cnpj h)
    /\ field_ok (fun v => digits v = true) (HeaderInfo.book_number h)
    /\ field_ok (fun v => has_shape (u "dd/dd/dddd - dd/dd/dddd") v = true)
                (HeaderInfo.period h)
    /\ field_ok (fun v => has_shape (u "dd/dd/dddd") v = true) (HeaderInfo.issue_date h)
    /\ field_ok (fun v => has_shape (u "dd:dd:dd") v = true) (HeaderInfo.time h).
Proof.
  destruct (extract_header_ok lower text) as [h [E H]]. exists h.
  split; [exact E | exact H].
Qed.

(** X23.  [extract_header] reads the first 25 lines only: what comes after
    the 25th line break of the text does not change the header. *)
Theorem balancete_header_reads_25_lines {U : Unicode} (lower : str -> str)
    (text more : str) :
  25 <= count_char 10 text ->
  BalanceteHeader.extract_header lower (text ++ more)
  = BalanceteHeader.extract_header lower text.
Proof.
  intros H. unfold BalanceteHeader.extract_header. cbv zeta.
  rewrite (firstn_split_on_app 10 text more H). reflexivity.
Qed.

(** The theorem at a text of 25 empty lines and a time after them. *)
Lemma balancete_header_reads_25_lines_witness :
  @BalanceteHeader.extract_header latin1 (fun s => s) (repeat 10%N 25 ++ u "Hora: 10:20:30")
  = @BalanceteHeader.extract_header latin1 (fun s => s) (repeat 10%N 25).
Proof.
  apply (@balancete_header_reads_25_lines latin1 (fun s => s) (repeat 10%N 25)
           (u "Hora: 10:20:30")).
  vm_compute. lia.
Defined.

(** X24.  [parse_balancete_pdf] never raises.  The records of a document
    are a prefix of the records of the document with more pages after it;
    once the text of the pages has 25 line breaks, more pages do not change
    the header; and the pages without a text change nothing. *)
Theorem balancete_document_grows {U : Unicode} (lower : str -> str)
    (pages more : list (option str)) :
  exists r r' rest,
    BalancetePdf.parse_balancete_pdf lower pages = Ok r
    /\ BalancetePdf.parse_balancete_pdf lower (pages ++ more) = Ok r'
    /\ BalancetePdf.data r' = BalancetePdf.data r ++ rest
    /\ (25 <= count_char 10 (BalancetePdf.all_text pages) ->
        BalancetePdf.header r' = BalancetePdf.header r)
    /\ BalancetePdf.parse_balancete_pdf lower (filter truthy pages) = Ok r.
Proof.
  unfold BalancetePdf.parse_balancete_pdf. cbv zeta.
  rewrite all_text_filter, all_text_app.
  destruct (extract_header_ok lower (BalancetePdf.all_text pages)) as [h [Eh _]].
  destruct (extract_header_ok lower
              (BalancetePdf.all_text pages ++ BalancetePdf.all_text more))
    as [h' [Eh' _]].
  destruct (extract_data_grows (BalancetePdf.all_text more) (all_text_ends pages))
    as [first [rest [Ed Ed']]].
  rewrite Eh, Eh', Ed, Ed'. cbn [bind].
  eexists. eexists. exists rest. split; [reflexivity |]. split; [reflexivity |].
  cbn [BalancetePdf.data BalancetePdf.header]. split; [reflexivity |].
  split; [| reflexivity].
  intros H. unfold BalanceteHeader.extract_header in Eh, Eh'. cbv zeta in Eh, Eh'.
  rewrite (firstn_split_on_app 10 _ _ H) in Eh'. rewrite Eh in Eh'.
  injection Eh' as ->. reflexivity.
Qed.
